(* ===== verification/_CoqProject ===== *)
-Q . S2P
Prelude.v
StateMachine.v
Platform.v
Drivers.v
GateController.v
CommandTracker.v
GrpcFraming.v
Ota.v
ControlClient.v
Transport.v
Firmware.v
VirtualGate.v
AllowlistStore.v
Float32.v
FusionEngine.v
EventBroadcaster.v
Grpc.v
RpcServices.v
ServerMain.v
EndToEnd.v
Causality.v
Inference.v
Preprocess.v
TrtEngine.v
Networks.v
Json.v
Vision.v
DashboardJson.v
Http.v
Camera.v
DashboardAuth.v
DashboardCache.v
Feedback.v
DashboardApi.v
SimClient.v
MockServer.v
Mains.v
