(* ===== verification/Prelude.v ===== *)
(** * A verification development of the ALPR-LiDAR gate automation system

    ** The system

    A gate is driven by a field controller (src/firmware, C++ on an ESP32):
    GPIO drivers feed limit-switch and safety-beam edges into an event queue;
    a pump task runs a state machine over the queue, executes its actions on
    two motor contactors and a status LED, arms a motion watchdog and an
    auto-close timer, and applies the reversal and retry policies.  A second
    task keeps a gRPC stream to the server: it sends telemetry and
    acknowledgements, receives commands, and may start an over-the-air
    update.  The server (src/server, C++) decides who may enter: a camera
    process turns frames into plate detections (inference, vision) and
    submits them over gRPC; the detection service asks a fusion engine, which
    combines plate and vehicle detections with a SQLite allowlist and
    blocklist, and publishes its verdict and the commands that follow on an
    event broadcaster, which carries them to the gates and the dashboards.
    The dashboard backend (src/dashboard/backend, C++ on Drogon) logs
    operators in, caches the event stream, feeds browsers over WebSocket and
    bridges HTTP requests to the server's RPCs.  The simulator
    (src/simulation) replaces the gate by a virtual one built on the
    firmware's own state machine and command tracker.

    ** Files, in dependency order

    - Prelude: machine-width integers with explicit wrap-around, C strings,
      bounded queues, the hint database and the tactics of the development.
    - StateMachine: gate_state_machine.  [handle] is the transition switch
      with its early returns, [init_closed], [init_open] and [init_unknown]
      the boot entry points.
    - Platform: the FreeRTOS queue and the esp_timer service, classes of
      operations with their documented laws and one executable instance each.
    - Drivers: gate_drivers.  Relay, LimitSwitch, SafetyBeam, StatusLed; pin
      writes are returned as a log, pin reads are arguments.
    - GateController: gate_control.  [pump_event] is one iteration of the
      pump task; [gc_do] interleaves it with the polls, the timer callbacks,
      the command entry points and the two phases of [start].
    - CommandTracker: gate_rpc/command_tracker.
    - GrpcFraming: gate_rpc/grpc_framing and the chunk loop of the client;
      every array access is checked.
    - Ota: gate_ota.  The manifest rules and the update attempt against an
      environment of outcomes for HTTP, JSON, flash, hash and signature.
    - ControlClient: gate_rpc/control_client and the dispatcher of
      main/main.cpp.  The client, one HTTP/2 session with its nghttp2
      callbacks, the session loop and the reconnect loop, over the outcomes of
      the transport.
    - Transport: the rest of control_client.cpp.  Address lookup, sockets, TLS
      and the HTTP/2 session as handles that can be leaked or used after their
      release ([None]), and the reconnect loop over them.
    - Firmware: gate_drivers/ethernet and the bring-up in main/main.cpp;
      [app_main] returns the log of its steps and the running board.
    - VirtualGate: simulation/virtual_gate.
    - AllowlistStore: server/auth.  SQL statements are operations on tables;
      an oracle decides how each statement ends, and a connection holds the
      file and the tables of an open transaction.
    - Float32: the binary32 arithmetic of the server's [float] values.
    - FusionEngine: server/fusion, against the interface [AuthStore].
    - EventBroadcaster: server/dash, split at its lock sections.
    - Grpc: status codes and results of a call, as server and clients share
      them.
    - RpcServices: server/rpc.  The field-controller, dashboard and admin
      services over the broadcaster, the store and the engine; [rpc_exec] is
      one step of any of their threads, [rpc_run] an interleaving.  The choice
      of TLS credentials and the start of the listener.
    - ServerMain: server/src/main.cpp.  [server_main] parses, opens the store,
      starts the listener and runs the threads up to the signal, through the
      broadcaster's stop, to the end of the drain.
    - Inference: server/inference.  Letterboxing, the YOLO head decoding,
      non-maximum suppression, CTC decoding and the composed pipeline, over
      the rows of the network's output.
    - Preprocess: how a frame and a crop are laid out in the input tensors of
      the networks: padding, channel order, planes.
    - TrtEngine: inference/trt_engine.  Engines, device buffers, streams and
      queued copies on a GPU whose calls may fail, in a state monad with
      exceptions and undefined behaviour; TensorRT is a class of operations.
    - Networks: the loading and running of the plate detector and the
      recogniser on their engines, joined with the decoding of Inference.
    - Json: JSON values as nlohmann and jsoncpp present them.
    - Vision: server/vision.  The scenario file parser, the replay source,
      the frame builder and the submitting client with its retries.
    - Camera: the camera frame source and the turn of the vision main loop,
      over the inference pipeline.
    - DashboardJson, Http, DashboardAuth, DashboardCache, DashboardApi:
      dashboard/backend.  The JSON mapping; the HTTP vocabulary and the
      request parsing helpers; passwords, tokens, the authentication filter
      and login; the event cache, the WebSocket feed and the event stream
      thread; the gRPC bridge and the controllers, composed with RpcServices.
    - SimClient: simulation/sim_client, over VirtualGate.
    - MockServer: simulation/mock_server_main, the stand-alone server: its
      bus, its registry of gate streams and its services, one label per lock
      section.
    - EndToEnd: RpcServices, ControlClient and GateController composed on the
      way of one command, from the decision to the acknowledgement.
    - Causality: any run of the server beside any run of a board (the client,
      the dispatcher and the controller, one label per step), and the accounts
      of what was energised, what obstructed and what was commanded.
    - Feedback: the way back, from the firmware's acknowledgement through
      RpcServices and DashboardCache to an operator's browser.
    - Mains: the entry points of the dashboard backend, the capture daemon,
      the simulator and the mock server.

    ** What the theorems show

    - StateMachine: a well-formedness invariant of every reachable machine;
      the switch implements a declarative table of rules; no motor drive
      closes the gate behind a blocked beam; the motor follows the state.
    - Drivers: the polled debounce refines a run-length counter, with exact
      latency; finite LED patterns end.
    - GateController, over every interleaving: the two contactors are never
      energised together, motion is watched, the beam latch tracks the
      sensor, boot resolution is exact, a beam break while closing reverses.
      Two theorems exhibit interleavings in which the code does not do what
      it intends.
    - CommandTracker, ControlClient, SimClient: one verdict per armed
      command; the deadline survives the clock wrap; over any history each
      command is acknowledged and completed exactly once.
    - GrpcFraming, ControlClient: the reassembly refines a byte-at-a-time
      parser for every chunking and never leaves its arrays; framing round
      trips; queued envelopes arrive in order; the reconnect delay doubles
      within its bounds.
    - Transport: whatever the network does, no descriptor, TLS context or
      session is leaked, used after its release or released twice; there is
      one connection at a time, and the client behaves as in ControlClient.
    - Firmware: a new image is confirmed exactly when the checked bring-up
      succeeded; the client's link flag follows the network's events.
    - Ota: only a verified image becomes bootable; a failed attempt leaves
      the boot slot alone.
    - VirtualGate: physical consistency, completion of an open command, and
      a simulation relation with the firmware controller.
    - AllowlistStore: upsert and lookup agree, upsert is atomic, removal is
      exact, paging visits every plate once, under every statement failure.
    - FusionEngine, Inference, Vision, Camera: the exact condition of an
      authorisation; CTC decoding equals its reference; the pipeline reports
      the best plates in order; accepted scenarios are well formed and
      replayed exactly; only unavailability is retried.
    - Preprocess: each element of a network's input is the pixel it should be,
      and the padding is where the decoders expect it.
    - TrtEngine, Networks: no handle is misused and nothing stays allocated
      whatever fails; a loaded network reads each image on its own, as the
      decoders' reference says.
    - EventBroadcaster: under every interleaving an open subscriber is
      offered each due event once; a reconnect replays exactly the gap.
    - RpcServices: every open command in the history has a cause; an
      authorised frame opens its gate; a lockdown holds until it is released;
      a gate's stream carries its own commands; administrative replies are
      true of the store; TLS is never downgraded.
    - EndToEnd: an authorised vehicle opens the barrier, from the decision of
      the server to the motor and the acknowledgement of the firmware.
    - Causality: over every run of server and board, the barrier opens only
      for an obstacle or for a command that an operator issued or a decision
      authorised.
    - Feedback: every attached operator is told of the opening.
    - ServerMain: after the signal nothing is published, every stream writes
      what was queued for it and ends within a bounded number of its turns.
    - Mains: a dashboard that was given a password hash never serves without
      authentication; the simulator's gate stays physically consistent.
    - MockServer: an acknowledged command was written to its gate's stream;
      each event feed is exact.
    - Dashboard files: the administrative surface refuses requests without a
      valid session; a posted command reaches the server as it was written; a
      posted allowlist entry is found; the cache refines the event history
      and a reconnect resumes exactly after it; stopping the stream returns;
      password checking and the lifetime of a session are exact.

    ** Conventions and bounds

    A w-bit integer is a [Z] and wraps where the code can leave the width.
    An undefined operation of the code (a write outside an array, popping an
    empty deque) is [None].  Callbacks that the code runs under one lock or
    to completion on one task are one step; everything else interleaves.
    A driver poll and the post of its edge are one step, as one esp_timer
    callback runs them; a timer's expiry is atomic with its post.  A call of
    an RPC service is one step of the server's history where its parts
    publish under the broadcaster's lock; streams interleave with calls.
    In Causality the dispatch of a received command and the arming of its
    tracker are one step: the gate does not depend on the tracker.
    Fields that record history ([attempted], [log], [sub_offered] and the
    like) are read by no operation.

    Fuel: the frame reassembly and chunk loops consume at least one byte per
    turn and get the length of the chunk; the flash read-back reads at least
    one byte per turn and gets the image length; the page walk gets one page
    per plate and one more; the camera's grab loop gets the number of its
    attempts; [apply_locked] recurses once, for the reversal, which cannot
    reverse again, and gets depth two.  The theorems cover these definitions
    as they stand, so running out is excluded or refuted there.

    ** Not modelled

    The network, TLS and HTTP/2 byte protocols, nanopb and protobuf codecs,
    SQLite's storage, cJSON, nlohmann and jsoncpp text parsing, Drogon, the
    gRPC library, JWT and PBKDF2, libsodium, OpenCV, TensorRT and the ESP-IDF:
    code outside the repository, entering as parameters, environments or
    interfaces (type classes with their documented laws).  Pixel resampling
    and the arithmetic of whole images are OpenCV's; Networks takes the bytes
    of an input tensor, which Preprocess lays out, as an argument.  The
    matching of command-line arguments is CLI11's: a main function gets the
    options that were found, and checks their dependencies as it declares
    them.  Logging has no effect on state.  The generated protobuf tables are
    data of the code generator.  Condition variables are not modelled: a
    blocked reader is one that has not run.  The web frontend, scripts and
    deployment files are out of scope. *)

From stdpp Require Export base gmap strings list fin_maps sets.
From Stdlib Require Export ZArith Lia.

Declare Scope gate_scope.
Delimit Scope gate_scope with gate.
Local Open Scope Z_scope.

(** ** Machine-width integers

    The firmware and the server use fixed-width unsigned integers; a value
    of width [w] is a [Z] and every operation that can leave the width wraps
    explicitly. *)

(** [static_cast<std::uint8_t>(z)] and the other unsigned conversions. *)
Definition u8 (z : Z) : Z := z mod 2 ^ 8.
Definition u16 (z : Z) : Z := z mod 2 ^ 16.
Definition u32 (z : Z) : Z := z mod 2 ^ 32.
Definition u64 (z : Z) : Z := z mod 2 ^ 64.

(** [static_cast<std::int32_t>(z)]: two's complement reading of the low 32
    bits. *)
Definition i32 (z : Z) : Z :=
  let r := u32 z in if Z.ltb r (2 ^ 31) then r else r - 2 ^ 32.

Lemma u32_range z : 0 <= u32 z < 2 ^ 32.
Proof. unfold u32. apply Z.mod_pos_bound. lia. Qed.

Lemma u8_range z : 0 <= u8 z < 2 ^ 8.
Proof. unfold u8. apply Z.mod_pos_bound. lia. Qed.

Lemma u32_small z : 0 <= z < 2 ^ 32 -> u32 z = z.
Proof. unfold u32. intros. by apply Z.mod_small. Qed.

Lemma u8_small z : 0 <= z < 2 ^ 8 -> u8 z = z.
Proof. unfold u8. intros. by apply Z.mod_small. Qed.

Lemma u64_small z : 0 <= z < 2 ^ 64 -> u64 z = z.
Proof. unfold u64. intros. by apply Z.mod_small. Qed.

(** The wrap-safe comparison idiom [static_cast<int32_t>(a - b) < 0]: for
    two clock readings less than half the range apart it is the true
    comparison of the unwrapped times. *)
Lemma i32_sub_wrapped a b :
  - 2 ^ 31 <= a - b < 2 ^ 31 -> i32 (u32 a - u32 b) = a - b.
Proof.
  intros H. unfold i32, u32.
  rewrite <- Zminus_mod.
  destruct (decide (0 <= a - b)) as [Hp | Hn].
  - rewrite Z.mod_small by lia.
    destruct (Z.ltb_spec (a - b) (2 ^ 31)); lia.
  - replace ((a - b) mod 2 ^ 32) with (a - b + 2 ^ 32).
    + destruct (Z.ltb_spec (a - b + 2 ^ 32) (2 ^ 31)); lia.
    + apply Z.mod_unique with (-1); lia.
Qed.

(** Bits above and below a shift do not meet. *)
Lemma lor_shiftl_add x y k :
  0 <= k -> 0 <= y < 2 ^ k -> Z.lor (Z.shiftl x k) y = x * 2 ^ k + y.
Proof.
  intros Hk Hy. rewrite <- Z.shiftl_mul_pow2 by done.
  rewrite <- Z.lxor_lor, <- Z.add_nocarry_lxor; [done | |];
    apply Z.bits_inj'; intros n Hn; rewrite Z.land_spec, Z.bits_0, Z.shiftl_spec by done.
  all: destruct (decide (n < k)); [rewrite Z.testbit_neg_r by lia; done|].
  all: rewrite <- (Z.mod_small y (2 ^ k)), Z.mod_pow2_bits_high by lia.
  all: by rewrite andb_false_r.
Qed.

(** ** C strings

    A [const char*] argument is the string of its bytes; the routines stop at
    the first NUL as the C library does. *)

Definition nul : Ascii.ascii := Ascii.zero.

(** [strnlen(s, n)]. *)
Fixpoint strnlen (s : string) (n : nat) : nat :=
  match n, s with
  | O, _ => O
  | _, EmptyString => O
  | S n', String c s' => if Ascii.eqb c nul then O else S (strnlen s' n')
  end.

Fixpoint string_take (n : nat) (s : string) : string :=
  match n, s with
  | O, _ => EmptyString
  | _, EmptyString => EmptyString
  | S n', String c s' => String c (string_take n' s')
  end.

(** The text after the first [n] characters. *)
Fixpoint string_drop (n : nat) (s : string) : string :=
  match n, s with
  | O, _ => s
  | _, EmptyString => EmptyString
  | S n, String _ s => string_drop n s
  end.

(** The idiom [n = strnlen(src, cap - 1); memcpy(dst, src, n); dst[n] = 0]:
    the C string that a [char dst[cap]] holds afterwards. *)
Definition cstr_copy (cap : nat) (src : string) : string :=
  string_take (strnlen src (cap - 1)) src.

(** [std::strcmp(a, b) == 0] and [std::strncmp(s, p, strlen(p)) == 0] on
    NUL-free strings. *)
Fixpoint string_prefixb (p s : string) : bool :=
  match p, s with
  | EmptyString, _ => true
  | String a p', String b s' => Ascii.eqb a b && string_prefixb p' s'
  | String _ _, EmptyString => false
  end.

Fixpoint nul_free (s : string) : bool :=
  match s with
  | EmptyString => true
  | String c s' => negb (Ascii.eqb c nul) && nul_free s'
  end.

Lemma strnlen_le s n : (strnlen s n <= n)%nat.
Proof.
  revert n. induction s as [|c s IH]; intros [|n]; simpl; try lia.
  destruct (Ascii.eqb c nul); [lia|]. specialize (IH n). lia.
Qed.

Lemma length_string_take n s : (String.length (string_take n s) <= n)%nat.
Proof.
  revert s. induction n as [|n IH]; intros [|c s]; simpl; try lia.
  specialize (IH s). lia.
Qed.

Lemma length_cstr_copy cap s :
  (0 < cap)%nat -> (String.length (cstr_copy cap s) < cap)%nat.
Proof.
  intros. unfold cstr_copy.
  pose proof (length_string_take (strnlen s (cap - 1)) s).
  pose proof (strnlen_le s (cap - 1)). lia.
Qed.

Lemma cstr_copy_fits cap s :
  nul_free s = true -> (String.length s < cap)%nat -> cstr_copy cap s = s.
Proof.
  unfold cstr_copy. intros Hn Hl.
  assert (Hk : forall s k, nul_free s = true -> (String.length s <= k)%nat ->
                      string_take (strnlen s k) s = s).
  { clear. induction s as [|c s IH]; intros [|k] Hn Hl; simpl in *; try done; try lia.
    apply andb_prop in Hn as [Hc Hn]. apply negb_true_iff in Hc. rewrite Hc.
    simpl. f_equal. apply IH; [done | lia]. }
  apply Hk; [done | lia].
Qed.

Lemma nul_free_cstr_copy cap s : nul_free (cstr_copy cap s) = true.
Proof.
  unfold cstr_copy. generalize (cap - 1)%nat as k. induction s as [|c s IH]; intros [|k]; try done.
  simpl. destruct (Ascii.eqb c nul) eqn:E; [done|]. simpl. by rewrite E, IH.
Qed.

Lemma cstr_copy_idemp cap s :
  (0 < cap)%nat -> cstr_copy cap (cstr_copy cap s) = cstr_copy cap s.
Proof. intros. apply cstr_copy_fits; [apply nul_free_cstr_copy | by apply length_cstr_copy]. Qed.

(** Concatenation of strings. *)
Lemma sapp_nil_r (s : string) : s +:+ "" = s.
Proof. induction s as [|c s IH]; [done|]. change (String c (s +:+ "") = String c s). by rewrite IH. Qed.

Lemma length_sapp (a b : string) :
  String.length (a +:+ b) = (String.length a + String.length b)%nat.
Proof.
  induction a as [|x a IH]; [done|].
  change (S (String.length (a +:+ b)) = S (String.length a + String.length b)). by rewrite IH.
Qed.

Lemma nul_free_sapp a b : nul_free (a +:+ b) = nul_free a && nul_free b.
Proof.
  induction a as [|x a IH]; [done|].
  change (negb (Ascii.eqb x nul) && nul_free (a +:+ b) = negb (Ascii.eqb x nul) && nul_free a && nul_free b).
  by rewrite IH, andb_assoc.
Qed.

Lemma sapp_assoc (a b c : string) : a +:+ (b +:+ c) = (a +:+ b) +:+ c.
Proof.
  induction a as [|x a IH]; [done|].
  change (String x (a +:+ (b +:+ c)) = String x ((a +:+ b) +:+ c)). by rewrite IH.
Qed.

(** ** Code that throws

    [Ok] is a normal return, [Err] a thrown exception with its message, [UB]
    an operation the language does not define. *)

Inductive Res (A : Type) := Ok (a : A) | Err (what : string) | UB.
Arguments Ok {A} _.
Arguments Err {A} _.
Arguments UB {A}.

Definition res_bind {A B} (m : Res A) (k : A -> Res B) : Res B :=
  match m with Ok a => k a | Err e => Err e | UB => UB end.

Notation "'do!' x := m 'in' k" := (res_bind m (fun x => k))
  (at level 200, x pattern, m at level 100, k at level 200) : gate_scope.

Lemma res_bind_Ok {A B} (m : Res A) (k : A -> Res B) b :
  res_bind m k = Ok b <-> exists a, m = Ok a /\ k a = Ok b.
Proof. destruct m; cbn; naive_solver. Qed.

(** A loop that stops at the first exception. *)
Fixpoint res_map {A B} (f : nat -> A -> Res B) (i : nat) (l : list A) : Res (list B) :=
  match l with
  | [] => Ok []
  | x :: l => res_bind (f i x) (fun y => res_bind (res_map f (S i) l) (fun ys => Ok (y :: ys)))
  end.

Lemma res_map_Ok {A B} (f : nat -> A -> Res B) i l ys :
  res_map f i l = Ok ys ->
  Forall2 (fun x y => exists j, f j x = Ok y) l ys.
Proof.
  revert i ys. induction l as [|x l IH]; intros i ys H; cbn [res_map] in H.
  { injection H as <-. constructor. }
  apply res_bind_Ok in H as (y & Hy & H). apply res_bind_Ok in H as (ys' & Hys & H).
  injection H as <-. constructor; [by exists i | by eapply IH].
Qed.

(** ** Bounded pushes

    A deque that drops its oldest element when it is full; shared by the
    replay rings and the subscriber queues. *)

Definition last_n {A} (n : nat) (l : list A) : list A :=
  drop (length l - n) l.

Lemma length_last_n {A} n (l : list A) :
  length (last_n n l) = Nat.min n (length l).
Proof. unfold last_n. rewrite length_drop. lia. Qed.

Lemma last_n_all {A} n (l : list A) : (length l <= n)%nat -> last_n n l = l.
Proof. intros H. unfold last_n. replace (length l - n)%nat with O by lia. done. Qed.

Lemma last_n_snoc {A} n (l : list A) x :
  (0 < n)%nat -> last_n n (l ++ [x]) = last_n (n - 1) l ++ [x].
Proof.
  intros Hn. unfold last_n. rewrite length_app. simpl.
  destruct (decide (n - 1 <= length l)%nat) as [Hle | Hgt].
  - replace (length l + 1 - n)%nat with (length l - (n - 1))%nat by lia.
    rewrite drop_app_le by lia. done.
  - replace (length l + 1 - n)%nat with O by lia.
    replace (length l - (n - 1))%nat with O by lia. done.
Qed.

Lemma last_n_snoc_full {A} n (l : list A) x :
  (0 < n)%nat -> length l = n -> last_n n (l ++ [x]) = drop 1 l ++ [x].
Proof.
  intros Hn Hl. rewrite last_n_snoc by done. f_equal.
  unfold last_n. f_equal. lia.
Qed.

Lemma last_n_snoc_idemp {A} n (l : list A) x :
  (0 < n)%nat -> last_n n (last_n n l ++ [x]) = last_n n (l ++ [x]).
Proof.
  intros Hn. rewrite !last_n_snoc by done. f_equal.
  unfold last_n. rewrite length_drop, drop_drop. f_equal. lia.
Qed.

(** A prefix of a list extended by one element. *)
Lemma take_snoc_cases {A} n (l : list A) x :
  take n (l ++ [x]) = take n l \/ take n (l ++ [x]) = l ++ [x].
Proof.
  destruct (decide (n <= length l)%nat).
  - left. by rewrite take_app_le.
  - right. apply take_ge. rewrite length_app. simpl. lia.
Qed.

(** ** Tactics and hints of the development *)

Create HintDb gate.
Create Rewrite HintDb gate.
#[export] Hint Resolve u8_range u32_range length_cstr_copy strnlen_le : gate.
#[export] Hint Rewrite @length_last_n @length_app @length_insert : gate.

(** Split every conjunction and disjunction-free record of facts in the
    context, then close what congruence and arithmetic close. *)
Ltac crush :=
  repeat (simplify_eq/= || destruct_and? ); try done; try lia; eauto with gate.

(** Case on every [decide], [if] and [match] scrutinee of the goal. *)
Ltac split_cases :=
  repeat (case_decide || case_match || (simplify_eq/=)); try done.
