(* ===== verification/StateMachine.v ===== *)
(** The gate state machine of the firmware
    (src/firmware/components/gate_state_machine).  States, events, actions
    and reasons are the enums of state_machine.hpp; [handle] is the flat
    transition switch of state_machine.cpp with its early returns, threading
    the machine's private state explicitly. *)

From S2P Require Import Prelude.

Inductive State :=
| Initializing | Closed | Opening | Open | Closing | StoppedOpen | StoppedClose | Faulted.

Inductive Event :=
| CommandOpen | CommandClose | CommandStop
| LimitOpenHit | LimitOpenReleased | LimitClosedHit | LimitClosedReleased
| SafetyBeamTripped | SafetyBeamCleared | MotorTimeout | FaultCleared.

Inductive Action :=
| ActNone | DriveMotorOpen | DriveMotorClose | StopMotor
| SetLedClosed | SetLedOpening | SetLedOpen | SetLedClosing | SetLedStopped | SetLedFault
| EmitTelemetryStateChanged.

Inductive Reason :=
| ReasonNone | OperatorStop | SafetyBeamObstacle | ReasonMotorTimeout
| LimitSwitchConflict | UnexpectedEvent.

Inductive GateType := Sliding | DualLeaf.

#[export] Instance State_eq_dec : EqDecision State.
Proof. solve_decision. Defined.
#[export] Instance Event_eq_dec : EqDecision Event.
Proof. solve_decision. Defined.
#[export] Instance Action_eq_dec : EqDecision Action.
Proof. solve_decision. Defined.
#[export] Instance Reason_eq_dec : EqDecision Reason.
Proof. solve_decision. Defined.

(** [constexpr std::size_t kMaxActionsPerStep = 3]. *)
Definition kMaxActionsPerStep : nat := 3.

(** [struct Outputs]: a fixed array of [kMaxActionsPerStep] actions of which
    the first [count] are valid. *)
Record Outputs := mkOutputs {
  actions : list Action;
  count : nat;
  new_state : State;
  transitioned : bool;
  out_reason : Reason;
}.

(** [Outputs o{};]. *)
Definition Outputs_init : Outputs :=
  mkOutputs (replicate kMaxActionsPerStep ActNone) 0 Initializing false ReasonNone.

Record Config := mkConfig {
  gate_type : GateType;
  motor_timeout_ms : Z;
  auto_close_ms : Z;
}.

Definition Config_default : Config := mkConfig Sliding 30000 0.

(** [class StateMachine]: its private members. *)
Record StateMachine := mkSM {
  cfg_ : Config;
  state_ : State;
  reason_ : Reason;
  beam_clear_ : bool;
}.

(** The constructor, with the members' default initialisers. *)
Definition StateMachine_new (cfg : Config) : StateMachine :=
  mkSM cfg Initializing ReasonNone true.

(** Assignments to single members. *)
Definition set_state (s : State) (m : StateMachine) : StateMachine :=
  mkSM (cfg_ m) s (reason_ m) (beam_clear_ m).
Definition set_reason (r : Reason) (m : StateMachine) : StateMachine :=
  mkSM (cfg_ m) (state_ m) r (beam_clear_ m).
Definition set_beam_clear (b : bool) (m : StateMachine) : StateMachine :=
  mkSM (cfg_ m) (state_ m) (reason_ m) b.
Definition set_new_state (s : State) (o : Outputs) : Outputs :=
  mkOutputs (actions o) (count o) s (transitioned o) (out_reason o).
Definition set_transitioned (b : bool) (o : Outputs) : Outputs :=
  mkOutputs (actions o) (count o) (new_state o) b (out_reason o).
Definition set_out_reason (r : Reason) (o : Outputs) : Outputs :=
  mkOutputs (actions o) (count o) (new_state o) (transitioned o) r.

(** [push]: append an action unless the array is full. *)
Definition push (o : Outputs) (a : Action) : Outputs :=
  if decide (count o < kMaxActionsPerStep)%nat
  then mkOutputs (<[count o := a]> (actions o)) (S (count o))
         (new_state o) (transitioned o) (out_reason o)
  else o.

(** The valid prefix of the action array, in execution order. *)
Definition emitted (o : Outputs) : list Action := take (count o) (actions o).

(** Every transition of the source assigns [o.new_state = state_] and
    [o.transitioned = true] and then pushes its actions. *)
Definition transition (m : StateMachine) (o : Outputs) (acts : list Action)
    : StateMachine * Outputs :=
  (m, foldl push (set_transitioned true (set_new_state (state_ m) o)) acts).

(** The same with [o.reason = reason_] as well. *)
Definition transition_with_reason (m : StateMachine) (o : Outputs) (acts : list Action)
    : StateMachine * Outputs :=
  transition m (set_out_reason (reason_ m) o) acts.

(** Boot-time position resolution. *)
Definition init_closed (m : StateMachine) : StateMachine * Outputs :=
  let m := set_reason ReasonNone (set_state Closed m) in
  transition m Outputs_init [StopMotor; SetLedClosed; EmitTelemetryStateChanged].

Definition init_open (m : StateMachine) : StateMachine * Outputs :=
  let m := set_reason ReasonNone (set_state Open m) in
  transition m Outputs_init [StopMotor; SetLedOpen; EmitTelemetryStateChanged].

Definition init_unknown (m : StateMachine) : StateMachine * Outputs :=
  let m := set_reason LimitSwitchConflict (set_state Faulted m) in
  transition_with_reason m Outputs_init [StopMotor; SetLedFault; EmitTelemetryStateChanged].

(** [StateMachine::handle]. *)
Definition handle (m : StateMachine) (ev : Event) : StateMachine * Outputs :=
  let o := set_new_state (state_ m) Outputs_init in
  (* beam latch, tracked regardless of state *)
  let m :=
    if decide (ev = SafetyBeamTripped) then set_beam_clear false m
    else if decide (ev = SafetyBeamCleared) then set_beam_clear true m
    else m in
  if decide (ev = CommandStop) then
    if decide (state_ m = Opening) then
      transition_with_reason (set_reason OperatorStop (set_state StoppedOpen m)) o
        [StopMotor; SetLedStopped; EmitTelemetryStateChanged]
    else if decide (state_ m = Closing) then
      transition_with_reason (set_reason OperatorStop (set_state StoppedClose m)) o
        [StopMotor; SetLedStopped; EmitTelemetryStateChanged]
    else (m, o)
  else if decide (ev = FaultCleared) then
    if decide (state_ m <> Faulted) then (m, o)
    else
      transition (set_reason ReasonNone (set_state Initializing m)) o
        [EmitTelemetryStateChanged]
  else if decide (ev = MotorTimeout) then
    if decide (state_ m = Opening \/ state_ m = Closing) then
      transition_with_reason (set_reason ReasonMotorTimeout (set_state Faulted m)) o
        [StopMotor; SetLedFault; EmitTelemetryStateChanged]
    else (m, o)
  else
    match state_ m with
    | Closed =>
        if decide (ev = CommandOpen) then
          transition (set_state Opening m) o
            [DriveMotorOpen; SetLedOpening; EmitTelemetryStateChanged]
        else (m, o)
    | Opening =>
        if decide (ev = LimitOpenHit) then
          transition (set_state Open m) o
            [StopMotor; SetLedOpen; EmitTelemetryStateChanged]
        else (m, o)
    | Open =>
        if decide (ev = CommandClose) then
          if negb (beam_clear_ m) then
            (m, set_out_reason SafetyBeamObstacle (push o EmitTelemetryStateChanged))
          else
            transition (set_state Closing m) o
              [DriveMotorClose; SetLedClosing; EmitTelemetryStateChanged]
        else (m, o)
    | Closing =>
        if decide (ev = LimitClosedHit) then
          transition (set_state Closed m) o
            [StopMotor; SetLedClosed; EmitTelemetryStateChanged]
        else if decide (ev = SafetyBeamTripped) then
          transition_with_reason (set_reason SafetyBeamObstacle (set_state StoppedClose m)) o
            [StopMotor; SetLedStopped; EmitTelemetryStateChanged]
        else (m, o)
    | StoppedOpen =>
        if decide (ev = CommandOpen) then
          transition (set_reason ReasonNone (set_state Opening m)) o
            [DriveMotorOpen; SetLedOpening; EmitTelemetryStateChanged]
        else if decide (ev = CommandClose /\ beam_clear_ m = true) then
          transition (set_reason ReasonNone (set_state Closing m)) o
            [DriveMotorClose; SetLedClosing; EmitTelemetryStateChanged]
        else (m, o)
    | StoppedClose =>
        if decide (ev = CommandOpen) then
          transition (set_reason ReasonNone (set_state Opening m)) o
            [DriveMotorOpen; SetLedOpening; EmitTelemetryStateChanged]
        else if decide (ev = CommandClose /\ beam_clear_ m = true) then
          transition (set_reason ReasonNone (set_state Closing m)) o
            [DriveMotorClose; SetLedClosing; EmitTelemetryStateChanged]
        else (m, o)
    | Faulted | Initializing => (m, o)
    end.

(** [to_string] for the four enums, and the integer values of the enums
    (stable, serialised to telemetry). *)
Definition State_to_string (s : State) : string :=
  match s with
  | Initializing => "Initializing" | Closed => "Closed" | Opening => "Opening"
  | Open => "Open" | Closing => "Closing" | StoppedOpen => "StoppedOpen"
  | StoppedClose => "StoppedClose" | Faulted => "Faulted"
  end.

Definition Event_to_string (e : Event) : string :=
  match e with
  | CommandOpen => "CommandOpen" | CommandClose => "CommandClose"
  | CommandStop => "CommandStop" | LimitOpenHit => "LimitOpenHit"
  | LimitOpenReleased => "LimitOpenReleased" | LimitClosedHit => "LimitClosedHit"
  | LimitClosedReleased => "LimitClosedReleased"
  | SafetyBeamTripped => "SafetyBeamTripped" | SafetyBeamCleared => "SafetyBeamCleared"
  | MotorTimeout => "MotorTimeout" | FaultCleared => "FaultCleared"
  end.

Definition Action_to_string (a : Action) : string :=
  match a with
  | ActNone => "None" | DriveMotorOpen => "DriveMotorOpen"
  | DriveMotorClose => "DriveMotorClose" | StopMotor => "StopMotor"
  | SetLedClosed => "SetLedClosed" | SetLedOpening => "SetLedOpening"
  | SetLedOpen => "SetLedOpen" | SetLedClosing => "SetLedClosing"
  | SetLedStopped => "SetLedStopped" | SetLedFault => "SetLedFault"
  | EmitTelemetryStateChanged => "EmitTelemetryStateChanged"
  end.

Definition Reason_to_string (r : Reason) : string :=
  match r with
  | ReasonNone => "None" | OperatorStop => "OperatorStop"
  | SafetyBeamObstacle => "SafetyBeamObstacle" | ReasonMotorTimeout => "MotorTimeout"
  | LimitSwitchConflict => "LimitSwitchConflict" | UnexpectedEvent => "UnexpectedEvent"
  end.

(** ** Predicates used by the specifications *)

Definition moving (s : State) : bool :=
  match s with Opening | Closing => true | _ => false end.

Definition halted_with_cause (s : State) : bool :=
  match s with StoppedOpen | StoppedClose | Faulted => true | _ => false end.

(** One call into the machine: an event or one of the three [init_*]
    entry points. *)
Inductive Call := CallEvent (ev : Event) | CallInitClosed | CallInitOpen | CallInitUnknown.

Definition call (m : StateMachine) (c : Call) : StateMachine * Outputs :=
  match c with
  | CallEvent ev => handle m ev
  | CallInitClosed => init_closed m
  | CallInitOpen => init_open m
  | CallInitUnknown => init_unknown m
  end.

(** The machine as a labelled transition system. *)
Inductive sm_step : StateMachine -> Call -> Outputs -> StateMachine -> Prop :=
| sm_step_call m c m' o : call m c = (m', o) -> sm_step m c o m'.

Inductive sm_reachable (cfg : Config) : StateMachine -> Prop :=
| sm_reach_new : sm_reachable cfg (StateMachine_new cfg)
| sm_reach_step m c o m' :
    sm_reachable cfg m -> sm_step m c o m' -> sm_reachable cfg m'.

(** The invariant of the machine: the recorded reason is set exactly while
    the gate is halted for a cause, and the gate is never closing over an
    obstructed beam. *)
Definition sm_inv (m : StateMachine) : Prop :=
  (reason_ m = ReasonNone <-> halted_with_cause (state_ m) = false) /\
  (state_ m = Closing -> beam_clear_ m = true).

(** ** The contract of the machine towards the motor

    The abstract motor the actions drive; the driver layer and the simulator
    both implement it. *)
Inductive Motor := MotorOff | MotorOpen | MotorClose.

Definition motor_action (mt : Motor) (a : Action) : Motor :=
  match a with
  | DriveMotorOpen => MotorOpen
  | DriveMotorClose => MotorClose
  | StopMotor => MotorOff
  | _ => mt
  end.

Definition motor_actions (mt : Motor) (l : list Action) : Motor :=
  foldl motor_action mt l.

(** What the motor does in each state. *)
Definition motor_of (s : State) : Motor :=
  match s with Opening => MotorOpen | Closing => MotorClose | _ => MotorOff end.

(** The declarative transition relation of the gate: one rule per arrow, with
    the beam status after the event, the reason reported and the actions. *)
Inductive gate_rule : State -> Event -> bool -> State -> Reason -> list Action -> Prop :=
| rule_stop_opening b : gate_rule Opening CommandStop b StoppedOpen OperatorStop
    [StopMotor; SetLedStopped; EmitTelemetryStateChanged]
| rule_stop_closing b : gate_rule Closing CommandStop b StoppedClose OperatorStop
    [StopMotor; SetLedStopped; EmitTelemetryStateChanged]
| rule_fault_cleared b : gate_rule Faulted FaultCleared b Initializing ReasonNone
    [EmitTelemetryStateChanged]
| rule_timeout s b : moving s = true -> gate_rule s MotorTimeout b Faulted ReasonMotorTimeout
    [StopMotor; SetLedFault; EmitTelemetryStateChanged]
| rule_open s b : s = Closed \/ s = StoppedOpen \/ s = StoppedClose ->
    gate_rule s CommandOpen b Opening ReasonNone
    [DriveMotorOpen; SetLedOpening; EmitTelemetryStateChanged]
| rule_opened b : gate_rule Opening LimitOpenHit b Open ReasonNone
    [StopMotor; SetLedOpen; EmitTelemetryStateChanged]
| rule_close s : s = Open \/ s = StoppedOpen \/ s = StoppedClose ->
    gate_rule s CommandClose true Closing ReasonNone
    [DriveMotorClose; SetLedClosing; EmitTelemetryStateChanged]
| rule_closed b : gate_rule Closing LimitClosedHit b Closed ReasonNone
    [StopMotor; SetLedClosed; EmitTelemetryStateChanged]
| rule_obstacle : gate_rule Closing SafetyBeamTripped false StoppedClose SafetyBeamObstacle
    [StopMotor; SetLedStopped; EmitTelemetryStateChanged].

(** The beam latch after an event. *)
Definition latch (b : bool) (ev : Event) : bool :=
  match ev with SafetyBeamTripped => false | SafetyBeamCleared => true | _ => b end.

Fixpoint run_events (m : StateMachine) (evs : list Event) : StateMachine * list Action :=
  match evs with
  | [] => (m, [])
  | ev :: evs =>
      let '(m1, o) := handle m ev in
      let '(m2, acts) := run_events m1 evs in (m2, emitted o ++ acts)
  end.

(** ** Lemmas *)

(** Non-membership in a list that evaluates to a literal. *)
Ltac closed_notin := apply (bool_decide_unpack _); vm_compute; exact I.

(** Evaluate one call on every machine state. *)
Ltac sm_eval m :=
  let c := fresh "c" in let s := fresh "s" in let r := fresh "r" in let b := fresh "b" in
  destruct m as [c s r b]; destruct s, b.

Lemma handle_latch m ev : beam_clear_ (handle m ev).1 = latch (beam_clear_ m) ev.
Proof. sm_eval m; destruct ev; reflexivity. Qed.

Lemma handle_new_state m ev : new_state (handle m ev).2 = state_ (handle m ev).1.
Proof. sm_eval m; destruct ev; reflexivity. Qed.

Lemma handle_untransitioned m ev :
  transitioned (handle m ev).2 = false ->
  state_ (handle m ev).1 = state_ m /\ reason_ (handle m ev).1 = reason_ m.
Proof. sm_eval m; destruct ev; (discriminate || by split). Qed.

Lemma handle_config m ev : cfg_ (handle m ev).1 = cfg_ m.
Proof. sm_eval m; destruct ev; reflexivity. Qed.

Lemma handle_motor m ev :
  motor_actions (motor_of (state_ m)) (emitted (handle m ev).2)
  = motor_of (state_ (handle m ev).1).
Proof. sm_eval m; destruct ev; reflexivity. Qed.

Lemma call_motor m c :
  motor_actions (motor_of (state_ m)) (emitted (call m c).2)
  = motor_of (state_ (call m c).1).
Proof. destruct c as [ev| | |]; [apply handle_motor | reflexivity..]. Qed.

Lemma call_new_state m c : new_state (call m c).2 = state_ (call m c).1.
Proof. destruct c as [ev| | |]; [apply handle_new_state | reflexivity..]. Qed.

Lemma sm_inv_new cfg : sm_inv (StateMachine_new cfg).
Proof. split; [done | discriminate]. Qed.

Lemma handle_inv m ev : sm_inv m -> sm_inv (handle m ev).1.
Proof.
  intros [Hr Hb].
  sm_eval m; simpl in Hr, Hb;
    try (by discriminate (Hb eq_refl));
    destruct ev; split; simpl; try done;
    first [ by intros; apply Hr | by intros; discriminate | done ].
Qed.

Lemma call_inv m c : sm_inv m -> sm_inv (call m c).1.
Proof.
  destruct c as [ev| | |]; [apply handle_inv | ..]; intros _; split; simpl; done.
Qed.

Lemma reachable_inv cfg m : sm_reachable cfg m -> sm_inv m.
Proof.
  induction 1 as [|m c o m' _ IH Hstep]; [apply sm_inv_new|].
  inversion Hstep as [? ? ? ? Hc]; subst.
  pose proof (call_inv m c IH) as H. by rewrite Hc in H.
Qed.

(** The array never overflows: pushing three actions on a fresh [Outputs]
    keeps them all. *)
Lemma push_list acts o :
  length (actions o) = kMaxActionsPerStep -> (count o + length acts <= kMaxActionsPerStep)%nat ->
  emitted (foldl push o acts) = emitted o ++ acts /\
  length (actions (foldl push o acts)) = kMaxActionsPerStep /\
  count (foldl push o acts) = (count o + length acts)%nat.
Proof.
  revert o. induction acts as [|a acts IH]; intros o Hl Hc.
  { simpl. rewrite app_nil_r. auto. }
  simpl in *. unfold push at 2 4 6. rewrite decide_True by lia.
  destruct (IH (mkOutputs (<[count o:=a]> (actions o)) (S (count o)) (new_state o)
                  (transitioned o) (out_reason o))) as (He & Hl' & Hc').
  - simpl. by rewrite length_insert.
  - simpl. lia.
  - rewrite He, Hl', Hc'. split_and!; [|done|simpl; lia].
    unfold emitted. simpl.
    rewrite (take_S_r _ _ a) by (rewrite list_lookup_insert_eq; [done|lia]).
    rewrite take_insert_ge by lia. by rewrite <- app_assoc.
Qed.

Lemma handle_rules_sound m ev :
  transitioned (handle m ev).2 = true ->
  gate_rule (state_ m) ev (latch (beam_clear_ m) ev)
    (state_ (handle m ev).1) (out_reason (handle m ev).2) (emitted (handle m ev).2).
Proof.
  sm_eval m; destruct ev; simpl; try discriminate; intros _;
    try constructor; simpl; auto.
Qed.

Lemma handle_rules_complete m ev s' r acts :
  gate_rule (state_ m) ev (latch (beam_clear_ m) ev) s' r acts ->
  transitioned (handle m ev).2 = true /\ state_ (handle m ev).1 = s' /\
  out_reason (handle m ev).2 = r /\ emitted (handle m ev).2 = acts.
Proof.
  sm_eval m; simpl; intros H; inversion H; subst; simpl in *; naive_solver.
Qed.

Lemma run_events_blocked m evs :
  beam_clear_ m = false -> state_ m <> Closing -> SafetyBeamCleared ∉ evs ->
  state_ (run_events m evs).1 <> Closing /\ DriveMotorClose ∉ (run_events m evs).2.
Proof.
  revert m. induction evs as [|ev evs IH]; intros m Hb Hs Hn; simpl.
  { split; [done | set_solver]. }
  assert (Hstep : beam_clear_ (handle m ev).1 = false /\ state_ (handle m ev).1 <> Closing /\
                  DriveMotorClose ∉ emitted (handle m ev).2).
  { sm_eval m; simpl in Hb, Hs; try done;
      destruct ev; try (by destruct Hn; left);
      (split_and!; [done | done | closed_notin]). }
  destruct Hstep as (Hb' & Hs' & Ha).
  destruct (handle m ev) as [m1 o]. simpl in *.
  specialize (IH m1 Hb' Hs' ltac:(set_solver)).
  destruct (run_events m1 evs) as [m2 acts]. simpl in *.
  split; [naive_solver | set_solver].
Qed.

Lemma run_events_motionless m evs :
  state_ m = Faulted \/ state_ m = Initializing ->
  (state_ (run_events m evs).1 = Faulted \/ state_ (run_events m evs).1 = Initializing) /\
  DriveMotorOpen ∉ (run_events m evs).2 /\ DriveMotorClose ∉ (run_events m evs).2.
Proof.
  revert m. induction evs as [|ev evs IH]; intros m Hs; simpl.
  { split; [done | set_solver]. }
  assert (Hstep : (state_ (handle m ev).1 = Faulted \/ state_ (handle m ev).1 = Initializing) /\
                  DriveMotorOpen ∉ emitted (handle m ev).2 /\
                  DriveMotorClose ∉ emitted (handle m ev).2).
  { sm_eval m; simpl in Hs; try (by destruct Hs);
      destruct ev; (split_and!; [auto | closed_notin | closed_notin]). }
  destruct Hstep as (Hs' & Ho & Hc).
  destruct (handle m ev) as [m1 o]. simpl in *.
  specialize (IH m1 Hs').
  destruct (run_events m1 evs) as [m2 acts]. simpl in *.
  split; [naive_solver | set_solver].
Qed.

(** ** Properties *)

(** In every machine reachable from the constructor through any sequence
    of events and [init_*] calls, the recorded reason is set exactly in the
    stopped and faulted states, and the gate is never closing while the
    safety-beam latch says obstructed. *)
Theorem reachable_machine_safe cfg m (H : sm_reachable cfg m) :
  (reason_ m = ReasonNone <-> halted_with_cause (state_ m) = false) /\
  (state_ m = Closing -> beam_clear_ m = true).
Proof. exact (reachable_inv cfg m H). Qed.

Lemma reachable_machine_safe_witness :
  let m := (handle (init_open (StateMachine_new Config_default)).1 CommandClose).1 in
  state_ m = Closing /\ beam_clear_ m = true.
Proof.
  split; [reflexivity|].
  refine (proj2 (reachable_machine_safe Config_default _ _) _); [|reflexivity].
  apply (sm_reach_step _ (init_open (StateMachine_new Config_default)).1 (CallEvent CommandClose)
           (handle (init_open (StateMachine_new Config_default)).1 CommandClose).2).
  - apply (sm_reach_step _ (StateMachine_new Config_default) CallInitOpen
             (init_open (StateMachine_new Config_default)).2).
    + constructor.
    + constructor. reflexivity.
  - constructor. reflexivity.
Defined.


(** C5: Once the beam is tripped, no sequence of events without a beam
    restore ever puts the gate into Closing or energises the close
    direction, whatever commands arrive. *)
Theorem blocked_beam_never_closes cfg m evs
    (Hr : sm_reachable cfg m) (Hn : SafetyBeamCleared ∉ evs) :
  let m' := (handle m SafetyBeamTripped).1 in
  state_ (run_events m' evs).1 <> Closing /\ DriveMotorClose ∉ (run_events m' evs).2.
Proof.
  apply run_events_blocked; [apply handle_latch | | done].
  intros Hc. pose proof (handle_inv m SafetyBeamTripped (reachable_inv _ _ Hr)) as [_ Hi].
  specialize (Hi Hc). rewrite handle_latch in Hi. discriminate.
Qed.

Lemma blocked_beam_never_closes_witness :
  let m := StateMachine_new Config_default in
  let m' := (handle m SafetyBeamTripped).1 in
  let evs := [CommandClose; CommandOpen; LimitOpenHit; CommandClose] in
  state_ (run_events m' evs).1 <> Closing /\ DriveMotorClose ∉ (run_events m' evs).2.
Proof.
  apply (blocked_beam_never_closes Config_default); [constructor|].
  apply (bool_decide_unpack _). vm_compute. exact I.
Defined.

(** The action lists keep the motor in step with the state.  Whatever
    call is made, executing the emitted actions in order on a motor that is
    running as the old state prescribes leaves it running as the new state
    prescribes; in particular every way out of a moving state stops it. *)
Theorem motor_follows_state m c :
  let '(m', o) := call m c in
  motor_actions (motor_of (state_ m)) (emitted o) = motor_of (state_ m') /\
  new_state o = state_ m' /\
  length (actions o) = kMaxActionsPerStep /\ (count o <= kMaxActionsPerStep)%nat.
Proof.
  pose proof (call_motor m c) as Hm. pose proof (call_new_state m c) as Hn.
  destruct (call m c) as [m' o] eqn:E. simpl in *. split_and!; [done..| |].
  all: destruct c as [ev| | |]; simpl in E; sm_eval m; try destruct ev;
    inversion E; simpl; unfold kMaxActionsPerStep; lia.
Qed.

(** A faulted machine stays motionless until its position is verified
    again: no event sequence moves it out of Faulted or Initializing or
    energises the motor, so only an [init_*] call can. *)
Theorem faulted_needs_reverification m evs (H : state_ m = Faulted) :
  (state_ (run_events m evs).1 = Faulted \/ state_ (run_events m evs).1 = Initializing) /\
  motor_actions MotorOff (run_events m evs).2 = MotorOff.
Proof.
  destruct (run_events_motionless m evs (or_introl H)) as (Hs & Ho & Hc).
  split; [done|]. revert Ho Hc. generalize (run_events m evs).2 as l. clear.
  unfold motor_actions. induction l as [|a l IH]; [done|]. intros Ho Hc. simpl.
  destruct a; simpl; try (apply IH; set_solver); set_solver.
Qed.

Lemma faulted_needs_reverification_witness :
  let m := (init_unknown (StateMachine_new Config_default)).1 in
  let evs := [CommandOpen; FaultCleared; CommandOpen; CommandClose] in
  (state_ (run_events m evs).1 = Faulted \/ state_ (run_events m evs).1 = Initializing) /\
  motor_actions MotorOff (run_events m evs).2 = MotorOff.
Proof. apply faulted_needs_reverification. reflexivity. Defined.
