(* ===== verification/Platform.v ===== *)
(** Interfaces of the platform services the firmware calls but does not
    contain: the FreeRTOS queue and the esp_timer service.  Each is a class of
    operations with the documented laws the firmware relies on; the
    components are modelled and proved against the interface, and one
    executable instance of each shows that the laws can hold. *)

From S2P Require Import Prelude.

(** ** FreeRTOS queues ([xQueueCreate], [xQueueSend] with no wait,
    [xQueueReceive] with no wait, [xQueueReset]) *)

Class RtosQueue (A Q : Type) := {
  queue_create : nat -> Q;
  (** [None] is [errQUEUE_FULL]. *)
  queue_send : Q -> A -> option Q;
  (** [None] is an empty queue. *)
  queue_receive : Q -> option (A * Q);
  queue_reset : Q -> Q;
  (** Observers used by the laws: the items, oldest first, and the length
      the queue was created with. *)
  queue_items : Q -> list A;
  queue_depth : Q -> nat;
}.

Class RtosQueueLaws (A Q : Type) `{RtosQueue A Q} := {
  queue_create_items n : queue_items (queue_create n) = [];
  queue_create_depth n : queue_depth (queue_create n) = n;
  queue_send_room q a :
    (length (queue_items q) < queue_depth q)%nat ->
    exists q', queue_send q a = Some q' /\ queue_items q' = queue_items q ++ [a] /\
               queue_depth q' = queue_depth q;
  queue_send_full q a :
    (queue_depth q <= length (queue_items q))%nat -> queue_send q a = None;
  queue_receive_empty q : queue_items q = [] -> queue_receive q = None;
  queue_receive_front q a l :
    queue_items q = a :: l ->
    exists q', queue_receive q = Some (a, q') /\ queue_items q' = l /\
               queue_depth q' = queue_depth q;
  queue_reset_items q : queue_items (queue_reset q) = [];
  queue_reset_depth q : queue_depth (queue_reset q) = queue_depth q;
}.

(** A queue as its depth and its items. *)
Record ListQueue (A : Type) := mkLQ { lq_depth : nat; lq_items : list A }.
Arguments mkLQ {A}.
Arguments lq_depth {A}.
Arguments lq_items {A}.

#[export] Instance list_queue A : RtosQueue A (ListQueue A) := {|
  queue_create n := mkLQ n [];
  queue_send q a :=
    if decide (length (lq_items q) < lq_depth q)%nat
    then Some (mkLQ (lq_depth q) (lq_items q ++ [a])) else None;
  queue_receive q :=
    match lq_items q with [] => None | a :: l => Some (a, mkLQ (lq_depth q) l) end;
  queue_reset q := mkLQ (lq_depth q) [];
  queue_items := lq_items;
  queue_depth := lq_depth;
|}.

#[export] Instance list_queue_laws A : RtosQueueLaws A (ListQueue A).
Proof.
  split; try done; simpl.
  - intros q a Hl. rewrite decide_True by done. by eexists.
  - intros q a Hl. by rewrite decide_False by lia.
  - intros q ->. done.
  - intros q a l ->. by eexists.
Qed.

(** ** The esp_timer service *)

Class EspTimer (T : Type) := {
  timer_create : T;
  timer_is_active : T -> bool;
  timer_stop : T -> T;
  (** [None] is [ESP_ERR_INVALID_STATE]: the timer is already running. *)
  timer_start_once : Z -> T -> option T;
  timer_start_periodic : Z -> T -> option T;
  (** The timer after a one-shot has been dispatched. *)
  timer_expire : T -> T;
}.

Class EspTimerLaws (T : Type) `{EspTimer T} := {
  timer_create_inactive : timer_is_active timer_create = false;
  timer_stop_inactive t : timer_is_active (timer_stop t) = false;
  timer_start_once_ok t us :
    timer_is_active t = false ->
    exists t', timer_start_once us t = Some t' /\ timer_is_active t' = true;
  timer_start_periodic_ok t us :
    timer_is_active t = false ->
    exists t', timer_start_periodic us t = Some t' /\ timer_is_active t' = true;
  timer_expire_inactive t : timer_is_active (timer_expire t) = false;
}.

(** A timer as the period it is armed with. *)
Definition PeriodTimer := option Z.

#[export] Instance period_timer : EspTimer PeriodTimer := {|
  timer_create := None;
  timer_is_active t := match t with Some _ => true | None => false end;
  timer_stop _ := None;
  timer_start_once us t := match t with Some _ => None | None => Some (Some us) end;
  timer_start_periodic us t := match t with Some _ => None | None => Some (Some us) end;
  timer_expire _ := None;
|}.

#[export] Instance period_timer_laws : EspTimerLaws PeriodTimer.
Proof. split; try done; intros [|] us; simpl; try done; by eexists. Qed.

(** ** GPIO outputs

    A driver's [gpio_set_level] calls are recorded in order; the level of a
    pin is the last one written to it. *)

Notation GpioWrite := (Z * Z)%type.

Fixpoint pin_level (init : Z) (pin : Z) (w : list GpioWrite) : Z :=
  match w with
  | [] => init
  | (p, l) :: w => pin_level (if decide (p = pin) then l else init) pin w
  end.

Lemma pin_level_app init pin w1 w2 :
  pin_level init pin (w1 ++ w2) = pin_level (pin_level init pin w1) pin w2.
Proof. revert init. induction w1 as [|[p l] w1 IH]; intros init; simpl; [done | apply IH]. Qed.

(** [ESP_ERROR_CHECK(start(..))] aborts on an error; the timer keeps its
    state in the run that does not return. *)
Definition start_checked {T} (r : option T) (t : T) : T := default t r.

Section timer_lemmas.
Context `{EspTimerLaws T}.

Lemma start_once_checked us (t : T) :
  timer_is_active t = false ->
  timer_is_active (start_checked (timer_start_once us t) t) = true.
Proof. intros Hi. destruct (timer_start_once_ok t us Hi) as (t' & -> & Ha). done. Qed.

Lemma start_periodic_checked us (t : T) :
  timer_is_active t = false ->
  timer_is_active (start_checked (timer_start_periodic us t) t) = true.
Proof. intros Hi. destruct (timer_start_periodic_ok t us Hi) as (t' & -> & Ha). done. Qed.

(** [if (esp_timer_is_active(t)) esp_timer_stop(t);] *)
Lemma stop_if_active (t : T) :
  timer_is_active (if timer_is_active t then timer_stop t else t) = false.
Proof. destruct (timer_is_active t) eqn:E; [apply timer_stop_inactive | done]. Qed.
End timer_lemmas.

#[export] Hint Resolve start_once_checked start_periodic_checked stop_if_active : gate.

Section queue_lemmas.
Context `{RtosQueueLaws A Q}.

(** [xQueueSend(q, &a, 0)] whose failure is only logged. *)
Definition queue_post (q : Q) (a : A) : Q := default q (queue_send q a).

Lemma queue_post_cases q a :
  ((length (queue_items q) < queue_depth q)%nat /\
   queue_items (queue_post q a) = queue_items q ++ [a]) \/
  ((queue_depth q <= length (queue_items q))%nat /\ queue_post q a = q).
Proof.
  unfold queue_post.
  destruct (decide (length (queue_items q) < queue_depth q)%nat) as [Hl|Hl].
  - destruct (queue_send_room q a Hl) as (q' & -> & Hi & _). left. done.
  - rewrite queue_send_full by lia. right. split; [lia | done].
Qed.

Lemma queue_post_room q a :
  (length (queue_items q) < queue_depth q)%nat ->
  queue_items (queue_post q a) = queue_items q ++ [a].
Proof. intros. destruct (queue_post_cases q a) as [[_ ?]|[? _]]; [done|lia]. Qed.

Lemma queue_post_depth q a : queue_depth (queue_post q a) = queue_depth q.
Proof.
  unfold queue_post.
  destruct (decide (length (queue_items q) < queue_depth q)%nat) as [Hl|Hl].
  - by destruct (queue_send_room q a Hl) as (q' & -> & _ & Hd).
  - by rewrite queue_send_full by lia.
Qed.

Lemma queue_post_bounded q a :
  (length (queue_items q) <= queue_depth q)%nat ->
  (length (queue_items (queue_post q a)) <= queue_depth q)%nat.
Proof.
  destruct (queue_post_cases q a) as [[Hr ->]|[_ ->]]; [|done].
  rewrite length_app. simpl. lia.
Qed.
End queue_lemmas.
