(* ===== verification/Drivers.v ===== *)
(** The GPIO drivers of the firmware (src/firmware/components/gate_drivers):
    the relay, the two polled and debounced inputs (limit switch and safety
    beam) and the status LED renderer.  A driver that writes a pin returns
    the list of its [gpio_set_level] calls; a driver that reads a pin takes
    the raw level as an argument. *)

From S2P Require Import Prelude Platform.
Local Open Scope Z_scope.

(** ** Relay (relay.hpp, relay.cpp) *)

Record RelayConfig := mkRelayConfig {
  relay_gpio : Z;
  relay_active_high : bool;
  relay_initial_state : bool;
}.

Record Relay (T : Type) := mkRelay {
  relay_cfg : RelayConfig;
  relay_state : bool;
  pulse_timer : T;
}.
Arguments mkRelay {T}.
Arguments relay_cfg {T}.
Arguments relay_state {T}.
Arguments pulse_timer {T}.

(** [Relay::write_gpio]. *)
Definition write_gpio (cfg : RelayConfig) (on : bool) : list GpioWrite :=
  [(relay_gpio cfg, if eqb on (relay_active_high cfg) then 1 else 0)].

Section Relay.
Context `{EspTimer T}.

(** [Relay::set]: cancels any pulse in flight. *)
Definition Relay_set (on : bool) (r : Relay T) : Relay T * list GpioWrite :=
  (mkRelay (relay_cfg r) on (timer_stop (pulse_timer r)), write_gpio (relay_cfg r) on).

(** The constructor: create the timer, then [set(cfg_.initial_state)]. *)
Definition Relay_new (cfg : RelayConfig) : Relay T * list GpioWrite :=
  Relay_set (relay_initial_state cfg) (mkRelay cfg false timer_create).

(** [Relay::pulse], for a duration in microseconds. *)
Definition Relay_pulse (us : Z) (r : Relay T) : Relay T * list GpioWrite :=
  let t := timer_stop (pulse_timer r) in
  (mkRelay (relay_cfg r) true (default t (timer_start_once us t)),
   write_gpio (relay_cfg r) true).

(** [Relay::timer_cb], run when the one-shot is dispatched. *)
Definition Relay_timer_cb (r : Relay T) : Relay T * list GpioWrite :=
  (mkRelay (relay_cfg r) false (timer_expire (pulse_timer r)),
   write_gpio (relay_cfg r) false).

(** [Relay::~Relay]: stop the timer and drive the output off. *)
Definition Relay_delete (r : Relay T) : list GpioWrite :=
  write_gpio (relay_cfg r) false.
End Relay.

(** ** Debounced inputs (limit_switch.cpp, safety_beam.cpp) *)

(** The members both classes share; [committed] is [active_] of the limit
    switch and [blocked_] of the beam. *)
Record Debouncer := mkDeb {
  committed : bool;
  last_sample : bool;
  stable_samples : Z;
  samples_to_commit : Z;
}.

Record LimitSwitchConfig := mkLSConfig {
  ls_gpio : Z;
  ls_normally_open : bool;
  ls_debounce_ms : Z;
  ls_poll_period_ms : Z;
}.

Record SafetyBeamConfig := mkSBConfig {
  sb_gpio : Z;
  sb_active_high_when_blocked : bool;
  sb_debounce_ms : Z;
  sb_poll_period_ms : Z;
}.

(** [samples_to_commit_ = (debounce + poll - 1) / poll], at least 1, in
    [uint32_t] arithmetic. *)
Definition commit_samples (debounce_ms poll_ms : Z) : Z :=
  let n := u32 (u32 (debounce_ms + poll_ms) - 1) / poll_ms in
  if n =? 0 then 1 else n.

(** The body of [on_poll] after the sample has been read, with the argument
    of the callback when one fires. *)
Definition debounce_poll (d : Debouncer) (sample : bool) : Debouncer * option bool :=
  if negb (eqb sample (last_sample d)) then
    (mkDeb (committed d) sample 1 (samples_to_commit d), None)
  else if eqb sample (committed d) then
    (mkDeb (committed d) (last_sample d) 0 (samples_to_commit d), None)
  else
    let stable := u32 (stable_samples d + 1) in
    if stable <? samples_to_commit d then
      (mkDeb (committed d) (last_sample d) stable (samples_to_commit d), None)
    else
      (mkDeb sample (last_sample d) 0 (samples_to_commit d), Some sample).

(** [LimitSwitch::read_active] on the raw pin level. *)
Definition LimitSwitch_read_active (cfg : LimitSwitchConfig) (raw : Z) : bool :=
  if ls_normally_open cfg then raw =? 0 else raw =? 1.

(** The constructor: the first reading is committed as it is. *)
Definition LimitSwitch_new (cfg : LimitSwitchConfig) (raw : Z) : Debouncer :=
  let s := LimitSwitch_read_active cfg raw in
  mkDeb s s 0 (commit_samples (ls_debounce_ms cfg) (ls_poll_period_ms cfg)).

(** [LimitSwitch::on_poll]. *)
Definition LimitSwitch_on_poll (cfg : LimitSwitchConfig) (d : Debouncer) (raw : Z)
    : Debouncer * option bool :=
  debounce_poll d (LimitSwitch_read_active cfg raw).

(** [LimitSwitch::is_active]. *)
Definition LimitSwitch_is_active (d : Debouncer) : bool := committed d.

(** [SafetyBeam::read_blocked]. *)
Definition SafetyBeam_read_blocked (cfg : SafetyBeamConfig) (raw : Z) : bool :=
  if sb_active_high_when_blocked cfg then raw =? 1 else raw =? 0.

Definition SafetyBeam_new (cfg : SafetyBeamConfig) (raw : Z) : Debouncer :=
  let s := SafetyBeam_read_blocked cfg raw in
  mkDeb s s 0 (commit_samples (sb_debounce_ms cfg) (sb_poll_period_ms cfg)).

(** [SafetyBeam::on_poll]. *)
Definition SafetyBeam_on_poll (cfg : SafetyBeamConfig) (d : Debouncer) (raw : Z)
    : Debouncer * option bool :=
  debounce_poll d (SafetyBeam_read_blocked cfg raw).

Definition SafetyBeam_is_blocked (d : Debouncer) : bool := committed d.

(** A run of polls, with the callbacks it fires. *)
Fixpoint debounce_run (d : Debouncer) (samples : list bool) : Debouncer * list bool :=
  match samples with
  | [] => (d, [])
  | s :: ss =>
      let '(d1, cb) := debounce_poll d s in
      let '(d2, cbs) := debounce_run d1 ss in (d2, option_list cb ++ cbs)
  end.

(** The reference behaviour: count the consecutive samples that disagree
    with the committed value and commit at the [k]-th. *)
Fixpoint run_counter (k : Z) (c : bool) (n : Z) (samples : list bool) : bool * list bool :=
  match samples with
  | [] => (c, [])
  | s :: ss =>
      if eqb s c then run_counter k c 0 ss
      else if n + 1 <? k then run_counter k c (n + 1) ss
      else let '(c', cbs) := run_counter k s 0 ss in (c', s :: cbs)
  end.

(** The number of consecutive samples a change needs. *)
Definition commit_run (d : Debouncer) : Z := Z.max 2 (samples_to_commit d).

(** ** Status LED (status_led.hpp, status_led.cpp) *)

Inductive Pattern :=
| kOff | kAuthFlash | kDenyFlash | kFaultSlow | kOtaPulse | kBootOk
| kGateMoving | kGateOpen | kGateStopped.

#[export] Instance Pattern_eq_dec : EqDecision Pattern.
Proof. solve_decision. Defined.

(** Values 0 to 5 mirror the proto's [LedPattern]. *)
Definition Pattern_of_Z (n : Z) : option Pattern :=
  match n with
  | 0 => Some kOff | 1 => Some kAuthFlash | 2 => Some kDenyFlash
  | 3 => Some kFaultSlow | 4 => Some kOtaPulse | 5 => Some kBootOk
  | 6 => Some kGateMoving | 7 => Some kGateOpen | 8 => Some kGateStopped
  | _ => None
  end.

Definition kTickPeriodUs : Z := 100000.
Definition kAuthFlashFrames : Z := 6.
Definition kDenyFlashFrames : Z := 6.
Definition kBootOkFrames : Z := 20.
Definition kSlowBlinkPeriod : Z := 10.
Definition kFastBlinkPeriod : Z := 4.

Record LedConfig := mkLedConfig {
  red_gpio : Z; green_gpio : Z; yellow_gpio : Z; led_active_high : bool;
}.

Record StatusLed (T : Type) := mkLed {
  led_cfg : LedConfig;
  led_current : Pattern;
  restart_requested : bool;
  led_step : Z;
  led_timer : T;
}.
Arguments mkLed {T}.
Arguments led_cfg {T}.
Arguments led_current {T}.
Arguments restart_requested {T}.
Arguments led_step {T}.
Arguments led_timer {T}.

(** [StatusLed::set_color]. *)
Definition set_color (cfg : LedConfig) (red green yellow : bool) : list GpioWrite :=
  let on_level := if led_active_high cfg then 1 else 0 in
  let off_level := if led_active_high cfg then 0 else 1 in
  [(red_gpio cfg, if red then on_level else off_level);
   (green_gpio cfg, if green then on_level else off_level);
   (yellow_gpio cfg, if yellow then on_level else off_level)].

Section StatusLed.
Context `{EspTimer T}.

Definition StatusLed_new (cfg : LedConfig) : StatusLed T * list GpioWrite :=
  (mkLed cfg kOff false 0 timer_create, set_color cfg false false false).

Definition start_timer_if_needed (l : StatusLed T) : StatusLed T :=
  if timer_is_active (led_timer l) then l
  else mkLed (led_cfg l) (led_current l) (restart_requested l) (led_step l)
         (start_checked (timer_start_periodic kTickPeriodUs (led_timer l)) (led_timer l)).

Definition led_stop_timer (l : StatusLed T) : StatusLed T :=
  if timer_is_active (led_timer l) then
    mkLed (led_cfg l) (led_current l) (restart_requested l) (led_step l)
      (timer_stop (led_timer l))
  else l.

(** [StatusLed::render]. *)
Definition render (p : Pattern) (l : StatusLed T) : StatusLed T * list GpioWrite :=
  let l := mkLed (led_cfg l) p true (led_step l) (led_timer l) in
  if decide (p = kOff) then (led_stop_timer l, set_color (led_cfg l) false false false)
  else (start_timer_if_needed l, []).

Definition bump_step (l : StatusLed T) : StatusLed T :=
  mkLed (led_cfg l) (led_current l) (restart_requested l) (u32 (led_step l + 1)) (led_timer l).

(** A finite pattern: off and stop at the last frame, else one more frame. *)
Definition finite_frame (frames : Z) (l : StatusLed T) (color : list GpioWrite)
    : StatusLed T * list GpioWrite :=
  if frames <=? led_step l then (led_stop_timer l, set_color (led_cfg l) false false false)
  else (bump_step l, color).

(** [StatusLed::on_tick]. *)
Definition on_tick (l : StatusLed T) : StatusLed T * list GpioWrite :=
  let l :=
    if restart_requested l then mkLed (led_cfg l) (led_current l) false 0 (led_timer l)
    else l in
  let cfg := led_cfg l in
  let step := led_step l in
  let slow_on := step mod kSlowBlinkPeriod <? kSlowBlinkPeriod / 2 in
  match led_current l with
  | kOff => (led_stop_timer l, set_color cfg false false false)
  | kBootOk => finite_frame kBootOkFrames l (set_color cfg false true false)
  | kAuthFlash =>
      finite_frame kAuthFlashFrames l (set_color cfg false (Z.land step 1 =? 0) false)
  | kDenyFlash =>
      finite_frame kDenyFlashFrames l (set_color cfg (Z.land step 1 =? 0) false false)
  | kFaultSlow => (bump_step l, set_color cfg slow_on false false)
  | kOtaPulse => (bump_step l, set_color cfg false false slow_on)
  | kGateMoving =>
      (bump_step l,
       set_color cfg false false (step mod kFastBlinkPeriod <? kFastBlinkPeriod / 2))
  | kGateOpen => (led_stop_timer l, set_color cfg false true false)
  | kGateStopped =>
      (bump_step l,
       if slow_on then set_color cfg true false false else set_color cfg false false true)
  end.

(** The periodic timer runs [on_tick] until the timer is stopped. *)
Fixpoint ticks (n : nat) (l : StatusLed T) : StatusLed T * list (list GpioWrite) :=
  match n with
  | O => (l, [])
  | S n =>
      if timer_is_active (led_timer l) then
        let '(l1, w) := on_tick l in
        let '(l2, ws) := ticks n l1 in (l2, w :: ws)
      else (l, [])
  end.
End StatusLed.

(** The number of frames a finite pattern lasts. *)
Definition finite_frames (p : Pattern) : option Z :=
  match p with
  | kAuthFlash => Some kAuthFlashFrames
  | kDenyFlash => Some kDenyFlashFrames
  | kBootOk => Some kBootOkFrames
  | _ => None
  end.

(** ** Lemmas *)

(** The relation between the polled state and the reference counter. *)
Definition deb_ok (d : Debouncer) : Prop :=
  1 <= samples_to_commit d < 2 ^ 32 /\
  (last_sample d = committed d \/ 1 <= stable_samples d < commit_run d).

Definition deb_count (d : Debouncer) : Z :=
  if eqb (last_sample d) (committed d) then 0 else stable_samples d.

Lemma commit_samples_range deb poll :
  0 <= deb -> 0 < poll -> deb + poll < 2 ^ 32 -> 1 <= commit_samples deb poll < 2 ^ 32.
Proof.
  intros Hd Hp Hs. unfold commit_samples.
  rewrite (u32_small (deb + poll)) by lia. rewrite u32_small by lia.
  assert (0 <= (deb + poll - 1) / poll <= deb + poll - 1).
  { split; [apply Z.div_pos; lia | apply Z.div_le_upper_bound; nia]. }
  destruct (Z.eqb_spec ((deb + poll - 1) / poll) 0); lia.
Qed.

Lemma debounce_poll_ok d s : deb_ok d -> deb_ok (debounce_poll d s).1.
Proof.
  destruct d as [c l st n]. unfold deb_ok, debounce_poll, commit_run. simpl.
  intros [Hn Hs]. destruct c, l, s; simpl; try (split; [lia|]; auto; lia);
    destruct (Z.ltb_spec (u32 (st + 1)) n) as [Hlt|Hge]; simpl; (split; [lia|]); auto;
    destruct Hs as [|Hs]; try discriminate; right; revert Hlt; rewrite u32_small; lia.
Qed.

Lemma commit_run_poll d s : commit_run (debounce_poll d s).1 = commit_run d.
Proof.
  unfold debounce_poll, commit_run. destruct d as [c l st n]; simpl.
  destruct c, l, s; simpl; try done; destruct (Z.ltb_spec (u32 (st + 1)) n); done.
Qed.

Lemma debounce_poll_counter d s ss :
  deb_ok d ->
  run_counter (commit_run d) (committed d) (deb_count d) (s :: ss) =
  let '(d1, cb) := debounce_poll d s in
  let '(c, cbs) := run_counter (commit_run d) (committed d1) (deb_count d1) ss in
  (c, option_list cb ++ cbs).
Proof.
  destruct d as [c l st n]. unfold deb_ok, debounce_poll, commit_run, deb_count.
  simpl. intros [Hn Hs]. destruct c, l, s; simpl;
    try (by destruct (run_counter _ _ _ ss)).
  all: try (rewrite (proj2 (Z.ltb_lt _ _)) by lia; by destruct (run_counter _ _ _ ss)).
  all: destruct Hs as [|Hs]; [discriminate|]; unfold commit_run in Hs; simpl in Hs;
    rewrite u32_small by lia;
    destruct (Z.ltb_spec (st + 1) n) as [Hlt|Hge]; simpl;
    [ rewrite (proj2 (Z.ltb_lt _ _)) by lia | rewrite (proj2 (Z.ltb_ge _ _)) by lia ];
    by destruct (run_counter _ _ _ ss).
Qed.

Lemma debounce_run_counter d ss :
  deb_ok d ->
  (committed (debounce_run d ss).1, (debounce_run d ss).2) =
  run_counter (commit_run d) (committed d) (deb_count d) ss.
Proof.
  revert d. induction ss as [|s ss IH]; intros d Hok; [done|].
  rewrite debounce_poll_counter by done. simpl debounce_run.
  pose proof (debounce_poll_ok d s Hok) as Hok1.
  pose proof (commit_run_poll d s) as Hk.
  destruct (debounce_poll d s) as [d1 cb]. simpl in Hok1, Hk.
  specialize (IH d1 Hok1). rewrite Hk in IH. rewrite <- IH.
  by destruct (debounce_run d1 ss).
Qed.

Lemma run_counter_hold k c n m :
  0 <= n < k ->
  run_counter k c n (replicate m (negb c)) =
  if n + Z.of_nat m <? k then (c, []) else (negb c, [negb c]).
Proof.
  revert n. induction m as [|m IH]; intros n Hn.
  { simpl. rewrite (proj2 (Z.ltb_lt _ _)) by lia. done. }
  cbn [replicate run_counter]. rewrite eqb_negb1.
  destruct (Z.ltb_spec (n + 1) k) as [Hlt|Hge].
  - rewrite IH by lia. by replace (n + 1 + Z.of_nat m) with (n + Z.of_nat (S m)) by lia.
  - rewrite (proj2 (Z.ltb_ge _ _)) by lia.
    assert (Hq : forall j, run_counter k (negb c) 0 (replicate j (negb c)) = (negb c, [])).
    { clear. induction j as [|j IH]; simpl; [done|]. by rewrite eqb_reflx. }
    by rewrite Hq.
Qed.

Lemma finite_frames_range p frames :
  finite_frames p = Some frames -> 1 < frames < 2 ^ 32 - 1.
Proof.
  destruct p; simpl; intros; simplify_eq;
    unfold kAuthFlashFrames, kDenyFlashFrames, kBootOkFrames; lia.
Qed.

Section led_lemmas.
Context `{EspTimerLaws T}.

Lemma start_timer_active (l : StatusLed T) :
  timer_is_active (led_timer (start_timer_if_needed l)) = true.
Proof.
  unfold start_timer_if_needed. destruct (timer_is_active (led_timer l)) eqn:E; [done|].
  simpl. by apply start_periodic_checked.
Qed.

Lemma led_stop_inactive (l : StatusLed T) :
  timer_is_active (led_timer (led_stop_timer l)) = false.
Proof.
  unfold led_stop_timer. destruct (timer_is_active (led_timer l)) eqn:E; [|done].
  apply timer_stop_inactive.
Qed.

Lemma led_stop_cfg (l : StatusLed T) : led_cfg (led_stop_timer l) = led_cfg l.
Proof. unfold led_stop_timer. by destruct (timer_is_active _). Qed.

(** What one tick of a finite pattern does. *)
Lemma on_tick_finite (l : StatusLed T) frames :
  finite_frames (led_current l) = Some frames -> 0 <= led_step l ->
  let s := if restart_requested l then 0 else led_step l in
  (s < frames ->
    led_current (on_tick l).1 = led_current l /\ restart_requested (on_tick l).1 = false /\
    led_step (on_tick l).1 = s + 1 /\ led_timer (on_tick l).1 = led_timer l) /\
  (frames <= s ->
    timer_is_active (led_timer (on_tick l).1) = false /\
    (on_tick l).2 = set_color (led_cfg l) false false false).
Proof.
  intros Hf Hs. unfold on_tick, finite_frame.
  destruct l as [cfg cur rr st t]. simpl in *.
  pose proof (finite_frames_range cur frames Hf) as Hfr.
  destruct rr; destruct cur; simpl in Hf |- *; simplify_eq;
    unfold kAuthFlashFrames, kDenyFlashFrames, kBootOkFrames in *; split; intros Hc;
    try (rewrite (proj2 (Z.leb_gt _ _)) by lia; simpl; by rewrite u32_small by lia);
    try (rewrite (proj2 (Z.leb_le _ _)) by lia; split; [apply led_stop_inactive | done]);
    try lia; done.
Qed.

Lemma ticks_finite_from n (l : StatusLed T) frames :
  finite_frames (led_current l) = Some frames -> restart_requested l = false ->
  0 <= led_step l <= frames -> timer_is_active (led_timer l) = true ->
  frames - led_step l < Z.of_nat n ->
  timer_is_active (led_timer (ticks n l).1) = false /\
  Z.of_nat (length (ticks n l).2) = frames - led_step l + 1 /\
  last (ticks n l).2 = Some (set_color (led_cfg l) false false false).
Proof.
  revert l. induction n as [|n IH]; intros l Hf Hr Hs Ht Hn; [lia|].
  simpl. rewrite Ht.
  destruct (on_tick_finite l frames Hf) as [Hgo Hstop]; [lia|]. rewrite Hr in Hgo, Hstop.
  assert (Hcfg : led_cfg (on_tick l).1 = led_cfg l).
  { unfold on_tick, finite_frame. destruct l as [cfg cur rr st t]; simpl in *.
    destruct rr, cur; simpl; try done; try case_match; simpl; by rewrite ?led_stop_cfg. }
  destruct (decide (led_step l < frames)) as [Hlt|Hge].
  - destruct (Hgo Hlt) as (H1 & H2 & H3 & H4).
    destruct (on_tick l) as [l1 w]. simpl in *.
    destruct (IH l1) as (I1 & I2 & I3); try congruence; try lia.
    destruct (ticks n l1) as [l2 ws]. simpl in *.
    split_and!; [done | lia |]. rewrite <- Hcfg.
    destruct ws; [simpl in I2; lia | done].
  - destruct (Hstop ltac:(lia)) as [Hi Hw].
    destruct (on_tick l) as [l1 w]. simpl in *. subst w.
    destruct n; simpl; [|rewrite Hi]; simpl; split_and!; done || lia.
Qed.
End led_lemmas.

(** ** Properties *)

(** C40: Polling implements the intended debounce.  From any state the
    driver can be in, for every sequence of samples the committed value and
    the sequence of callbacks are those of the reference that counts the
    consecutive samples disagreeing with the committed value and commits at
    the [commit_run]-th, that is at the configured number of samples but
    never before the second. *)
Theorem debounce_refines_counter d samples (H : deb_ok d) :
  (committed (debounce_run d samples).1, (debounce_run d samples).2) =
  run_counter (Z.max 2 (samples_to_commit d)) (committed d) (deb_count d) samples.
Proof. exact (debounce_run_counter d samples H). Qed.

Lemma debounce_refines_counter_witness :
  let d := LimitSwitch_new (mkLSConfig 6 true 20 5) 1 in
  let ss := [true; false; true; true; true; true; true] in
  (committed (debounce_run d ss).1, (debounce_run d ss).2) = (true, [true]).
Proof.
  intros d ss. rewrite (debounce_refines_counter d ss); [reflexivity|].
  split; [vm_compute; split; congruence | left; reflexivity].
Defined.

(** Debounce latency and glitch immunity of a freshly constructed limit
    switch.  With the configured debounce and poll periods, a level held for
    [k] polls is committed, with exactly one callback, if and only if [k]
    reaches the commit count; the commit count covers the debounce time and
    exceeds it by less than one poll period. *)
Theorem limit_switch_latency cfg raw k
    (Hd : 0 < ls_debounce_ms cfg) (Hp : 0 < ls_poll_period_ms cfg)
    (Hs : ls_debounce_ms cfg + ls_poll_period_ms cfg < 2 ^ 32) :
  let d := LimitSwitch_new cfg raw in
  let n := samples_to_commit d in
  let held := replicate k (negb (LimitSwitch_is_active d)) in
  (debounce_run d held).2 =
    (if Z.of_nat k <? Z.max 2 n then [] else [negb (LimitSwitch_is_active d)]) /\
  LimitSwitch_is_active (debounce_run d held).1 =
    (if Z.of_nat k <? Z.max 2 n then LimitSwitch_is_active d
     else negb (LimitSwitch_is_active d)) /\
  ls_debounce_ms cfg <= n * ls_poll_period_ms cfg < ls_debounce_ms cfg + ls_poll_period_ms cfg.
Proof.
  intros d n held.
  pose proof (commit_samples_range (ls_debounce_ms cfg) (ls_poll_period_ms cfg)
                ltac:(lia) Hp Hs) as Hn.
  assert (Hok : deb_ok d) by (split; [exact Hn | by left]).
  pose proof (debounce_run_counter d held Hok) as Hrun.
  assert (Hcount : deb_count d = 0) by (unfold deb_count; simpl; by rewrite eqb_reflx).
  rewrite Hcount in Hrun. unfold held, LimitSwitch_is_active in Hrun.
  rewrite run_counter_hold in Hrun by (unfold commit_run; lia).
  rewrite Z.add_0_l in Hrun. fold n in Hrun. unfold commit_run in Hrun. fold n in Hrun.
  fold (LimitSwitch_is_active d) held in Hrun. unfold LimitSwitch_is_active at 3.
  destruct (debounce_run d held) as [d' cbs]. simpl in Hrun |- *.
  split_and!; try (destruct (Z.of_nat k <? Z.max 2 n); by simplify_eq).
  all: subst n; simpl; unfold commit_samples;
    rewrite (u32_small (_ + _)) by lia; rewrite u32_small by lia;
    pose proof (Z.div_mod (ls_debounce_ms cfg + ls_poll_period_ms cfg - 1)
                  (ls_poll_period_ms cfg) ltac:(lia));
    pose proof (Z.mod_pos_bound (ls_debounce_ms cfg + ls_poll_period_ms cfg - 1)
                  (ls_poll_period_ms cfg) Hp);
    destruct (Z.eqb_spec ((ls_debounce_ms cfg + ls_poll_period_ms cfg - 1)
                            / ls_poll_period_ms cfg) 0); nia.
Qed.

Lemma limit_switch_latency_witness :
  let d := LimitSwitch_new (mkLSConfig 6 true 20 5) 1 in
  samples_to_commit d = 4 /\
  (debounce_run d (replicate 4 true)).2 = [true] /\
  LimitSwitch_is_active (debounce_run d (replicate 3 true)).1 = false.
Proof.
  destruct (limit_switch_latency (mkLSConfig 6 true 20 5) 1 4
                eq_refl eq_refl eq_refl) as (H4 & _ & _).
  destruct (limit_switch_latency (mkLSConfig 6 true 20 5) 1 3
                eq_refl eq_refl eq_refl) as (_ & H3 & _).
  split; [vm_compute; reflexivity | split; [exact H4 | exact H3]].
Defined.

(** The finite LED patterns end.  Rendering an authorisation flash, a
    denial flash or the boot pattern from any LED state shows exactly its
    number of frames, then one more tick turns all three LEDs off and stops
    the periodic timer, which never ticks again. *)
Theorem finite_pattern_ends `{EspTimerLaws T} (l : StatusLed T) p frames n
    (Hf : finite_frames p = Some frames) (Hl : 0 <= led_step l)
    (Hn : frames < Z.of_nat n) :
  let r := ticks n (render p l).1 in
  timer_is_active (led_timer r.1) = false /\
  Z.of_nat (length r.2) = frames + 1 /\
  last r.2 = Some (set_color (led_cfg l) false false false).
Proof.
  intros r. subst r. pose proof (finite_frames_range p frames Hf) as Hfr.
  assert (Hren : (render p l).1 =
            start_timer_if_needed (mkLed (led_cfg l) p true (led_step l) (led_timer l))).
  { unfold render. rewrite decide_False; [done|]. by destruct p. }
  rewrite Hren. set (l0 := start_timer_if_needed _).
  assert (Ha : timer_is_active (led_timer l0) = true) by apply start_timer_active.
  assert (Hc : led_current l0 = p /\ restart_requested l0 = true /\
               led_step l0 = led_step l /\ led_cfg l0 = led_cfg l).
  { unfold l0, start_timer_if_needed. simpl. by destruct (timer_is_active (led_timer l)). }
  destruct Hc as (Hc & Hr & Hst & Hcfg).
  destruct n as [|n]; [lia|].
  simpl. rewrite Ha.
  destruct (on_tick_finite l0 frames) as [Hgo _]; [by rewrite Hc | lia |].
  rewrite Hr in Hgo. destruct Hgo as (G1 & G2 & G3 & G4); [lia|].
  assert (Hcfg1 : led_cfg (on_tick l0).1 = led_cfg l).
  { rewrite <- Hcfg. unfold on_tick, finite_frame. destruct l0 as [c cu rr st t]; simpl in *.
    subst. destruct p; simpl in *; done. }
  destruct (on_tick l0) as [l1 w]. simpl in *.
  destruct (ticks_finite_from n l1 frames) as (I1 & I2 & I3); try congruence; try lia.
  destruct (ticks n l1) as [l2 ws]. simpl in *. rewrite G3 in I2.
  split_and!; [done | lia |]. rewrite <- Hcfg1.
  destruct ws; [simpl in I2; lia | done].
Qed.

Lemma finite_pattern_ends_witness :
  let l := (StatusLed_new (T := PeriodTimer) (mkLedConfig 16 17 18 true)).1 in
  let r := ticks 10 (render kAuthFlash l).1 in
  timer_is_active (led_timer r.1) = false /\ Z.of_nat (length r.2) = 7.
Proof.
  intros l r.
  destruct (finite_pattern_ends l kAuthFlash 6 10) as (H1 & H2 & _);
    [reflexivity | simpl; lia | lia |].
  split; [exact H1 | exact H2].
Defined.
