(* ===== verification/GateController.v ===== *)
(** The driver layer that animates the state machine
    (src/firmware/components/gate_control): the event queue, the action
    dispatch, the two timers and the policies of GateController, composed
    with the drivers and the machine.  The pump task, the esp_timer callbacks
    and the command entry points run concurrently and meet only in the queue
    and the timers, so the system is a step relation that interleaves them in
    any order; the phases of [start()] are separate steps because the input
    polls already run while it executes. *)

From S2P Require Import Prelude StateMachine Platform Drivers.
Local Open Scope Z_scope.

Record Pins := mkPins {
  pin_relay_open : Z; pin_relay_close : Z;
  pin_limit_open : Z; pin_limit_closed : Z;
  pin_safety_beam : Z;
  pin_led_red : Z; pin_led_green : Z; pin_led_yellow : Z;
}.

(** The defaults of [struct Pins]. *)
Definition Pins_default : Pins := mkPins 4 5 6 7 15 16 17 18.

Record GateConfig := mkGateConfig {
  gcfg_sm : Config;
  gcfg_pins : Pins;
  reverse_on_beam : bool;
  heartbeat_period_ms : Z;
}.

Definition GateConfig_default : GateConfig :=
  mkGateConfig Config_default Pins_default true 5000.

Definition kQueueDepth : nat := 16.
Definition kBootSettleMs : Z := 50.

(** How far [start()] has got. *)
Inductive StartPhase :=
| NotStarted   (* before start() *)
| Settling     (* started_ set, in vTaskDelay(kBootSettleMs) *)
| Latched      (* beam state pre-latched *)
| Resolved     (* resolve_boot_position() done, callbacks not yet set *)
| Running.     (* callbacks registered, pump task created *)

#[export] Instance StartPhase_eq_dec : EqDecision StartPhase.
Proof. solve_decision. Defined.

(** The members of [GateController].  [gpio_log] records every
    [gpio_set_level] call in order and [notified] every call of the
    transition listener; [dropped] records the events the queue refused and
    [unheard] the committed input edges that found no callback registered
    after the beam was pre-latched. *)
Record GateController (Q T : Type) := mkGC {
  gc_cfg : GateConfig;
  relay_open : Relay T;
  relay_close : Relay T;
  limit_open : Debouncer;
  limit_closed : Debouncer;
  beam : Debouncer;
  led : StatusLed T;
  gc_sm : StateMachine;
  state_snapshot : State;
  reason_snapshot : Reason;
  gc_queue : Q;
  watchdog_timer : T;
  autoclose_timer : T;
  phase : StartPhase;
  gpio_log : list GpioWrite;
  notified : list (State * Reason * bool);
  dropped : list Event;
  unheard : list Event;
}.
Arguments mkGC {Q T}.
Arguments gc_cfg {Q T}.
Arguments relay_open {Q T}.
Arguments relay_close {Q T}.
Arguments limit_open {Q T}.
Arguments limit_closed {Q T}.
Arguments beam {Q T}.
Arguments led {Q T}.
Arguments gc_sm {Q T}.
Arguments state_snapshot {Q T}.
Arguments reason_snapshot {Q T}.
Arguments gc_queue {Q T}.
Arguments watchdog_timer {Q T}.
Arguments autoclose_timer {Q T}.
Arguments phase {Q T}.
Arguments gpio_log {Q T}.
Arguments notified {Q T}.
Arguments dropped {Q T}.
Arguments unheard {Q T}.

Section GateController.
Context {Q T : Type} `{!RtosQueue Event Q} `{!EspTimer T}.
Implicit Types g : GateController Q T.

(** *** Member assignments *)
Definition set_relays (ro rc : Relay T) (w : list GpioWrite) g : GateController Q T :=
  mkGC (gc_cfg g) ro rc (limit_open g) (limit_closed g) (beam g) (led g) (gc_sm g)
    (state_snapshot g) (reason_snapshot g) (gc_queue g) (watchdog_timer g)
    (autoclose_timer g) (phase g) (gpio_log g ++ w) (notified g) (dropped g) (unheard g).
Definition set_led (l : StatusLed T) (w : list GpioWrite) g : GateController Q T :=
  mkGC (gc_cfg g) (relay_open g) (relay_close g) (limit_open g) (limit_closed g) (beam g) l
    (gc_sm g) (state_snapshot g) (reason_snapshot g) (gc_queue g) (watchdog_timer g)
    (autoclose_timer g) (phase g) (gpio_log g ++ w) (notified g) (dropped g) (unheard g).
Definition set_sm (m : StateMachine) g : GateController Q T :=
  mkGC (gc_cfg g) (relay_open g) (relay_close g) (limit_open g) (limit_closed g) (beam g)
    (led g) m (state_snapshot g) (reason_snapshot g) (gc_queue g) (watchdog_timer g)
    (autoclose_timer g) (phase g) (gpio_log g) (notified g) (dropped g) (unheard g).
Definition set_snapshots (s : State) (r : Reason) g : GateController Q T :=
  mkGC (gc_cfg g) (relay_open g) (relay_close g) (limit_open g) (limit_closed g) (beam g)
    (led g) (gc_sm g) s r (gc_queue g) (watchdog_timer g)
    (autoclose_timer g) (phase g) (gpio_log g) (notified g) (dropped g) (unheard g).
Definition set_queue (q : Q) g : GateController Q T :=
  mkGC (gc_cfg g) (relay_open g) (relay_close g) (limit_open g) (limit_closed g) (beam g)
    (led g) (gc_sm g) (state_snapshot g) (reason_snapshot g) q (watchdog_timer g)
    (autoclose_timer g) (phase g) (gpio_log g) (notified g) (dropped g) (unheard g).
Definition set_watchdog (t : T) g : GateController Q T :=
  mkGC (gc_cfg g) (relay_open g) (relay_close g) (limit_open g) (limit_closed g) (beam g)
    (led g) (gc_sm g) (state_snapshot g) (reason_snapshot g) (gc_queue g) t
    (autoclose_timer g) (phase g) (gpio_log g) (notified g) (dropped g) (unheard g).
Definition set_autoclose (t : T) g : GateController Q T :=
  mkGC (gc_cfg g) (relay_open g) (relay_close g) (limit_open g) (limit_closed g) (beam g)
    (led g) (gc_sm g) (state_snapshot g) (reason_snapshot g) (gc_queue g) (watchdog_timer g)
    t (phase g) (gpio_log g) (notified g) (dropped g) (unheard g).
Definition set_phase (p : StartPhase) g : GateController Q T :=
  mkGC (gc_cfg g) (relay_open g) (relay_close g) (limit_open g) (limit_closed g) (beam g)
    (led g) (gc_sm g) (state_snapshot g) (reason_snapshot g) (gc_queue g) (watchdog_timer g)
    (autoclose_timer g) p (gpio_log g) (notified g) (dropped g) (unheard g).
Definition set_inputs (lo lc b : Debouncer) g : GateController Q T :=
  mkGC (gc_cfg g) (relay_open g) (relay_close g) lo lc b
    (led g) (gc_sm g) (state_snapshot g) (reason_snapshot g) (gc_queue g) (watchdog_timer g)
    (autoclose_timer g) (phase g) (gpio_log g) (notified g) (dropped g) (unheard g).
Definition add_notified (n : State * Reason * bool) g : GateController Q T :=
  mkGC (gc_cfg g) (relay_open g) (relay_close g) (limit_open g) (limit_closed g) (beam g)
    (led g) (gc_sm g) (state_snapshot g) (reason_snapshot g) (gc_queue g) (watchdog_timer g)
    (autoclose_timer g) (phase g) (gpio_log g) (notified g ++ [n]) (dropped g) (unheard g).
Definition add_dropped (ev : Event) g : GateController Q T :=
  mkGC (gc_cfg g) (relay_open g) (relay_close g) (limit_open g) (limit_closed g) (beam g)
    (led g) (gc_sm g) (state_snapshot g) (reason_snapshot g) (gc_queue g) (watchdog_timer g)
    (autoclose_timer g) (phase g) (gpio_log g) (notified g) (dropped g ++ [ev]) (unheard g).
Definition add_unheard (ev : Event) g : GateController Q T :=
  mkGC (gc_cfg g) (relay_open g) (relay_close g) (limit_open g) (limit_closed g) (beam g)
    (led g) (gc_sm g) (state_snapshot g) (reason_snapshot g) (gc_queue g) (watchdog_timer g)
    (autoclose_timer g) (phase g) (gpio_log g) (notified g) (dropped g) (unheard g ++ [ev]).

(** *** Construction *)

Definition limit_open_cfg (c : GateConfig) : LimitSwitchConfig :=
  mkLSConfig (pin_limit_open (gcfg_pins c)) true 20 5.
Definition limit_closed_cfg (c : GateConfig) : LimitSwitchConfig :=
  mkLSConfig (pin_limit_closed (gcfg_pins c)) true 20 5.
Definition beam_cfg (c : GateConfig) : SafetyBeamConfig :=
  mkSBConfig (pin_safety_beam (gcfg_pins c)) true 5 1.

(** The constructor, given the raw levels of the three input pins. *)
Definition GateController_new (c : GateConfig) (raw_open raw_closed raw_beam : Z)
    : GateController Q T :=
  let p := gcfg_pins c in
  let '(ro, w1) := Relay_new (mkRelayConfig (pin_relay_open p) true false) in
  let '(rc, w2) := Relay_new (mkRelayConfig (pin_relay_close p) true false) in
  let '(l, w3) := StatusLed_new
                    (mkLedConfig (pin_led_red p) (pin_led_green p) (pin_led_yellow p) true) in
  mkGC c ro rc
    (LimitSwitch_new (limit_open_cfg c) raw_open)
    (LimitSwitch_new (limit_closed_cfg c) raw_closed)
    (SafetyBeam_new (beam_cfg c) raw_beam)
    l (StateMachine_new (gcfg_sm c)) Initializing ReasonNone
    (queue_create kQueueDepth) timer_create timer_create NotStarted
    (w1 ++ w2 ++ w3) [] [] [].

(** *** Helpers *)

(** [GateController::post]: a full queue drops the event with a log line. *)
Definition post (ev : Event) g : GateController Q T :=
  match queue_send (gc_queue g) ev with
  | Some q => set_queue q g
  | None => add_dropped ev g
  end.

Definition render_led (p : Pattern) g : GateController Q T :=
  let '(l, w) := render p (led g) in set_led l w g.

(** One iteration of the dispatch loop of [execute]. *)
Definition execute_action g (a : Action) : GateController Q T :=
  match a with
  | DriveMotorOpen =>
      let '(rc, w1) := Relay_set false (relay_close g) in
      let '(ro, w2) := Relay_set true (relay_open g) in
      set_relays ro rc (w1 ++ w2) g
  | DriveMotorClose =>
      let '(ro, w1) := Relay_set false (relay_open g) in
      let '(rc, w2) := Relay_set true (relay_close g) in
      set_relays ro rc (w1 ++ w2) g
  | StopMotor =>
      let '(ro, w1) := Relay_set false (relay_open g) in
      let '(rc, w2) := Relay_set false (relay_close g) in
      set_relays ro rc (w1 ++ w2) g
  | SetLedClosed => render_led kOff g
  | SetLedOpening | SetLedClosing => render_led kGateMoving g
  | SetLedOpen => render_led kGateOpen g
  | SetLedStopped => render_led kGateStopped g
  | SetLedFault => render_led kFaultSlow g
  | EmitTelemetryStateChanged => g
  | ActNone => g
  end.

(** [GateController::execute]. *)
Definition execute (out : Outputs) g : GateController Q T :=
  let g := foldl execute_action g (emitted out) in
  set_snapshots (state_ (gc_sm g)) (reason_ (gc_sm g)) g.

(** [if (esp_timer_is_active(t)) esp_timer_stop(t)] followed by a
    conditional [ESP_ERROR_CHECK(esp_timer_start_once(t, us))]. *)
Definition rearm (arm : bool) (us : Z) (t : T) : T :=
  let t := if timer_is_active t then timer_stop t else t in
  if arm then start_checked (timer_start_once us t) t else t.

(** [GateController::manage_timers]. *)
Definition manage_timers (out : Outputs) g : GateController Q T :=
  if negb (transitioned out) then g
  else
    let c := gcfg_sm (gc_cfg g) in
    let g := set_watchdog
      (rearm (moving (new_state out) && (0 <? motor_timeout_ms c))
         (u64 (motor_timeout_ms c * 1000)) (watchdog_timer g)) g in
    set_autoclose
      (rearm (bool_decide (new_state out = Open) && (0 <? auto_close_ms c))
         (u64 (auto_close_ms c * 1000)) (autoclose_timer g)) g.

(** [GateController::apply_policies]. *)
Definition apply_policies (out : Outputs) g : GateController Q T :=
  let c := gcfg_sm (gc_cfg g) in
  if reverse_on_beam (gc_cfg g) && transitioned out
     && bool_decide (new_state out = StoppedClose)
     && bool_decide (out_reason out = SafetyBeamObstacle)
  then post CommandOpen g
  else if negb (transitioned out) && bool_decide (new_state out = Open)
          && bool_decide (out_reason out = SafetyBeamObstacle) && (0 <? auto_close_ms c)
  then set_autoclose
         (rearm true (u64 (auto_close_ms c * 1000)) (autoclose_timer g)) g
  else g.

(** [GateController::resolve_boot_position]. *)
Definition resolve_boot_position g : GateController Q T :=
  let open_active := LimitSwitch_is_active (limit_open g) in
  let closed_active := LimitSwitch_is_active (limit_closed g) in
  let '(m, out) :=
    if closed_active && negb open_active then init_closed (gc_sm g)
    else if open_active && negb closed_active then init_open (gc_sm g)
    else init_unknown (gc_sm g) in
  manage_timers out (execute out (set_sm m g)).

(** The body of [pump_task] for one received event. *)
Definition pump_event (ev : Event) g : GateController Q T :=
  let '(m, out) := handle (gc_sm g) ev in
  let g := apply_policies out (manage_timers out (execute out (set_sm m g))) in
  let g :=
    if transitioned out || negb (bool_decide (out_reason out = ReasonNone))
    then add_notified (new_state out, out_reason out, transitioned out) g else g in
  if bool_decide (ev = FaultCleared) && transitioned out
     && bool_decide (new_state out = Initializing)
  then resolve_boot_position g else g.

(** *** The concurrent activities *)

(** Edge callbacks: they post only once they are registered; an edge
    committed while [start()] is past the beam pre-latch and has not yet
    registered them reaches nobody. *)
Definition edge (ev : Event) g : GateController Q T :=
  match phase g with
  | Running => post ev g
  | Latched | Resolved => add_unheard ev g
  | NotStarted | Settling => g
  end.

Definition poll_limit_open (raw : Z) g : GateController Q T :=
  let '(d, cb) := LimitSwitch_on_poll (limit_open_cfg (gc_cfg g)) (limit_open g) raw in
  let g := set_inputs d (limit_closed g) (beam g) g in
  match cb with
  | Some active => edge (if active : bool then LimitOpenHit else LimitOpenReleased) g
  | None => g
  end.

Definition poll_limit_closed (raw : Z) g : GateController Q T :=
  let '(d, cb) := LimitSwitch_on_poll (limit_closed_cfg (gc_cfg g)) (limit_closed g) raw in
  let g := set_inputs (limit_open g) d (beam g) g in
  match cb with
  | Some active => edge (if active : bool then LimitClosedHit else LimitClosedReleased) g
  | None => g
  end.

Definition poll_beam (raw : Z) g : GateController Q T :=
  let '(d, cb) := SafetyBeam_on_poll (beam_cfg (gc_cfg g)) (beam g) raw in
  let g := set_inputs (limit_open g) (limit_closed g) d g in
  match cb with
  | Some blocked => edge (if blocked : bool then SafetyBeamTripped else SafetyBeamCleared) g
  | None => g
  end.

(** The steps of [start()]; the first call enters [Settling], a second
    call returns [ESP_ERR_INVALID_STATE] and changes nothing. *)
Definition start_call g : GateController Q T :=
  match phase g with NotStarted => set_phase Settling g | _ => g end.

Definition start_continue g : GateController Q T :=
  match phase g with
  | Settling =>
      set_phase Latched
        (if SafetyBeam_is_blocked (beam g)
         then set_sm (handle (gc_sm g) SafetyBeamTripped).1 g else g)
  | Latched => set_phase Resolved (resolve_boot_position g)
  | Resolved => set_phase Running g
  | NotStarted | Running => g
  end.

(** The one-shot callbacks of the two timers: dispatched only while armed. *)
Definition watchdog_fires g : option (GateController Q T) :=
  if timer_is_active (watchdog_timer g)
  then Some (post MotorTimeout (set_watchdog (timer_expire (watchdog_timer g)) g))
  else None.

Definition autoclose_fires g : option (GateController Q T) :=
  if timer_is_active (autoclose_timer g)
  then Some (post CommandClose (set_autoclose (timer_expire (autoclose_timer g)) g))
  else None.

(** One iteration of [pump_task]; an empty queue is the heartbeat branch,
    which only logs. *)
Definition pump g : option (GateController Q T) :=
  match phase g with
  | Running =>
      match queue_receive (gc_queue g) with
      | Some (ev, q) => Some (pump_event ev (set_queue q g))
      | None => Some g
      end
  | _ => None
  end.

(** The command entry points. *)
Definition command_open g : GateController Q T := post CommandOpen g.
Definition command_close g : GateController Q T := post CommandClose g.
Definition command_stop g : GateController Q T := post CommandStop g.
Definition clear_fault g : GateController Q T := post FaultCleared g.
Definition show_led_pattern (p : Pattern) g : GateController Q T := render_led p g.

(** One activity of one of the tasks. *)
Inductive GcOp :=
| OpStartCall | OpStartContinue
| OpCommandOpen | OpCommandClose | OpCommandStop | OpClearFault
| OpShowLed (p : Pattern) | OpLedTick
| OpPollOpen (raw : Z) | OpPollClosed (raw : Z) | OpPollBeam (raw : Z)
| OpWatchdog | OpAutoclose | OpPump.

Definition led_tick g : GateController Q T :=
  let '(l, w) := on_tick (led g) in set_led l w g.

Definition gc_do (op : GcOp) g : option (GateController Q T) :=
  match op with
  | OpStartCall => Some (start_call g)
  | OpStartContinue => Some (start_continue g)
  | OpCommandOpen => Some (command_open g)
  | OpCommandClose => Some (command_close g)
  | OpCommandStop => Some (command_stop g)
  | OpClearFault => Some (clear_fault g)
  | OpShowLed p => Some (show_led_pattern p g)
  | OpLedTick => if timer_is_active (led_timer (led g)) then Some (led_tick g) else None
  | OpPollOpen raw => Some (poll_limit_open raw g)
  | OpPollClosed raw => Some (poll_limit_closed raw g)
  | OpPollBeam raw => Some (poll_beam raw g)
  | OpWatchdog => watchdog_fires g
  | OpAutoclose => autoclose_fires g
  | OpPump => pump g
  end.

Fixpoint gc_run (ops : list GcOp) g : option (GateController Q T) :=
  match ops with
  | [] => Some g
  | op :: ops => match gc_do op g with Some g' => gc_run ops g' | None => None end
  end.

(** The controller and its environment, from construction on. *)
Inductive gc_reachable (c : GateConfig) : GateController Q T -> Prop :=
| gc_reach_new ro rc rb : gc_reachable c (GateController_new c ro rc rb)
| gc_reach_step g op g' :
    gc_reachable c g -> gc_do op g = Some g' -> gc_reachable c g'.

Lemma gc_reachable_run c g ops g' :
  gc_reachable c g -> gc_run ops g = Some g' -> gc_reachable c g'.
Proof.
  revert g. induction ops as [|op ops IH]; intros g Hr Hrun; simpl in Hrun.
  - by simplify_eq.
  - destruct (gc_do op g) as [g1|] eqn:E; [|done].
    eapply IH; [|done]. by eapply gc_reach_step.
Qed.

(** *** Invariants *)

(** The motor as the two contactors drive it; [None] is both energised. *)
Definition motor_of_relays (ro rc : bool) : option Motor :=
  match ro, rc with
  | false, false => Some MotorOff
  | true, false => Some MotorOpen
  | false, true => Some MotorClose
  | true, true => None
  end.

Definition relays_ok g : Prop :=
  motor_of_relays (relay_state (relay_open g)) (relay_state (relay_close g))
  = Some (motor_of (state_ (gc_sm g))).

Definition snapshots_ok g : Prop :=
  state_snapshot g = state_ (gc_sm g) /\ reason_snapshot g = reason_ (gc_sm g).

(** While the motor runs, its watchdog is armed or its expiry is waiting in
    the queue, unless the full queue dropped it. *)
Definition watchdog_ok g : Prop :=
  0 < motor_timeout_ms (gcfg_sm (gc_cfg g)) -> moving (state_ (gc_sm g)) = true ->
  timer_is_active (watchdog_timer g) = true \/
  MotorTimeout ∈ queue_items (gc_queue g) \/ MotorTimeout ∈ dropped g.

Definition is_beam_event (ev : Event) : bool :=
  match ev with SafetyBeamTripped | SafetyBeamCleared => true | _ => false end.

Definition no_beam_event (l : list Event) : Prop :=
  Forall (fun ev => is_beam_event ev = false) l.

(** Folding the queued events over the latch gives the committed beam
    level, provided no beam event was lost; before the callbacks are
    registered no beam event is queued. *)
Definition beam_ok g : Prop :=
  match phase g with
  | NotStarted | Settling =>
      beam_clear_ (gc_sm g) = true /\ no_beam_event (queue_items (gc_queue g))
  | p =>
      (p <> Running -> no_beam_event (queue_items (gc_queue g))) /\
      (no_beam_event (dropped g) -> no_beam_event (unheard g) ->
       foldl latch (beam_clear_ (gc_sm g)) (queue_items (gc_queue g))
       = negb (committed (beam g)))
  end.

(** The coils on the GPIO level: [w] is a history of writes. *)
Definition both_energised (p : Pins) (w : list GpioWrite) : Prop :=
  pin_level 0 (pin_relay_open p) w = 1 /\ pin_level 0 (pin_relay_close p) w = 1.

Definition pins_distinct (p : Pins) : Prop :=
  NoDup [pin_relay_open p; pin_relay_close p; pin_led_red p; pin_led_green p;
         pin_led_yellow p].

(** The write history never energises both coils at any point, and its
    final levels are the relays' states. *)
Definition gpio_ok (p : Pins) (w : list GpioWrite) (ro rc : bool) : Prop :=
  (forall n, ~ both_energised p (take n w)) /\
  pin_level 0 (pin_relay_open p) w = Z.b2z ro /\
  pin_level 0 (pin_relay_close p) w = Z.b2z rc.

Definition wiring_ok g : Prop :=
  relay_cfg (relay_open g) = mkRelayConfig (pin_relay_open (gcfg_pins (gc_cfg g))) true false /\
  relay_cfg (relay_close g)
  = mkRelayConfig (pin_relay_close (gcfg_pins (gc_cfg g))) true false /\
  led_cfg (led g)
  = mkLedConfig (pin_led_red (gcfg_pins (gc_cfg g))) (pin_led_green (gcfg_pins (gc_cfg g)))
      (pin_led_yellow (gcfg_pins (gc_cfg g))) true.

(** Everything except the relays, the LED, the snapshots and the log. *)
Definition core g :=
  (gc_cfg g, gc_sm g, gc_queue g, watchdog_timer g, autoclose_timer g, phase g,
   (limit_open g, limit_closed g, beam g), (notified g, dropped g, unheard g)).
End GateController.

(** ** Lemmas *)

Section lemmas.
Context {Q T : Type} `{!RtosQueue Event Q} `{!RtosQueueLaws Event Q}
        `{!EspTimer T} `{!EspTimerLaws T}.
Implicit Types g : GateController Q T.

Lemma gpio_ok_snoc p w ro rc ro' rc' pin l :
  gpio_ok p w ro rc ->
  pin_level (Z.b2z ro) (pin_relay_open p) [(pin, l)] = Z.b2z ro' ->
  pin_level (Z.b2z rc) (pin_relay_close p) [(pin, l)] = Z.b2z rc' ->
  ~ (ro' = true /\ rc' = true) ->
  gpio_ok p (w ++ [(pin, l)]) ro' rc'.
Proof.
  intros (Hp & Ho & Hc) Hlo Hlc Hn.
  assert (Hfin : pin_level 0 (pin_relay_open p) (w ++ [(pin, l)]) = Z.b2z ro' /\
                 pin_level 0 (pin_relay_close p) (w ++ [(pin, l)]) = Z.b2z rc')
    by (by rewrite !pin_level_app, Ho, Hc).
  split; [|done]. intros n.
  destruct (take_snoc_cases n w (pin, l)) as [-> | ->]; [apply Hp|].
  unfold both_energised. destruct Hfin as [-> ->]. by destruct ro', rc'; naive_solver.
Qed.

Lemma gpio_ok_open p w ro rc on :
  pin_relay_open p <> pin_relay_close p -> ~ (on = true /\ rc = true) ->
  gpio_ok p w ro rc ->
  gpio_ok p (w ++ write_gpio (mkRelayConfig (pin_relay_open p) true false) on) on rc.
Proof.
  intros Hne Hn Hok. eapply gpio_ok_snoc; [done|..|done]; simpl.
  - rewrite decide_True by done. by destruct on.
  - by rewrite decide_False.
Qed.

Lemma gpio_ok_close p w ro rc on :
  pin_relay_open p <> pin_relay_close p -> ~ (ro = true /\ on = true) ->
  gpio_ok p w ro rc ->
  gpio_ok p (w ++ write_gpio (mkRelayConfig (pin_relay_close p) true false) on) ro on.
Proof.
  intros Hne Hn Hok. eapply gpio_ok_snoc; [done|..|done]; simpl.
  - by rewrite decide_False.
  - rewrite decide_True by done. by destruct on.
Qed.

Lemma gpio_ok_other p w ro rc pin l :
  pin <> pin_relay_open p -> pin <> pin_relay_close p ->
  gpio_ok p w ro rc -> gpio_ok p (w ++ [(pin, l)]) ro rc.
Proof.
  intros Ho Hc Hok. eapply gpio_ok_snoc; [done|simpl; by rewrite decide_False..|].
  destruct Hok as (Hp & Hlo & Hlc). specialize (Hp (length w)).
  rewrite take_ge in Hp by done. unfold both_energised in Hp. rewrite Hlo, Hlc in Hp.
  intros [-> ->]. by apply Hp.
Qed.

(** The LED pins are not the relay pins. *)
Lemma gpio_ok_led p w ro rc red green yellow :
  pins_distinct p -> gpio_ok p w ro rc ->
  gpio_ok p
    (w ++ set_color (mkLedConfig (pin_led_red p) (pin_led_green p) (pin_led_yellow p) true)
            red green yellow) ro rc.
Proof.
  unfold pins_distinct. rewrite !NoDup_cons. intros Hd Hok.
  unfold set_color. simpl.
  change [?a; ?b; ?c] with ([a] ++ [b] ++ [c]). rewrite !app_assoc.
  repeat apply gpio_ok_other; try done; set_solver.
Qed.

Lemma render_effect p (l : StatusLed T) :
  led_cfg (render p l).1 = led_cfg l /\
  ((render p l).2 = [] \/ (render p l).2 = set_color (led_cfg l) false false false).
Proof.
  unfold render, start_timer_if_needed, led_stop_timer. simpl.
  case_decide; destruct (timer_is_active (led_timer l)); simpl; auto.
Qed.

Lemma on_tick_effect (l : StatusLed T) :
  led_cfg (on_tick l).1 = led_cfg l /\
  exists r gr y, (on_tick l).2 = set_color (led_cfg l) r gr y.
Proof.
  unfold on_tick, finite_frame, led_stop_timer. destruct l as [cfg cur rr st t].
  destruct rr, cur; simpl; repeat case_match; simpl; eauto.
Qed.

Definition elec_ok g : Prop :=
  wiring_ok g /\
  gpio_ok (gcfg_pins (gc_cfg g)) (gpio_log g)
    (relay_state (relay_open g)) (relay_state (relay_close g)).

Lemma render_led_core p g : core (render_led p g) = core g.
Proof. unfold render_led. by destruct (render p (led g)). Qed.

Lemma render_led_relays p g :
  relay_open (render_led p g) = relay_open g /\ relay_close (render_led p g) = relay_close g.
Proof. unfold render_led. by destruct (render p (led g)). Qed.

Lemma set_led_elec l w g :
  pins_distinct (gcfg_pins (gc_cfg g)) ->
  led_cfg l = led_cfg (led g) ->
  (w = [] \/ exists r gr y, w = set_color (led_cfg (led g)) r gr y) ->
  elec_ok g -> elec_ok (set_led l w g).
Proof.
  intros Hd Hl Hw [Hwire Hg]. destruct Hwire as (H1 & H2 & H3). split.
  - split_and!; simpl; [done..|]. by rewrite Hl.
  - simpl. destruct Hw as [-> | (r & gr & y & ->)]; [by rewrite app_nil_r|].
    rewrite H3. by apply gpio_ok_led.
Qed.

Lemma render_led_elec p g :
  pins_distinct (gcfg_pins (gc_cfg g)) -> elec_ok g -> elec_ok (render_led p g).
Proof.
  intros Hd Hok. unfold render_led. pose proof (render_effect p (led g)) as [Hc Hw].
  destruct (render p (led g)) as [l w]. simpl in *.
  apply set_led_elec; naive_solver.
Qed.

Lemma led_tick_elec g :
  pins_distinct (gcfg_pins (gc_cfg g)) -> elec_ok g -> elec_ok (led_tick g).
Proof.
  intros Hd Hok. unfold led_tick. pose proof (on_tick_effect (led g)) as [Hc Hw].
  destruct (on_tick (led g)) as [l w]. simpl in *.
  apply set_led_elec; naive_solver.
Qed.

Lemma execute_action_core g a : core (execute_action g a) = core g.
Proof. destruct a; simpl; try done; apply render_led_core. Qed.

Lemma execute_action_motor g a mt :
  motor_of_relays (relay_state (relay_open g)) (relay_state (relay_close g)) = Some mt ->
  motor_of_relays (relay_state (relay_open (execute_action g a)))
    (relay_state (relay_close (execute_action g a))) = Some (motor_action mt a).
Proof.
  intros Hm. destruct a; simpl; try done;
    match goal with |- context [render_led ?p ?g] =>
      destruct (render_led_relays p g) as [-> ->]; done end.
Qed.

Lemma execute_action_elec g a :
  pins_distinct (gcfg_pins (gc_cfg g)) -> elec_ok g -> elec_ok (execute_action g a).
Proof.
  intros Hd Hok.
  assert (Hne : pin_relay_open (gcfg_pins (gc_cfg g)) <> pin_relay_close (gcfg_pins (gc_cfg g))).
  { unfold pins_distinct in Hd. rewrite !NoDup_cons in Hd. set_solver. }
  destruct a; try done; try (by apply render_led_elec);
    destruct Hok as [(H1 & H2 & H3) Hg]; (split; [split_and!; done|]);
    cbn -[app write_gpio gpio_ok]; rewrite H1, H2.
  all: rewrite app_assoc.
  - eapply gpio_ok_open; [done | naive_solver |].
    eapply gpio_ok_close; [done | naive_solver | done].
  - eapply gpio_ok_close; [done | naive_solver |].
    eapply gpio_ok_open; [done | naive_solver | done].
  - eapply gpio_ok_close; [done | naive_solver |].
    eapply gpio_ok_open; [done | naive_solver | done].
Qed.

(** What [execute] does: the relays follow the actions, everything outside
    the electrical part and the snapshots is untouched. *)
Lemma execute_core out g : core (execute out g) = core g.
Proof.
  unfold execute. assert (Hf : forall l g, core (foldl execute_action g l) = core g).
  { induction l as [|a l IH]; intros g0; simpl; [done|].
    by rewrite IH, execute_action_core. }
  rewrite <- (Hf (emitted out) g). done.
Qed.

Lemma execute_snapshots out g : snapshots_ok (execute out g).
Proof. unfold execute, snapshots_ok. done. Qed.

Lemma core_cfg g g' : core g = core g' -> gc_cfg g = gc_cfg g'.
Proof. unfold core. by intros [=]. Qed.
Lemma core_sm g g' : core g = core g' -> gc_sm g = gc_sm g'.
Proof. unfold core. by intros [=]. Qed.

Lemma execute_elec out g :
  pins_distinct (gcfg_pins (gc_cfg g)) -> elec_ok g -> elec_ok (execute out g).
Proof.
  unfold execute. generalize (emitted out) as l. intros l. revert g.
  induction l as [|a l IH]; intros g Hd Hok; simpl; [done|].
  apply IH; [|by apply execute_action_elec].
  by rewrite (core_cfg _ _ (execute_action_core g a)).
Qed.

Lemma execute_motor out g mt :
  motor_of_relays (relay_state (relay_open g)) (relay_state (relay_close g)) = Some mt ->
  motor_of_relays (relay_state (relay_open (execute out g)))
    (relay_state (relay_close (execute out g))) = Some (motor_actions mt (emitted out)).
Proof.
  unfold execute, motor_actions. simpl. generalize (emitted out) as l. intros l. revert g mt.
  induction l as [|a l IH]; intros g mt Hm; simpl; [done|].
  apply IH. by apply execute_action_motor.
Qed.

Lemma rearm_active arm us (t : T) : timer_is_active (rearm arm us t) = arm.
Proof.
  unfold rearm. pose proof (stop_if_active t) as Hs.
  destruct arm; [by apply start_once_checked | done].
Qed.

(** The common suffix of an event and of a position resolution: execute the
    actions on the machine's new state, then manage the timers. *)
Definition settle (out : Outputs) (m : StateMachine) g : GateController Q T :=
  manage_timers out (execute out (set_sm m g)).

Lemma execute_set_sm_frame out m g :
  let g' := execute out (set_sm m g) in
  gc_cfg g' = gc_cfg g /\ gc_sm g' = m /\ gc_queue g' = gc_queue g /\
  watchdog_timer g' = watchdog_timer g /\ autoclose_timer g' = autoclose_timer g /\
  phase g' = phase g /\
  (limit_open g' = limit_open g /\ limit_closed g' = limit_closed g /\ beam g' = beam g) /\
  (notified g' = notified g /\ dropped g' = dropped g /\ unheard g' = unheard g).
Proof. pose proof (execute_core out (set_sm m g)) as H. unfold core in H. by simplify_eq/=. Qed.

Lemma manage_timers_frame out g :
  let g' := manage_timers out g in
  gc_cfg g' = gc_cfg g /\ gc_sm g' = gc_sm g /\ gc_queue g' = gc_queue g /\
  phase g' = phase g /\
  (limit_open g' = limit_open g /\ limit_closed g' = limit_closed g /\ beam g' = beam g) /\
  (notified g' = notified g /\ dropped g' = dropped g /\ unheard g' = unheard g) /\
  relay_open g' = relay_open g /\ relay_close g' = relay_close g /\ led g' = led g /\
  gpio_log g' = gpio_log g /\ state_snapshot g' = state_snapshot g /\
  reason_snapshot g' = reason_snapshot g.
Proof. unfold manage_timers. by destruct (transitioned out). Qed.

Lemma settle_frame out m g :
  gc_cfg (settle out m g) = gc_cfg g /\ gc_sm (settle out m g) = m /\
  gc_queue (settle out m g) = gc_queue g /\ phase (settle out m g) = phase g /\
  beam (settle out m g) = beam g /\ dropped (settle out m g) = dropped g /\
  unheard (settle out m g) = unheard g /\ snapshots_ok (settle out m g).
Proof.
  unfold settle, snapshots_ok.
  pose proof (execute_set_sm_frame out m g) as
    (E1 & E2 & E3 & E4 & E5 & E6 & (E7 & E8 & E9) & (E10 & E11 & E12)).
  pose proof (execute_snapshots out (set_sm m g)) as [S1 S2].
  pose proof (manage_timers_frame out (execute out (set_sm m g))) as
    (M1 & M2 & M3 & M4 & (M5 & M6 & M7) & (M8 & M9 & M10) & M11 & M12 & M13 & M14 & M15 & M16).
  split_and!; congruence.
Qed.

Lemma settle_watchdog out m g :
  timer_is_active (watchdog_timer (settle out m g)) =
  if transitioned out
  then moving (new_state out) && (0 <? motor_timeout_ms (gcfg_sm (gc_cfg g)))
  else timer_is_active (watchdog_timer g).
Proof.
  pose proof (execute_set_sm_frame out m g) as (E1 & _ & _ & E4 & _).
  unfold settle. revert E1 E4. generalize (execute out (set_sm m g)) as g1. intros g1 E1 E4.
  unfold manage_timers. destruct (transitioned out); simpl.
  - by rewrite rearm_active, E1.
  - by rewrite E4.
Qed.

Lemma settle_autoclose out m g :
  timer_is_active (autoclose_timer (settle out m g)) =
  if transitioned out
  then bool_decide (new_state out = Open) && (0 <? auto_close_ms (gcfg_sm (gc_cfg g)))
  else timer_is_active (autoclose_timer g).
Proof.
  pose proof (execute_set_sm_frame out m g) as (E1 & _ & _ & _ & E5 & _).
  unfold settle. revert E1 E5. generalize (execute out (set_sm m g)) as g1. intros g1 E1 E5.
  unfold manage_timers. destruct (transitioned out); simpl.
  - by rewrite rearm_active, E1.
  - by rewrite E5.
Qed.

Lemma settle_relays out m g :
  relays_ok g ->
  motor_actions (motor_of (state_ (gc_sm g))) (emitted out) = motor_of (state_ m) ->
  relays_ok (settle out m g).
Proof.
  intros Hr Hm. unfold relays_ok. pose proof (settle_frame out m g) as (_ & -> & _).
  unfold settle.
  pose proof (manage_timers_frame out (execute out (set_sm m g))) as H.
  cbv zeta in H. destruct H as (_&_&_&_&_&_& -> & -> & _).
  rewrite <- Hm. apply execute_motor. exact Hr.
Qed.

Lemma settle_elec out m g :
  pins_distinct (gcfg_pins (gc_cfg g)) -> elec_ok g -> elec_ok (settle out m g).
Proof.
  intros Hd Hok. unfold settle.
  pose proof (execute_elec out (set_sm m g) Hd Hok) as He.
  pose proof (manage_timers_frame out (execute out (set_sm m g))) as H. cbv zeta in H.
  destruct H as (M1 & _ & _ & _ & _ & _ & M11 & M12 & M13 & M14 & _).
  unfold elec_ok, wiring_ok in *. by rewrite M1, M11, M12, M13, M14.
Qed.

(** [post] either appends the event or, on a full queue, drops it. *)
Lemma post_cases ev g :
  (exists q, post ev g = set_queue q g /\
     queue_items q = queue_items (gc_queue g) ++ [ev] /\
     queue_depth q = queue_depth (gc_queue g) /\
     (length (queue_items (gc_queue g)) < queue_depth (gc_queue g))%nat) \/
  (post ev g = add_dropped ev g /\
   (queue_depth (gc_queue g) <= length (queue_items (gc_queue g)))%nat).
Proof.
  unfold post.
  destruct (decide (length (queue_items (gc_queue g)) < queue_depth (gc_queue g))%nat) as [H|H].
  - destruct (queue_send_room (gc_queue g) ev H) as (q & -> & Hi & Hd). left. by exists q.
  - rewrite queue_send_full by lia. right. split; [done | lia].
Qed.

Definition gc_inv g : Prop :=
  sm_inv (gc_sm g) /\ relays_ok g /\ snapshots_ok g /\ watchdog_ok g /\ beam_ok g /\
  queue_depth (gc_queue g) = kQueueDepth /\
  (length (queue_items (gc_queue g)) <= kQueueDepth)%nat /\
  (match phase g with
   | NotStarted | Settling | Latched => state_ (gc_sm g) = Initializing | _ => True end).

Lemma foldl_latch_no_beam b l : no_beam_event l -> foldl latch b l = b.
Proof.
  revert b. induction l as [|ev l IH]; intros b Hl; [done|].
  apply Forall_cons in Hl as [Hev Hl]. simpl. rewrite IH by done. by destruct ev.
Qed.

Lemma no_beam_snoc l ev : no_beam_event (l ++ [ev]) -> is_beam_event ev = false.
Proof. unfold no_beam_event. by rewrite Forall_app, Forall_singleton; intros [_ ?]. Qed.

Lemma post_inv ev g : is_beam_event ev = false -> gc_inv g -> gc_inv (post ev g).
Proof.
  intros Hev (Hsm & Hr & Hs & Hw & Hb & Hd & Hl & Hp).
  destruct (post_cases ev g) as [(q & -> & Hi & Hdq & Hroom) | [-> Hfull]];
    unfold gc_inv, relays_ok, snapshots_ok, watchdog_ok, beam_ok in *; simpl.
  - rewrite Hi, Hdq, length_app, foldl_app. simpl. split_and!; try done; try apply Hs.
    + intros H1 H2. rewrite elem_of_app. naive_solver.
    + unfold no_beam_event in *.
      destruct (phase g); rewrite ?Forall_app, ?Forall_singleton; destruct ev; naive_solver.
    + rewrite Hd in Hroom. lia.
  - split_and!; try done; try apply Hs.
    + intros H1 H2. rewrite elem_of_app. naive_solver.
    + unfold no_beam_event in *.
      destruct (phase g); rewrite ?Forall_app, ?Forall_singleton; naive_solver.
Qed.

(** Facts of a machine call that the controller needs. *)
Lemma handle_timeout_moving m :
  moving (state_ m) = true -> transitioned (handle m MotorTimeout).2 = true.
Proof. sm_eval m; done. Qed.

(** The invariant after an event has been taken from the queue: [g] is the
    controller with the event already removed, [b0] the latch before. *)
Lemma settle_handle_inv ev q g :
  gc_inv g -> phase g = Running ->
  queue_items (gc_queue g) = ev :: queue_items q -> queue_depth q = queue_depth (gc_queue g) ->
  gc_inv (settle (handle (gc_sm g) ev).2 (handle (gc_sm g) ev).1 (set_queue q g)).
Proof.
  intros (Hsm & Hr & Hs & Hw & Hb & Hd & Hl & Hp) Hph Hi Hdq.
  set (m := (handle (gc_sm g) ev).1). set (out := (handle (gc_sm g) ev).2).
  pose proof (settle_frame out m (set_queue q g)) as (F1 & F2 & F3 & F4 & F5 & F6 & F7 & F8).
  pose proof (settle_watchdog out m (set_queue q g)) as Hwd. simpl in *.
  unfold gc_inv. split_and!.
  - rewrite F2. by apply handle_inv.
  - apply settle_relays; [exact Hr | apply handle_motor].
  - exact F8.
  - unfold watchdog_ok in *. rewrite F1, F2, F3, F6, Hwd. intros Ht Hmv.
    destruct (transitioned out) eqn:Htr.
    + left. subst out. rewrite handle_new_state. fold m. rewrite Hmv. by apply Z.ltb_lt.
    + destruct (handle_untransitioned (gc_sm g) ev Htr) as [Hst _]. fold m in Hst.
      rewrite Hst in Hmv. destruct (Hw Ht Hmv) as [?|[Hin|?]]; auto.
      rewrite Hi, elem_of_cons in Hin. destruct Hin as [<-|?]; auto.
      unfold out in Htr. by rewrite handle_timeout_moving in Htr.
  - unfold beam_ok in *. rewrite F2, F3, F4, F5, F6, F7, Hph in *. rewrite Hi in Hb.
    simpl in Hb. subst m. rewrite handle_latch. destruct Hb as [_ Hb]. by split.
  - by rewrite F3, Hdq.
  - rewrite F3. rewrite Hi in Hl. simpl in Hl. lia.
  - by rewrite F4, Hph.
Qed.

(** Resolving the position: one of the three [init_*] calls. *)
Definition resolve_call g : Call :=
  if LimitSwitch_is_active (limit_closed g) && negb (LimitSwitch_is_active (limit_open g))
  then CallInitClosed
  else if LimitSwitch_is_active (limit_open g) && negb (LimitSwitch_is_active (limit_closed g))
  then CallInitOpen else CallInitUnknown.

Lemma resolve_boot_position_settle g :
  resolve_boot_position g =
  settle (call (gc_sm g) (resolve_call g)).2 (call (gc_sm g) (resolve_call g)).1 g.
Proof.
  unfold resolve_boot_position, resolve_call, settle, call.
  destruct (LimitSwitch_is_active (limit_closed g)), (LimitSwitch_is_active (limit_open g)); done.
Qed.

Lemma resolve_call_facts g :
  let r := call (gc_sm g) (resolve_call g) in
  moving (state_ r.1) = false /\ beam_clear_ r.1 = beam_clear_ (gc_sm g) /\
  transitioned r.2 = true.
Proof.
  unfold resolve_call.
  destruct (LimitSwitch_is_active (limit_closed g)), (LimitSwitch_is_active (limit_open g)); done.
Qed.

Lemma resolve_inv g :
  gc_inv g -> phase g = Running -> gc_inv (resolve_boot_position g).
Proof.
  intros (Hsm & Hr & Hs & Hw & Hb & Hd & Hl & Hp) Hph.
  rewrite resolve_boot_position_settle.
  pose proof (resolve_call_facts g) as (R1 & R2 & R3).
  pose proof (call_inv (gc_sm g) (resolve_call g) Hsm) as Hinv.
  pose proof (call_motor (gc_sm g) (resolve_call g)) as Hmot.
  destruct (call (gc_sm g) (resolve_call g)) as [m out]. simpl in *.
  pose proof (settle_frame out m g) as (F1 & F2 & F3 & F4 & F5 & F6 & F7 & F8).
  unfold gc_inv. split_and!; try done.
  - by rewrite F2.
  - by apply settle_relays.
  - unfold watchdog_ok. rewrite F2, R1. done.
  - unfold beam_ok in *. by rewrite F2, F3, F4, F5, F6, F7, R2.
  - by rewrite F3.
  - by rewrite F3.
  - by rewrite F4, Hph.
Qed.

(** During [start()]: the machine leaves Initializing, nothing moves. *)
Lemma resolve_latched_inv g :
  gc_inv g -> phase g = Latched -> gc_inv (set_phase Resolved (resolve_boot_position g)).
Proof.
  intros (Hsm & Hr & Hs & Hw & Hb & Hd & Hl & Hp) Hph.
  rewrite resolve_boot_position_settle.
  pose proof (resolve_call_facts g) as (R1 & R2 & R3).
  pose proof (call_inv (gc_sm g) (resolve_call g) Hsm) as Hinv.
  pose proof (call_motor (gc_sm g) (resolve_call g)) as Hmot.
  destruct (call (gc_sm g) (resolve_call g)) as [m out]. simpl in *.
  pose proof (settle_frame out m g) as (F1 & F2 & F3 & F4 & F5 & F6 & F7 & F8).
  pose proof (settle_relays out m g Hr Hmot) as Hr'.
  unfold gc_inv, watchdog_ok, beam_ok, snapshots_ok, relays_ok in *. simpl.
  rewrite F2 in *. rewrite ?F3, ?F5, ?F6, ?F7, ?R1, ?R2 in *.
  rewrite Hph in Hb. destruct Hb as [Hb1 Hb2].
  split_and!; try done; try apply F8. intros _. by apply Hb1.
Qed.

Lemma apply_policies_inv out g : gc_inv g -> gc_inv (apply_policies out g).
Proof.
  intros Hinv. unfold apply_policies.
  case_match; [by apply post_inv|]. case_match; [exact Hinv | done].
Qed.

Lemma apply_policies_phase out g : phase (apply_policies out g) = phase g.
Proof.
  unfold apply_policies. case_match; [|by case_match].
  destruct (post_cases CommandOpen g) as [(q & -> & _) | [-> _]]; done.
Qed.

(** The event the reverse policy posts, if any. *)
Definition policy_event (c : GateConfig) (out : Outputs) : list Event :=
  if reverse_on_beam c && transitioned out
     && bool_decide (new_state out = StoppedClose)
     && bool_decide (out_reason out = SafetyBeamObstacle)
  then [CommandOpen] else [].

Lemma apply_policies_frame out g :
  gc_sm (apply_policies out g) = gc_sm g /\
  ((length (queue_items (gc_queue g)) < queue_depth (gc_queue g))%nat ->
   queue_items (gc_queue (apply_policies out g)) =
   queue_items (gc_queue g) ++ policy_event (gc_cfg g) out) /\
  phase (apply_policies out g) = phase g.
Proof.
  split_and!; [..|apply apply_policies_phase]; unfold apply_policies, policy_event.
  - case_match; [|by case_match].
    destruct (post_cases CommandOpen g) as [(q & -> & _) | [-> _]]; done.
  - intros Hroom. case_match; [|rewrite app_nil_r; by case_match].
    destruct (post_cases CommandOpen g) as [(q & -> & Hi & _) | [_ Hf]]; [done | lia].
Qed.

Lemma notify_inv (b : bool) n g :
  gc_inv g -> gc_inv (if b then add_notified n g else g).
Proof. by destruct b. Qed.

Lemma notify_phase (b : bool) n g : phase (if b then add_notified n g else g) = phase g.
Proof. by destruct b. Qed.

Lemma pump_inv g g' : gc_inv g -> pump g = Some g' -> gc_inv g'.
Proof.
  intros Hinv Hpump. unfold pump in Hpump.
  destruct (phase g) eqn:Hph; try discriminate.
  destruct (queue_items (gc_queue g)) as [|ev l] eqn:Hi.
  { rewrite queue_receive_empty in Hpump by done. by simplify_eq. }
  destruct (queue_receive_front (gc_queue g) ev l Hi) as (q & Hq & Hqi & Hqd).
  rewrite Hq in Hpump. simplify_eq. unfold pump_event.
  pose proof (settle_handle_inv ev q g Hinv Hph) as Hset.
  specialize (Hset Hi Hqd).
  change (gc_sm (set_queue q g)) with (gc_sm g).
  destruct (handle (gc_sm g) ev) as [m out] eqn:Eh. simpl in Hset.
  fold (settle out m (set_queue q g)).
  pose proof (settle_frame out m (set_queue q g)) as (_ & _ & _ & F4 & _).
  apply (apply_policies_inv out) in Hset.
  assert (Hphase : phase (apply_policies out (settle out m (set_queue q g))) = Running).
  { rewrite apply_policies_phase, F4. done. }
  set (g1 := apply_policies out _) in *.
  case_match.
  - apply resolve_inv; [by apply notify_inv | by rewrite notify_phase].
  - by apply notify_inv.
Qed.

Lemma notify_frame (b : bool) n g :
  gc_sm (if b then add_notified n g else g) = gc_sm g /\
  gc_queue (if b then add_notified n g else g) = gc_queue g.
Proof. by destruct b. Qed.

(** One pump iteration on a queue with room, for an event other than the
    fault reset: the machine steps and the policy's event is appended. *)
Lemma pump_front g ev l :
  gc_inv g -> phase g = Running -> queue_items (gc_queue g) = ev :: l ->
  exists g', pump g = Some g' /\
    (ev <> FaultCleared -> gc_sm g' = (handle (gc_sm g) ev).1) /\
    (ev <> FaultCleared ->
     queue_items (gc_queue g') = l ++ policy_event (gc_cfg g) (handle (gc_sm g) ev).2) /\
    gc_inv g' /\ phase g' = Running.
Proof.
  intros Hinv Hph Hi.
  destruct (queue_receive_front (gc_queue g) ev l Hi) as (q & Hq & Hqi & Hqd).
  assert (Hpump : pump g = Some (pump_event ev (set_queue q g))).
  { unfold pump. by rewrite Hph, Hq. }
  exists (pump_event ev (set_queue q g)).
  pose proof (pump_inv g _ Hinv Hpump) as Hinv'.
  split; [done|]. unfold pump_event in *.
  change (gc_sm (set_queue q g)) with (gc_sm g) in *.
  destruct (handle (gc_sm g) ev) as [m out]. simpl.
  fold (settle out m (set_queue q g)) in *.
  pose proof (settle_frame out m (set_queue q g)) as (F1 & F2 & F3 & F4 & _). simpl in *.
  destruct Hinv as (_ & _ & _ & _ & _ & Hd & Hl & _). rewrite Hi in Hl. simpl in Hl.
  pose proof (apply_policies_frame out (settle out m (set_queue q g))) as (A1 & A2 & A3).
  rewrite F1, F3, Hqi, Hqd, Hd in A2. specialize (A2 ltac:(lia)).
  split_and!; [..|done|].
  - intros Hne. rewrite (bool_decide_eq_false_2 (ev = FaultCleared)) by done. simpl.
    rewrite (proj1 (notify_frame _ _ _)). by rewrite A1, F2.
  - intros Hne. rewrite (bool_decide_eq_false_2 (ev = FaultCleared)) by done. simpl.
    rewrite (proj2 (notify_frame _ _ _)). by rewrite A2.
  - set (g1 := if transitioned out || _ then _ else _) in *.
    assert (Hg1 : phase g1 = Running) by (unfold g1; by rewrite notify_phase, A3, F4).
    destruct (_ && bool_decide (new_state out = Initializing)); [|done].
    rewrite resolve_boot_position_settle.
    pose proof (settle_frame (call (gc_sm g1) (resolve_call g1)).2
                  (call (gc_sm g1) (resolve_call g1)).1 g1) as (_ & _ & _ & E & _).
    by rewrite E.
Qed.

(** The refusal that restarts the auto-close countdown. *)
Definition close_refused (c : GateConfig) (out : Outputs) : bool :=
  bool_decide (new_state out = Open) && bool_decide (out_reason out = SafetyBeamObstacle)
  && (0 <? auto_close_ms (gcfg_sm c)).

Lemma apply_policies_timers out g :
  timer_is_active (watchdog_timer (apply_policies out g)) = timer_is_active (watchdog_timer g) /\
  timer_is_active (autoclose_timer (apply_policies out g)) =
    (negb (transitioned out) && close_refused (gc_cfg g) out
     || timer_is_active (autoclose_timer g)) /\
  gc_cfg (apply_policies out g) = gc_cfg g.
Proof.
  unfold apply_policies, close_refused. destruct (transitioned out); cbn [negb andb orb].
  - rewrite andb_true_r. destruct (_ && _ && _); [|done].
    destruct (post_cases CommandOpen g) as [(q & -> & _) | [-> _]]; done.
  - rewrite andb_false_r. cbn [andb]. destruct (_ && _ && _); [|done].
    split_and!; [done | apply rearm_active | done].
Qed.

(** The timers after one pump iteration. *)
Lemma pump_front_timers g g' ev l :
  phase g = Running -> queue_items (gc_queue g) = ev :: l -> ev <> FaultCleared ->
  pump g = Some g' ->
  let out := (handle (gc_sm g) ev).2 in
  gc_cfg g' = gc_cfg g /\
  timer_is_active (watchdog_timer g') =
    (if transitioned out
     then moving (new_state out) && (0 <? motor_timeout_ms (gcfg_sm (gc_cfg g)))
     else timer_is_active (watchdog_timer g)) /\
  timer_is_active (autoclose_timer g') =
    (if transitioned out
     then bool_decide (new_state out = Open) && (0 <? auto_close_ms (gcfg_sm (gc_cfg g)))
     else close_refused (gc_cfg g) out || timer_is_active (autoclose_timer g)).
Proof.
  intros Hph Hi Hne Hpump.
  destruct (queue_receive_front (gc_queue g) ev l Hi) as (q & Hq & Hqi & Hqd).
  unfold pump in Hpump. rewrite Hph, Hq in Hpump. injection Hpump as <-.
  unfold pump_event. change (gc_sm (set_queue q g)) with (gc_sm g).
  destruct (handle (gc_sm g) ev) as [m out]. cbn [snd fst].
  fold (settle out m (set_queue q g)).
  rewrite (bool_decide_eq_false_2 (ev = FaultCleared)) by done. cbn [andb].
  pose proof (settle_frame out m (set_queue q g)) as (F1 & _).
  pose proof (settle_watchdog out m (set_queue q g)) as Hw.
  pose proof (settle_autoclose out m (set_queue q g)) as Ha.
  pose proof (apply_policies_timers out (settle out m (set_queue q g))) as (P1 & P2 & P3).
  set (g1 := apply_policies out _) in *. clearbody g1.
  rewrite F1 in P2, P3. rewrite Hw in P1. rewrite Ha in P2. cbn [set_queue gc_cfg] in *.
  assert (Hn : forall b : bool, let g2 := if b then add_notified
      (new_state out, out_reason out, transitioned out) g1 else g1 in
    gc_cfg g2 = gc_cfg g1 /\ watchdog_timer g2 = watchdog_timer g1 /\
    autoclose_timer g2 = autoclose_timer g1) by (by intros []).
  destruct (Hn (transitioned out || negb (bool_decide (out_reason out = ReasonNone))))
    as (-> & -> & ->).
  rewrite P1, P2, P3. split_and!; try done. by destruct (transitioned out).
Qed.

Lemma debounce_poll_commit d s :
  committed (debounce_poll d s).1 = match (debounce_poll d s).2 with
                                    | Some v => v | None => committed d end.
Proof.
  unfold debounce_poll. destruct d as [c l st n]; simpl.
  destruct s, l, c; simpl; try done; by destruct (u32 (st + 1) <? n).
Qed.

Lemma set_inputs_inv lo lc g :
  gc_inv g -> gc_inv (set_inputs lo lc (beam g) g).
Proof. done. Qed.

Lemma edge_inv ev g : is_beam_event ev = false -> gc_inv g -> gc_inv (edge ev g).
Proof.
  intros Hev Hinv. unfold edge. destruct (phase g) eqn:Hph; try done; [| |by apply post_inv].
  all: destruct Hinv as (Hsm & Hr & Hs & Hw & Hb & Hd & Hl & Hp);
    unfold gc_inv, relays_ok, snapshots_ok, watchdog_ok, beam_ok in *; simpl;
    rewrite Hph in *; (split_and!; try done; try apply Hs); [naive_solver|];
    intros H1 [H2 _]%Forall_app; naive_solver.
Qed.

Lemma poll_limit_open_inv raw g : gc_inv g -> gc_inv (poll_limit_open raw g).
Proof.
  intros Hinv. unfold poll_limit_open. destruct (LimitSwitch_on_poll _ _ _) as [d [v|]].
  - apply edge_inv; [by destruct v | by apply set_inputs_inv].
  - by apply set_inputs_inv.
Qed.

Lemma poll_limit_closed_inv raw g : gc_inv g -> gc_inv (poll_limit_closed raw g).
Proof.
  intros Hinv. unfold poll_limit_closed. destruct (LimitSwitch_on_poll _ _ _) as [d [v|]].
  - apply edge_inv; [by destruct v | by apply set_inputs_inv].
  - by apply set_inputs_inv.
Qed.

(** A beam edge moves the committed level and, once callbacks are set,
    queues the event that brings the latch there. *)
Lemma poll_beam_inv raw g : gc_inv g -> gc_inv (poll_beam raw g).
Proof.
  intros (Hsm & Hr & Hs & Hw & Hb & Hd & Hl & Hp). unfold poll_beam, SafetyBeam_on_poll.
  pose proof (debounce_poll_commit (beam g)
                (SafetyBeam_read_blocked (beam_cfg (gc_cfg g)) raw)) as Hc.
  destruct (debounce_poll _ _) as [d cb]. simpl in Hc.
  destruct cb as [v|]; [|subst; unfold gc_inv, beam_ok in *; simpl; by rewrite Hc].
  set (ev := if v then SafetyBeamTripped else SafetyBeamCleared).
  set (g1 := set_inputs (limit_open g) (limit_closed g) d g).
  assert (Hlatch : forall b, latch b ev = negb v) by (by destruct v).
  assert (Hbe : is_beam_event ev = true) by (by destruct v).
  clearbody ev.
  unfold edge. change (phase g1) with (phase g).
  unfold gc_inv, relays_ok, snapshots_ok, watchdog_ok, beam_ok in *.
  destruct (phase g) eqn:Hph; simpl; rewrite ?Hph in *; try done.
  - split_and!; try done; try apply Hs; [naive_solver|].
    intros _ Hf%no_beam_snoc. congruence.
  - split_and!; try done; try apply Hs; [naive_solver|].
    intros _ Hf%no_beam_snoc. congruence.
  - destruct (post_cases ev g1) as [(q & -> & Hi & Hdq & Hroom) | [-> Hfull]]; simpl in *;
      rewrite ?Hph; simpl.
    + rewrite Hi, Hdq, length_app, foldl_app. simpl.
      split_and!; try done; try apply Hs.
      * intros H1 H2. rewrite elem_of_app. naive_solver.
      * intros _ _. by rewrite Hlatch, Hc.
      * rewrite Hd in Hroom. lia.
    + split_and!; try done; try apply Hs.
      * intros H1 H2. rewrite elem_of_app. naive_solver.
      * intros Hf%no_beam_snoc. congruence.
Qed.

Lemma watchdog_inv g g' : gc_inv g -> watchdog_fires g = Some g' -> gc_inv g'.
Proof.
  unfold watchdog_fires. destruct (timer_is_active (watchdog_timer g)) eqn:Ha; [|done].
  intros (Hsm & Hr & Hs & Hw & Hb & Hd & Hl & Hp) [= <-].
  destruct (post_cases MotorTimeout (set_watchdog (timer_expire (watchdog_timer g)) g))
    as [(q & -> & Hi & Hdq & Hroom) | [-> Hfull]]; simpl in *;
    unfold gc_inv, relays_ok, snapshots_ok, watchdog_ok, beam_ok in *; simpl.
  - rewrite Hi, Hdq, length_app, foldl_app. simpl. unfold no_beam_event in *.
    split_and!; try done; try apply Hs.
    + intros _ _. rewrite elem_of_app. set_solver.
    + destruct (phase g); rewrite ?Forall_app, ?Forall_singleton; naive_solver.
    + rewrite Hd in Hroom. lia.
  - unfold no_beam_event in *. split_and!; try done; try apply Hs.
    + intros _ _. rewrite elem_of_app. set_solver.
    + destruct (phase g); rewrite ?Forall_app, ?Forall_singleton; naive_solver.
Qed.

Lemma autoclose_inv g g' : gc_inv g -> autoclose_fires g = Some g' -> gc_inv g'.
Proof.
  unfold autoclose_fires. destruct (timer_is_active (autoclose_timer g)); [|done].
  intros Hinv [= <-]. apply post_inv; done.
Qed.

Lemma start_call_inv g : gc_inv g -> gc_inv (start_call g).
Proof.
  intros Hinv. unfold start_call. destruct (phase g) eqn:Hph; try done.
  unfold gc_inv, beam_ok in *. simpl. by rewrite Hph in Hinv.
Qed.

Lemma handle_tripped_initializing m :
  state_ m = Initializing -> (handle m SafetyBeamTripped).1 = set_beam_clear false m.
Proof. destruct m as [c s r b]. simpl. by intros ->. Qed.

Lemma start_continue_inv g : gc_inv g -> gc_inv (start_continue g).
Proof.
  intros Hinv. unfold start_continue. destruct (phase g) eqn:Hph; try done.
  - destruct Hinv as (Hsm & Hr & Hs & Hw & Hb & Hd & Hl & Hp).
    rewrite Hph in Hp. unfold beam_ok in Hb. rewrite Hph in Hb. destruct Hb as [Hb1 Hb2].
    rewrite handle_tripped_initializing by done. unfold SafetyBeam_is_blocked.
    destruct (committed (beam g)) eqn:Hcb;
      unfold gc_inv, relays_ok, snapshots_ok, watchdog_ok, beam_ok, sm_inv in *; simpl;
      (split_and!; try done; try apply Hs; try apply Hsm);
      try (by rewrite Hp); intros _ _; rewrite foldl_latch_no_beam by done;
      simpl; by rewrite ?Hb1, ?Hcb.
  - by apply resolve_latched_inv.
  - destruct Hinv as (Hsm & Hr & Hs & Hw & Hb & Hd & Hl & Hp).
    unfold gc_inv, beam_ok in *. simpl. rewrite Hph in Hb. naive_solver.
Qed.

(** The electrical part is touched only by [execute] and the LED. *)
Definition elec g := (gc_cfg g, relay_open g, relay_close g, led g, gpio_log g).

Lemma elec_ok_ext g g' : elec g' = elec g -> elec_ok g -> elec_ok g'.
Proof. unfold elec. intros [= E1 E2 E3 E4 E5]. unfold elec_ok, wiring_ok. congruence. Qed.

Lemma post_elec ev g : elec (post ev g) = elec g.
Proof. destruct (post_cases ev g) as [(q & -> & _) | [-> _]]; done. Qed.

Lemma edge_elec ev g : elec (edge ev g) = elec g.
Proof. unfold edge. destruct (phase g); try done. apply post_elec. Qed.

Lemma apply_policies_elec out g : elec (apply_policies out g) = elec g.
Proof. unfold apply_policies. case_match; [apply post_elec | by case_match]. Qed.

Lemma elec_cfg g g' : elec g = elec g' -> gc_cfg g = gc_cfg g'.
Proof. unfold elec. by intros [=]. Qed.

Lemma resolve_elec g :
  pins_distinct (gcfg_pins (gc_cfg g)) -> elec_ok g -> elec_ok (resolve_boot_position g).
Proof. rewrite resolve_boot_position_settle. apply settle_elec. Qed.

Lemma resolve_cfg g : gc_cfg (resolve_boot_position g) = gc_cfg g.
Proof. rewrite resolve_boot_position_settle. apply settle_frame. Qed.

Lemma pump_event_elec ev g :
  pins_distinct (gcfg_pins (gc_cfg g)) -> elec_ok g ->
  elec_ok (pump_event ev g) /\ gc_cfg (pump_event ev g) = gc_cfg g.
Proof.
  intros Hd Hok. unfold pump_event. destruct (handle (gc_sm g) ev) as [m out].
  fold (settle out m g).
  pose proof (settle_elec out m g Hd Hok) as Hs.
  pose proof (settle_frame out m g) as (F1 & _).
  pose proof (apply_policies_elec out (settle out m g)) as He.
  pose proof (elec_ok_ext _ _ He Hs) as Hok1.
  pose proof (elec_cfg _ _ He) as Hc1.
  set (g1 := apply_policies out (settle out m g)) in *.
  assert (Hn : forall b : bool, elec (if b then add_notified
                 (new_state out, out_reason out, transitioned out) g1 else g1) = elec g1)
    by (by intros []).
  case_match.
  - split; [|rewrite resolve_cfg, (elec_cfg _ _ (Hn _)); congruence].
    apply resolve_elec; [rewrite (elec_cfg _ _ (Hn _)); congruence|].
    exact (elec_ok_ext _ _ (Hn _) Hok1).
  - split; [exact (elec_ok_ext _ _ (Hn _) Hok1) | rewrite (elec_cfg _ _ (Hn _)); congruence].
Qed.

Lemma gc_do_elec op g g' :
  pins_distinct (gcfg_pins (gc_cfg g)) -> elec_ok g -> gc_do op g = Some g' ->
  elec_ok g' /\ gc_cfg g' = gc_cfg g.
Proof.
  intros Hd Hok.
  assert (Hext : forall g', elec g' = elec g -> elec_ok g' /\ gc_cfg g' = gc_cfg g).
  { intros g0 He. split; [by eapply elec_ok_ext | by apply elec_cfg]. }
  destruct op; simpl; try (intros [= <-]; apply Hext; apply post_elec).
  - intros [= <-]. apply Hext. unfold start_call. by destruct (phase g).
  - intros [= <-]. unfold start_continue. destruct (phase g); try (by apply Hext).
    + apply Hext. by destruct (SafetyBeam_is_blocked (beam g)).
    + split; [by apply resolve_elec | apply resolve_cfg].
  - intros [= <-]. split; [by apply render_led_elec|].
    exact (core_cfg _ _ (render_led_core p g)).
  - case_match; [|done]. intros [= <-]. split; [by apply led_tick_elec|].
    unfold led_tick. by destruct (on_tick (led g)).
  - intros [= <-]. apply Hext. unfold poll_limit_open.
    destruct (LimitSwitch_on_poll _ _ _) as [d [v|]]; [by rewrite edge_elec | done].
  - intros [= <-]. apply Hext. unfold poll_limit_closed.
    destruct (LimitSwitch_on_poll _ _ _) as [d [v|]]; [by rewrite edge_elec | done].
  - intros [= <-]. apply Hext. unfold poll_beam.
    destruct (SafetyBeam_on_poll _ _ _) as [d [v|]]; [by rewrite edge_elec | done].
  - unfold watchdog_fires. case_match; [|done]. intros [= <-]. apply Hext.
    by rewrite post_elec.
  - unfold autoclose_fires. case_match; [|done]. intros [= <-]. apply Hext.
    by rewrite post_elec.
  - unfold pump. destruct (phase g); try done.
    destruct (queue_receive (gc_queue g)) as [[ev q]|]; intros [= <-]; [|by apply Hext].
    by apply (pump_event_elec ev (set_queue q g)).
Qed.

Lemma gc_do_inv op g g' : gc_inv g -> gc_do op g = Some g' -> gc_inv g'.
Proof.
  intros Hinv. destruct op; simpl; try (intros [= <-]; by apply post_inv).
  - intros [= <-]. by apply start_call_inv.
  - intros [= <-]. by apply start_continue_inv.
  - intros [= <-]. unfold show_led_pattern, render_led. by destruct (render p (led g)).
  - case_match; [|done]. intros [= <-]. unfold led_tick. by destruct (on_tick (led g)).
  - intros [= <-]. by apply poll_limit_open_inv.
  - intros [= <-]. by apply poll_limit_closed_inv.
  - intros [= <-]. by apply poll_beam_inv.
  - by apply watchdog_inv.
  - by apply autoclose_inv.
  - by apply pump_inv.
Qed.

Lemma new_inv c ro rc rb : gc_inv (GateController_new c ro rc rb).
Proof.
  unfold gc_inv, beam_ok, no_beam_event. simpl.
  rewrite queue_create_items, queue_create_depth.
  split_and!; try done; simpl; try lia; try (by apply Forall_nil).
Qed.

Lemma new_elec c ro rc rb :
  pins_distinct (gcfg_pins c) -> elec_ok (GateController_new c ro rc rb).
Proof.
  intros Hd. split; [split_and!; done|]. cbn -[gpio_ok app write_gpio set_color].
  rewrite app_assoc. apply gpio_ok_led; [done|].
  assert (Hne : pin_relay_open (gcfg_pins c) <> pin_relay_close (gcfg_pins c)).
  { unfold pins_distinct in Hd. rewrite !NoDup_cons in Hd. set_solver. }
  apply (gpio_ok_close _ _ false false); [done | naive_solver |].
  apply (gpio_ok_open _ [] false false); [done | naive_solver |].
  split_and!; try done. intros n. rewrite take_nil. by intros [? _].
Qed.

Lemma gc_reachable_inv c g : gc_reachable c g -> gc_inv g.
Proof. induction 1; [apply new_inv | by eapply gc_do_inv]. Qed.

Lemma gc_reachable_elec c g :
  pins_distinct (gcfg_pins c) -> gc_reachable c g -> elec_ok g /\ gc_cfg g = c.
Proof.
  intros Hd. induction 1 as [|g op g' _ [IH1 IH2] Hdo]; [split; [by apply new_elec | done]|].
  destruct (gc_do_elec op g g') as [H1 H2]; [by rewrite IH2 | done | done |].
  split; [done | congruence].
Qed.

End lemmas.

(** ** Properties *)

Section properties.
Context {Q T : Type} `{!RtosQueue Event Q} `{!RtosQueueLaws Event Q}
        `{!EspTimer T} `{!EspTimerLaws T}.
Implicit Types g : GateController Q T.

(** C6: Break-before-make.  Whatever the tasks do and however they
    interleave, at no point of the history of GPIO writes are the open and
    the close contactor both energised, not even between two writes of one
    action. *)
Theorem coils_never_both_energised c g n
    (Hd : pins_distinct (gcfg_pins c)) (Hr : gc_reachable c g) :
  ~ both_energised (gcfg_pins c) (take n (gpio_log g)).
Proof.
  destruct (gc_reachable_elec c g Hd Hr) as [[_ (Hp & _)] Hc].
  rewrite Hc in Hp. apply Hp.
Qed.

(** The outputs follow the machine.  In every reachable state the
    level last written to the open contactor is on exactly in Opening, to
    the close contactor exactly in Closing, and the snapshots read by the
    other tasks are the machine's state and reason. *)
Theorem outputs_follow_machine c g
    (Hd : pins_distinct (gcfg_pins c)) (Hr : gc_reachable c g) :
  pin_level 0 (pin_relay_open (gcfg_pins c)) (gpio_log g)
    = Z.b2z (bool_decide (state_ (gc_sm g) = Opening)) /\
  pin_level 0 (pin_relay_close (gcfg_pins c)) (gpio_log g)
    = Z.b2z (bool_decide (state_ (gc_sm g) = Closing)) /\
  state_snapshot g = state_ (gc_sm g) /\ reason_snapshot g = reason_ (gc_sm g).
Proof.
  destruct (gc_reachable_elec c g Hd Hr) as [[_ (_ & Ho & Hc)] Hcfg].
  destruct (gc_reachable_inv c g Hr) as (_ & Hm & [Hs1 Hs2] & _).
  rewrite Hcfg in Ho, Hc. rewrite Ho, Hc. unfold relays_ok in Hm.
  destruct (relay_state (relay_open g)), (relay_state (relay_close g)),
    (state_ (gc_sm g)); simpl in Hm; by simplify_eq.
Qed.

(** C10: The motor never runs unwatched.  In every reachable state in which
    the gate is moving, with a watchdog budget configured, the watchdog is
    armed, or its expiry is already queued, or the full queue dropped it. *)
Theorem motion_is_watched c g (Hr : gc_reachable c g)
    (Ht : 0 < motor_timeout_ms (gcfg_sm (gc_cfg g)))
    (Hm : moving (state_ (gc_sm g)) = true) :
  timer_is_active (watchdog_timer g) = true \/
  MotorTimeout ∈ queue_items (gc_queue g) \/ MotorTimeout ∈ dropped g.
Proof. destruct (gc_reachable_inv c g Hr) as (_ & _ & _ & Hw & _). by apply Hw. Qed.

(** C11: The beam interlock is eventually consistent.  Once the controller
    runs, if no beam event was dropped by a full queue or missed during
    [start()], then as soon as no beam event is waiting in the queue the
    machine's latch equals the debounced sensor, so the gate is not
    closing over a blocked beam. *)
Theorem beam_latch_tracks_sensor c g (Hr : gc_reachable c g)
    (Hp : phase g = Running) (Hdr : no_beam_event (dropped g))
    (Hun : no_beam_event (unheard g)) (Hq : no_beam_event (queue_items (gc_queue g))) :
  beam_clear_ (gc_sm g) = negb (SafetyBeam_is_blocked (beam g)) /\
  (SafetyBeam_is_blocked (beam g) = true -> state_ (gc_sm g) <> Closing).
Proof.
  destruct (gc_reachable_inv c g Hr) as ([_ Hcl] & _ & _ & _ & Hb & _).
  unfold beam_ok in Hb. rewrite Hp in Hb. destruct Hb as [_ Hb].
  specialize (Hb Hdr Hun). rewrite foldl_latch_no_beam in Hb by done.
  split; [exact Hb|]. intros Hblk Hst. specialize (Hcl Hst).
  rewrite Hb in Hcl. unfold SafetyBeam_is_blocked in Hblk. by rewrite Hblk in Hcl.
Qed.

(** Position resolution.  From any state the controller resolves to
    Closed or Open only when exactly that limit is active, to Faulted with
    [LimitSwitchConflict] otherwise; the motor and its watchdog are off
    afterwards, and the auto-close countdown runs exactly when the gate
    resolved to Open with auto-close enabled. *)
Theorem resolve_boot_position_spec c g (Hr : gc_reachable c g) :
  let g' := resolve_boot_position g in
  let o := LimitSwitch_is_active (limit_open g) in
  let cl := LimitSwitch_is_active (limit_closed g) in
  state_ (gc_sm g') = (if cl && negb o then Closed else if o && negb cl then Open else Faulted) /\
  reason_ (gc_sm g') = (if eqb o cl then LimitSwitchConflict else ReasonNone) /\
  motor_of_relays (relay_state (relay_open g')) (relay_state (relay_close g'))
    = Some MotorOff /\
  timer_is_active (watchdog_timer g') = false /\
  timer_is_active (autoclose_timer g')
    = o && negb cl && (0 <? auto_close_ms (gcfg_sm (gc_cfg g))).
Proof.
  intros g' o cl. destruct (gc_reachable_inv c g Hr) as (Hsm & Hm & _).
  assert (Hrel : relays_ok g').
  { unfold g'. rewrite resolve_boot_position_settle.
    apply settle_relays; [done | apply call_motor]. }
  pose proof (settle_frame (call (gc_sm g) (resolve_call g)).2
                (call (gc_sm g) (resolve_call g)).1 g) as (F1 & F2 & _).
  pose proof (settle_watchdog (call (gc_sm g) (resolve_call g)).2
                (call (gc_sm g) (resolve_call g)).1 g) as Hwd.
  pose proof (settle_autoclose (call (gc_sm g) (resolve_call g)).2
                (call (gc_sm g) (resolve_call g)).1 g) as Hac.
  rewrite <- resolve_boot_position_settle in F2, Hwd, Hac. fold g' in F2, Hwd, Hac.
  unfold relays_ok in Hrel. rewrite Hrel, F2, Hwd, Hac. unfold resolve_call.
  fold o cl. destruct o, cl; simpl; done.
Qed.


(** A stop queued behind a beam break does not hold the gate.  The beam
    break halts the closing gate and queues the reversal after the stop
    command; the stop is ignored because the gate is already halted, and the
    reversal then drives the gate open. *)
Theorem stop_behind_beam_break_is_lost c g (Hr : gc_reachable c g)
    (Hp : phase g = Running) (Hrev : reverse_on_beam (gc_cfg g) = true)
    (Hst : state_ (gc_sm g) = Closing)
    (Hq : queue_items (gc_queue g) = [SafetyBeamTripped; CommandStop]) :
  exists g1 g2 g3, pump g = Some g1 /\ pump g1 = Some g2 /\ pump g2 = Some g3 /\
    state_ (gc_sm g2) = StoppedClose /\ state_ (gc_sm g3) = Opening /\
    queue_items (gc_queue g3) = [].
Proof.
  pose proof (gc_reachable_inv c g Hr) as Hinv.
  destruct (pump_front g SafetyBeamTripped [CommandStop] Hinv Hp Hq)
    as (g1 & P1 & S1 & Q1 & I1 & R1).
  specialize (S1 ltac:(done)). specialize (Q1 ltac:(done)).
  unfold policy_event in Q1. rewrite Hrev in Q1.
  destruct (gc_sm g) as [cc ss rr bb]; simpl in Hst; subst ss. cbn in S1, Q1.
  destruct (pump_front g1 CommandStop [CommandOpen] I1 R1 Q1) as (g2 & P2 & S2 & Q2 & I2 & R2).
  specialize (S2 ltac:(done)). specialize (Q2 ltac:(done)).
  unfold policy_event in Q2. rewrite S1 in S2, Q2. cbn in S2, Q2. rewrite andb_false_r in Q2.
  destruct (pump_front g2 CommandOpen [] I2 R2 Q2) as (g3 & P3 & S3 & Q3 & _).
  specialize (S3 ltac:(done)). specialize (Q3 ltac:(done)).
  unfold policy_event in Q3. rewrite S2 in S3, Q3. cbn in S3, Q3. rewrite andb_false_r in Q3.
  exists g1, g2, g3. rewrite S2, S3. done.
Qed.
End properties.

(** ** Runs on the concrete queue and timers *)

Notation Gate := (GateController (ListQueue Event) PeriodTimer).

Definition simulate (c : GateConfig) (ro rc rb : Z) (ops : list GcOp) : Gate :=
  let g := GateController_new c ro rc rb in default g (gc_run ops g).

Lemma simulate_reachable c ro rc rb ops : gc_reachable c (simulate c ro rc rb ops).
Proof.
  unfold simulate. destruct (gc_run ops _) as [g|] eqn:E; simpl; [|constructor].
  eapply gc_reachable_run; [constructor | exact E].
Qed.

Definition boot_ops : list GcOp :=
  [OpStartCall; OpStartContinue; OpStartContinue; OpStartContinue].

Definition beam_break_ops : list GcOp := replicate 5 (OpPollBeam 1).

(** A gate that boots open (raw level 0 is an active limit) and is closing. *)
Definition closing_ops : list GcOp := boot_ops ++ [OpCommandClose; OpPump].

Definition closing_gate : Gate := simulate GateConfig_default 0 1 0 closing_ops.

Lemma default_pins_distinct : pins_distinct (gcfg_pins GateConfig_default).
Proof. vm_compute. repeat constructor; set_solver. Qed.

Lemma coils_never_both_energised_witness :
  length (gpio_log closing_gate) = 9%nat /\
  ~ both_energised Pins_default (take 8 (gpio_log closing_gate)).
Proof.
  split; [vm_compute; reflexivity|].
  apply (coils_never_both_energised GateConfig_default closing_gate 8 default_pins_distinct).
  apply simulate_reachable.
Defined.

Lemma outputs_follow_machine_witness :
  pin_level 0 5 (gpio_log closing_gate) = 1.
Proof.
  destruct (outputs_follow_machine GateConfig_default closing_gate default_pins_distinct
              (simulate_reachable _ _ _ _ _)) as (_ & H & _).
  exact H.
Defined.

Lemma motion_is_watched_witness :
  timer_is_active (watchdog_timer closing_gate) = true \/
  MotorTimeout ∈ queue_items (gc_queue closing_gate) \/ MotorTimeout ∈ dropped closing_gate.
Proof.
  apply (motion_is_watched GateConfig_default closing_gate (simulate_reachable _ _ _ _ _));
    vm_compute; reflexivity.
Defined.

Definition blocked_gate : Gate :=
  simulate GateConfig_default 0 1 0 (closing_ops ++ beam_break_ops ++ [OpPump]).

Lemma beam_latch_tracks_sensor_witness :
  beam_clear_ (gc_sm blocked_gate) = negb (SafetyBeam_is_blocked (beam blocked_gate)) /\
  (SafetyBeam_is_blocked (beam blocked_gate) = true -> state_ (gc_sm blocked_gate) <> Closing).
Proof.
  apply (beam_latch_tracks_sensor GateConfig_default blocked_gate
           (simulate_reachable _ _ _ _ _)); [vm_compute; reflexivity | ..];
    vm_compute; repeat constructor.
Defined.

Lemma resolve_boot_position_spec_witness :
  state_ (gc_sm (resolve_boot_position
    (simulate GateConfig_default 1 0 0 [OpStartCall; OpStartContinue]))) = Closed.
Proof.
  apply (resolve_boot_position_spec GateConfig_default
           (simulate GateConfig_default 1 0 0 [OpStartCall; OpStartContinue])
           (simulate_reachable _ _ _ _ _)).
Defined.


Lemma stop_behind_beam_break_is_lost_witness :
  exists g1 g2 g3 : Gate,
    pump (simulate GateConfig_default 0 1 0 (closing_ops ++ beam_break_ops ++ [OpCommandStop]))
      = Some g1 /\
    pump g1 = Some g2 /\ pump g2 = Some g3 /\ state_ (gc_sm g3) = Opening.
Proof.
  destruct (stop_behind_beam_break_is_lost GateConfig_default
              (simulate GateConfig_default 0 1 0
                 (closing_ops ++ beam_break_ops ++ [OpCommandStop]))
              (simulate_reachable _ _ _ _ _)) as (g1 & g2 & g3 & P1 & P2 & P3 & _ & S3 & _);
    [vm_compute; reflexivity .. |].
  exists g1, g2, g3. exact (conj P1 (conj P2 (conj P3 S3))).
Defined.

(** A beam blocked while [start()] runs can be lost.  When the break is
    committed after the beam state was pre-latched and before the callbacks
    are registered, the running controller believes the beam clear, and a
    close command then drives the gate closed although the debounced sensor
    reports an obstacle. *)
Theorem start_window_loses_beam_break :
  exists (ops : list GcOp) (g : Gate),
    gc_run ops (GateController_new GateConfig_default 0 1 0) = Some g /\
    phase g = Running /\ dropped g = [] /\ queue_items (gc_queue g) = [] /\
    SafetyBeam_is_blocked (beam g) = true /\ beam_clear_ (gc_sm g) = true /\
    state_ (gc_sm g) = Closing /\
    pin_level 0 (pin_relay_close Pins_default) (gpio_log g) = 1.
Proof.
  exists ([OpStartCall; OpStartContinue; OpStartContinue] ++ beam_break_ops ++
          [OpStartContinue; OpCommandClose; OpPump]).
  eexists. split; [vm_compute; reflexivity|]. vm_compute. done.
Qed.
