(* ===== verification/CommandTracker.v ===== *)
(** Pending-command completion tracking
    (src/firmware/components/gate_rpc: command_tracker.hpp and .cpp).  The
    tracker holds at most one command and decides, from gate events and the
    clock, when it is finished and with which result. *)

From S2P Require Import Prelude StateMachine.
Local Open Scope Z_scope.

Definition kMaxCommandId : nat := 40.

(** [CommandTracker::Verdict]; [v_command_id] is the C string in the
    [char command_id[kMaxCommandId]] copy. *)
Record Verdict := mkVerdict {
  v_fire : bool;
  v_success : bool;
  v_command_id : string;
  v_error : string;
}.

(** [Verdict{}] and [return {};]. *)
Definition Verdict_none : Verdict := mkVerdict false false "" "".

(** The members of [CommandTracker]; [id_] is the C string the 40-byte
    buffer holds. *)
Record CommandTracker := mkTracker {
  id_ : string;
  terminal_ok_ : State;
  deadline_ms_ : Z;
  armed_ : bool;
}.

(** The default member initialisers; [State{}] is the enumerator 0. *)
Definition CommandTracker_new : CommandTracker := mkTracker "" Initializing 0 false.

(** [CommandTracker::resolve]. *)
Definition resolve (t : CommandTracker) (success : bool) (error : string)
    : CommandTracker * Verdict :=
  (mkTracker (id_ t) (terminal_ok_ t) (deadline_ms_ t) false,
   mkVerdict true success (id_ t) error).

(** [CommandTracker::arm]. *)
Definition arm (t : CommandTracker) (command_id : string) (terminal_ok : State)
    (deadline_ms : Z) : CommandTracker * Verdict :=
  let '(t, superseded) :=
    if armed_ t then resolve t false "superseded by a newer command"
    else (t, Verdict_none) in
  (mkTracker (cstr_copy kMaxCommandId command_id) terminal_ok deadline_ms true, superseded).

(** [CommandTracker::on_gate_event]. *)
Definition on_gate_event (t : CommandTracker) (s : State) (r : Reason) (transitioned : bool)
    : CommandTracker * Verdict :=
  if negb (armed_ t) then (t, Verdict_none)
  else if transitioned && bool_decide (s = terminal_ok_ t) then resolve t true ""
  else if transitioned && bool_decide (s = Faulted) then resolve t false (Reason_to_string r)
  else if transitioned && (bool_decide (s = StoppedOpen) || bool_decide (s = StoppedClose))
  then resolve t false (Reason_to_string r)
  else if negb transitioned && bool_decide (r = SafetyBeamObstacle)
  then resolve t false "rejected: safety beam obstacle"
  else (t, Verdict_none).

(** [CommandTracker::on_tick]. *)
Definition on_tick (t : CommandTracker) (now_ms : Z) : CommandTracker * Verdict :=
  if negb (armed_ t) || (i32 (u32 (now_ms - deadline_ms_ t)) <? 0) then (t, Verdict_none)
  else resolve t false "deadline exceeded awaiting terminal state".

(** ** Histories *)

(** The three entry points ControlClient calls, under its mutex. *)
Inductive TrackerOp :=
| TArm (command_id : string) (terminal_ok : State) (deadline_ms : Z)
| TGateEvent (s : State) (r : Reason) (transitioned : bool)
| TTick (now_ms : Z).

Definition tracker_do (t : CommandTracker) (op : TrackerOp) : CommandTracker * Verdict :=
  match op with
  | TArm c s d => arm t c s d
  | TGateEvent s r b => on_gate_event t s r b
  | TTick n => on_tick t n
  end.

(** A history, with the verdicts that fired, in order. *)
Fixpoint tracker_run (t : CommandTracker) (ops : list TrackerOp)
    : CommandTracker * list Verdict :=
  match ops with
  | [] => (t, [])
  | op :: ops =>
      let '(t, v) := tracker_do t op in
      let '(t, vs) := tracker_run t ops in
      (t, if v_fire v then v :: vs else vs)
  end.

(** The ids the history armed, as the tracker stores them. *)
Fixpoint armed_ids (ops : list TrackerOp) : list string :=
  match ops with
  | [] => []
  | TArm c _ _ :: ops => cstr_copy kMaxCommandId c :: armed_ids ops
  | _ :: ops => armed_ids ops
  end.

(** The command in flight. *)
Definition in_flight (t : CommandTracker) : list string :=
  if armed_ t then [id_ t] else [].

(** ** Lemmas *)

(** Every operation accounts for its commands: what was in flight and what
    is armed now is either decided by the verdict or still in flight. *)
Lemma tracker_do_balance t op :
  let '(t', v) := tracker_do t op in
  in_flight t ++ armed_ids [op]
  = (if v_fire v then [v_command_id v] else []) ++ in_flight t'.
Proof.
  destruct t as [i s d a], op as [c s' d' | s' r b | n]; simpl;
    unfold arm, on_gate_event, on_tick, in_flight; simpl.
  - by destruct a.
  - destruct a; simpl; [|done].
    repeat (match goal with |- context [if ?b then _ else _] => destruct b end; simpl); done.
  - destruct a; simpl; [|done]. by destruct (i32 _ <? 0).
Qed.

(** A verdict names the stored command; only arming changes the stored id. *)
Lemma tracker_do_ids t op :
  let '(t', v) := tracker_do t op in
  (v_fire v = true -> v_command_id v = id_ t) /\
  id_ t' = match op with TArm c _ _ => cstr_copy kMaxCommandId c | _ => id_ t end.
Proof.
  destruct t as [i s d a], op as [c s' d' | s' r b | n]; simpl;
    unfold arm, on_gate_event, on_tick; simpl.
  - by destruct a.
  - destruct a; simpl; [|done].
    repeat (match goal with |- context [if ?b then _ else _] => destruct b end; simpl); done.
  - destruct a; simpl; [|done]. by destruct (i32 _ <? 0).
Qed.

Lemma tracker_run_balance ops t :
  let '(t', vs) := tracker_run t ops in
  in_flight t ++ armed_ids ops = map v_command_id vs ++ in_flight t'.
Proof.
  revert t. induction ops as [|op ops IH]; intros t; simpl; [by rewrite app_nil_r|].
  pose proof (tracker_do_balance t op) as Hd. destruct (tracker_do t op) as [t1 v].
  specialize (IH t1). destruct (tracker_run t1 ops) as [t2 vs].
  assert (Hids : in_flight t ++ armed_ids (op :: ops)
                 = (in_flight t ++ armed_ids [op]) ++ armed_ids ops).
  { rewrite <- app_assoc. by destruct op. }
  change (match op with TArm c _ _ => _ | _ => _ end) with (armed_ids (op :: ops)).
  rewrite Hids, Hd, <- app_assoc, IH, app_assoc. by destruct (v_fire v).
Qed.

(** ** Properties *)

(** Exactly one verdict per command, in order.  Over any history of a
    fresh tracker, the ids of the fired verdicts followed by the command
    still in flight (if any) are exactly the armed ids: no command is lost,
    decided twice, or answered under another command's id, and a superseded
    command is answered when the next one is armed. *)
Theorem one_verdict_per_command ops :
  let '(t, vs) := tracker_run CommandTracker_new ops in
  map v_command_id vs ++ in_flight t = armed_ids ops.
Proof.
  pose proof (tracker_run_balance ops CommandTracker_new) as H.
  destruct (tracker_run CommandTracker_new ops). by rewrite <- H.
Qed.

(** A halting gate answers its command.  Feed the tracker what one step
    of the state machine reports while the gate moves.  If the gate halts,
    the pending command is decided at once: success exactly when the halt is
    the commanded terminal state, failure with the machine's reason when it
    stopped short or faulted; only a gate that arrives at the other end of
    its travel leaves the command pending. *)
Theorem halting_gate_decides_command (t : CommandTracker) (m : StateMachine) (ev : Event)
    (Ha : armed_ t = true) (Ht : terminal_ok_ t = Open \/ terminal_ok_ t = Closed)
    (Hm : moving (state_ m) = true) (Hh : moving (state_ (handle m ev).1) = false) :
  let out := (handle m ev).2 in
  let v := (on_gate_event t (new_state out) (out_reason out) (transitioned out)).2 in
  v_success v = bool_decide (state_ (handle m ev).1 = terminal_ok_ t) /\
  (v_fire v = true <->
     state_ (handle m ev).1 = terminal_ok_ t \/
     halted_with_cause (state_ (handle m ev).1) = true) /\
  (v_fire v = true -> v_command_id v = id_ t /\
     (v_success v = false -> v_error v = Reason_to_string (reason_ (handle m ev).1))) /\
  (v_fire v = false ->
     (state_ (handle m ev).1 = Open /\ terminal_ok_ t = Closed) \/
     (state_ (handle m ev).1 = Closed /\ terminal_ok_ t = Open)).
Proof.
  destruct t as [i tk d a]. destruct m as [c s r b]. simpl in *. subst a.
  destruct s; try discriminate; destruct ev; try discriminate; simpl in *;
    repeat case_match; simplify_eq/=; try discriminate;
    destruct Ht as [-> | ->]; simpl; naive_solver.
Qed.

Lemma halting_gate_decides_command_witness :
  v_fire (on_gate_event (arm CommandTracker_new "7" Closed 9000).1 StoppedClose
            SafetyBeamObstacle true).2 = true.
Proof.
  pose proof (halting_gate_decides_command (arm CommandTracker_new "7" Closed 9000).1
    (mkSM Config_default Closing ReasonNone true) SafetyBeamTripped) as H.
  destruct H as (_ & H & _);
    [reflexivity | right; reflexivity | reflexivity | reflexivity |].
  apply H. right. reflexivity.
Defined.

(** The deadline is exact across the wrap of the 32-bit clock.  For a
    command armed with a deadline and a tick whose true times are less than
    half the clock range apart, the tick fails the command exactly when the
    true time has reached the true deadline, whatever the wrapped readings. *)
Theorem deadline_survives_clock_wrap (t : CommandTracker) (now deadline : Z)
    (Ha : armed_ t = true) (Hd : deadline_ms_ t = u32 deadline)
    (Hclose : - 2 ^ 31 <= now - deadline < 2 ^ 31) :
  let '(t', v) := on_tick t (u32 now) in
  v_fire v = bool_decide (deadline <= now) /\
  armed_ t' = bool_decide (now < deadline) /\ v_success v = false.
Proof.
  unfold on_tick. rewrite Ha, Hd. simpl.
  assert (Hw : i32 (u32 (u32 now - u32 deadline)) = now - deadline).
  { rewrite <- (i32_sub_wrapped now deadline) by done. unfold i32, u32. by rewrite Zmod_mod. }
  rewrite Hw. destruct (Z.ltb_spec (now - deadline) 0); simpl.
  - rewrite bool_decide_eq_false_2, bool_decide_eq_true_2 by lia. done.
  - rewrite (bool_decide_eq_true_2 (deadline <= now)) by lia.
    rewrite bool_decide_eq_false_2 by lia. done.
Qed.

(** A deadline just past the wrap: the tick reads 4294967290, the deadline
    reads 10, and the command is still pending. *)
Lemma deadline_survives_clock_wrap_witness :
  v_fire (on_tick (arm CommandTracker_new "9" Open (u32 4294967306)).1
            (u32 4294967290)).2 = false.
Proof.
  pose proof (deadline_survives_clock_wrap
    (arm CommandTracker_new "9" Open (u32 4294967306)).1 4294967290 4294967306) as H.
  destruct (on_tick _ _) as [t' v].
  destruct H as [H _]; [reflexivity | reflexivity | lia |]. exact H.
Defined.
