(* ===== verification/GrpcFraming.v ===== *)
(** gRPC length-prefixed framing (src/firmware/components/gate_rpc:
    grpc_framing.hpp and .cpp, with the reassembly loop of
    [cb_on_data_chunk] in control_client.cpp).  Every array write is checked:
    a write outside the array is [None], and the theorems show that no call
    sequence reaches one. *)

From S2P Require Import Prelude.
Local Open Scope Z_scope.

Definition kFrameHeaderSize : nat := 5.

(** [make_frame_header]. *)
Definition make_frame_header (payload_len : Z) : list Z :=
  [0; u8 (Z.land (Z.shiftr payload_len 24) 255); u8 (Z.land (Z.shiftr payload_len 16) 255);
   u8 (Z.land (Z.shiftr payload_len 8) 255); u8 (Z.land payload_len 255)].

(** [FrameAssembler::Status]. *)
Inductive Status := NeedMore | MessageReady | ErrorCompressed | ErrorOversize.

#[export] Instance Status_eq_dec : EqDecision Status.
Proof. solve_decision. Defined.

(** The members of [FrameAssembler]; [buf_] is the caller's buffer of
    [cap_] bytes. *)
Record FrameAssembler := mkFA {
  buf_ : list Z;
  cap_ : nat;
  header_ : list Z;
  header_filled_ : nat;
  msg_len_ : nat;
  msg_filled_ : nat;
  in_payload_ : bool;
  poisoned_ : bool;
}.

(** The constructor over a buffer of the caller. *)
Definition FrameAssembler_new (buffer : list Z) : FrameAssembler :=
  mkFA buffer (length buffer) (replicate kFrameHeaderSize 0) 0 0 0 false false.

(** [FrameAssembler::reset]. *)
Definition reset (a : FrameAssembler) : FrameAssembler :=
  mkFA (buf_ a) (cap_ a) (header_ a) 0 0 0 false false.

(** [message()] with [message_size()]. *)
Definition message (a : FrameAssembler) : list Z := take (msg_len_ a) (buf_ a).

(** A checked array write [arr[i] = b]. *)
Definition write_at (arr : list Z) (i : nat) (b : Z) : option (list Z) :=
  if decide (i < length arr)%nat then Some (<[i := b]> arr) else None.

(** The copy loop [for i < take: buf_[msg_filled_ + i] = data[consumed + i]];
    a read past the input is [None] too. *)
Fixpoint copy_bytes (n : nat) (arr : list Z) (at_ : nat) (data : list Z) (from : nat)
    : option (list Z) :=
  match n with
  | O => Some arr
  | S n => b ← data !! from; arr ← write_at arr at_ b; copy_bytes n arr (S at_) data (S from)
  end.

(** The declared length: [header_[1] << 24 | ... | header_[4]]. *)
Definition declared_length (h : list Z) : Z :=
  Z.lor (Z.lor (Z.lor (Z.shiftl (h !!! 1%nat) 24) (Z.shiftl (h !!! 2%nat) 16))
           (Z.shiftl (h !!! 3%nat) 8)) (h !!! 4%nat).

(** The [while (consumed < len)] loop of [push].  Every iteration consumes a
    byte or returns, so [len] iterations are enough ([push_loop_fuel]). *)
Fixpoint push_loop (fuel : nat) (a : FrameAssembler) (data : list Z) (consumed : nat)
    : option (FrameAssembler * Status * nat) :=
  match fuel with
  | O => Some (a, NeedMore, consumed)
  | S fuel =>
    if decide (consumed < length data)%nat then
      if negb (in_payload_ a) then
        b ← data !! consumed;
        h ← write_at (header_ a) (header_filled_ a) b;
        let filled := S (header_filled_ a) in
        let consumed := S consumed in
        if decide (filled < kFrameHeaderSize)%nat then
          push_loop fuel (mkFA (buf_ a) (cap_ a) h filled (msg_len_ a) (msg_filled_ a)
                            false (poisoned_ a)) data consumed
        else if negb (h !!! 0%nat =? 0) then
          Some (mkFA (buf_ a) (cap_ a) h 0 (msg_len_ a) (msg_filled_ a) false true,
                ErrorCompressed, consumed)
        else
          let len := Z.to_nat (declared_length h) in
          if decide (cap_ a < len)%nat then
            Some (mkFA (buf_ a) (cap_ a) h 0 len (msg_filled_ a) false true,
                  ErrorOversize, consumed)
          else if decide (len = 0)%nat then
            Some (mkFA (buf_ a) (cap_ a) h 0 len 0 false (poisoned_ a), MessageReady, consumed)
          else
            push_loop fuel (mkFA (buf_ a) (cap_ a) h 0 len 0 true (poisoned_ a)) data consumed
      else
        let want := (msg_len_ a - msg_filled_ a)%nat in
        let avail := (length data - consumed)%nat in
        let n := if decide (avail < want)%nat then avail else want in
        buf ← copy_bytes n (buf_ a) (msg_filled_ a) data consumed;
        let filled := (msg_filled_ a + n)%nat in
        let consumed := (consumed + n)%nat in
        if decide (filled = msg_len_ a) then
          Some (mkFA buf (cap_ a) (header_ a) (header_filled_ a) (msg_len_ a) filled
                  false (poisoned_ a), MessageReady, consumed)
        else
          push_loop fuel (mkFA buf (cap_ a) (header_ a) (header_filled_ a) (msg_len_ a) filled
                            true (poisoned_ a)) data consumed
    else Some (a, NeedMore, consumed)
  end.

(** [FrameAssembler::push]. *)
Definition push (a : FrameAssembler) (data : list Z) : option (FrameAssembler * Status * nat) :=
  if poisoned_ a then Some (a, ErrorOversize, O)
  else push_loop (length data) a data 0.

(** The reassembly loop of [cb_on_data_chunk]: the assembler, the messages
    handed to [handle_message], and whether the session must be dropped. *)
Fixpoint chunk_loop (fuel : nat) (a : FrameAssembler) (data : list Z) (off : nat)
    : option (FrameAssembler * list (list Z) * bool) :=
  match fuel with
  | O => Some (a, [], false)
  | S fuel =>
    if decide (off < length data)%nat then
      '(a, st, consumed) ← push a (drop off data);
      match st with
      | MessageReady =>
          '(a', ms, err) ← chunk_loop fuel a data (off + consumed);
          Some (a', message a :: ms, err)
      | ErrorCompressed | ErrorOversize => Some (a, [], true)
      | NeedMore => chunk_loop fuel a data (off + consumed)
      end
    else Some (a, [], false)
  end.

Definition on_data_chunk (a : FrameAssembler) (data : list Z)
    : option (FrameAssembler * list (list Z) * bool) :=
  chunk_loop (length data) a data 0.

(** A session: the chunks nghttp2 delivers, until one fails the callback. *)
Fixpoint session_chunks (a : FrameAssembler) (chunks : list (list Z))
    : option (FrameAssembler * list (list Z) * bool) :=
  match chunks with
  | [] => Some (a, [], false)
  | d :: chunks =>
      '(a, ms, err) ← on_data_chunk a d;
      if err : bool then Some (a, ms, true)
      else '(a, ms', err) ← session_chunks a chunks; Some (a, ms ++ ms', err)
  end.

(** ** The reference parser: one byte at a time, no buffers *)

Inductive Parse :=
| PHeader (acc : list Z)
| PPayload (len : nat) (acc : list Z)
| PBad.

#[export] Instance Parse_eq_dec : EqDecision Parse.
Proof. solve_decision. Defined.

Definition parse_byte (cap : nat) (p : Parse) (b : Z) : Parse * list (list Z) :=
  match p with
  | PHeader acc =>
      let acc := acc ++ [b] in
      if decide (length acc < 5)%nat then (PHeader acc, [])
      else if negb (acc !!! 0%nat =? 0) then (PBad, [])
      else
        let len := Z.to_nat (declared_length acc) in
        if decide (cap < len)%nat then (PBad, [])
        else if decide (len = 0)%nat then (PHeader [], [[]])
        else (PPayload len [], [])
  | PPayload len acc =>
      let acc := acc ++ [b] in
      if decide (length acc = len) then (PHeader [], [acc]) else (PPayload len acc, [])
  | PBad => (PBad, [])
  end.

Fixpoint parse (cap : nat) (p : Parse) (bs : list Z) : Parse * list (list Z) :=
  match bs with
  | [] => (p, [])
  | b :: bs =>
      let '(p, ms) := parse_byte cap p b in
      let '(p, ms') := parse cap p bs in
      (p, ms ++ ms')
  end.

(** The frame of one message on the wire. *)
Definition frame (payload : list Z) : list Z :=
  make_frame_header (Z.of_nat (length payload)) ++ payload.

(** What the assembler's arrays mean. *)
Definition parse_of (a : FrameAssembler) : Parse :=
  if poisoned_ a then PBad
  else if in_payload_ a then PPayload (msg_len_ a) (take (msg_filled_ a) (buf_ a))
  else PHeader (take (header_filled_ a) (header_ a)).

(** The invariant of the assembler: the cursors are inside the arrays. *)
Definition fa_inv (a : FrameAssembler) : Prop :=
  length (buf_ a) = cap_ a /\ length (header_ a) = kFrameHeaderSize /\
  (header_filled_ a < kFrameHeaderSize)%nat /\
  (in_payload_ a = true ->
     poisoned_ a = false /\ header_filled_ a = O /\
     (msg_filled_ a < msg_len_ a)%nat /\ (msg_len_ a <= cap_ a)%nat).

(** ** Lemmas *)

Lemma take_S_insert (l : list Z) i b :
  (i < length l)%nat -> take (S i) (<[i := b]> l) = take i l ++ [b].
Proof.
  intros Hi. rewrite (take_S_r _ _ b) by (by apply list_lookup_insert_eq).
  by rewrite take_insert_ge by lia.
Qed.

Lemma write_at_ok arr i b :
  (i < length arr)%nat -> write_at arr i b = Some (<[i := b]> arr).
Proof. intros. unfold write_at. by rewrite decide_True. Qed.

(** The copy loop appends to the filled prefix and touches nothing before it. *)
Lemma copy_bytes_spec n arr i data from :
  (i + n <= length arr)%nat -> (from + n <= length data)%nat ->
  exists arr', copy_bytes n arr i data from = Some arr' /\ length arr' = length arr /\
    take (i + n) arr' = take i arr ++ take n (drop from data).
Proof.
  revert arr i from. induction n as [|n IH]; intros arr i from Hi Hf; simpl.
  { exists arr. rewrite Nat.add_0_r, take_0, app_nil_r. done. }
  destruct (lookup_lt_is_Some_2 data from) as [b Hb]; [lia|]. rewrite Hb. simpl.
  rewrite write_at_ok by lia. simpl.
  destruct (IH (<[i := b]> arr) (S i) (S from)) as (arr' & -> & Hl & Ht);
    [rewrite length_insert; lia | lia |].
  exists arr'. rewrite length_insert in Hl. split_and!; [done | done |].
  replace (i + S n)%nat with (S i + n)%nat by lia.
  rewrite Ht, take_S_insert, <- app_assoc by lia. f_equal.
  by rewrite (drop_S data b from) by done.
Qed.

Lemma parse_app cap p xs ys :
  parse cap p (xs ++ ys) =
  (let '(p1, ms1) := parse cap p xs in
   let '(p2, ms2) := parse cap p1 ys in (p2, ms1 ++ ms2)).
Proof.
  revert p. induction xs as [|x xs IH]; intros p; simpl.
  { by destruct (parse cap p ys). }
  destruct (parse_byte cap p x) as [p1 m1]. rewrite IH.
  destruct (parse cap p1 xs) as [p2 m2]. destruct (parse cap p2 ys) as [p3 m3].
  by rewrite app_assoc.
Qed.

(** A run of payload bytes that does not pass the declared length. *)
Lemma parse_payload cap len acc bs :
  (length acc < len)%nat -> (length acc + length bs <= len)%nat ->
  parse cap (PPayload len acc) bs =
  if decide (length acc + length bs = len)%nat then (PHeader [], [acc ++ bs])
  else (PPayload len (acc ++ bs), []).
Proof.
  revert acc. induction bs as [|b bs IH]; intros acc Ha Hb; simpl in *.
  { rewrite decide_False by lia. by rewrite app_nil_r. }
  rewrite length_app. simpl. destruct (decide (length acc + 1 = len)%nat) as [He|He].
  - destruct bs as [|? ?]; simpl in *; [|lia]. rewrite decide_True by lia. done.
  - rewrite IH by (rewrite ?length_app; simpl; lia). rewrite length_app. simpl.
    rewrite <- app_assoc. simpl.
    destruct (decide (length acc + 1 + length bs = len)%nat);
      [rewrite decide_True by lia | rewrite decide_False by lia]; done.
Qed.

(** What one call of [push] reports, as steps of the reference parser. *)
Definition push_ok (a : FrameAssembler) (bytes : list Z) (a' : FrameAssembler) (st : Status)
    (n : nat) : Prop :=
  (n <= length bytes)%nat /\ fa_inv a' /\ cap_ a' = cap_ a /\
  parse (cap_ a) (parse_of a) (take n bytes)
    = (parse_of a', if decide (st = MessageReady) then [message a'] else []) /\
  (st = NeedMore -> n = length bytes /\ poisoned_ a' = false) /\
  (st = MessageReady -> (0 < n)%nat /\ poisoned_ a' = false) /\
  (st = ErrorCompressed \/ st = ErrorOversize -> poisoned_ a' = true).

Lemma push_ok_prefix a a1 pre bytes a' st n :
  parse (cap_ a) (parse_of a) pre = (parse_of a1, []) -> cap_ a1 = cap_ a ->
  push_ok a1 bytes a' st n -> push_ok a (pre ++ bytes) a' st (length pre + n).
Proof.
  intros Hp Hc (Hn & Hi & Hc' & Hpar & H1 & H2 & H3). unfold push_ok.
  rewrite take_app_add, length_app, parse_app, Hp, <- Hc, Hpar.
  split_and!; try done; [lia | |].
  - intros E. destruct (H1 E). split; [lia | done].
  - intros E. destruct (H2 E). split; [lia | done].
Qed.

(** A step that reads bytes and returns. *)
Lemma push_ok_return a bytes a' st n :
  (n <= length bytes)%nat -> fa_inv a' -> cap_ a' = cap_ a ->
  parse (cap_ a) (parse_of a) (take n bytes)
    = (parse_of a', if decide (st = MessageReady) then [message a'] else []) ->
  (st = NeedMore -> n = length bytes /\ poisoned_ a' = false) ->
  (st = MessageReady -> (0 < n)%nat /\ poisoned_ a' = false) ->
  (st = ErrorCompressed \/ st = ErrorOversize -> poisoned_ a' = true) ->
  push_ok a bytes a' st n.
Proof. by unfold push_ok. Qed.

(** Closes a return after one header byte whose parse is [H]. *)
Ltac push_return H :=
  apply push_ok_return;
  [ simpl; lia
  | unfold fa_inv, kFrameHeaderSize; simpl; split_and!; done || lia
  | done
  | cbn -[parse_byte]; rewrite take_0; unfold parse_of, message; cbn -[parse_byte];
    by rewrite H
  | naive_solver .. ].

(** The reference parser on one more header byte. *)
Lemma parse_header_byte cap h h' hf b :
  length h' = kFrameHeaderSize -> (hf < kFrameHeaderSize)%nat ->
  take (S hf) h' = take hf h ++ [b] ->
  parse_byte cap (PHeader (take hf h)) b =
    (if decide (S hf < 5)%nat then (PHeader (take (S hf) h'), [])
     else if negb (h' !!! 0%nat =? 0) then (PBad, [])
     else if decide (cap < Z.to_nat (declared_length h'))%nat then (PBad, [])
     else if decide (Z.to_nat (declared_length h') = 0)%nat then (PHeader [], [[]])
     else (PPayload (Z.to_nat (declared_length h')) [], [])).
Proof.
  intros Hlh' Hhf Ht. unfold parse_byte. rewrite <- Ht, length_take, Hlh'.
  unfold kFrameHeaderSize in *. replace (S hf `min` 5)%nat with (S hf) by lia.
  destruct (decide (S hf < 5)%nat); [done|]. by rewrite take_ge by lia.
Qed.

Section loop.
Variables (fuel : nat) (data : list Z).

Definition loop_ok (a : FrameAssembler) (consumed : nat) : Prop :=
  exists a' st n, push_loop fuel a data consumed = Some (a', st, (consumed + n)%nat) /\
    push_ok a (drop consumed data) a' st n.

(** One header byte. *)
Lemma push_header_byte a consumed b :
  (forall a c, fa_inv a -> poisoned_ a = false -> c = S consumed -> loop_ok a c) ->
  data !! consumed = Some b -> fa_inv a -> poisoned_ a = false -> in_payload_ a = false ->
  exists a' st n, push_loop (S fuel) a data consumed = Some (a', st, (consumed + n)%nat) /\
    push_ok a (drop consumed data) a' st n.
Proof.
  intros IH Hb Hinv Hpo Hip. simpl.
  assert (Hlt : (consumed < length data)%nat) by (by eapply lookup_lt_Some).
  rewrite decide_True, Hip, Hb by done. simpl.
  destruct a as [buf cap h hf ml mf ip po]. simpl in *. subst ip po.
  destruct Hinv as (Hlb & Hlh & Hhf & _). simpl in *.
  rewrite write_at_ok by lia. simpl.
  pose proof (take_S_insert h hf b ltac:(lia)) as Ht.
  set (h' := <[hf := b]> h) in *.
  assert (Hlh' : length h' = kFrameHeaderSize) by (unfold h'; by rewrite length_insert).
  clearbody h'. rewrite (drop_S data b consumed Hb).
  pose proof (parse_header_byte cap h h' hf b Hlh' Hhf Ht) as Hparse.
  unfold kFrameHeaderSize in *.
  case_decide as Hfull.
  { destruct (IH (mkFA buf cap h' (S hf) ml mf false false) (S consumed))
      as (a' & st & n & -> & Hok); [by unfold fa_inv | done | done |].
    exists a', st, (1 + n)%nat. split; [do 2 f_equal; lia|].
    refine (push_ok_prefix _ _ [b] _ _ _ _ _ _ Hok); [|done].
    cbn -[parse_byte]. unfold parse_of. cbn -[parse_byte]. by rewrite Hparse. }
  destruct (negb (h' !!! 0%nat =? 0)) eqn:Hc0.
  { eexists _, _, 1%nat. split; [do 2 f_equal; lia|].
    push_return Hparse. }
  set (len := Z.to_nat (declared_length h')) in *.
  case_decide as Hcap.
  { eexists _, _, 1%nat. split; [do 2 f_equal; lia|].
    push_return Hparse. }
  case_decide as Hzero.
  { eexists _, _, 1%nat. split; [do 2 f_equal; lia|]. rewrite Hzero in *. push_return Hparse. }
  destruct (IH (mkFA buf cap h' 0 len 0 true false) (S consumed))
    as (a' & st & n & -> & Hok); [unfold fa_inv, kFrameHeaderSize; simpl | done | done |].
  { naive_solver lia. }
  exists a', st, (1 + n)%nat. split; [do 2 f_equal; lia|].
  refine (push_ok_prefix _ _ [b] _ _ _ _ _ _ Hok); [|done].
  cbn -[parse_byte]. unfold parse_of. cbn -[parse_byte]. by rewrite Hparse, take_0.
Qed.

(** The payload branch. *)
Lemma push_payload_bytes a consumed :
  (forall a c, fa_inv a -> poisoned_ a = false -> c = length data -> loop_ok a c) ->
  (consumed < length data)%nat -> fa_inv a -> poisoned_ a = false -> in_payload_ a = true ->
  exists a' st n, push_loop (S fuel) a data consumed = Some (a', st, (consumed + n)%nat) /\
    push_ok a (drop consumed data) a' st n.
Proof.
  intros IH Hlt Hinv Hpo Hip. simpl. rewrite decide_True, Hip by done. simpl.
  destruct a as [buf cap h hf ml mf ip po]. simpl in *. subst ip po.
  destruct Hinv as (Hlb & Hlh & Hhf & Hpay). simpl in *.
  destruct (Hpay eq_refl) as (_ & -> & Hml & Hcap). clear Hpay.
  set (n := if decide (length data - consumed < ml - mf)%nat
            then (length data - consumed)%nat else (ml - mf)%nat).
  assert (Hn : (0 < n /\ n <= ml - mf /\ n <= length data - consumed /\
                (mf + n <> ml -> n = length data - consumed))%nat).
  { unfold n. case_decide; lia. }
  clearbody n. destruct Hn as (Hn0 & Hn1 & Hn2 & Hn3).
  destruct (copy_bytes_spec n buf mf data consumed ltac:(lia) ltac:(lia))
    as (buf' & -> & Hlb' & Htk). simpl.
  pose proof (parse_payload cap ml (take mf buf) (take n (drop consumed data))) as Hpp.
  rewrite !length_take, length_drop in Hpp.
  replace (mf `min` length buf)%nat with mf in Hpp by lia.
  replace (n `min` (length data - consumed))%nat with n in Hpp by lia.
  specialize (Hpp ltac:(lia) ltac:(lia)). rewrite <- Htk in Hpp.
  destruct (decide (mf + n = ml)%nat) as [He|Hne].
  - eexists _, _, n. split; [done|].
    apply push_ok_return; [rewrite length_drop; lia | | done | | naive_solver ..].
    + unfold fa_inv, kFrameHeaderSize; simpl. split_and!; done || lia.
    + unfold parse_of, message. simpl. by rewrite Hpp, He.
  - destruct (IH (mkFA buf' cap h 0 ml (mf + n) true false) (consumed + n)%nat)
      as (a' & st & n' & -> & Hok); [| done | lia |].
    { unfold fa_inv, kFrameHeaderSize; simpl. naive_solver lia. }
    exists a', st, (n + n')%nat. split; [do 2 f_equal; lia|].
    rewrite <- (take_drop n (drop consumed data)).
    replace n with (length (take n (drop consumed data))) at 3
      by (rewrite length_take, length_drop; lia).
    refine (push_ok_prefix _ _ _ _ _ _ _ _ _ _); [| |rewrite drop_drop; exact Hok]; [|done].
    unfold parse_of. simpl. by rewrite Hpp.
Qed.
End loop.

Lemma push_loop_spec fuel a data consumed :
  (length data - consumed <= fuel)%nat -> (consumed <= length data)%nat ->
  fa_inv a -> poisoned_ a = false -> loop_ok fuel data a consumed.
Proof.
  revert a consumed. induction fuel as [|fuel IH]; intros a consumed Hf Hc Hinv Hpo.
  - exists a, NeedMore, O. simpl. rewrite Nat.add_0_r. split; [done|].
    assert (drop consumed data = []) as -> by (apply drop_ge; lia).
    apply push_ok_return; naive_solver.
  - destruct (decide (consumed < length data)%nat) as [Hlt|Hge].
    + destruct (in_payload_ a) eqn:Hip.
      * apply push_payload_bytes; try done. intros a0 c Hi Hp ->. apply IH; try done; lia.
      * destruct (lookup_lt_is_Some_2 data consumed Hlt) as [b Hb].
        apply (push_header_byte _ _ _ _ b); try done.
        intros a0 c Hi Hp ->. apply IH; try done; lia.
    + exists a, NeedMore, O. simpl. rewrite decide_False, Nat.add_0_r by done.
      split; [done|].
      assert (drop consumed data = []) as -> by (apply drop_ge; lia).
      apply push_ok_return; naive_solver.
Qed.

Lemma push_spec a data :
  fa_inv a -> poisoned_ a = false ->
  exists a' st n, push a data = Some (a', st, n) /\ push_ok a data a' st n.
Proof.
  intros Hi Hp. unfold push. rewrite Hp.
  destruct (push_loop_spec (length data) a data 0) as (a' & st & n & E & Hok);
    [lia | lia | done | done |].
  exists a', st, n. done.
Qed.

Lemma parse_bad cap bs : parse cap PBad bs = (PBad, []).
Proof. induction bs as [|b bs IH]; simpl; [done | by rewrite IH]. Qed.

Lemma chunk_loop_spec fuel a data off :
  (length data - off <= fuel)%nat -> fa_inv a -> poisoned_ a = false ->
  exists a' ms err, chunk_loop fuel a data off = Some (a', ms, err) /\
    fa_inv a' /\ cap_ a' = cap_ a /\ poisoned_ a' = err /\
    parse (cap_ a) (parse_of a) (drop off data) = (parse_of a', ms).
Proof.
  revert a off. induction fuel as [|fuel IH]; intros a off Hf Hinv Hpo; simpl.
  { assert (drop off data = []) as -> by (apply drop_ge; lia). by eexists _, _, _. }
  destruct (decide (off < length data)%nat) as [Hlt|Hge].
  2:{ assert (drop off data = []) as -> by (apply drop_ge; lia). by eexists _, _, _. }
  destruct (push_spec a (drop off data) Hinv Hpo)
    as (a1 & st & n & -> & (Hn & Hi1 & Hc1 & Hp1 & H1 & H2 & H3)). simpl.
  rewrite length_drop in Hn, H1.
  rewrite <- (take_drop n (drop off data)), parse_app, Hp1, drop_drop.
  destruct st; simpl.
  - destruct (H1 eq_refl) as [-> Hpo1]. rewrite drop_ge by lia. simpl.
    destruct (IH a1 (off + (length data - off))%nat) as (a2 & ms & err & -> & Hi2 & Hc2 & He & Hp);
      [lia | done | done |].
    rewrite drop_ge in Hp by lia. simpl in Hp. simplify_eq.
    eexists _, _, _. split_and!; try done; congruence.
  - destruct (H2 eq_refl) as [Hn0 Hpo1].
    destruct (IH a1 (off + n)%nat) as (a2 & ms & err & -> & Hi2 & Hc2 & He & Hp);
      [lia | done | done |].
    rewrite <- Hc1, Hp. simpl. eexists _, _, _. split_and!; try done; congruence.
  - assert (Hpa : parse_of a1 = PBad) by (unfold parse_of; by rewrite H3 by auto).
    rewrite Hpa, parse_bad. eexists _, _, _. rewrite Hpa. split_and!; try done; auto.
  - assert (Hpa : parse_of a1 = PBad) by (unfold parse_of; by rewrite H3 by auto).
    rewrite Hpa, parse_bad. eexists _, _, _. rewrite Hpa. split_and!; try done; auto.
Qed.

Lemma session_chunks_spec a chunks :
  fa_inv a -> poisoned_ a = false ->
  exists a' ms err, session_chunks a chunks = Some (a', ms, err) /\
    fa_inv a' /\ cap_ a' = cap_ a /\ poisoned_ a' = err /\
    parse (cap_ a) (parse_of a) (concat chunks) = (parse_of a', ms).
Proof.
  revert a. induction chunks as [|d chunks IH]; intros a Hinv Hpo; simpl.
  { by eexists _, _, _. }
  destruct (chunk_loop_spec (length d) a d 0) as (a1 & ms & err & E & Hi1 & Hc1 & He1 & Hp1);
    [lia | done | done |].
  unfold on_data_chunk. rewrite E. simpl. rewrite drop_0 in Hp1.
  rewrite parse_app, Hp1. destruct err.
  - assert (Hpa : parse_of a1 = PBad) by (unfold parse_of; by rewrite He1).
    rewrite Hpa, parse_bad, app_nil_r. eexists _, _, _. by rewrite Hpa.
  - destruct (IH a1 Hi1 He1) as (a2 & ms2 & err2 & -> & Hi2 & Hc2 & He2 & Hp2). simpl.
    rewrite <- Hc1, Hp2. eexists _, _, _. split_and!; try done; congruence.
Qed.

Lemma new_fa_inv buffer : fa_inv (FrameAssembler_new buffer).
Proof. unfold fa_inv, kFrameHeaderSize. simpl. naive_solver lia. Qed.

(** *** The length field *)

Lemma byte_of n k : 0 <= k -> u8 (Z.land (Z.shiftr n k) 255) = n / 2 ^ k mod 256.
Proof.
  intros. unfold u8. change 255 with (Z.ones 8).
  rewrite Z.land_ones, Z.shiftr_div_pow2 by lia. by rewrite Zmod_mod.
Qed.

Lemma declared_length_header n :
  0 <= n < 2 ^ 32 -> declared_length (make_frame_header n) = n.
Proof.
  intros Hn. unfold make_frame_header. rewrite !byte_of by lia.
  change (Z.land n 255) with (Z.land (Z.shiftr n 0) 255). rewrite byte_of by lia.
  unfold declared_length. cbn [lookup_total list_lookup_total].
  change (2 ^ 0) with 1. rewrite Z.div_1_r.
  assert (Hb : forall z, 0 <= z mod 256 < 256) by (intros; apply Z.mod_pos_bound; lia).
  pose proof (Hb (n / 2 ^ 24)). pose proof (Hb (n / 2 ^ 16)).
  pose proof (Hb (n / 2 ^ 8)). pose proof (Hb n).
  set (b1 := n / 2 ^ 24 mod 256) in *. set (b2 := n / 2 ^ 16 mod 256) in *.
  set (b3 := n / 2 ^ 8 mod 256) in *. set (b4 := n mod 256) in *.
  rewrite (lor_shiftl_add b1) by (rewrite ?Z.shiftl_mul_pow2; lia).
  replace (b1 * 2 ^ 24 + Z.shiftl b2 16) with (Z.shiftl (b1 * 256 + b2) 16)
    by (rewrite !Z.shiftl_mul_pow2; lia).
  rewrite lor_shiftl_add by (rewrite ?Z.shiftl_mul_pow2; lia).
  replace ((b1 * 256 + b2) * 2 ^ 16 + Z.shiftl b3 8)
    with (Z.shiftl ((b1 * 256 + b2) * 256 + b3) 8) by (rewrite !Z.shiftl_mul_pow2; lia).
  rewrite lor_shiftl_add by lia.
  unfold b1, b2, b3, b4. clear -Hn. Z.to_euclidean_division_equations. lia.
Qed.

(** A complete header, read from scratch. *)
Lemma parse_header cap n bs :
  0 <= n < 2 ^ 32 ->
  parse cap (PHeader []) (make_frame_header n ++ bs) =
  if decide (cap < Z.to_nat n)%nat then (PBad, [])
  else if decide (Z.to_nat n = 0)%nat then
    let '(p, ms) := parse cap (PHeader []) bs in (p, [] :: ms)
  else parse cap (PPayload (Z.to_nat n) []) bs.
Proof.
  intros Hn. rewrite parse_app.
  pose proof (declared_length_header n Hn) as Hd.
  unfold make_frame_header in *.
  set (b1 := u8 _) in *. set (b2 := u8 (Z.land (Z.shiftr n 16) 255)) in *.
  set (b3 := u8 (Z.land (Z.shiftr n 8) 255)) in *. set (b4 := u8 (Z.land n 255)) in *.
  clearbody b1 b2 b3 b4. cbn -[declared_length].
  do 4 (rewrite decide_True by lia; cbn -[declared_length]).
  rewrite decide_False by lia. cbn -[declared_length]. rewrite Hd.
  repeat case_decide; try lia; cbn.
  - by rewrite parse_bad.
  - by destruct (parse cap (PHeader []) bs).
  - by destruct (parse cap (PPayload (Z.to_nat n) []) bs).
Qed.

Lemma parse_frame cap payload bs :
  (length payload <= cap)%nat -> Z.of_nat (length payload) < 2 ^ 32 ->
  parse cap (PHeader []) (frame payload ++ bs) =
  (let '(p, ms) := parse cap (PHeader []) bs in (p, payload :: ms)).
Proof.
  intros Hc Hl. unfold frame. rewrite <- app_assoc, parse_header, Nat2Z.id by lia.
  rewrite decide_False by lia. destruct payload as [|b payload]; [done|].
  rewrite decide_False by done.
  rewrite parse_app, parse_payload by (simpl; lia).
  rewrite decide_True by done. simpl. by destruct (parse cap (PHeader []) bs).
Qed.

Lemma parse_frames cap payloads bs :
  Forall (fun m => (length m <= cap)%nat /\ Z.of_nat (length m) < 2 ^ 32) payloads ->
  parse cap (PHeader []) (concat (map frame payloads) ++ bs) =
  (let '(p, ms) := parse cap (PHeader []) bs in (p, payloads ++ ms)).
Proof.
  induction 1 as [|m ms [H1 H2] _ IH]; cbn [map concat app];
    [by destruct (parse cap (PHeader []) bs)|].
  rewrite <- app_assoc, parse_frame, IH by done.
  by destruct (parse cap (PHeader []) bs).
Qed.

(** A session over framed messages followed by [rest]. *)
Lemma session_of_frames buffer payloads chunks rest :
  Forall (fun m => (length m <= length buffer)%nat /\ Z.of_nat (length m) < 2 ^ 32) payloads ->
  concat chunks = concat (map frame payloads) ++ rest ->
  exists a ms, session_chunks (FrameAssembler_new buffer) chunks
               = Some (a, payloads ++ ms, bool_decide (parse_of a = PBad)) /\
    parse (length buffer) (PHeader []) rest = (parse_of a, ms).
Proof.
  intros Hfit Hwire.
  destruct (session_chunks_spec _ chunks (new_fa_inv buffer) eq_refl)
    as (a & ms & err & E & Hinv & Hcap & Herr & Hp).
  change (parse_of (FrameAssembler_new buffer)) with (PHeader []) in Hp.
  change (cap_ (FrameAssembler_new buffer)) with (length buffer) in Hp.
  rewrite Hwire, parse_frames in Hp by done.
  destruct (parse (length buffer) (PHeader []) rest) as [p ms'].
  injection Hp as -> <-. exists a, ms'. split; [|done]. rewrite E. do 2 f_equal.
  symmetry. unfold parse_of. rewrite Herr.
  destruct err; [by apply bool_decide_eq_true|]. apply bool_decide_eq_false.
  by destruct (in_payload_ a).
Qed.

(** ** Properties *)

(** C23: The reassembly implements the byte-at-a-time parser, for every way
    the transport cuts the stream.  Whatever bytes arrive and in whatever
    chunks, no array access leaves its array, the messages handed on and the
    state reached are those of the reference parser on the concatenated
    bytes, and the session is dropped exactly when that parser has met a
    protocol error. *)
Theorem session_refines_parser (buffer : list Z) (chunks : list (list Z)) :
  exists a ms err,
    session_chunks (FrameAssembler_new buffer) chunks = Some (a, ms, err) /\
    parse (length buffer) (PHeader []) (concat chunks) = (parse_of a, ms) /\
    (err = true <-> parse_of a = PBad).
Proof.
  destruct (session_chunks_spec _ chunks (new_fa_inv buffer) eq_refl)
    as (a & ms & err & E & Hinv & Hcap & Herr & Hp).
  exists a, ms, err. split_and!; [done | exact Hp |].
  unfold parse_of. rewrite Herr. destruct err; [done|]. by destruct (in_payload_ a).
Qed.

(** C24: Framing round trip.  Messages that fit the receiver's buffer,
    framed with [make_frame_header] and sent back to back, come out
    unchanged and in order from the reassembly loop, whatever the chunking,
    and the assembler is ready for the next frame. *)
Theorem framing_round_trip (buffer : list Z) (payloads chunks : list (list Z))
    (Hfit : Forall (fun m => (length m <= length buffer)%nat /\
                             Z.of_nat (length m) < 2 ^ 32) payloads)
    (Hwire : concat chunks = concat (map frame payloads)) :
  exists a, session_chunks (FrameAssembler_new buffer) chunks = Some (a, payloads, false) /\
    parse_of a = PHeader [].
Proof.
  destruct (session_of_frames buffer payloads chunks []) as (a & ms & E & Hp);
    [done | by rewrite app_nil_r |].
  injection Hp as Hpa <-. exists a. rewrite E, <- Hpa, app_nil_r. done.
Qed.

Lemma framing_round_trip_witness :
  exists a, session_chunks (FrameAssembler_new (replicate 4 0))
              [[0; 0; 0]; [0; 2; 8]; [9; 0; 0; 0; 0]; [0; 0; 0; 0; 0; 1; 7]]
            = Some (a, [[8; 9]; []; [7]], false) /\ parse_of a = PHeader [].
Proof.
  apply (framing_round_trip (replicate 4 0) [[8; 9]; []; [7]]
           [[0; 0; 0]; [0; 2; 8]; [9; 0; 0; 0; 0]; [0; 0; 0; 0; 0; 1; 7]]).
  - repeat constructor; simpl; lia.
  - vm_compute. reflexivity.
Defined.

(** An oversized message ends the session.  After any well-formed
    messages, a header that declares more than the buffer holds drops the
    session: exactly the earlier messages were delivered, and nothing that
    follows the header is ever interpreted, whatever the chunking. *)
Theorem oversize_ends_session (buffer : list Z) (payloads chunks : list (list Z))
    (n : Z) (rest : list Z)
    (Hfit : Forall (fun m => (length m <= length buffer)%nat /\
                             Z.of_nat (length m) < 2 ^ 32) payloads)
    (Hn : Z.of_nat (length buffer) < n < 2 ^ 32)
    (Hwire : concat chunks = concat (map frame payloads) ++ make_frame_header n ++ rest) :
  exists a, session_chunks (FrameAssembler_new buffer) chunks = Some (a, payloads, true) /\
    (forall data, push a data = Some (a, ErrorOversize, O)) /\
    parse_of (reset a) = PHeader [].
Proof.
  destruct (session_of_frames buffer payloads chunks _ Hfit Hwire) as (a & ms & E & Hp).
  rewrite parse_header, decide_True in Hp by lia. injection Hp as Hpa <-.
  assert (He : poisoned_ a = true).
  { unfold parse_of in Hpa. destruct (poisoned_ a); [done|]. by destruct (in_payload_ a). }
  exists a. rewrite E, <- Hpa, app_nil_r. unfold push. rewrite He. done.
Qed.

Lemma oversize_ends_session_witness :
  exists a, session_chunks (FrameAssembler_new (replicate 4 0))
              [[0; 0; 0; 0; 1; 7; 0; 0]; [0; 1; 0; 5; 5; 5]] = Some (a, [[7]], true) /\
    (forall data, push a data = Some (a, ErrorOversize, O)) /\ parse_of (reset a) = PHeader [].
Proof.
  apply (oversize_ends_session (replicate 4 0) [[7]]
           [[0; 0; 0; 0; 1; 7; 0; 0]; [0; 1; 0; 5; 5; 5]] 256 [5; 5; 5]).
  - repeat constructor; simpl; lia.
  - simpl; lia.
  - vm_compute. reflexivity.
Defined.
