(* ===== verification/Ota.v ===== *)
(** Over-the-air updates (src/firmware/components/gate_ota: ota_manifest and
    ota_updater).  The HTTP client, the JSON parser, the flash partition, the
    hash and the signature check are code outside the repository: they are
    the fields of an environment record or parameters with the documented
    laws the updater relies on. *)

From S2P Require Import Prelude.
From Stdlib Require Import Ascii QArith.QArith QArith.Qround.
Local Open Scope Z_scope.

(** ** The manifest *)

(** [struct Manifest]; the [char] arrays hold C strings. *)
Record Manifest := mkManifest {
  target_version : string;
  image_url : string;
  image_size : Z;
  image_sha256 : list Z;
  has_sha256 : bool;
  signature : list Z;
  has_signature : bool;
  signing_key_id : string;
  min_uptime_sec : Z;
}.

Definition Manifest_default : Manifest :=
  mkManifest "" "" 0 (replicate 32 0) false (replicate 64 0) false "" 0.

Definition code (c : Ascii.ascii) : Z := Z.of_N (Ascii.N_of_ascii c).

(** [hex_nibble]. *)
Definition hex_nibble (c : Ascii.ascii) : Z :=
  if (code "0"%char <=? code c) && (code c <=? code "9"%char) then code c - code "0"%char
  else if (code "a"%char <=? code c) && (code c <=? code "f"%char) then code c - code "a"%char + 10
  else if (code "A"%char <=? code c) && (code c <=? code "F"%char) then code c - code "A"%char + 10
  else -1.

(** [hex[i]] of a C string: the terminator is read at its length. *)
Definition c_char (s : string) (i : nat) : Ascii.ascii := default nul (String.get i s).

(** The loop of [hex_decode] over the bytes [i .. i + n); the result is
    the contents of [out], or [None] for [false]. *)
Fixpoint hex_decode_loop (hex : string) (i n : nat) : option (list Z) :=
  match n with
  | O => Some []
  | S n =>
      let hi := hex_nibble (c_char hex (2 * i)) in
      if hi <? 0 then None
      else
        let lo := hex_nibble (c_char hex (2 * i + 1)) in
        if lo <? 0 then None
        else
          out ← hex_decode_loop hex (S i) n;
          Some (u8 (Z.lor (Z.shiftl hi 4) lo) :: out)
  end.

(** [hex_decode]; [None] as the first argument is the null pointer. *)
Definition hex_decode (hex : option string) (out_len : nat) : option (list Z) :=
  match hex with
  | None => None
  | Some hex =>
      out ← hex_decode_loop hex 0 out_len;
      if Ascii.eqb (c_char hex (2 * out_len)) nul then Some out else None
  end.

(** [validate]: [None] is the null pointer, the manifest is acceptable. *)
Definition validate (m : Manifest) (running_version : string) (partition_size uptime_sec : Z)
    : option string :=
  if String.eqb (target_version m) "" then Some "manifest: target_version missing"
  else if String.eqb (target_version m) running_version
  then Some "manifest: target_version equals running version"
  else if negb (string_prefixb "http://" (image_url m)) &&
          negb (string_prefixb "https://" (image_url m))
  then Some "manifest: image_url missing or not http(s)"
  else if image_size m =? 0 then Some "manifest: image_size missing or zero"
  else if partition_size <? image_size m
  then Some "manifest: image larger than the OTA partition"
  else if negb (has_sha256 m) then Some "manifest: image_sha256 missing or malformed"
  else if negb (has_signature m) then Some "manifest: ed25519_signature missing or malformed"
  else if uptime_sec <? min_uptime_sec m
  then Some "manifest: device uptime below min_uptime_sec gate"
  else None.

(** ** The parts the updater calls *)

(** What cJSON yields for one member of the parsed object. *)
Inductive JsonItem := JString (s : string) | JNumber (valuedouble : Q) | JOther.

(** The streaming SHA-256 of libsodium: hashing in pieces is hashing the
    concatenation. *)
Class Sha256 (H : Type) := {
  sha_init : H;
  sha_update : H -> list Z -> H;
  sha_final : H -> list Z;
  sha_update_app s a b : sha_update (sha_update s a) b = sha_update s (a ++ b);
  sha_update_nil s : sha_update s [] = s;
}.

(** One attempt's outside world: the outcome of every call [run_inner]
    makes.  [perform_got] are the byte counts of the in-progress iterations
    of [esp_https_ota_perform] and [perform_ok] its final result; [flash] is
    the passive partition after the download. *)
Record OtaEnv := mkOtaEnv {
  http_init_ok : bool;
  http_open_ok : bool;
  http_status : Z;
  malloc_ok : bool;
  http_body : option string;
  cjson_parse : string -> option (string -> option JsonItem);
  double_to_u32 : Q -> Z;
  passive_size : option Z;
  uptime_us : Z;
  ota_begin_ok : bool;
  perform_got : list Z;
  perform_ok : bool;
  complete_data : bool;
  readback_malloc_ok : bool;
  flash : list Z;
  partition_read_ok : Z -> bool;
  sign_verify : list Z -> list Z -> list Z -> bool;
  ota_finish_ok : bool;
}.

Record OtaConfig := mkOtaConfig {
  manifest_url : string;
  running_version : string;
  pubkey_hex : option string;
}.

(** The calls on the update handle, and the progress callback. *)
Inductive OtaCall := CallBegin | CallAbort | CallFinish | CallProgress (pct : Z).

#[export] Instance OtaCall_eq_dec : EqDecision OtaCall.
Proof. solve_decision. Defined.

(** ** The updater *)

Definition kManifestMax : nat := 2048.
Definition kReadbackChunk : Z := 4096.

(** [fetch_json]: an error text, or the NUL-terminated body. *)
Definition fetch_json (e : OtaEnv) : string + string :=
  if negb (http_init_ok e) then inl "manifest: http client init failed"%string
  else if negb (http_open_ok e) then inl "manifest: connection failed"%string
  else if negb (http_status e =? 200) then inl "manifest: http status not 200"%string
  else if negb (malloc_ok e) then inl "manifest: out of memory"%string
  else match http_body e with
       | None | Some EmptyString => inl "manifest: empty response"%string
       | Some body => inr (string_take (kManifestMax - 1) body)
       end.

(** [copy_json_str]: [dst] keeps its value unless the item is a string. *)
Definition copy_json_str (dst : string) (cap : nat) (item : option JsonItem) : string :=
  match item with Some (JString s) => cstr_copy cap s | _ => dst end.

(** The hex members: [has_*] and the decoded array, which keeps its zeros
    when the item is absent or malformed. *)
Definition json_hex (item : option JsonItem) (n : nat) : bool * list Z :=
  match item with
  | Some (JString s) =>
      match hex_decode (Some s) n with Some b => (true, b) | None => (false, replicate n 0) end
  | _ => (false, replicate n 0)
  end.

(** [parse_manifest]. *)
Definition parse_manifest (e : OtaEnv) (json : string) : string + Manifest :=
  match cjson_parse e json with
  | None => inl "manifest: invalid JSON"%string
  | Some get =>
      let size :=
        match get "image_size"%string with
        | Some (JNumber d) => if Qlt_le_dec 0 d then double_to_u32 e d else 0
        | _ => 0
        end in
      let uptime :=
        match get "min_uptime_sec"%string with
        | Some (JNumber d) => if Qlt_le_dec d 0 then 0 else double_to_u32 e d
        | _ => 0
        end in
      let '(hs, sha) := json_hex (get "image_sha256"%string) 32 in
      let '(hg, sig) := json_hex (get "ed25519_signature"%string) 64 in
      inr (mkManifest (copy_json_str "" 24 (get "target_version"%string))
             (copy_json_str "" 128 (get "image_url"%string))
             size sha hs sig hg
             (copy_json_str "" 32 (get "signing_key_id"%string)) uptime)
  end.

Section updater.
Context {H : Type} `{!Sha256 H}.

(** The loop of [readback_sha256]; each iteration reads at least one byte, so
    [len] iterations are enough. *)
Fixpoint readback_loop (fuel : nat) (e : OtaEnv) (st : H) (off len : Z) : option H :=
  match fuel with
  | O => Some st
  | S fuel =>
      if off <? len then
        let n := Z.min kReadbackChunk (len - off) in
        if partition_read_ok e off
        then readback_loop fuel e
               (sha_update st (take (Z.to_nat n) (drop (Z.to_nat off) (flash e)))) (off + n) len
        else None
      else Some st
  end.

(** [readback_sha256]. *)
Definition readback_sha256 (e : OtaEnv) (len : Z) : string + list Z :=
  if negb (readback_malloc_ok e) then inl "verify: out of memory"%string
  else match readback_loop (Z.to_nat len) e sha_init 0 len with
       | None => inl "verify: partition readback failed"%string
       | Some st => inr (sha_final st)
       end.

(** The progress reports of the download loop. *)
Fixpoint download_progress (size : Z) (last_decile : Z) (got : list Z) : list OtaCall :=
  match got with
  | [] => []
  | g :: got =>
      let pct := u8 (u64 (g * 100) / size) in
      if pct / 10 =? last_decile then download_progress size last_decile got
      else CallProgress pct :: download_progress size (pct / 10) got
  end.

(** Steps 4 to 6 of [run_inner], on a fully downloaded image. *)
Definition verify_and_finish (c : OtaConfig) (e : OtaEnv) (m : Manifest)
    : option string * list OtaCall :=
  match readback_sha256 e (image_size m) with
  | inl err => (Some err, [CallAbort])
  | inr digest =>
      if negb (bool_decide (digest = image_sha256 m))
      then (Some "verify: image sha256 mismatch", [CallAbort])
      else
        let finish :=
          if negb (ota_finish_ok e) then (Some "finish: image validation failed", [CallFinish])
          else (None, [CallFinish]) in
        match pubkey_hex c with
        | None | Some EmptyString => finish
        | Some hex =>
            match hex_decode (Some hex) 32 with
            | None => (Some "verify: provisioned public key is malformed", [CallAbort])
            | Some pubkey =>
                if negb (sign_verify e (signature m) digest pubkey)
                then (Some "verify: ed25519 signature rejected", [CallAbort])
                else finish
            end
        end
  end%string.

(** [OtaUpdater::run_inner]: the error (or [None] for success) and the calls
    it made. *)
Definition run_inner (c : OtaConfig) (e : OtaEnv) : option string * list OtaCall :=
  match fetch_json e with
  | inl err => (Some err, [])
  | inr json =>
      match parse_manifest e json with
      | inl err => (Some err, [])
      | inr m =>
          match passive_size e with
          | None => (Some "no passive OTA partition"%string, [])
          | Some psize =>
              match validate m (running_version c) psize (u32 (uptime_us e / 1000000)) with
              | Some err => (Some err, [])
              | None =>
                  if negb (ota_begin_ok e)
                  then (Some "download: esp_https_ota_begin failed"%string, [])
                  else
                    let progress := download_progress (image_size m) 0 (perform_got e) in
                    if negb (perform_ok e) || negb (complete_data e)
                    then (Some "download: transfer failed or truncated"%string,
                          CallBegin :: progress ++ [CallAbort])
                    else
                      let '(err, calls) := verify_and_finish c e m in
                      (err, CallBegin :: progress ++ calls)
              end
          end
      end
  end.

(** The boot slot has been switched to the new image. *)
Definition boot_slot_switched (e : OtaEnv) (calls : list OtaCall) : bool :=
  bool_decide (CallFinish ∈ calls) && ota_finish_ok e.
End updater.

(** *** One update at a time *)

Record OtaUpdater := mkOta {
  running_ : bool;
  done_calls : list (bool * string);
}.

(** [OtaUpdater::begin]; [spawn_ok] is the result of [xTaskCreate]. *)
Inductive EspErr := ESP_OK | ESP_ERR_INVALID_STATE | ESP_ERR_NO_MEM.

Definition begin (u : OtaUpdater) (spawn_ok : bool) : OtaUpdater * EspErr :=
  if running_ u then (u, ESP_ERR_INVALID_STATE)
  else if negb spawn_ok then (mkOta false (done_calls u), ESP_ERR_NO_MEM)
  else (mkOta true (done_calls u), ESP_OK).

(** [OtaUpdater::run] on the outcome of [run_inner]. *)
Definition run (u : OtaUpdater) (err : option string) : OtaUpdater :=
  mkOta false (done_calls u ++
    [match err with None => (true, ""%string) | Some e => (false, e) end]).

(** ** Lemmas *)

(** *** Hexadecimal *)

Definition hex_digit (n : Z) : Ascii.ascii :=
  Ascii.ascii_of_N (Z.to_N (if n <? 10 then code "0"%char + n else code "a"%char + n - 10)).

(** The lowercase encoding the manifest generator writes. *)
Fixpoint to_hex (bs : list Z) : string :=
  match bs with
  | [] => EmptyString
  | b :: bs => String (hex_digit (b / 16)) (String (hex_digit (b mod 16)) (to_hex bs))
  end.

Definition lower (c : Ascii.ascii) : Ascii.ascii :=
  if (code "A"%char <=? code c) && (code c <=? code "Z"%char)
  then Ascii.ascii_of_N (Z.to_N (code c + 32)) else c.

Fixpoint lowercase (s : string) : string :=
  match s with EmptyString => EmptyString | String c s => String (lower c) (lowercase s) end.

Lemma hex_nibble_range c : hex_nibble c < 16.
Proof. by destruct c as [[] [] [] [] [] [] [] []]. Qed.

Lemma hex_nibble_digit c : 0 <= hex_nibble c -> lower c = hex_digit (hex_nibble c).
Proof. destruct c as [[] [] [] [] [] [] [] []]; vm_compute; congruence. Qed.

Lemma nibble_cases k :
  0 <= k < 16 -> k ∈ [0;1;2;3;4;5;6;7;8;9;10;11;12;13;14;15].
Proof.
  intros Hk. replace k with (Z.of_nat (Z.to_nat k)) by lia.
  assert (Hn : (Z.to_nat k < 16)%nat) by lia. revert Hn. generalize (Z.to_nat k). clear.
  intros n Hn. do 16 (destruct n as [|n]; [apply (bool_decide_unpack _); done|]). lia.
Qed.

Lemma digit_hex_nibble c k : 0 <= k < 16 -> lower c = hex_digit k -> hex_nibble c = k.
Proof.
  intros Hk%nibble_cases Hc.
  assert (Hall : Forall (fun k => lower c = hex_digit k -> hex_nibble c = k)
                   [0;1;2;3;4;5;6;7;8;9;10;11;12;13;14;15]).
  { clear. destruct c as [[] [] [] [] [] [] [] []]; repeat constructor; vm_compute; congruence. }
  rewrite Forall_forall in Hall. auto.
Qed.

Lemma nibbles_byte hi lo :
  0 <= hi < 16 -> 0 <= lo < 16 ->
  u8 (Z.lor (Z.shiftl hi 4) lo) = hi * 16 + lo.
Proof.
  intros. rewrite lor_shiftl_add by lia. apply u8_small. lia.
Qed.

(** Decoding from byte [i] on is decoding the suffix. *)
Lemma hex_decode_loop_shift a b s i n :
  hex_decode_loop (String a (String b s)) (S i) n = hex_decode_loop s i n.
Proof.
  revert i. induction n as [|n IH]; intros i; [done|].
  cbn [hex_decode_loop]. rewrite IH. unfold c_char.
  replace (2 * S i)%nat with (S (S (2 * i))) by lia. done.
Qed.

Lemma hex_decode_cons a b s n :
  hex_decode (Some (String a (String b s))) (S n) =
  if (hex_nibble a <? 0) || (hex_nibble b <? 0) then None
  else out ← hex_decode (Some s) n; Some (hex_nibble a * 16 + hex_nibble b :: out).
Proof.
  unfold hex_decode. cbn [hex_decode_loop].
  change (c_char (String a (String b s)) (2 * 0)) with a.
  change (c_char (String a (String b s)) (2 * 0 + 1)) with b.
  rewrite hex_decode_loop_shift.
  pose proof (hex_nibble_range a). pose proof (hex_nibble_range b).
  destruct (Z.ltb_spec (hex_nibble a) 0); [done|].
  destruct (Z.ltb_spec (hex_nibble b) 0); [done|]. simpl.
  rewrite nibbles_byte by lia.
  destruct (hex_decode_loop s 0 n); simpl; [|done].
  replace (n + S (n + 0))%nat with (S (n + (n + 0))) by lia.
  change (c_char (String a (String b s)) (S (S (n + (n + 0))))) with (c_char s (n + (n + 0))).
  by destruct (Ascii.eqb _ _).
Qed.

Definition is_byte (b : Z) : Prop := 0 <= b < 256.

Lemma hex_decode_sound n s bs :
  nul_free s = true -> hex_decode (Some s) n = Some bs ->
  length bs = n /\ Forall is_byte bs /\ lowercase s = to_hex bs.
Proof.
  revert s bs. induction n as [|n IH]; intros s bs Hn Hd.
  { unfold hex_decode in Hd. simpl in Hd. destruct s as [|c s]; simpl in *; [by simplify_eq|].
    unfold c_char in Hd. simpl in Hd. by destruct (Ascii.eqb c nul). }
  destruct s as [|a [|b s]]; [done| |].
  { unfold hex_decode in Hd. simpl in Hd. by destruct (hex_nibble _ <? 0). }
  rewrite hex_decode_cons in Hd. simpl in Hn. apply andb_prop in Hn as [_ Hn].
  apply andb_prop in Hn as [_ Hn].
  destruct (Z.ltb_spec (hex_nibble a) 0); [done|].
  destruct (Z.ltb_spec (hex_nibble b) 0); [done|]. cbn [orb] in Hd.
  destruct (hex_decode (Some s) n) as [out|] eqn:E; simplify_eq/=.
  destruct (IH _ _ Hn E) as (Hl & Hf & Hs).
  pose proof (hex_nibble_range a). pose proof (hex_nibble_range b).
  split_and!; [by rewrite Hl | constructor; [unfold is_byte; lia | done] |].
  rewrite Hs, (hex_nibble_digit a), (hex_nibble_digit b) by lia.
  replace ((hex_nibble a * 16 + hex_nibble b) / 16) with (hex_nibble a)
    by (Z.to_euclidean_division_equations; lia).
  replace ((hex_nibble a * 16 + hex_nibble b) mod 16) with (hex_nibble b)
    by (Z.to_euclidean_division_equations; lia).
  done.
Qed.

Lemma hex_decode_complete bs s :
  Forall is_byte bs -> lowercase s = to_hex bs ->
  hex_decode (Some s) (length bs) = Some bs.
Proof.
  intros Hf. revert s. induction Hf as [|x bs Hx Hf IH]; intros s Hs; simpl in Hs.
  { by destruct s. }
  destruct s as [|a [|b s]]; simpl in Hs; try done. injection Hs as Ha Hb Hs.
  unfold is_byte in Hx.
  assert (Hq : 0 <= x / 16 < 16) by (Z.to_euclidean_division_equations; lia).
  assert (Hr : 0 <= x mod 16 < 16) by (apply Z.mod_pos_bound; lia).
  cbn [length]. rewrite hex_decode_cons, (digit_hex_nibble a (x / 16)),
    (digit_hex_nibble b (x mod 16)) by done.
  destruct (Z.ltb_spec (x / 16) 0); [lia|]. destruct (Z.ltb_spec (x mod 16) 0); [lia|].
  cbn [orb]. rewrite IH by done. simpl. do 2 f_equal.
  rewrite (Z.div_mod x 16) at 3 by lia. lia.
Qed.

(** *** The readback hash *)

Section hash.
Context {H : Type} `{!Sha256 H}.

(** Reading the partition in chunks hashes its first [len] bytes. *)
Lemma readback_loop_spec fuel e (st st' : H) off len :
  0 <= off -> (Z.to_nat (len - off) <= fuel)%nat ->
  readback_loop fuel e st off len = Some st' ->
  st' = sha_update st (take (Z.to_nat (len - off)) (drop (Z.to_nat off) (flash e))).
Proof.
  revert st off. induction fuel as [|fuel IH]; intros st off Ho Hf Hr; cbn in Hr.
  { replace (Z.to_nat (len - off)) with O by lia. rewrite take_0, sha_update_nil. by simplify_eq. }
  destruct (Z.ltb_spec off len).
  2:{ replace (Z.to_nat (len - off)) with O by lia. rewrite take_0, sha_update_nil.
      by simplify_eq. }
  destruct (partition_read_ok e off); [|done].
  unfold kReadbackChunk in Hr. set (n := Z.min 4096 (len - off)) in *.
  assert (Hn : 0 < n <= len - off) by lia. clearbody n.
  apply IH in Hr; [|lia|lia]. rewrite Hr, sha_update_app. f_equal.
  replace (Z.to_nat (off + n)) with (Z.to_nat off + Z.to_nat n)%nat by lia.
  rewrite <- drop_drop.
  replace (Z.to_nat (len - off)) with (Z.to_nat n + Z.to_nat (len - (off + n)))%nat by lia.
  by rewrite take_take_drop.
Qed.

Lemma readback_sha256_spec e len digest :
  readback_sha256 e len = inr digest ->
  digest = sha_final (sha_update sha_init (take (Z.to_nat len) (flash e))).
Proof.
  unfold readback_sha256. destruct (readback_malloc_ok e); [|done]. simpl.
  destruct (readback_loop _ _ _ _ _) as [st|] eqn:E; [|done]. intros [= <-].
  apply readback_loop_spec in E; [|lia|lia].
  rewrite Z.sub_0_r in E. by rewrite E.
Qed.

Definition is_progress (c : OtaCall) : bool :=
  match c with CallProgress _ => true | _ => false end.

Lemma download_progress_only size d got :
  Forall (fun c => is_progress c = true) (download_progress size d got).
Proof. revert d. induction got as [|g got IH]; intros d; simpl; [done|]. case_match; auto. Qed.

Lemma verify_and_finish_calls c e m :
  let '(err, calls) := verify_and_finish c e m in
  (calls = [CallAbort] /\ err <> None) \/
  (calls = [CallFinish] /\ (ota_finish_ok e = true <-> err = None)).
Proof.
  unfold verify_and_finish.
  destruct (readback_sha256 e (image_size m)); [by left|].
  destruct (bool_decide _); cbn [negb]; [|by left].
  assert (Hfin : forall calls, calls = [CallFinish] ->
    forall err, err = (if ota_finish_ok e then None else Some "finish: image validation failed"%string) ->
    (calls = [CallAbort] /\ err <> None) \/
    (calls = [CallFinish] /\ (ota_finish_ok e = true <-> err = None))).
  { intros ? -> ? ->. right. by destruct (ota_finish_ok e). }
  destruct (pubkey_hex c) as [[|ch hex]|]; try (destruct (ota_finish_ok e); by apply Hfin).
  destruct (hex_decode (Some (String ch hex)) 32) as [pk|]; [|by left].
  destruct (sign_verify _ _ _ _); simpl; [|by left].
  destruct (ota_finish_ok e); by apply Hfin.
Qed.
End hash.

(** ** Properties *)

(** [hex_decode] accepts exactly the encodings.  On a C string it
    returns [out_len] bytes exactly when the string, in lower case, is the
    hexadecimal encoding of those bytes: short, long, odd and non-hex inputs
    are all refused, and every digest survives the round trip. *)
Theorem hex_decode_exact (s : string) (n : nat) (bs : list Z) (Hs : nul_free s = true) :
  hex_decode (Some s) n = Some bs <->
  length bs = n /\ Forall is_byte bs /\ lowercase s = to_hex bs.
Proof.
  split; [by apply hex_decode_sound|]. intros (<- & Hf & Hl). by apply hex_decode_complete.
Qed.

Lemma hex_decode_exact_witness : hex_decode (Some "00fF7a"%string) 3 = Some [0; 255; 122].
Proof.
  apply (hex_decode_exact "00fF7a"%string 3 [0; 255; 122]); [reflexivity|].
  split; [reflexivity|]. split; [|vm_compute; reflexivity].
  repeat constructor; unfold is_byte; lia.
Defined.

Section properties.
Context {H : Type} `{!Sha256 H}.

(** C27: Only a verified image becomes bootable.  When an update attempt
    succeeds, the manifest named another version that fits the passive slot
    and was old enough to update, the SHA-256 of the bytes read back from
    flash over the declared size is the manifest's, and, with a public key
    provisioned, the manifest's signature over that digest verifies under
    the decoded key. *)
Theorem staged_update_is_verified c e calls (Hrun : run_inner c e = (None, calls)) :
  exists json m psize,
    fetch_json e = inr json /\ parse_manifest e json = inr m /\ passive_size e = Some psize /\
    target_version m <> ""%string /\ target_version m <> running_version c /\
    image_size m <> 0 /\ image_size m <= psize /\
    min_uptime_sec m <= u32 (uptime_us e / 1000000) /\
    complete_data e = true /\
    let digest := sha_final (sha_update sha_init (take (Z.to_nat (image_size m)) (flash e))) in
    image_sha256 m = digest /\
    (forall hex, pubkey_hex c = Some hex -> hex <> ""%string ->
       exists pk, hex_decode (Some hex) 32 = Some pk /\
                  sign_verify e (signature m) digest pk = true).
Proof.
  unfold run_inner in Hrun.
  destruct (fetch_json e) as [|json]; [done|].
  destruct (parse_manifest e json) as [|m] eqn:Em; [done|].
  destruct (passive_size e) as [psize|]; [|done].
  destruct (validate m (running_version c) psize _) as [|] eqn:Ev; [done|].
  destruct (ota_begin_ok e); [|done]. simpl in Hrun.
  destruct (perform_ok e); [|done]. destruct (complete_data e) eqn:Ecd; [|done]. simpl in Hrun.
  destruct (verify_and_finish c e m) as [err calls'] eqn:Evf. injection Hrun as -> _.
  exists json, m, psize. unfold validate in Ev.
  destruct (String.eqb_spec (target_version m) ""); [done|].
  destruct (String.eqb_spec (target_version m) (running_version c)); [done|].
  destruct (_ && _); [done|]. destruct (Z.eqb_spec (image_size m) 0); [done|].
  destruct (Z.ltb_spec psize (image_size m)); [done|].
  destruct (has_sha256 m); [|done]. destruct (has_signature m); [|done]. simpl in Ev.
  destruct (Z.ltb_spec (u32 (uptime_us e / 1000000)) (min_uptime_sec m)); [done|].
  split_and!; try done. unfold verify_and_finish in Evf.
  destruct (readback_sha256 e (image_size m)) as [|digest] eqn:Er; [done|].
  apply readback_sha256_spec in Er. rewrite <- Er.
  destruct (bool_decide (digest = image_sha256 m)) eqn:Eb; [|done].
  apply bool_decide_eq_true in Eb. split; [done|].
  intros hex Hk Hne. rewrite Hk in Evf. destruct hex as [|ch hex]; [done|]. simpl negb in Evf.
  destruct (hex_decode (Some (String ch hex)) 32) as [pk|]; [|done].
  exists pk. split; [done|]. by destruct (sign_verify _ _ _ _).
Qed.

(** A failed update changes nothing.  For every outcome of every call,
    the boot slot is switched exactly when the attempt reports success, and
    apart from progress reports the update handle is either never opened or
    opened once and then closed exactly once, by abort or by finish. *)
Theorem failed_update_keeps_boot_slot c e :
  let '(err, calls) := run_inner c e in
  (boot_slot_switched e calls = true <-> err = None) /\
  base.filter (fun x => is_progress x = false) calls ∈
    [ []; [CallBegin; CallAbort]; [CallBegin; CallFinish] ].
Proof.
  assert (Hnil : forall err : string,
    (boot_slot_switched e [] = true <-> Some err = None) /\
    base.filter (fun x => is_progress x = false) [] ∈
      [ []; [CallBegin; CallAbort]; [CallBegin; CallFinish] ]).
  { intros err. split; [done|]. apply list_elem_of_here. }
  unfold run_inner. destruct (fetch_json e); [apply Hnil|].
  destruct (parse_manifest e _) as [|m]; [apply Hnil|].
  destruct (passive_size e); [|apply Hnil]. destruct (validate _ _ _ _); [apply Hnil|].
  destruct (ota_begin_ok e); [|apply Hnil]. cbn [negb].
  pose proof (download_progress_only (image_size m) 0 (perform_got e)) as Hp.
  set (pr := download_progress _ _ _) in *. clearbody pr.
  assert (Hfilter : forall tail, base.filter (fun x => is_progress x = false)
      (CallBegin :: pr ++ tail) = CallBegin :: base.filter (fun x => is_progress x = false) tail).
  { intros tail. rewrite filter_cons_True, filter_app by done. f_equal.
    replace (base.filter _ pr) with (@nil OtaCall); [done|]. symmetry.
    induction Hp as [|x l Hx _ IH]; [done|]. rewrite filter_cons_False; [done|]. by rewrite Hx. }
  assert (Hnotin : CallFinish ∉ pr).
  { rewrite Forall_forall in Hp. intros Hin%Hp. done. }
  destruct (_ || _).
  { rewrite Hfilter. unfold boot_slot_switched. rewrite bool_decide_eq_false_2; [|set_solver].
    split; [done|]. apply list_elem_of_further, list_elem_of_here. }
  pose proof (verify_and_finish_calls c e m) as Hv.
  destruct (verify_and_finish c e m) as [err calls].
  rewrite Hfilter. unfold boot_slot_switched. destruct Hv as [[-> He] | [-> He]].
  - rewrite bool_decide_eq_false_2; [|set_solver]. split; [by split; intros|].
    apply list_elem_of_further, list_elem_of_here.
  - rewrite bool_decide_eq_true_2; [|set_solver]. split; [done|].
    do 2 apply list_elem_of_further. apply list_elem_of_here.
Qed.
End properties.

(** ** A concrete environment *)

(** A hash of the right shape: the first 32 bytes, zero padded. *)
#[export] Instance pad_hash : Sha256 (list Z).
Proof.
  refine {| sha_init := []; sha_update s a := s ++ a;
            sha_final s := take 32 (s ++ replicate 32 0) |}.
  - intros s a b. by rewrite app_assoc.
  - apply app_nil_r.
Defined.

Definition sample_members : list (string * JsonItem) :=
  [("target_version", JString "0.2.0"); ("image_url", JString "http://gate/fw.bin");
   ("image_size", JNumber 3); ("min_uptime_sec", JNumber 60);
   ("image_sha256", JString (to_hex ([7; 8; 9] ++ replicate 29 0)));
   ("ed25519_signature", JString (to_hex (replicate 64 17)))]%string.

Definition sample_env : OtaEnv :=
  mkOtaEnv true true 200 true (Some "{}"%string)
    (fun _ => Some (fun k => snd <$> list_find (fun kv => kv.1 = k) sample_members ≫= fun x => Some x.2))
    Qfloor (Some 1048576) 90000000 true [1; 2; 3] true true true
    [7; 8; 9; 255; 255] (fun _ => true)
    (fun sig digest pk => bool_decide (sig = replicate 64 17)) true.

Definition sample_config : OtaConfig :=
  mkOtaConfig "http://gate/manifest.json" "0.1.0" (Some (to_hex (replicate 32 1))).

Lemma staged_update_is_verified_witness :
  exists calls, run_inner sample_config sample_env = (None, calls) /\
  exists m psize, passive_size sample_env = Some psize /\
    image_sha256 m = take 32 (take (Z.to_nat (image_size m)) (flash sample_env)
                                ++ replicate 32 0).
Proof.
  assert (Hrun : run_inner sample_config sample_env =
    (None, CallBegin :: [CallProgress 33; CallProgress 66; CallProgress 100] ++ [CallFinish]))
    by (vm_compute; reflexivity).
  destruct (staged_update_is_verified sample_config sample_env _ Hrun)
    as (json & m & psize & _ & _ & H & _ & _ & _ & _ & _ & _ & Hd & _).
  eexists. split; [exact Hrun|]. exists m, psize. split; [exact H | exact Hd].
Defined.

(** With the flash corrupted the attempt fails and the slot stays. *)
Lemma failed_update_keeps_boot_slot_witness :
  let e := mkOtaEnv true true 200 true (Some "{}"%string) (cjson_parse sample_env)
    Qfloor (Some 1048576) 90000000 true [] true true true [7; 8; 0] (fun _ => true)
    (sign_verify sample_env) true in
  boot_slot_switched e (run_inner sample_config e).2 = false.
Proof.
  intros e. pose proof (failed_update_keeps_boot_slot sample_config e) as H.
  destruct (run_inner sample_config e) as [err calls] eqn:E.
  vm_compute in E. injection E as <- <-. destruct H as [[H _] _].
  destruct (boot_slot_switched e _); [discriminate (H eq_refl) | reflexivity].
Defined.
