(* ===== verification/ControlClient.v ===== *)
(** The Control-stream client of the firmware
    (src/firmware/components/gate_rpc: control_client.hpp and .cpp) and the
    command dispatcher of src/firmware/main/main.cpp.  nanopb, nghttp2, the
    sockets and TLS are outside the repository: the codec is a pair of
    parameters, and one iteration of the session loop takes the outcome of
    the library and socket calls as an argument. *)

From S2P Require Import Prelude StateMachine Platform Drivers GateController.
From S2P Require Import CommandTracker GrpcFraming Ota.
From Stdlib Require Import Ascii.
Local Open Scope Z_scope.

(** ** Wire data (src/shared/proto/gate_service.proto) *)

Inductive WireState :=
| GATE_STATE_UNKNOWN | GATE_STATE_CLOSED | GATE_STATE_OPENING | GATE_STATE_OPEN
| GATE_STATE_CLOSING | GATE_STATE_FAULT | GATE_STATE_LOCKDOWN.

#[export] Instance WireState_eq_dec : EqDecision WireState.
Proof. solve_decision. Defined.

(** [COMMAND_KIND_OTHER] is any value the enum has no name for. *)
Inductive CommandKind :=
| COMMAND_KIND_UNSPECIFIED | COMMAND_KIND_OPEN_GATE | COMMAND_KIND_CLOSE_GATE
| COMMAND_KIND_PULSE_RELAY | COMMAND_KIND_LATCH_OPEN | COMMAND_KIND_LATCH_CLOSE
| COMMAND_KIND_RELEASE_LATCH | COMMAND_KIND_REBOOT | COMMAND_KIND_BEGIN_OTA
| COMMAND_KIND_LED_PATTERN | COMMAND_KIND_OTHER (n : Z).

Definition LedPattern_MAX : Z := 5.

Record Timestamp := mkTs { ts_seconds : Z; ts_nanos : Z }.

(** The fields of the messages that the firmware reads or writes. *)
Record GateCommand := mkCommand {
  command_id : string; cmd_kind : CommandKind; cmd_led_pattern : Z; cmd_actor : string;
}.

Record CommandAck := mkAck {
  ack_command_id : string; ack_received_ts : option Timestamp;
  ack_completed_ts : option Timestamp; ack_completed : bool; ack_success : bool;
  ack_error_text : string; ack_state_after : WireState;
}.

Record Telemetry := mkTelemetry {
  t_gate_id : string; t_sent_ts : option Timestamp; t_gate_state : WireState;
  t_limit_open : bool; t_limit_closed : bool; t_safety_beam_clear : bool;
  t_uptime_sec : Z; t_free_heap_bytes : Z; t_min_free_heap : Z;
  t_firmware_version : string; t_seq : Z;
}.

(** [ControlEnvelope.payload]; the firmware neither reads nor writes the
    contents of a fault. *)
Inductive Envelope :=
| EnvTelemetry (t : Telemetry) | EnvCommand (c : GateCommand) | EnvAck (a : CommandAck)
| EnvFault | EnvEmpty.

(** [to_wire_state]. *)
Definition to_wire_state (s : State) : WireState :=
  match s with
  | Closed => GATE_STATE_CLOSED
  | Opening => GATE_STATE_OPENING
  | Open => GATE_STATE_OPEN
  | Closing => GATE_STATE_CLOSING
  | Faulted => GATE_STATE_FAULT
  | Initializing | StoppedOpen | StoppedClose => GATE_STATE_UNKNOWN
  end.

(** ** Configuration and environment *)

Record ClientConfig := mkClientConfig {
  cl_gate_id : string; cl_fw_version : string;
  reconnect_min_ms : Z; reconnect_max_ms : Z; telemetry_period_ms : Z;
  command_deadline_ms : Z;
}.

Definition ClientConfig_default : ClientConfig :=
  mkClientConfig "" "" 1000 30000 1000 40000.

(** The clocks and heap counters read by one call. *)
Record Now := mkNow {
  now_us : Z; wall_sec : Z; wall_usec : Z; heap_free : Z; heap_min : Z;
}.

Definition now_ms (n : Now) : Z := u32 (now_us n / 1000).

(** [fill_wallclock]. *)
Definition fill_wallclock (n : Now) : option Timestamp :=
  if wall_sec n <? 1700000000 then None
  else Some (mkTs (wall_sec n) (i32 (i32 (wall_usec n) * 1000))).

Record DispatchResult := mkDispatch {
  accepted : bool; completed_now : bool; external_completion : bool;
  terminal_ok : State; dr_error : string;
}.

Definition kMaxOutFrame : nat := 512.
Definition kOutQueueDepth : nat := 8.
Definition kMaxInMessage : nat := 1024.

(** The gate-specific telemetry fields, written by the filler. *)
Record GateFields := mkFields {
  gf_state : WireState; gf_limit_open : bool; gf_limit_closed : bool; gf_beam_clear : bool;
}.

Definition GateFields_zero : GateFields := mkFields GATE_STATE_UNKNOWN false false false.

(** The members of [ControlClient], with [attempted] recording every envelope
    passed to [send_envelope] and [dispatching] the command that
    [handle_command] has dispatched and not yet armed. *)
Record Client (Q : Type) := mkClient {
  cl_cfg : ClientConfig;
  connected_ : bool;
  telemetry_seq_ : Z;
  last_telemetry_ms_ : Z;
  last_wire_state_ : WireState;
  tracker_ : CommandTracker;
  out_queue_ : Q;
  cl_started_ : bool;
  net_up : bool;
  dispatching : option (string * State);
  attempted : list Envelope;
}.
Arguments mkClient {Q}.
Arguments cl_cfg {Q}.
Arguments connected_ {Q}.
Arguments telemetry_seq_ {Q}.
Arguments last_telemetry_ms_ {Q}.
Arguments last_wire_state_ {Q}.
Arguments tracker_ {Q}.
Arguments out_queue_ {Q}.
Arguments cl_started_ {Q}.
Arguments net_up {Q}.
Arguments dispatching {Q}.
Arguments attempted {Q}.

Section client.
Context {Q W : Type} `{!RtosQueue (list Z) Q}.
(** nanopb: the encoder into a buffer of the given size, and the decoder. *)
Context (pb_encode : nat -> Envelope -> option (list Z)) (pb_decode : list Z -> option Envelope).
(** The callbacks given to the constructor; [W] is the rest of the firmware. *)
Context (filler : option (W -> GateFields))
        (dispatcher : option (GateCommand -> W -> W * DispatchResult)).
Implicit Types c : Client Q.

(** *** Member assignments *)
Definition set_connected (b : bool) c : Client Q :=
  mkClient (cl_cfg c) b (telemetry_seq_ c) (last_telemetry_ms_ c) (last_wire_state_ c)
    (tracker_ c) (out_queue_ c) (cl_started_ c) (net_up c) (dispatching c) (attempted c).
Definition set_telemetry (seq ms : Z) c : Client Q :=
  mkClient (cl_cfg c) (connected_ c) seq ms (last_wire_state_ c)
    (tracker_ c) (out_queue_ c) (cl_started_ c) (net_up c) (dispatching c) (attempted c).
Definition set_wire_state (s : WireState) c : Client Q :=
  mkClient (cl_cfg c) (connected_ c) (telemetry_seq_ c) (last_telemetry_ms_ c) s
    (tracker_ c) (out_queue_ c) (cl_started_ c) (net_up c) (dispatching c) (attempted c).
Definition set_tracker (t : CommandTracker) c : Client Q :=
  mkClient (cl_cfg c) (connected_ c) (telemetry_seq_ c) (last_telemetry_ms_ c)
    (last_wire_state_ c) t (out_queue_ c) (cl_started_ c) (net_up c) (dispatching c)
    (attempted c).
Definition set_out_queue (q : Q) c : Client Q :=
  mkClient (cl_cfg c) (connected_ c) (telemetry_seq_ c) (last_telemetry_ms_ c)
    (last_wire_state_ c) (tracker_ c) q (cl_started_ c) (net_up c) (dispatching c)
    (attempted c).
Definition set_net_up (b : bool) c : Client Q :=
  mkClient (cl_cfg c) (connected_ c) (telemetry_seq_ c) (last_telemetry_ms_ c)
    (last_wire_state_ c) (tracker_ c) (out_queue_ c) (cl_started_ c) b (dispatching c)
    (attempted c).
Definition set_dispatching (d : option (string * State)) c : Client Q :=
  mkClient (cl_cfg c) (connected_ c) (telemetry_seq_ c) (last_telemetry_ms_ c)
    (last_wire_state_ c) (tracker_ c) (out_queue_ c) (cl_started_ c) (net_up c) d
    (attempted c).
Definition add_attempt (e : Envelope) c : Client Q :=
  mkClient (cl_cfg c) (connected_ c) (telemetry_seq_ c) (last_telemetry_ms_ c)
    (last_wire_state_ c) (tracker_ c) (out_queue_ c) (cl_started_ c) (net_up c)
    (dispatching c) (attempted c ++ [e]).

(** *** Construction and lifecycle *)

Definition Client_new (cfg : ClientConfig) : Client Q :=
  mkClient cfg false 0 0 GATE_STATE_UNKNOWN CommandTracker_new
    (queue_create kOutQueueDepth) false false None [].

(** [ControlClient::start]; [spawn_ok] is the result of [xTaskCreate]. *)
Definition client_start (spawn_ok : bool) c : Client Q * EspErr :=
  if cl_started_ c then (c, ESP_ERR_INVALID_STATE)
  else
    (mkClient (cl_cfg c) (connected_ c) (telemetry_seq_ c) (last_telemetry_ms_ c)
       (last_wire_state_ c) (tracker_ c) (out_queue_ c) true (net_up c) (dispatching c)
       (attempted c),
     if spawn_ok then ESP_OK else ESP_ERR_NO_MEM).

Definition notify_network_up c : Client Q := set_net_up true c.
Definition notify_network_down c : Client Q := set_net_up false c.

(** *** Sending *)

(** The frame [send_envelope] builds: the 5-byte prefix and the payload. *)
Definition encode_frame (e : Envelope) : option (list Z) :=
  payload ← pb_encode (kMaxOutFrame - kFrameHeaderSize) e;
  Some (make_frame_header (u32 (Z.of_nat (length payload))) ++ payload).

(** [ControlClient::send_envelope]. *)
Definition send_envelope (e : Envelope) c : Client Q * bool :=
  let c := add_attempt e c in
  match encode_frame e with
  | None => (c, false)
  | Some f =>
      if negb (connected_ c) then (c, false)
      else match queue_send (out_queue_ c) f with
           | Some q => (set_out_queue q c, true)
           | None => (c, false)
           end
  end.

(** [ControlClient::send_telemetry]. *)
Definition send_telemetry (n : Now) (w : W) c : Client Q :=
  let f := match filler with Some f => f w | None => GateFields_zero end in
  let t := mkTelemetry (cstr_copy 32 (cl_gate_id (cl_cfg c))) (fill_wallclock n)
             (gf_state f) (gf_limit_open f) (gf_limit_closed f) (gf_beam_clear f)
             (u32 (now_us n / 1000000)) (heap_free n) (heap_min n)
             (cstr_copy 24 (cl_fw_version (cl_cfg c))) (telemetry_seq_ c) in
  let c := set_telemetry (u64 (telemetry_seq_ c + 1)) (last_telemetry_ms_ c) c in
  (send_envelope (EnvTelemetry t) (set_wire_state (t_gate_state t) c)).1.

(** [ControlClient::send_ack_received]. *)
Definition send_ack_received (n : Now) (cmd : GateCommand) c : Client Q :=
  (send_envelope (EnvAck (mkAck (cstr_copy 40 (command_id cmd)) (fill_wallclock n) None
                            false false "" (last_wire_state_ c))) c).1.

(** [ControlClient::send_ack_completed]. *)
Definition send_ack_completed (n : Now) (id : string) (success : bool) (error : string) c
    : Client Q :=
  (send_envelope (EnvAck (mkAck (cstr_copy 40 id) None (fill_wallclock n) true success
                            (if success then "" else cstr_copy 96 error)
                            (last_wire_state_ c))) c).1.

(** An ack for a verdict that fired. *)
Definition ack_verdict (n : Now) (v : Verdict) c : Client Q :=
  if v_fire v then send_ack_completed n (v_command_id v) (v_success v) (v_error v) c else c.

(** *** Commands *)

(** [ControlClient::handle_command] up to the dispatcher's result. *)
Definition command_dispatch (n : Now) (cmd : GateCommand) (cw : Client Q * W) : Client Q * W :=
  let '(c, w) := cw in
  let c := send_ack_received n cmd c in
  match dispatcher with
  | None => (send_ack_completed n (command_id cmd) false "no command dispatcher wired" c, w)
  | Some disp =>
      let '(w, r) := disp cmd w in
      if negb (accepted r)
      then (send_ack_completed n (command_id cmd) false (dr_error r) c, w)
      else if completed_now r
      then (send_ack_completed n (command_id cmd) true "" c, w)
      else if external_completion r then (c, w)
      else (set_dispatching (Some (command_id cmd, terminal_ok r)) c, w)
  end.

(** The rest of [handle_command]: arming the tracker. *)
Definition command_arm (n : Now) c : Client Q :=
  match dispatching c with
  | None => c
  | Some (id, ok) =>
      let '(t, superseded) :=
        arm (tracker_ c) id ok (u32 (now_ms n + command_deadline_ms (cl_cfg c))) in
      ack_verdict n superseded (set_dispatching None (set_tracker t c))
  end.

(** [ControlClient::handle_command], undisturbed. *)
Definition handle_command (n : Now) (cmd : GateCommand) (cw : Client Q * W) : Client Q * W :=
  let '(c, w) := command_dispatch n cmd cw in (command_arm n c, w).

(** [ControlClient::complete_command]. *)
Definition complete_command (n : Now) (id : string) (success : bool) (error : string) c
    : Client Q :=
  send_ack_completed n id success error c.

(** [ControlClient::notify_gate_event]. *)
Definition notify_gate_event (n : Now) (s : State) (r : Reason) (transitioned : bool) c
    : Client Q :=
  let c := set_wire_state (to_wire_state s) c in
  let '(t, v) := on_gate_event (tracker_ c) s r transitioned in
  ack_verdict n v (set_tracker t c).

(** The deadline backstop of the session loop. *)
Definition deadline_tick (n : Now) (now : Z) c : Client Q :=
  let '(t, v) := CommandTracker.on_tick (tracker_ c) now in
  ack_verdict n v (set_tracker t c).

(** [ControlSession::handle_message]. *)
Definition handle_message (n : Now) (data : list Z) (cw : Client Q * W) : Client Q * W :=
  match pb_decode data with
  | Some (EnvCommand cmd) => handle_command n cmd cw
  | Some (EnvTelemetry _ | EnvAck _ | EnvFault | EnvEmpty) | None => cw
  end.

(** *** The session *)

(** The members of [ControlSession]; [wire] records the bytes given to
    nghttp2 by the data provider. *)
Record Session := mkSession {
  assembler : FrameAssembler;
  stream_id : Z;
  current : list Z;
  current_off : nat;
  has_current : bool;
  headers_seen : bool;
  closed : bool;
  grpc_status : Z;
  wire : list Z;
}.

Definition Session_new (stream : Z) : Session :=
  mkSession (FrameAssembler_new (replicate kMaxInMessage 0)) stream [] 0 false false false (-1) [].

Definition set_assembler (a : FrameAssembler) (s : Session) : Session :=
  mkSession a (stream_id s) (current s) (current_off s) (has_current s) (headers_seen s)
    (closed s) (grpc_status s) (wire s).
Definition set_current (cur : list Z) (off : nat) (has : bool) (w : list Z) (s : Session)
    : Session :=
  mkSession (assembler s) (stream_id s) cur off has (headers_seen s) (closed s)
    (grpc_status s) (wire s ++ w).
Definition set_closed (s : Session) : Session :=
  mkSession (assembler s) (stream_id s) (current s) (current_off s) (has_current s)
    (headers_seen s) true (grpc_status s) (wire s).
Definition set_status (seen : bool) (status : Z) (s : Session) : Session :=
  mkSession (assembler s) (stream_id s) (current s) (current_off s) (has_current s)
    seen (closed s) status (wire s).

(** [std::atoi] on digits with an optional sign, after white space. *)
Fixpoint atoi_digits (acc : Z) (s : string) : Z :=
  match s with
  | String ch rest =>
      if (code "0"%char <=? code ch) && (code ch <=? code "9"%char)
      then atoi_digits (acc * 10 + (code ch - code "0"%char)) rest else acc
  | EmptyString => acc
  end.

Fixpoint atoi (s : string) : Z :=
  match s with
  | String ch rest =>
      if (code ch =? 32) || ((9 <=? code ch) && (code ch <=? 13)) then atoi rest
      else if Ascii.eqb ch "-"%char then - atoi_digits 0 rest
      else if Ascii.eqb ch "+"%char then atoi_digits 0 rest
      else atoi_digits 0 s
  | EmptyString => 0
  end.

(** [cb_on_header]. *)
Definition cb_on_header (stream : Z) (name value : string) (s : Session) : Session :=
  if negb (stream =? stream_id s) then s
  else if String.eqb name ":status" then set_status true (grpc_status s) s
  else if String.eqb name "grpc-status" then set_status (headers_seen s) (atoi value) s
  else s.

(** [cb_on_data_chunk]; the flag is [NGHTTP2_ERR_CALLBACK_FAILURE]. *)
Definition cb_on_data_chunk (n : Now) (stream : Z) (data : list Z)
    (scw : Session * (Client Q * W)) : option (Session * (Client Q * W) * bool) :=
  let '(s, cw) := scw in
  if negb (stream =? stream_id s) then Some (s, cw, false)
  else
    '(a, ms, err) ← on_data_chunk (assembler s) data;
    let cw := foldl (fun cw m => handle_message n m cw) cw ms in
    let s := set_assembler a s in
    Some (if err : bool then set_closed s else s, cw, err).

(** [cb_on_frame_recv]. *)
Definition cb_on_frame_recv (stream : Z) (end_stream goaway : bool) (s : Session) : Session :=
  let s := if (stream =? stream_id s) && end_stream then set_closed s else s in
  if goaway then set_closed s else s.

(** [cb_on_stream_close]. *)
Definition cb_on_stream_close (stream : Z) (s : Session) : Session :=
  if stream =? stream_id s then set_closed s else s.

(** [cb_data_read]: the bytes written to nghttp2's buffer of [length]
    bytes, or [None] for [NGHTTP2_ERR_DEFERRED]. *)
Definition cb_data_read (len : nat) (s : Session) : Session * option (list Z) :=
  if negb (has_current s) then (s, None)
  else
    let remain := (length (current s) - current_off s)%nat in
    let n := if decide (len < remain)%nat then len else remain in
    let bytes := take n (drop (current_off s) (current s)) in
    let off := (current_off s + n)%nat in
    (if decide (off = length (current s))
     then set_current (current s) 0 false bytes s
     else set_current (current s) off true bytes s, Some bytes).

(** What nghttp2 reports while it processes received bytes. *)
Inductive NgEvent :=
| NgHeader (stream : Z) (name value : string)
| NgData (stream : Z) (data : list Z)
| NgFrame (stream : Z) (end_stream goaway : bool)
| NgClose (stream : Z).

(** [nghttp2_session_mem_recv]: the callbacks in order; a failing callback
    ends the call with an error, as does [rv_ok = false]. *)
Fixpoint mem_recv (n : Now) (evs : list NgEvent) (rv_ok : bool)
    (scw : Session * (Client Q * W)) : option (Session * (Client Q * W) * bool) :=
  match evs with
  | [] => Some (scw.1, scw.2, rv_ok)
  | NgHeader st name value :: evs => mem_recv n evs rv_ok (cb_on_header st name value scw.1, scw.2)
  | NgData st data :: evs =>
      '(s, cw, err) ← cb_on_data_chunk n st data scw;
      if err : bool then Some (s, cw, false) else mem_recv n evs rv_ok (s, cw)
  | NgFrame st e g :: evs => mem_recv n evs rv_ok (cb_on_frame_recv st e g scw.1, scw.2)
  | NgClose st :: evs => mem_recv n evs rv_ok (cb_on_stream_close st scw.1, scw.2)
  end.

(** One transport read: end of file or an error, or bytes for nghttp2; a
    would-block read ends the list. *)
Inductive RecvIn := RecvClosed | RecvBytes (evs : list NgEvent) (rv_ok : bool).

Fixpoint drain (n : Now) (rs : list RecvIn) (scw : Session * (Client Q * W))
    : option (Session * (Client Q * W)) :=
  match rs with
  | [] => Some scw
  | RecvClosed :: _ => Some (set_closed scw.1, scw.2)
  | RecvBytes evs ok :: rs =>
      '(s, cw, ok) ← mem_recv n evs ok scw;
      if ok : bool then drain n rs (s, cw) else Some (set_closed s, cw)
  end.

(** The outcome of the library and socket calls of one loop iteration. *)
Record IterIn := mkIter {
  it_now : Now;
  it_want : bool;            (* want_read || want_write at the loop test *)
  it_reads : list nat;       (* buffer sizes of the data_read calls in session_send *)
  it_send_ok : bool;
  it_poll_ok : bool;
  it_hangup : bool;
  it_recvs : list RecvIn;
}.

(** [if (!s.has_current && xQueueReceive(..)) ..]: the next frame to send. *)
Definition next_frame (s : Session) c : Session * Client Q :=
  if has_current s then (s, c)
  else match queue_receive (out_queue_ c) with
       | Some (f, q) => (set_current f 0 true [] s, set_out_queue q c)
       | None => (s, c)
       end.

(** The first half of an iteration: telemetry cadence, deadline, next frame. *)
Definition iter_prologue (n : Now) (w : W) (s : Session) c : Session * Client Q :=
  let now := now_ms n in
  let c := if headers_seen s && (telemetry_period_ms (cl_cfg c) <=? u32 (now - last_telemetry_ms_ c))
           then send_telemetry n w (set_telemetry (telemetry_seq_ c) now c) else c in
  next_frame s (deadline_tick n now c).

(** One iteration of the session loop; the flag tells whether it goes on. *)
Definition session_iter (i : IterIn) (scw : Session * (Client Q * W))
    : option (Session * (Client Q * W) * bool) :=
  let '(s, (c, w)) := scw in
  let '(s, c) := iter_prologue (it_now i) w s c in
  let s := foldl (fun s len => (cb_data_read len s).1) s (it_reads i) in
  if negb (it_send_ok i) || negb (it_poll_ok i) || it_hangup i then Some (s, (c, w), false)
  else
    '(s, cw) ← drain (it_now i) (it_recvs i) (s, (c, w));
    Some (s, cw, true).

Fixpoint session_loop (ins : list IterIn) (scw : Session * (Client Q * W))
    : option (Session * (Client Q * W)) :=
  match ins with
  | [] => Some scw
  | i :: ins =>
      if closed scw.1 || negb (it_want i) then Some scw
      else
        '(s, cw, go) ← session_iter i scw;
        if go : bool then session_loop ins (s, cw) else Some (s, cw)
  end.

(** [ControlClient::run_session], from an established connection on; [None]
    as [stream] is a failed connect, handshake or submit. *)
Definition run_session (stream : option Z) (n : Now) (ins : list IterIn) (cw : Client Q * W)
    : option (Client Q * W * bool) :=
  match stream with
  | None => Some (cw, false)
  | Some st =>
      let '(c, w) := cw in
      let c := set_telemetry (telemetry_seq_ c) (now_ms n) (set_connected true c) in
      let c := send_telemetry n w c in
      '(s, (c, w)) ← session_loop ins (Session_new st, (c, w));
      Some (set_connected false c, w, headers_seen s)
  end.

(** One round of [task_main]: the session, the reset, and the next backoff;
    the second component is the delay slept. *)
Definition next_backoff (cfg : ClientConfig) (reached_stream : bool) (backoff_ms : Z) : Z * Z :=
  let b := if reached_stream then reconnect_min_ms cfg else backoff_ms in
  (if reconnect_max_ms cfg <? u32 (b * 2) then reconnect_max_ms cfg else u32 (b * 2), b).

Definition task_round (stream : option Z) (n : Now) (ins : list IterIn)
    (st : Client Q * W * Z) : option (Client Q * W * Z * Z) :=
  let '(cw, backoff) := st in
  '(cw, reached) ← run_session stream n ins cw;
  let '(c, w) := cw in
  let c := set_connected false c in
  let c := set_out_queue (queue_reset (out_queue_ c)) c in
  let '(backoff, slept) := next_backoff (cl_cfg c) reached backoff in
  Some (c, w, backoff, slept).
End client.

(** ** The wiring in main.cpp *)

Section main.
Context {QG T : Type} `{!RtosQueue Event QG} `{!EspTimer T}.

(** The static objects of [app_main] that the callbacks capture. *)
Record Firmware := mkFirmware {
  fw_gate : GateController QG T;
  reboot_timer : T;
  fw_ota : OtaUpdater;
  ota_cmd_id : string;
}.

Definition set_gate (g : GateController QG T) (f : Firmware) : Firmware :=
  mkFirmware g (reboot_timer f) (fw_ota f) (ota_cmd_id f).
Definition start_reboot (f : Firmware) : Firmware :=
  mkFirmware (fw_gate f)
    (start_checked (timer_start_once 1500000 (reboot_timer f)) (reboot_timer f))
    (fw_ota f) (ota_cmd_id f).
Definition set_ota (u : OtaUpdater) (id : string) (f : Firmware) : Firmware :=
  mkFirmware (fw_gate f) (reboot_timer f) u id.

(** The telemetry filler. *)
Definition main_filler (f : Firmware) : GateFields :=
  mkFields (to_wire_state (state_snapshot (fw_gate f)))
    (LimitSwitch_is_active (limit_open (fw_gate f)))
    (LimitSwitch_is_active (limit_closed (fw_gate f)))
    (negb (SafetyBeam_is_blocked (beam (fw_gate f)))).

(** [{.error = e}]. *)
Definition refuse (e : string) : DispatchResult := mkDispatch false false false Initializing e.

(** The command dispatcher; [spawn_ok] is whether the OTA task starts. *)
Definition main_dispatcher (spawn_ok : bool) (cmd : GateCommand) (f : Firmware)
    : Firmware * DispatchResult :=
  match cmd_kind cmd with
  | COMMAND_KIND_OPEN_GATE =>
      (set_gate (command_open (fw_gate f)) f, mkDispatch true false false Open "")
  | COMMAND_KIND_CLOSE_GATE =>
      (set_gate (command_close (fw_gate f)) f, mkDispatch true false false Closed "")
  | COMMAND_KIND_LED_PATTERN =>
      if LedPattern_MAX <? cmd_led_pattern cmd then (f, refuse "unknown led pattern")
      else match Pattern_of_Z (cmd_led_pattern cmd) with
           | Some p => (set_gate (show_led_pattern p (fw_gate f)) f,
                        mkDispatch true true false Initializing "")
           | None => (f, mkDispatch true true false Initializing "")
           end
  | COMMAND_KIND_REBOOT => (start_reboot f, mkDispatch true true false Initializing "")
  | COMMAND_KIND_BEGIN_OTA =>
      if running_ (fw_ota f) then (f, refuse "an OTA update is already running")
      else
        let '(u, err) := begin (fw_ota f) spawn_ok in
        let f := set_ota u (cstr_copy 40 (command_id cmd)) f in
        match err with
        | ESP_OK => (set_gate (show_led_pattern kOtaPulse (fw_gate f)) f,
                     mkDispatch true false true Initializing "")
        | _ => (f, refuse "failed to start the OTA task")
        end
  | COMMAND_KIND_PULSE_RELAY | COMMAND_KIND_LATCH_OPEN | COMMAND_KIND_LATCH_CLOSE
  | COMMAND_KIND_RELEASE_LATCH =>
      (f, refuse "unsupported on the residential controller profile")
  | COMMAND_KIND_UNSPECIFIED | COMMAND_KIND_OTHER _ => (f, refuse "unspecified command kind")
  end.

(** The OTA done callback, apart from the ack it sends. *)
Definition main_ota_done (success : bool) (f : Firmware) : Firmware :=
  if success then start_reboot f
  else set_gate (show_led_pattern kDenyFlash (fw_gate f)) f.
End main.
Arguments Firmware : clear implicits.

(** ** Histories of the client

    The gate_rpc task runs commands, ticks and telemetry; the gate_ctrl task
    reports gate events and the OTA task completions at any moment, also
    between the dispatch of a command and its arming. *)

Section histories.
Context {Q W : Type} `{!RtosQueue (list Z) Q}.
Context (pb_encode : nat -> Envelope -> option (list Z)).
Context (filler : option (W -> GateFields))
        (dispatcher : option (GateCommand -> W -> W * DispatchResult)).

Inductive ClientOp :=
| OpCommand (n : Now) (cmd : GateCommand)
| OpArm (n : Now)
| OpGateEvent (n : Now) (s : State) (r : Reason) (transitioned : bool)
| OpTick (n : Now) (now : Z)
| OpExternal (n : Now) (id : string) (success : bool) (error : string)
| OpTelemetry (n : Now)
| OpLink (up : bool) (q : Q)
| OpWorld (w : W).

(** One step; a command or a tick waits until the previous command is armed. *)
Definition client_do (op : ClientOp) (cw : Client Q * W) : option (Client Q * W) :=
  let '(c, w) := cw in
  match op with
  | OpCommand n cmd =>
      match dispatching c with
      | None => Some (command_dispatch pb_encode dispatcher n cmd cw)
      | Some _ => None
      end
  | OpArm n => Some (command_arm pb_encode n c, w)
  | OpGateEvent n s r b => Some (notify_gate_event pb_encode n s r b c, w)
  | OpTick n now =>
      match dispatching c with
      | None => Some (deadline_tick pb_encode n now c, w)
      | Some _ => None
      end
  | OpExternal n id ok err => Some (complete_command pb_encode n id ok err c, w)
  | OpTelemetry n => Some (send_telemetry pb_encode filler n w c, w)
  | OpLink up q => Some (set_out_queue q (set_connected up c), w)
  | OpWorld w' => Some (c, w')
  end.

Definition norm_id (id : string) : string := cstr_copy 40 id.

(** The ids for which the step makes the client owe a completion: every
    command, except one whose subsystem completes it, and every completion
    such a subsystem delivers. *)
Definition owed (op : ClientOp) (w : W) : list string :=
  match op with
  | OpCommand _ cmd =>
      match dispatcher with
      | None => [norm_id (command_id cmd)]
      | Some disp =>
          let r := (disp cmd w).2 in
          if accepted r && negb (completed_now r) && external_completion r then []
          else [norm_id (command_id cmd)]
      end
  | OpExternal _ id _ _ => [norm_id id]
  | _ => []
  end.

Definition announced (op : ClientOp) : list string :=
  match op with OpCommand _ cmd => [norm_id (command_id cmd)] | _ => [] end.

(** A history, with the completions owed and the commands received. *)
Fixpoint client_run (ops : list ClientOp) (cw : Client Q * W)
    : option (Client Q * W * list string * list string) :=
  match ops with
  | [] => Some (cw, [], [])
  | op :: ops =>
      cw' ← client_do op cw;
      '(cw'', o, a) ← client_run ops cw';
      Some (cw'', owed op cw.2 ++ o, announced op ++ a)
  end.

(** The completion acks and the receipt acks among the envelopes. *)
Definition completed_ids (es : list Envelope) : list string :=
  omap (fun e => match e with EnvAck a => if ack_completed a then Some (ack_command_id a) else None
                            | _ => None end) es.
Definition received_ids (es : list Envelope) : list string :=
  omap (fun e => match e with EnvAck a => if ack_completed a then None else Some (ack_command_id a)
                            | _ => None end) es.

(** The commands not answered yet: dispatched and unarmed, or tracked. *)
Definition pending (c : Client Q) : list string :=
  match dispatching c with Some (id, _) => [norm_id id] | None => [] end ++
  in_flight (tracker_ c).

(** *** What each piece adds *)

(** The part of the client the histories talk about. *)
Definition acct (c : Client Q) := (tracker_ c, dispatching c, attempted c).

Lemma send_envelope_acct e c :
  acct (send_envelope pb_encode e c).1 = (tracker_ c, dispatching c, attempted c ++ [e]).
Proof.
  unfold send_envelope. destruct (encode_frame pb_encode e); [|done].
  simpl. destruct (connected_ c); [|done]. simpl. by destruct (queue_send _ _).
Qed.

Definition answered (es : list Envelope) : list string * list string :=
  (completed_ids es, received_ids es).

Lemma ids_snoc es e :
  completed_ids (es ++ [e]) = completed_ids es ++ completed_ids [e] /\
  received_ids (es ++ [e]) = received_ids es ++ received_ids [e].
Proof. unfold completed_ids, received_ids. by rewrite !omap_app. Qed.

Lemma send_ack_completed_acct n id ok err c :
  exists e, acct (send_ack_completed pb_encode n id ok err c)
            = (tracker_ c, dispatching c, attempted c ++ [e]) /\
    completed_ids [e] = [norm_id id] /\ received_ids [e] = [].
Proof. eexists. unfold send_ack_completed. rewrite send_envelope_acct. done. Qed.

Lemma send_ack_received_acct n cmd c :
  exists e, acct (send_ack_received pb_encode n cmd c)
            = (tracker_ c, dispatching c, attempted c ++ [e]) /\
    completed_ids [e] = [] /\ received_ids [e] = [norm_id (command_id cmd)].
Proof. eexists. unfold send_ack_received. rewrite send_envelope_acct. done. Qed.

(** The ledger of a client: what it has answered and what it still owes. *)
Definition ledger (c : Client Q) : list string := completed_ids (attempted c) ++ pending c.

(** The tracker's ids fit the ack field. *)
Definition ids_fit (c : Client Q) : Prop := norm_id (id_ (tracker_ c)) = id_ (tracker_ c).

Lemma norm_norm id : norm_id (norm_id id) = norm_id id.
Proof. apply cstr_copy_idemp. lia. Qed.

Lemma ack_verdict_acct n v c :
  exists es, acct (ack_verdict pb_encode n v c)
             = (tracker_ c, dispatching c, attempted c ++ es) /\
    completed_ids es = (if v_fire v then [norm_id (v_command_id v)] else []) /\
    received_ids es = [].
Proof.
  unfold ack_verdict. destruct (v_fire v).
  - destruct (send_ack_completed_acct n (v_command_id v) (v_success v) (v_error v) c)
      as (e & He & H1 & H2). exists [e]. done.
  - exists []. rewrite app_nil_r. done.
Qed.

Definition step_ok (c c' : Client Q) (debts receipts : list string) : Prop :=
  ids_fit c' /\ ledger c' ≡ₚ ledger c ++ debts /\
  received_ids (attempted c') = received_ids (attempted c) ++ receipts.

Lemma acct_step c c' es debts receipts :
  acct c' = (tracker_ c, dispatching c, attempted c ++ es) -> ids_fit c ->
  completed_ids es = debts -> received_ids es = receipts -> step_ok c c' debts receipts.
Proof.
  unfold acct. intros [= Ht Hd Ha] Hfit Hc Hr.
  unfold step_ok, ids_fit, ledger, pending. rewrite Ht, Hd, Ha.
  unfold completed_ids, received_ids in *. rewrite !omap_app, Hc, Hr.
  split_and!; [done | | done]. solve_Permutation.
Qed.

(** A tracker operation, with the ack of its verdict. *)
Lemma tracker_step n op c dsp :
  ids_fit c ->
  match op with TArm id _ _ => dispatching c = Some (id, dsp.2) /\ dsp.1 = None
              | _ => dsp.1 = dispatching c end ->
  let '(t, v) := tracker_do (tracker_ c) op in
  step_ok c (ack_verdict pb_encode n v (set_dispatching dsp.1 (set_tracker t c))) [] [].
Proof.
  intros Hfit Hdsp. pose proof (tracker_do_balance (tracker_ c) op) as Hbal.
  pose proof (tracker_do_ids (tracker_ c) op) as Hids.
  destruct (tracker_do (tracker_ c) op) as [t v]. destruct Hids as [Hv Hid].
  destruct (ack_verdict_acct n v (set_dispatching dsp.1 (set_tracker t c)))
    as (es & He & Hc & Hr).
  unfold acct in He. injection He as Ht Hd Ha. simpl in Ht, Hd, Ha.
  unfold step_ok, ids_fit, ledger, pending in *. rewrite Ht, Hd, Ha.
  unfold completed_ids, received_ids in *. rewrite !omap_app, Hc, Hr.
  assert (Hfire : (if v_fire v then [norm_id (v_command_id v)] else [])
                  = (if v_fire v then [v_command_id v] else [])).
  { destruct (v_fire v); [|done]. by rewrite Hv, Hfit by done. }
  rewrite Hfire. split_and!; [ | | by rewrite app_nil_r].
  - rewrite Hid. destruct op; [apply cstr_copy_idemp; unfold kMaxCommandId; lia | done | done].
  - rewrite <- app_assoc. rewrite app_nil_r. apply Permutation_app_head.
    destruct op as [id ok dl| |]; simpl in Hbal.
    + destruct Hdsp as [-> ->]. simpl. rewrite <- Hbal.
      change (norm_id id) with (cstr_copy kMaxCommandId id). solve_Permutation.
    + rewrite Hdsp. rewrite app_nil_r in Hbal. rewrite Hbal. solve_Permutation.
    + rewrite Hdsp. rewrite app_nil_r in Hbal. rewrite Hbal. solve_Permutation.
Qed.

Lemma step_ok_trans c c1 c2 d1 r1 d2 r2 :
  step_ok c c1 d1 r1 -> (ids_fit c1 -> step_ok c1 c2 d2 r2) ->
  step_ok c c2 (d1 ++ d2) (r1 ++ r2).
Proof.
  intros (H1 & H2 & H3) H. destruct (H H1) as (K1 & K2 & K3).
  split_and!; [done | by rewrite K2, H2, app_assoc | by rewrite K3, H3, app_assoc].
Qed.

Lemma completed_step n id ok err c :
  ids_fit c -> step_ok c (send_ack_completed pb_encode n id ok err c) [norm_id id] [].
Proof.
  intros Hf. destruct (send_ack_completed_acct n id ok err c) as (e & He & H1 & H2).
  by apply (acct_step c _ [e]).
Qed.

Lemma command_dispatch_step n cmd c w :
  ids_fit c -> dispatching c = None ->
  step_ok c (command_dispatch pb_encode dispatcher n cmd (c, w)).1
    (owed (OpCommand n cmd) w) [norm_id (command_id cmd)].
Proof.
  intros Hfit Hd. unfold command_dispatch, owed.
  destruct (send_ack_received_acct n cmd c) as (e & He & H1 & H2).
  set (c1 := send_ack_received pb_encode n cmd c) in *.
  assert (S1 : step_ok c c1 [] [norm_id (command_id cmd)]) by (by apply (acct_step c _ [e])).
  assert (Hd1 : dispatching c1 = None) by (unfold acct in He; injection He; congruence).
  clearbody c1.
  assert (Hans : forall ok err, step_ok c (send_ack_completed pb_encode n (command_id cmd) ok err c1)
                   [norm_id (command_id cmd)] [norm_id (command_id cmd)]).
  { intros ok err. apply (step_ok_trans c c1 _ [] [norm_id (command_id cmd)]
                            [norm_id (command_id cmd)] []); [done|].
    intros Hf. by apply completed_step. }
  destruct dispatcher as [disp|]; [|apply Hans].
  destruct (disp cmd w) as [w' r]. simpl.
  destruct (accepted r); simpl; [|apply Hans].
  destruct (completed_now r); simpl; [apply Hans|].
  destruct (external_completion r); simpl; [done|].
  destruct S1 as (K1 & K2 & K3). unfold step_ok, ledger, pending in *. simpl.
  rewrite Hd1 in K2. simpl in K2. split_and!; [done | | done].
  rewrite app_nil_r in K2. rewrite <- K2. solve_Permutation.
Qed.

Lemma client_do_step op c w c' w' :
  ids_fit c -> client_do op (c, w) = Some (c', w') ->
  step_ok c c' (owed op w) (announced op).
Proof.
  intros Hfit. destruct op as [n cmd|n|n s r b|n now|n id ok err|n|up q|w0]; simpl.
  - destruct (dispatching c) eqn:Hd; [done|]. intros [= E].
    change (command_dispatch pb_encode dispatcher n cmd (c, w) = (c', w')) in E.
    pose proof (command_dispatch_step n cmd c w Hfit Hd) as H. by rewrite E in H.
  - intros [= <- <-]. unfold command_arm.
    destruct (dispatching c) as [[id ok]|] eqn:Hd.
    + pose proof (tracker_step n
        (TArm id ok (u32 (now_ms n + command_deadline_ms (cl_cfg c)))) c (None, ok) Hfit
        (conj Hd eq_refl)) as H.
      cbn [tracker_do] in H. destruct (arm _ _ _ _) as [t v]. exact H.
    + apply (acct_step c c []); try done. by rewrite app_nil_r.
  - intros [= <- <-]. unfold notify_gate_event. simpl.
    pose proof (tracker_step n (TGateEvent s r b) (set_wire_state (to_wire_state s) c)
                  (dispatching c, s) Hfit eq_refl) as H.
    simpl in H. destruct (on_gate_event (tracker_ c) s r b) as [t v]. exact H.
  - destruct (dispatching c) as [|] eqn:Hd; [done|]. intros [= <- <-].
    unfold deadline_tick.
    pose proof (tracker_step n (TTick now) c (None, Initializing) Hfit (eq_sym Hd)) as H.
    simpl in H. destruct (CommandTracker.on_tick (tracker_ c) now) as [t v].
    destruct c; simpl in *; subst. exact H.
  - intros [= <- <-]. by apply completed_step.
  - intros [= <- <-]. unfold send_telemetry.
    eapply (acct_step c); [rewrite send_envelope_acct; reflexivity | done | done | done].
  - intros [= <- <-]. apply (acct_step c _ []); try done. by rewrite app_nil_r.
  - intros [= <- <-]. apply (acct_step c _ []); try done. by rewrite app_nil_r.
Qed.

Lemma client_run_steps ops c w c' w' o a :
  ids_fit c -> client_run ops (c, w) = Some (c', w', o, a) -> step_ok c c' o a.
Proof.
  revert c w o a. induction ops as [|op ops IH]; intros c w o a Hfit Hrun.
  { simpl in Hrun. simplify_eq. apply (acct_step c' c' []); try done. by rewrite app_nil_r. }
  cbn [client_run] in Hrun.
  destruct (client_do op (c, w)) as [[c1 w1]|] eqn:Hdo; [|done]. cbn -[client_run] in Hrun.
  destruct (client_run ops (c1, w1)) as [[[[c2 w2] o2] a2]|] eqn:Hr; [|done].
  cbn in Hrun. simplify_eq.
  apply (step_ok_trans c c1); [by eapply client_do_step|]. intros Hf. by eapply IH.
Qed.

End histories.

(** ** The outbound half of the stream *)

Section outbound.
Context {Q : Type} `{!RtosQueue (list Z) Q} `{!RtosQueueLaws (list Z) Q}.
Context (pb_encode : nat -> Envelope -> option (list Z)) (pb_decode : list Z -> option Envelope).
Implicit Types c : Client Q.

(** Envelopes sent in a row; the flag is whether all were queued. *)
Fixpoint send_all (es : list Envelope) c : Client Q * bool :=
  match es with
  | [] => (c, true)
  | e :: es =>
      let '(c, ok) := send_envelope pb_encode e c in
      let '(c, ok') := send_all es c in (c, ok && ok')
  end.

(** What the pump does with the queue: fetch a frame when none is in
    flight, and give nghttp2 the bytes it asks for. *)
Inductive TxOp := TxNext | TxRead (len : nat).

Definition tx_step (sc : Session * Client Q) (op : TxOp) : Session * Client Q :=
  match op with
  | TxNext => next_frame sc.1 sc.2
  | TxRead len => ((cb_data_read len sc.1).1, sc.2)
  end.

(** The part of the frame in flight not yet given to nghttp2. *)
Definition unsent (s : Session) : list Z :=
  if has_current s then drop (current_off s) (current s) else [].

Definition outbound (sc : Session * Client Q) : list Z :=
  wire sc.1 ++ unsent sc.1 ++ concat (queue_items (out_queue_ sc.2)).

Lemma cb_data_read_unsent len s :
  wire (cb_data_read len s).1 ++ unsent (cb_data_read len s).1 = wire s ++ unsent s.
Proof.
  unfold cb_data_read, unsent. destruct (has_current s) eqn:Hh; simpl; [|by rewrite Hh].
  set (n := if decide _ then len else _).
  assert (Hn : (n <= length (current s) - current_off s)%nat) by (unfold n; case_decide; lia).
  clearbody n. case_decide as He; simpl.
  - rewrite take_ge by (rewrite length_drop; lia). by rewrite app_nil_r.
  - by rewrite <- app_assoc, <- drop_drop, take_drop.
Qed.

Lemma tx_step_outbound sc op : outbound (tx_step sc op) = outbound sc.
Proof.
  destruct sc as [s c], op as [|len]; unfold outbound; simpl.
  - unfold next_frame. destruct (has_current s) eqn:Hh; [done|].
    destruct (queue_items (out_queue_ c)) as [|f l] eqn:Hi.
    + rewrite queue_receive_empty by done. simpl. by rewrite Hi.
    + destruct (queue_receive_front _ _ _ Hi) as (q & -> & Hq & _). simpl.
      unfold unsent. simpl. rewrite Hh, Hq, drop_0, app_nil_r. done.
  - rewrite app_assoc, cb_data_read_unsent, <- app_assoc. done.
Qed.

Lemma tx_outbound ops sc : outbound (foldl tx_step sc ops) = outbound sc.
Proof.
  revert sc. induction ops as [|op ops IH]; intros sc; simpl; [done|].
  by rewrite IH, tx_step_outbound.
Qed.

Lemma send_all_queue es ps c :
  connected_ c = true ->
  (length (queue_items (out_queue_ c)) + length es <= queue_depth (out_queue_ c))%nat ->
  Forall2 (fun e p => pb_encode 507 e = Some p /\ Z.of_nat (length p) < 2 ^ 32) es ps ->
  (send_all es c).2 = true /\
  queue_items (out_queue_ (send_all es c).1) = queue_items (out_queue_ c) ++ map frame ps.
Proof.
  intros Hc Hroom Hf. revert c Hc Hroom.
  induction Hf as [|e p es ps [He Hl] _ IH]; intros c Hc Hroom; cbn [send_all map].
  { rewrite app_nil_r. done. }
  unfold send_envelope, encode_frame. simpl in Hroom.
  change (kMaxOutFrame - kFrameHeaderSize)%nat with 507%nat. rewrite He. cbn [mbind option_bind].
  rewrite u32_small by lia. cbn [connected_ add_attempt]. rewrite Hc. cbn [negb].
  change (out_queue_ (add_attempt e c)) with (out_queue_ c).
  destruct (queue_send_room (out_queue_ c) (frame p)) as (q & Hq & Hi & Hd); [lia|].
  unfold frame in Hq at 1. rewrite Hq.
  destruct (IH (set_out_queue q (add_attempt e c))) as [H1 H2].
  { done. }
  { simpl. rewrite Hi, Hd, length_app. simpl. lia. }
  destruct (send_all es (set_out_queue q (add_attempt e c))) as [c' ok]. simpl in *.
  split; [done|]. rewrite H2, Hi, <- app_assoc. done.
Qed.

(** C25: What the gate sends is what the server reads.  Envelopes queued on
    a connected stream are all accepted while the queue has room; however
    nghttp2 splits its reads and the transport cuts the bytes, once the pump
    has drained, reassembling the transmitted bytes yields exactly the
    envelopes, in order.  The nanopb round trip is assumed of the codec. *)
Theorem control_stream_delivers
    (Hpb : forall e p, pb_encode 507 e = Some p -> (length p <= 507)%nat /\ pb_decode p = Some e)
    (es : list Envelope) (c : Client Q) (ops : list TxOp) (stream : Z)
    (buffer : list Z) (chunks : list (list Z))
    (Hconn : connected_ c = true) (Hq : queue_items (out_queue_ c) = [])
    (Hroom : (length es <= queue_depth (out_queue_ c))%nat)
    (Henc : Forall (fun e => is_Some (pb_encode 507 e)) es)
    (Hbuf : (507 <= length buffer)%nat)
    (Hdrained : let '(s', c') := foldl tx_step (Session_new stream, (send_all es c).1) ops in
                unsent s' = [] /\ queue_items (out_queue_ c') = [] /\ concat chunks = wire s') :
  (send_all es c).2 = true /\
  exists a ms, session_chunks (FrameAssembler_new buffer) chunks = Some (a, ms, false) /\
    map pb_decode ms = map Some es.
Proof.
  assert (Hps : exists ps, Forall2 (fun e p => pb_encode 507 e = Some p) es ps).
  { clear -Henc. induction Henc as [|e es [p Hp] _ [ps IH]]; [by exists [] | exists (p :: ps)].
    by constructor. }
  destruct Hps as [ps Hps].
  assert (Hps' : Forall2 (fun e p => pb_encode 507 e = Some p /\ Z.of_nat (length p) < 2 ^ 32)
                   es ps).
  { eapply Forall2_impl; [exact Hps|]. intros e p He. split; [done|].
    destruct (Hpb e p He). lia. }
  destruct (send_all_queue es ps c Hconn) as [Hok Hitems]; [rewrite Hq; simpl; lia | done |].
  split; [done|].
  pose proof (tx_outbound ops (Session_new stream, (send_all es c).1)) as Hout.
  destruct (foldl tx_step _ ops) as [s' c']. destruct Hdrained as (Hu & Hqe & Hch).
  unfold outbound in Hout. cbn [fst snd] in Hout. rewrite Hu, Hqe, Hitems, Hq in Hout.
  simpl in Hout. rewrite app_nil_r in Hout.
  destruct (session_of_frames buffer ps chunks []) as (a & ms & E & Hp).
  { clear -Hps Hpb Hbuf. induction Hps as [|e p es ps He _ IH]; constructor; [|done].
    destruct (Hpb e p He). lia. }
  { rewrite app_nil_r, Hch. exact Hout. }
  injection Hp as Hpa <-. exists a, ps. rewrite E, <- Hpa, app_nil_r. split; [done|].
  clear -Hps Hpb. induction Hps as [|e p es ps He _ IH]; [done|]. simpl.
  destruct (Hpb e p He) as [_ ->]. by rewrite IH.
Qed.
End outbound.

(** ** Reconnection *)

(** The delays [task_main] sleeps, given which sessions reached the stream. *)
Fixpoint delays (cfg : ClientConfig) (backoff : Z) (outcomes : list bool) : list Z :=
  match outcomes with
  | [] => []
  | reached :: outcomes =>
      let '(backoff, slept) := next_backoff cfg reached backoff in
      slept :: delays cfg backoff outcomes
  end.

Section backoff.
Variable cfg : ClientConfig.
Hypothesis Hmin : 0 < reconnect_min_ms cfg <= reconnect_max_ms cfg.
Hypothesis Hmax : reconnect_max_ms cfg < 2 ^ 31.

Lemma next_backoff_eq reached b :
  0 <= b <= reconnect_max_ms cfg ->
  next_backoff cfg reached b =
  (let b := if reached then reconnect_min_ms cfg else b in
   (Z.min (reconnect_max_ms cfg) (b * 2), b)).
Proof.
  intros Hb. unfold next_backoff. set (b' := if reached then _ else b).
  assert (0 <= b' <= reconnect_max_ms cfg) by (unfold b'; destruct reached; lia).
  cbv zeta. rewrite u32_small by lia. f_equal.
  destruct (Z.ltb_spec (reconnect_max_ms cfg) (b' * 2)); lia.
Qed.

Lemma delays_bounded b outcomes :
  reconnect_min_ms cfg <= b <= reconnect_max_ms cfg ->
  Forall (fun d => reconnect_min_ms cfg <= d <= reconnect_max_ms cfg) (delays cfg b outcomes).
Proof.
  revert b. induction outcomes as [|r l IH]; intros b Hb; cbn [delays]; [done|].
  rewrite next_backoff_eq by lia. cbv beta iota zeta.
  constructor; [destruct r; lia|]. apply IH. destruct r; lia.
Qed.

Lemma delays_failures b k :
  0 < b <= reconnect_max_ms cfg ->
  last (delays cfg b (replicate (S k) false)) = Some (Z.min (reconnect_max_ms cfg) (b * 2 ^ Z.of_nat k)).
Proof.
  revert b. induction k as [|k IH]; intros b Hb.
  { cbn [delays replicate]. rewrite next_backoff_eq by lia. simpl. f_equal. lia. }
  rewrite replicate_S. cbn [delays]. rewrite next_backoff_eq by lia. cbv beta iota zeta.
  specialize (IH (Z.min (reconnect_max_ms cfg) (b * 2)) ltac:(lia)).
  rewrite last_cons, IH. f_equal.
  replace (2 ^ Z.of_nat (S k)) with (2 * 2 ^ Z.of_nat k)
    by (rewrite Nat2Z.inj_succ, Z.pow_succ_r; lia).
  assert (0 < 2 ^ Z.of_nat k) by (apply Z.pow_pos_nonneg; lia). nia.
Qed.

Lemma delays_app_reached b l k :
  0 < b <= reconnect_max_ms cfg ->
  last (delays cfg b (l ++ true :: replicate k false)) =
  Some (Z.min (reconnect_max_ms cfg) (reconnect_min_ms cfg * 2 ^ Z.of_nat k)).
Proof.
  revert b. induction l as [|r l IH]; intros b Hb.
  - rewrite <- (delays_failures (reconnect_min_ms cfg) k) by lia.
    cbn [app delays replicate]. by rewrite !next_backoff_eq by lia.
  - cbn [app delays]. rewrite next_backoff_eq by lia. cbv beta iota zeta.
    rewrite last_cons, IH by (destruct r; lia). done.
Qed.
End backoff.

(** Exponential backoff.  With a sane configuration every reconnect
    delay stays between the two bounds, and after a session that reached the
    stream followed by k failed ones the delay is exactly the minimum
    doubled k times, capped at the maximum; no 32-bit wrap occurs. *)
Theorem reconnect_backoff cfg (outcomes : list bool) (k : nat)
    (Hmin : 0 < reconnect_min_ms cfg <= reconnect_max_ms cfg)
    (Hmax : reconnect_max_ms cfg < 2 ^ 31) :
  let d := delays cfg (reconnect_min_ms cfg) (outcomes ++ true :: replicate k false) in
  Forall (fun d => reconnect_min_ms cfg <= d <= reconnect_max_ms cfg) d /\
  last d = Some (Z.min (reconnect_max_ms cfg) (reconnect_min_ms cfg * 2 ^ Z.of_nat k)).
Proof.
  split; [apply delays_bounded; lia | apply delays_app_reached; lia].
Qed.

Lemma reconnect_backoff_witness :
  last (delays ClientConfig_default 1000 ([false; false] ++ true :: replicate 4 false))
  = Some 16000.
Proof.
  apply (reconnect_backoff ClientConfig_default [false; false] 4); simpl; lia.
Defined.

(** ** Runs with a concrete codec *)

(** A codec for telemetry-free tests: acks of the empty id and the empty
    envelope. *)
Definition tiny_encode (cap : nat) (e : Envelope) : option (list Z) :=
  match e with EnvEmpty => Some [] | EnvFault => Some [26; 0] | _ => None end.
Definition tiny_decode (bs : list Z) : option Envelope :=
  match bs with [] => Some EnvEmpty | [26; 0] => Some EnvFault | _ => None end.

Definition up_client : Client (ListQueue (list Z)) :=
  set_connected true (Client_new ClientConfig_default).

Definition tx_sample : list TxOp := [TxNext; TxRead 3; TxRead 100; TxNext; TxRead 5; TxNext; TxRead 9].

Lemma control_stream_delivers_witness :
  (send_all tiny_encode [EnvFault; EnvEmpty] up_client).2 = true /\
  exists a ms, session_chunks (FrameAssembler_new (replicate 600 0))
                 [[0; 0]; [0; 0; 2; 26]; [0; 0; 0; 0]; [0; 0]] = Some (a, ms, false) /\
    map tiny_decode ms = map Some [EnvFault; EnvEmpty].
Proof.
  apply (control_stream_delivers tiny_encode tiny_decode) with (ops := tx_sample) (stream := 1).
  - intros [| | | |] p; simpl; try discriminate; intros [= <-]; simpl; split; (lia || done).
  - reflexivity.
  - reflexivity.
  - vm_compute. lia.
  - repeat constructor; eauto.
  - rewrite length_replicate. lia.
  - vm_compute. done.
Defined.

Definition t0 : Now := mkNow 5000000 0 0 0 0.
Definition close_cmd (id : string) : GateCommand := mkCommand id COMMAND_KIND_CLOSE_GATE 0 "".

(** A dispatcher that accepts every command as a close. *)
Definition accept_close (cmd : GateCommand) (w : unit) : unit * DispatchResult :=
  (w, mkDispatch true false false Closed "").

Definition history (ops : list ClientOp) :=
  client_run tiny_encode None (Some accept_close) ops
    (Client_new (Q := ListQueue (list Z)) ClientConfig_default, tt).

Definition history_sample : list (ClientOp (Q := ListQueue (list Z)) (W := unit)) :=
  [OpCommand t0 (close_cmd "a"); OpArm t0; OpCommand t0 (close_cmd "b"); OpArm t0;
   OpGateEvent t0 Closed ReasonNone true; OpCommand t0 (close_cmd "c"); OpArm t0].

Definition sample_client : Client (ListQueue (list Z)) :=
  match history history_sample with Some r => r.1.1.1 | None => up_client end.


(** The dispatcher posts to the gate before [handle_command] arms the
    tracker.  When the pump handles the close first and the beam latch
    rejects it, the rejection finds no armed command, and the command stays
    pending although the gate has already refused it. *)
Example rejection_before_arm_is_missed :
  option_map (fun r => (completed_ids (attempted r.1.1.1), pending r.1.1.1))
    (history [OpCommand t0 (close_cmd "x"); OpGateEvent t0 Open SafetyBeamObstacle false; OpArm t0])
  = Some ([], ["x"]%string) /\
  option_map (fun r => (completed_ids (attempted r.1.1.1), pending r.1.1.1))
    (history [OpCommand t0 (close_cmd "x"); OpArm t0; OpGateEvent t0 Open SafetyBeamObstacle false])
  = Some (["x"]%string, []).
Proof. split; vm_compute; reflexivity. Qed.
