(* ===== verification/Transport.v ===== *)
(** The connection of the Control-stream client
    (src/firmware/components/gate_rpc/src/control_client.cpp): DNS and TCP
    connect, the TLS session, the nghttp2 session and its request, the reads
    and writes of the pump, the tear-down, and the rounds of the task.

    lwIP, esp-tls and nghttp2 are outside the repository: how their calls end
    is an argument.  What is modelled of them are the handles they give out;
    using a handle that is not open is [None]. *)

From S2P Require Import Prelude StateMachine Platform CommandTracker GrpcFraming ControlClient.
From stdpp Require Import pretty.
Local Open Scope Z_scope.

(** ** Configuration *)

Record NetConfig := mkNetConfig {
  nc_host : string; nc_port : Z;
  ca_pem : option string; client_cert_pem : option string; client_key_pem : option string;
}.

(** The [esp_tls_cfg_t] of a connection. *)
Record TlsCfg := mkTlsCfg {
  alpn_protos : list string; tls_timeout_ms : Z; cacert : string; clientcert : option (string * string);
}.

Definition tls_cfg (cfg : NetConfig) (ca : string) : TlsCfg :=
  mkTlsCfg ["h2"] 10000 ca
    (match client_cert_pem cfg, client_key_pem cfg with
     | Some cert, Some key => Some (cert, key)
     | _, _ => None
     end).

(** The [authority] buffer. *)
Definition authority (cfg : NetConfig) : string :=
  cstr_copy 64 (nc_host cfg +:+ ":" +:+ pretty (nc_port cfg)).

Definition request_headers (cfg : NetConfig) : list (string * string) :=
  [(":method", "POST");
   (":scheme", if ca_pem cfg then "https" else "http");
   (":authority", authority cfg);
   (":path", "/gate.v1.FieldControllerService/Control");
   ("content-type", "application/grpc");
   ("te", "trailers");
   ("user-agent", "grpc-esp32-nanopb/0.1 (gate-fw)")].

(** ** Handles *)

(** What the other side can see of a connection. *)
Inductive NetOp :=
| ONetConnect (fd : nat)
| ONetHandshake (cfg : TlsCfg)
| ONetRequest (hdrs : list (string * string))
| ONetWrite (over_tls : bool).

(** The open sockets, each with the TLS session that owns it, the TLS and the
    nghttp2 sessions, and the largest number of sockets open at a time. *)
Record Net := mkNet {
  sockets : gmap nat (option nat); tls_sessions : gset nat; h2_sessions : gset nat;
  next_handle : nat; peak : nat; net_trace : list NetOp;
}.

Definition trace_op (op : NetOp) (o : Net) : Net :=
  mkNet (sockets o) (tls_sessions o) (h2_sessions o) (next_handle o) (peak o) (net_trace o ++ [op]).

(** [socket], or the socket a TLS session opens for itself. *)
Definition socket (owner : option nat) (o : Net) : nat * Net :=
  let s := <[next_handle o := owner]> (sockets o) in
  (next_handle o,
   mkNet s (tls_sessions o) (h2_sessions o) (S (next_handle o)) (peak o `max` size s) (net_trace o)).

(** [close]: a socket nobody else owns. *)
Definition close (fd : nat) (o : Net) : option Net :=
  match sockets o !! fd with
  | Some None =>
      Some (mkNet (delete fd (sockets o)) (tls_sessions o) (h2_sessions o) (next_handle o) (peak o)
              (net_trace o))
  | _ => None
  end.

Definition esp_tls_init (o : Net) : nat * Net :=
  (next_handle o,
   mkNet (sockets o) ({[ next_handle o ]} ∪ tls_sessions o) (h2_sessions o) (S (next_handle o)) (peak o)
     (net_trace o)).

(** [esp_tls_conn_destroy] closes the session's socket too. *)
Definition esp_tls_conn_destroy (t : nat) (o : Net) : option Net :=
  if decide (t ∈ tls_sessions o)
  then Some (mkNet (base.filter (fun x => x.2 <> Some t) (sockets o)) (tls_sessions o ∖ {[ t ]})
               (h2_sessions o) (next_handle o) (peak o) (net_trace o))
  else None.

Definition nghttp2_session_client_new (o : Net) : nat * Net :=
  (next_handle o,
   mkNet (sockets o) (tls_sessions o) ({[ next_handle o ]} ∪ h2_sessions o) (S (next_handle o)) (peak o)
     (net_trace o)).

Definition nghttp2_session_del (ng : nat) (o : Net) : option Net :=
  if decide (ng ∈ h2_sessions o)
  then Some (mkNet (sockets o) (tls_sessions o) (h2_sessions o ∖ {[ ng ]}) (next_handle o) (peak o)
               (net_trace o))
  else None.

(** A call on a socket, or on a TLS session. *)
Definition on_socket (fd : nat) (o : Net) : option Net :=
  match sockets o !! fd with Some _ => Some o | None => None end.
Definition on_tls (t : nat) (o : Net) : option Net :=
  if decide (t ∈ tls_sessions o) then Some o else None.
Definition on_h2 (ng : nat) (o : Net) : option Net :=
  if decide (ng ∈ h2_sessions o) then Some o else None.

(** ** Connecting *)

(** How the attempt on one address ends. *)
Inductive AddrOutcome := SocketFails | ConnectFails | Connects.

(** How the calls of one connection attempt end: [dns] is [None] when the
    lookup fails; a handshake may have opened a socket before it failed. *)
Record Dial := mkDial {
  dns : option (list AddrOutcome);
  tls_init_ok : bool; handshake_socket : bool; handshake_ok : bool; sockfd_ok : bool;
  submitted : Z;
}.

(** The loop of [connect_to] over the addresses. *)
Fixpoint try_addresses (l : list AddrOutcome) (o : Net) : option (option nat * Net) :=
  match l with
  | [] => Some (None, o)
  | SocketFails :: l => try_addresses l o
  | ConnectFails :: l =>
      let '(fd, o) := socket None o in
      o ← close fd (trace_op (ONetConnect fd) o);
      try_addresses l o
  | Connects :: _ =>
      let '(fd, o) := socket None o in
      Some (Some fd, trace_op (ONetConnect fd) o)
  end.

(** [setsockopt] and [fcntl]: no delay and not blocking. *)
Definition tune (fd : nat) (o : Net) : option Net := on_socket fd o.

Definition connect_to (d : Dial) (o : Net) : option (option nat * Net) :=
  match dns d with
  | None | Some [] => Some (None, o)
  | Some l =>
      '(fd, o) ← try_addresses l o;
      match fd with
      | None => Some (None, o)
      | Some fd => o ← tune fd o; Some (Some fd, o)
      end
  end.

(** [tls_connect]: the TLS session and its socket. *)
Definition tls_connect (tc : TlsCfg) (d : Dial) (o : Net) : option (option (nat * option nat) * Net) :=
  if negb (tls_init_ok d) then Some (None, o)
  else
    let '(t, o) := esp_tls_init o in
    let o := trace_op (ONetHandshake tc) o in
    let '(fd, o) := if handshake_socket d
                    then (let '(fd, o) := socket (Some t) o in (Some fd, o)) else (None, o) in
    if handshake_ok d then Some (Some (t, fd), o)
    else o ← esp_tls_conn_destroy t o; Some (None, o).

(** An established connection: [s.fd] and [s.tls]. *)
Record Conn := mkConn { cn_fd : nat; cn_tls : option nat }.

(** The tear-down of the transport. *)
Definition disconnect (cn : Conn) (o : Net) : option Net :=
  match cn_tls cn with Some t => esp_tls_conn_destroy t o | None => close (cn_fd cn) o end.

(** The transport part of [run_session]. *)
Definition establish (cfg : NetConfig) (d : Dial) (o : Net) : option (option Conn * Net) :=
  match ca_pem cfg with
  | Some ca =>
      '(r, o) ← tls_connect (tls_cfg cfg ca) d o;
      match r with
      | None => Some (None, o)
      | Some (t, fd) =>
          match (if sockfd_ok d then fd else None) with
          | None => o ← esp_tls_conn_destroy t o; Some (None, o)
          | Some fd => o ← tune fd o; Some (Some (mkConn fd (Some t)), o)
          end
      end
  | None =>
      '(fd, o) ← connect_to d o;
      match fd with
      | None => Some (None, o)
      | Some fd => Some (Some (mkConn fd None), o)
      end
  end.

(** [run_session] up to the submitted request: the connection, the nghttp2
    session and the stream. *)
Definition open_stream (cfg : NetConfig) (d : Dial) (o : Net) : option (option (Conn * nat * Z) * Net) :=
  '(cn, o) ← establish cfg d o;
  match cn with
  | None => Some (None, o)
  | Some cn =>
      let '(ng, o) := nghttp2_session_client_new o in
      if submitted d <? 0
      then o ← nghttp2_session_del ng o; o ← disconnect cn o; Some (None, o)
      else Some (Some (cn, ng, submitted d), trace_op (ONetRequest (request_headers cfg)) o)
  end.

(** ** The pump's reads and writes *)

(** A write that was made, would block, or failed. *)
Inductive WriteRaw := Wrote (n : Z) | WriteWould | WriteFails.
Inductive SendRet := SendSome (n : Z) | NGHTTP2_ERR_WOULDBLOCK | NGHTTP2_ERR_CALLBACK_FAILURE.

(** [cb_send]. *)
Definition cb_send (cn : Conn) (r : WriteRaw) (o : Net) : option (SendRet * Net) :=
  o ← match cn_tls cn with Some t => on_tls t o | None => on_socket (cn_fd cn) o end;
  Some match r with
       | Wrote n => (SendSome n, trace_op (ONetWrite (if cn_tls cn then true else false)) o)
       | WriteWould => (NGHTTP2_ERR_WOULDBLOCK, o)
       | WriteFails => (NGHTTP2_ERR_CALLBACK_FAILURE, o)
       end.

(** [nghttp2_session_send] writes until it would block or fails; the flag is
    a result of 0. *)
Fixpoint session_send (cn : Conn) (ws : list WriteRaw) (o : Net) : option (bool * Net) :=
  match ws with
  | [] => Some (true, o)
  | r :: ws =>
      '(ret, o) ← cb_send cn r o;
      match ret with
      | SendSome _ => session_send cn ws o
      | NGHTTP2_ERR_WOULDBLOCK => Some (true, o)
      | NGHTTP2_ERR_CALLBACK_FAILURE => Some (false, o)
      end
  end.

(** A read: would block, end of file, an error, or bytes with what nghttp2
    makes of them. *)
Inductive ReadRaw := ReadWould | ReadEof | ReadFails | ReadSome (evs : list NgEvent) (rv_ok : bool).

(** The drain loop: over TLS until a read would block, otherwise one read. *)
Fixpoint read_loop (tls : bool) (rs : list ReadRaw) : list RecvIn :=
  match rs with
  | [] | ReadWould :: _ => []
  | ReadEof :: _ | ReadFails :: _ => [RecvClosed]
  | ReadSome evs ok :: rs => RecvBytes evs ok :: (if tls then read_loop tls rs else [])
  end.

(** The calls of one turn of the pump. *)
Record PollIn := mkPoll {
  p_now : Now; p_want : bool; p_frames : list nat; p_writes : list WriteRaw; p_poll_ok : bool;
  p_hangup : bool; p_pollin : bool; p_avail : Z; p_reads : list ReadRaw;
}.

Definition readable (cn : Conn) (i : PollIn) : bool :=
  p_pollin i || (match cn_tls cn with Some _ => 0 <? p_avail i | None => false end).

Definition iter_in (cn : Conn) (i : PollIn) (sent : bool) : IterIn :=
  mkIter (p_now i) (p_want i) (p_frames i) sent (p_poll_ok i) (p_hangup i)
    (if readable cn i then read_loop (if cn_tls cn then true else false) (p_reads i) else []).

Section session.
Context {Q W : Type} `{!RtosQueue (list Z) Q}.
Context (pb_encode : nat -> Envelope -> option (list Z)) (pb_decode : list Z -> option Envelope).
Context (filler : option (W -> GateFields))
        (dispatcher : option (GateCommand -> W -> W * DispatchResult)).

(** The pump of [run_session] over its connection. *)
Fixpoint pump (cn : Conn) (ng : nat) (ins : list PollIn) (scw : Session * (Client Q * W)) (o : Net)
    : option (Session * (Client Q * W) * Net) :=
  match ins with
  | [] => Some (scw, o)
  | i :: ins =>
      o ← on_h2 ng o;
      if closed scw.1 || negb (p_want i) then Some (scw, o)
      else
        '(sent, o) ← session_send cn (p_writes i) o;
        o ← on_socket (cn_fd cn) o;
        '(s, cw, go) ← session_iter pb_encode pb_decode filler dispatcher (iter_in cn i sent) scw;
        if go : bool then pump cn ng ins (s, cw) o else Some (s, cw, o)
  end.

(** [ControlClient::run_session]. *)
Definition transport_session (cfg : NetConfig) (d : Dial) (n : Now) (ins : list PollIn)
    (cw : Client Q * W) (o : Net) : option (Client Q * W * bool * Net) :=
  '(r, o) ← open_stream cfg d o;
  match r with
  | None => Some (cw, false, o)
  | Some (cn, ng, st) =>
      let '(c, w) := cw in
      let c := set_telemetry (telemetry_seq_ c) (now_ms n) (set_connected true c) in
      let c := send_telemetry pb_encode filler n w c in
      '(s, (c, w), o) ← pump cn ng ins (Session_new st, (c, w)) o;
      o ← nghttp2_session_del ng o;
      o ← disconnect cn o;
      Some (set_connected false c, w, headers_seen s, o)
  end.

(** One round of [task_main]; the last component is the delay slept. *)
Record Round := mkRound { r_dial : Dial; r_now : Now; r_polls : list PollIn }.

Definition connect_round (cfg : NetConfig) (r : Round) (st : Client Q * W * Z) (o : Net)
    : option (Client Q * W * Z * Z * Net) :=
  let '(cw, backoff) := st in
  '(cw, reached, o) ← transport_session cfg (r_dial r) (r_now r) (r_polls r) cw o;
  let '(c, w) := cw in
  let c := set_connected false c in
  let c := set_out_queue (queue_reset (out_queue_ c)) c in
  let '(backoff, slept) := next_backoff (cl_cfg c) reached backoff in
  Some (c, w, backoff, slept, o).

Fixpoint connect_rounds (cfg : NetConfig) (rs : list Round) (st : Client Q * W * Z) (o : Net)
    : option (Client Q * W * Z * list Z * Net) :=
  match rs with
  | [] => Some (st, [], o)
  | r :: rs =>
      '(st, slept, o) ← connect_round cfg r st o;
      '(st, ds, o) ← connect_rounds cfg rs st o;
      Some (st, slept :: ds, o)
  end.
End session.

(** ** Nothing stays open *)

Section safety.
Context {Q W : Type} `{!RtosQueue (list Z) Q}.
Context (pb_encode : nat -> Envelope -> option (list Z)) (pb_decode : list Z -> option Envelope).
Context (filler : option (W -> GateFields))
        (dispatcher : option (GateCommand -> W -> W * DispatchResult)).
Notation CW := (Client Q * W)%type.
Notation mem_recv := (mem_recv (Q:=Q) (W:=W) pb_encode pb_decode dispatcher).
Notation drain := (drain (Q:=Q) (W:=W) pb_encode pb_decode dispatcher).
Notation session_iter := (session_iter (Q:=Q) (W:=W) pb_encode pb_decode filler dispatcher).
Notation run_pump := (pump (Q:=Q) (W:=W) pb_encode pb_decode filler dispatcher).

(** The reassembly buffers of a session that goes on are in order. *)
Definition healthy (s : Session) : Prop :=
  fa_inv (assembler s) /\ (closed s = false -> poisoned_ (assembler s) = false).

Lemma data_chunk_total n stream data s (cw : CW) :
  fa_inv (assembler s) -> poisoned_ (assembler s) = false ->
  exists s' cw' err, cb_on_data_chunk pb_encode pb_decode dispatcher n stream data (s, cw) = Some (s', cw', err) /\
    fa_inv (assembler s') /\ (err = false -> poisoned_ (assembler s') = false).
Proof.
  intros Hi Hp. unfold cb_on_data_chunk. destruct (negb _); [by eauto 6|].
  destruct (chunk_loop_spec (length data) (assembler s) data 0) as (a & ms & err & E & Hi' & _ & He & _);
    [lia|done|done|].
  unfold on_data_chunk. rewrite E. cbn [mbind option_bind]. eexists _, _, _. split; [done|].
  destruct err; cbn; by split.
Qed.

Lemma mem_recv_total n evs ok s (cw : CW) :
  fa_inv (assembler s) -> poisoned_ (assembler s) = false ->
  exists s' cw' b, mem_recv n evs ok (s, cw) = Some (s', cw', b) /\
    fa_inv (assembler s') /\ (b = true -> poisoned_ (assembler s') = false).
Proof.
  revert s cw. induction evs as [|ev evs IH]; intros s cw Hi Hp; [by eexists _, _, _|].
  destruct ev as [st name value|st data|st e g|st]; cbn [ControlClient.mem_recv fst snd].
  - apply IH; unfold cb_on_header; by repeat case_match.
  - destruct (data_chunk_total n st data s cw Hi Hp) as (s' & cw' & err & -> & Hi' & Hp').
    cbn [mbind option_bind]. destruct err; [eexists _, _, _; by split|]. apply IH; auto.
  - apply IH; unfold cb_on_frame_recv; by repeat case_match.
  - apply IH; unfold cb_on_stream_close; by case_match.
Qed.

Lemma drain_total n rs s (cw : CW) :
  fa_inv (assembler s) -> poisoned_ (assembler s) = false ->
  exists s' cw', drain n rs (s, cw) = Some (s', cw') /\ healthy s'.
Proof.
  revert s cw. induction rs as [|r rs IH]; intros s cw Hi Hp; cbn [ControlClient.drain].
  { eexists _, _. split; [done|]. by split. }
  destruct r as [|evs ok]; [eexists _, _; split; [done|by split]|].
  destruct (mem_recv_total n evs ok s cw Hi Hp) as (s' & cw' & b & -> & Hi' & Hp').
  cbn [mbind option_bind]. destruct b; [apply IH; auto|]. eexists _, _. split; [done|by split].
Qed.

Lemma next_frame_session s (c : Client Q) :
  assembler (next_frame s c).1 = assembler s /\ closed (next_frame s c).1 = closed s.
Proof. unfold next_frame. by repeat case_match. Qed.

Lemma data_reads_session lens s :
  let s' := foldl (fun s len => (cb_data_read len s).1) s lens in
  assembler s' = assembler s /\ closed s' = closed s.
Proof.
  revert s. induction lens as [|len lens IH]; intros s; cbn [foldl]; [done|].
  destruct (IH (cb_data_read len s).1) as [-> ->]. unfold cb_data_read.
  destruct (negb _); [done|]. cbv zeta. by destruct (decide (_ = length (current s))).
Qed.

Lemma session_iter_total i s (cw : CW) :
  healthy s -> closed s = false ->
  exists s' cw' go, session_iter i (s, cw) = Some (s', cw', go) /\ healthy s'.
Proof.
  intros [Hi Hp] Hc. destruct cw as [c w]. unfold ControlClient.session_iter, iter_prologue.
  match goal with |- context [next_frame s ?c0] =>
    pose proof (next_frame_session s c0) as [Ha Hcl]; destruct (next_frame s c0) as [s1 c1] end.
  cbn [fst] in *. destruct (data_reads_session (it_reads i) s1) as [Ha2 Hc2].
  set (s2 := foldl _ s1 _) in *. cbv zeta in Ha2, Hc2.
  assert (H2 : fa_inv (assembler s2) /\ poisoned_ (assembler s2) = false).
  { rewrite Ha2, Ha. by auto. }
  destruct (_ || _).
  { eexists _, _, _. split; [done|]. split; [apply H2|]. intros _. apply H2. }
  destruct (drain_total (it_now i) (it_recvs i) s2 (c1, w)) as (s3 & cw3 & -> & H3); [apply H2..|].
  cbn. by eexists _, _, _.
Qed.

(** Seen from outside: what a connection may do under a configuration. *)
Definition allowed (cfg : NetConfig) (op : NetOp) : Prop :=
  match op with
  | ONetConnect _ => ca_pem cfg = None
  | ONetHandshake tc => exists ca, ca_pem cfg = Some ca /\ tc = tls_cfg cfg ca
  | ONetRequest hdrs => hdrs = request_headers cfg
  | ONetWrite tls => tls = true <-> is_Some (ca_pem cfg)
  end.

(** One socket at a time, and only allowed operations. *)
Definition grows (cfg : NetConfig) (o o' : Net) : Prop :=
  (peak o' <= peak o `max` 1)%nat /\
  exists tr, net_trace o' = net_trace o ++ tr /\ Forall (allowed cfg) tr.

#[local] Instance grows_preorder cfg : PreOrder (grows cfg).
Proof.
  split.
  - intros o. split; [lia|]. exists []. by rewrite app_nil_r.
  - intros o1 o2 o3 (P1 & t1 & E1 & F1) (P2 & t2 & E2 & F2). split; [lia|].
    exists (t1 ++ t2). rewrite E2, E1, app_assoc. split; [done|]. by apply Forall_app.
Qed.

Definition nothing_open (o : Net) : Prop :=
  sockets o = ∅ /\ tls_sessions o = ∅ /\ h2_sessions o = ∅.

(** Exactly one connection, of the kind the configuration asks for. *)
Definition connected_by (cfg : NetConfig) (cn : Conn) (o : Net) : Prop :=
  sockets o = {[ cn_fd cn := cn_tls cn ]} /\
  tls_sessions o = match cn_tls cn with Some t => {[ t ]} | None => ∅ end /\
  (is_Some (cn_tls cn) <-> is_Some (ca_pem cfg)).

Lemma socket_first owner (o : Net) :
  sockets o = ∅ ->
  exists o', socket owner o = (next_handle o, o') /\ sockets o' = {[ next_handle o := owner ]} /\
    tls_sessions o' = tls_sessions o /\ h2_sessions o' = h2_sessions o /\
    (peak o' <= peak o `max` 1)%nat /\ net_trace o' = net_trace o.
Proof.
  intros He. unfold socket. rewrite He, insert_empty. eexists. split; [done|]. cbn.
  rewrite map_size_singleton. done.
Qed.

Lemma close_only fd (o : Net) :
  sockets o = {[ fd := None ]} ->
  exists o', close fd o = Some o' /\ sockets o' = ∅ /\ tls_sessions o' = tls_sessions o /\
    h2_sessions o' = h2_sessions o /\ peak o' = peak o /\ net_trace o' = net_trace o.
Proof.
  intros Hs. unfold close. rewrite Hs, lookup_singleton_eq. eexists. split; [done|]. cbn.
  by rewrite delete_singleton_eq.
Qed.

Lemma destroy_only t (o : Net) fd :
  tls_sessions o = {[ t ]} -> sockets o = ∅ \/ sockets o = {[ fd := Some t ]} ->
  exists o', esp_tls_conn_destroy t o = Some o' /\ sockets o' = ∅ /\ tls_sessions o' = ∅ /\
    h2_sessions o' = h2_sessions o /\ peak o' = peak o /\ net_trace o' = net_trace o.
Proof.
  intros Ht Hs. unfold esp_tls_conn_destroy. rewrite decide_True by (rewrite Ht; set_solver).
  eexists. split; [done|]. cbn. split; [|by split; [rewrite Ht; set_solver|]].
  destruct Hs as [-> | ->]; [apply map_filter_empty|]. by apply map_filter_singleton_False; intros H.
Qed.

Lemma try_addresses_ok cfg l (o : Net) :
  ca_pem cfg = None -> nothing_open o ->
  exists r o', try_addresses l o = Some (r, o') /\ grows cfg o o' /\
    match r with None => nothing_open o' | Some fd => connected_by cfg (mkConn fd None) o' /\ h2_sessions o' = ∅ end.
Proof.
  intros Hca. revert o. induction l as [|a l IH]; intros o Ho; cbn [try_addresses].
  { by exists None, o. }
  destruct a; [by apply IH| |]; destruct Ho as (Hs & Ht & Hh);
    destruct (socket_first None o Hs) as (o1 & -> & S1 & T1 & H1 & P1 & R1).
  - destruct (close_only (next_handle o) (trace_op (ONetConnect (next_handle o)) o1))
      as (o2 & -> & S2 & T2 & H2 & P2 & R2); [done|]. cbn [mbind option_bind] in *.
    cbn [trace_op tls_sessions h2_sessions peak net_trace] in *.
    destruct (IH o2) as (r & o3 & E & G & HR). { split_and!; congruence. }
    exists r, o3. split; [done|]. split; [|done]. etrans; [|exact G]. split; [lia|].
    exists [ONetConnect (next_handle o)]. rewrite R2, R1. split; [done|by constructor].
  - exists (Some (next_handle o)), (trace_op (ONetConnect (next_handle o)) o1). split; [done|]. split.
    + split; [cbn; lia|]. exists [ONetConnect (next_handle o)]. cbn. rewrite R1. split; [done|by constructor].
    + cbn. split; [|by rewrite H1]. split; [done|]. split; [cbn; by rewrite T1|]. cbn. rewrite Hca.
      by split; intros [? [=]].
Qed.

(** ** What a round does to the client *)

(** Whether the attempt reaches a stream, and which. *)
Definition reaches (cfg : NetConfig) (d : Dial) : option Z :=
  if (match ca_pem cfg with
      | Some _ => tls_init_ok d && handshake_ok d && sockfd_ok d && handshake_socket d
      | None => existsb (fun a => match a with Connects => true | _ => false end) (default [] (dns d))
      end) && negb (submitted d <? 0)
  then Some (submitted d) else None.

Fixpoint all_sent (ws : list WriteRaw) : bool :=
  match ws with
  | [] | WriteWould :: _ => true
  | WriteFails :: _ => false
  | Wrote _ :: ws => all_sent ws
  end.

Definition iter_of (cfg : NetConfig) (i : PollIn) : IterIn :=
  iter_in (mkConn 0 (match ca_pem cfg with Some _ => Some 0%nat | None => None end)) i (all_sent (p_writes i)).

Lemma iter_of_eq cfg cn o i :
  connected_by cfg cn o -> iter_in cn i (all_sent (p_writes i)) = iter_of cfg i.
Proof.
  intros (_ & _ & Ht). unfold iter_of, iter_in, readable. cbn [cn_tls].
  destruct (cn_tls cn), (ca_pem cfg); try done; exfalso;
    [destruct (proj1 Ht) | destruct (proj2 Ht)]; by eauto.
Qed.

Lemma tune_ok cfg cn (o : Net) : connected_by cfg cn o -> on_socket (cn_fd cn) o = Some o.
Proof. intros (Hs & _). unfold on_socket. by rewrite Hs, lookup_singleton_eq. Qed.

(** What [tls_connect] leaves. *)
Definition tls_left (d : Dial) (r : option (nat * option nat)) (o : Net) : Prop :=
  match r with
  | None => nothing_open o /\ tls_init_ok d && handshake_ok d = false
  | Some (t, fd) =>
      tls_init_ok d && handshake_ok d = true /\ tls_sessions o = {[ t ]} /\ h2_sessions o = ∅ /\
      (exists fd', sockets o = ∅ \/ sockets o = {[ fd' := Some t ]}) /\
      if handshake_socket d then exists fd', fd = Some fd' /\ sockets o = {[ fd' := Some t ]}
      else fd = None
  end.

Lemma tls_connect_ok cfg ca d (o : Net) :
  ca_pem cfg = Some ca -> nothing_open o ->
  exists r o', tls_connect (tls_cfg cfg ca) d o = Some (r, o') /\ grows cfg o o' /\ tls_left d r o'.
Proof.
  intros Hca Ho. unfold tls_connect. destruct (tls_init_ok d) eqn:Hi; cbn [negb].
  2: { exists None, o. split; [done|]. split; [done|]. split; [done|]. by rewrite Hi. }
  destruct Ho as (Hs & Ht & Hh). unfold esp_tls_init. cbv zeta.
  set (o1 := trace_op _ _). set (t := next_handle o) in *.
  assert (G1 : grows cfg o o1 /\ sockets o1 = ∅ /\ tls_sessions o1 = {[ t ]} /\ h2_sessions o1 = ∅).
  { split_and!; [|done|cbn; rewrite Ht; set_solver|done]. split; [cbn; lia|].
    exists [ONetHandshake (tls_cfg cfg ca)]. split; [done|]. constructor; [|done]. by exists ca. }
  clearbody o1. destruct G1 as (G1 & S1 & T1 & H1).
  assert (H2 : exists fd o2, (if handshake_socket d then let '(fd, o) := socket (Some t) o1 in (Some fd, o) else (None, o1))
      = (fd, o2) /\ grows cfg o o2 /\ tls_sessions o2 = {[ t ]} /\ h2_sessions o2 = ∅ /\
      (exists fd', sockets o2 = ∅ \/ sockets o2 = {[ fd' := Some t ]}) /\
      if handshake_socket d then exists fd', fd = Some fd' /\ sockets o2 = {[ fd' := Some t ]} else fd = None).
  { destruct (handshake_socket d).
    - destruct (socket_first (Some t) o1 S1) as (o2 & -> & S2 & T2 & H2 & P2 & R2).
      eexists _, o2. split; [done|]. split_and!; try congruence; [|by eauto|by eauto].
      etrans; [exact G1|]. split; [done|]. exists []. by rewrite app_nil_r.
    - exists None, o1. split_and!; try done. exists 0%nat. by left. }
  destruct H2 as (fd & o2 & -> & G2 & T2 & Hh2 & [fd' S2] & Hfd).
  destruct (handshake_ok d) eqn:Hok.
  - exists (Some (t, fd)), o2. split; [done|]. split; [done|]. unfold tls_left. rewrite Hi, Hok.
    split_and!; try done. by exists fd'.
  - destruct (destroy_only t o2 fd' T2 S2) as (o3 & -> & S3 & T3 & H3 & P3 & R3). cbn [mbind option_bind].
    exists None, o3. split; [done|]. split.
    + etrans; [exact G2|]. split; [lia|]. exists []. by rewrite app_nil_r.
    + unfold tls_left. rewrite Hok, andb_false_r. split; [|done]. split_and!; congruence.
Qed.

Lemma grows_same cfg o o' : peak o' = peak o -> net_trace o' = net_trace o -> grows cfg o o'.
Proof. intros Hp Ht. split; [lia|]. exists []. by rewrite app_nil_r. Qed.

Definition ready_to_submit (cfg : NetConfig) (d : Dial) : bool :=
  match ca_pem cfg with
  | Some _ => tls_init_ok d && handshake_ok d && sockfd_ok d && handshake_socket d
  | None => existsb (fun a => match a with Connects => true | _ => false end) (default [] (dns d))
  end.

Lemma establish_ok cfg d (o : Net) :
  nothing_open o ->
  exists r o', establish cfg d o = Some (r, o') /\ grows cfg o o' /\
    match r with
    | None => nothing_open o' /\ ready_to_submit cfg d = false
    | Some cn => connected_by cfg cn o' /\ h2_sessions o' = ∅ /\ ready_to_submit cfg d = true
    end.
Proof.
  intros Ho. unfold establish, ready_to_submit. destruct (ca_pem cfg) as [ca|] eqn:Hca.
  - destruct (tls_connect_ok cfg ca d o Hca Ho) as (r & o1 & -> & G1 & HL). cbn [mbind option_bind].
    destruct r as [[t fd]|].
    2: { exists None, o1. destruct HL as [? ->]. by split_and!. }
    destruct HL as (-> & T1 & H1 & [fd' S1] & Hfd).
    destruct (if sockfd_ok d then fd else None) as [fd1|] eqn:Hsel.
    + destruct (sockfd_ok d); [|done]. subst fd. destruct (handshake_socket d); [|done].
      destruct Hfd as (fd2 & [= <-] & S2). unfold tune, on_socket. rewrite S2, lookup_singleton_eq.
      cbn [mbind option_bind]. exists (Some (mkConn fd1 (Some t))), o1. split_and!; try done.
    + destruct (destroy_only t o1 fd' T1 S1) as (o2 & -> & S2 & T2 & H2 & P2 & R2). cbn [mbind option_bind].
      exists None, o2. split; [done|]. split; [etrans; [exact G1|by apply grows_same]|].
      split; [by split_and!; congruence|]. destruct (sockfd_ok d); [|done]. cbn [andb]. subst fd.
      destruct (handshake_socket d); [|done]. by destruct Hfd as (? & ? & _).
  - unfold connect_to. destruct (dns d) as [l|]; [|by exists None, o]. cbn [default id].
    destruct (try_addresses_ok cfg l o Hca Ho) as (r & o1 & E & G1 & HL).
    assert (Hr : (if r then true else false) = existsb (fun a => match a with Connects => true | _ => false end) l).
    { clear -E. revert o E. induction l as [|a l IH]; intros o E; cbn [try_addresses] in E; [by injection E as <- _|].
      destruct a; cbn [existsb orb]; [by eapply IH| |].
      - destruct (socket None o) as [fd o2]. destruct (close _ _) as [o3|]; [|done]. by eapply IH.
      - destruct (socket None o) as [fd o2]. by injection E as <- _. }
    destruct l as [|a l]; [by exists None, o|]. rewrite E. cbn [mbind option_bind].
    rewrite <- Hr. destruct r as [fd|]; [|by exists None, o1].
    destruct HL as [HC H1]. unfold tune. rewrite (tune_ok cfg (mkConn fd None) o1 HC : on_socket fd o1 = _).
    cbn [mbind option_bind]. by exists (Some (mkConn fd None)), o1.
Qed.

Lemma disconnect_ok cfg cn (o : Net) :
  connected_by cfg cn o -> h2_sessions o = ∅ ->
  exists o', disconnect cn o = Some o' /\ nothing_open o' /\ grows cfg o o'.
Proof.
  intros (Hs & Ht & _) Hh. unfold disconnect. destruct (cn_tls cn) as [t|].
  - destruct (destroy_only t o (cn_fd cn) Ht (or_intror Hs)) as (o' & -> & S & T & H & P & R).
    exists o'. split; [done|]. split; [split_and!; congruence | by apply grows_same].
  - destruct (close_only (cn_fd cn) o Hs) as (o' & -> & S & T & H & P & R).
    exists o'. split; [done|]. split; [split_and!; congruence | by apply grows_same].
Qed.

Lemma session_del_ok cfg cn ng (o : Net) :
  connected_by cfg cn o -> h2_sessions o = {[ ng ]} ->
  exists o', nghttp2_session_del ng o = Some o' /\ connected_by cfg cn o' /\ h2_sessions o' = ∅ /\ grows cfg o o'.
Proof.
  intros Hc Hh. unfold nghttp2_session_del. rewrite decide_True by (rewrite Hh; set_solver).
  eexists. split; [done|]. split; [exact Hc|]. split; [cbn; rewrite Hh; set_solver|by apply grows_same].
Qed.

Lemma open_stream_ok cfg d (o : Net) :
  nothing_open o ->
  exists r o', open_stream cfg d o = Some (r, o') /\ grows cfg o o' /\ (snd <$> r) = reaches cfg d /\
    match r with
    | None => nothing_open o'
    | Some (cn, ng, _) => connected_by cfg cn o' /\ h2_sessions o' = {[ ng ]}
    end.
Proof.
  intros Ho. unfold open_stream, reaches. fold (ready_to_submit cfg d).
  destruct (establish_ok cfg d o Ho) as (cn & o1 & -> & G1 & HL). cbn [mbind option_bind].
  destruct cn as [cn|]; [|by destruct HL as [? ->]; exists None, o1].
  destruct HL as (HC & H1 & ->). cbn [andb]. unfold nghttp2_session_client_new. cbv zeta.
  set (o2 := mkNet _ _ _ _ _ _). set (ng := next_handle o1).
  assert (H2 : h2_sessions o2 = {[ ng ]}) by (cbn; rewrite H1; set_solver).
  assert (C2 : connected_by cfg cn o2) by exact HC.
  assert (G2 : grows cfg o o2) by (etrans; [exact G1|by apply grows_same]). clearbody o2 ng.
  destruct (submitted d <? 0); cbn [negb].
  - destruct (session_del_ok cfg cn ng o2 C2 H2) as (o3 & -> & C3 & H3 & G3). cbn [mbind option_bind].
    destruct (disconnect_ok cfg cn o3 C3 H3) as (o4 & -> & N4 & G4). cbn [mbind option_bind].
    exists None, o4. split; [done|]. split; [by etrans; [exact G2|etrans]|done].
  - eexists _, _. split; [done|]. split; [|by split_and!].
    etrans; [exact G2|]. split; [cbn; lia|]. exists [ONetRequest (request_headers cfg)]. by split; [|constructor].
Qed.

Lemma session_send_ok cfg cn ws (o : Net) :
  connected_by cfg cn o ->
  exists o', session_send cn ws o = Some (all_sent ws, o') /\ connected_by cfg cn o' /\
    h2_sessions o' = h2_sessions o /\ grows cfg o o'.
Proof.
  revert o. induction ws as [|r ws IH]; intros o HC; cbn [session_send all_sent]; [by exists o|].
  assert (Hsend : cb_send cn r o = Some match r with
       | Wrote n => (SendSome n, trace_op (ONetWrite (if cn_tls cn then true else false)) o)
       | WriteWould => (NGHTTP2_ERR_WOULDBLOCK, o)
       | WriteFails => (NGHTTP2_ERR_CALLBACK_FAILURE, o)
       end).
  { unfold cb_send. destruct HC as (Hs & Ht & _). destruct (cn_tls cn) as [t|] eqn:E.
    - unfold on_tls. by rewrite decide_True by (rewrite Ht; set_solver).
    - unfold on_socket. by rewrite Hs, lookup_singleton_eq. }
  rewrite Hsend. destruct r; cbn [mbind option_bind]; [|by exists o..].
  destruct (IH (trace_op (ONetWrite (if cn_tls cn then true else false)) o)) as (o' & -> & C & H & G); [exact HC|].
  exists o'. split; [done|]. split; [done|]. split; [done|]. etrans; [|exact G]. split; [cbn; lia|].
  eexists. split; [done|]. constructor; [|done]. destruct HC as (_ & _ & Hi). unfold allowed. rewrite <- Hi.
  by destruct (cn_tls cn); split; try done; intros [? ?].
Qed.

Lemma pump_ok cfg cn ng ins s (cw : CW) (o : Net) :
  connected_by cfg cn o -> h2_sessions o = {[ ng ]} -> healthy s ->
  exists s' cw' o', run_pump cn ng ins (s, cw) o = Some (s', cw', o') /\
    session_loop pb_encode pb_decode filler dispatcher (map (iter_of cfg) ins) (s, cw) = Some (s', cw') /\
    connected_by cfg cn o' /\ h2_sessions o' = {[ ng ]} /\ grows cfg o o'.
Proof.
  revert s cw o. induction ins as [|i ins IH]; intros s cw o HC H2 Hs;
    cbn [pump session_loop map]; [by exists s, cw, o|].
  unfold on_h2. rewrite decide_True by (rewrite H2; set_solver). cbn [mbind option_bind fst].
  change (it_want (iter_of cfg i)) with (p_want i).
  destruct (closed s) eqn:Hcl; [by exists s, cw, o|]. destruct (negb (p_want i)); [by exists s, cw, o|].
  cbn [orb]. destruct (session_send_ok cfg cn (p_writes i) o HC) as (o1 & -> & C1 & H1 & G1).
  cbn [mbind option_bind]. rewrite (tune_ok cfg cn o1 C1). cbn [mbind option_bind].
  rewrite (iter_of_eq cfg cn o1 i C1).
  destruct (session_iter_total (iter_of cfg i) s cw Hs Hcl) as (s' & cw' & go & -> & Hs').
  cbn [mbind option_bind]. destruct go.
  - destruct (IH s' cw' o1) as (s2 & cw2 & o2 & -> & -> & C2 & Hh2 & G2); [done|congruence|done|].
    exists s2, cw2, o2. split_and!; try done. by etrans.
  - exists s', cw', o1. split_and!; try done. congruence.
Qed.

Lemma new_session_healthy st : healthy (Session_new st).
Proof. split; [apply new_fa_inv|done]. Qed.

(** One session, as the client and as the network see it. *)
Lemma transport_session_ok cfg d n ins (cw : CW) (o : Net) :
  nothing_open o ->
  exists cw' b o', transport_session pb_encode pb_decode filler dispatcher cfg d n ins cw o = Some (cw', b, o') /\
    run_session pb_encode pb_decode filler dispatcher (reaches cfg d) n (map (iter_of cfg) ins) cw
      = Some (cw', b) /\
    nothing_open o' /\ grows cfg o o'.
Proof.
  intros Ho. unfold transport_session, run_session.
  destruct (open_stream_ok cfg d o Ho) as (r & o1 & -> & G1 & <- & HL). cbn [mbind option_bind].
  destruct r as [[[cn ng] st]|]; [|by exists cw, false, o1]. cbn [fmap option_fmap option_map snd].
  destruct cw as [c w]. cbv zeta. destruct HL as [C1 H1].
  match goal with |- context [run_pump cn ng ins (Session_new st, (?c1, w)) o1] =>
    destruct (pump_ok cfg cn ng ins (Session_new st) (c1, w) o1) as (s & [c2 w2] & o2 & -> & -> & C2 & H2 & G2) end;
    [done|done|apply new_session_healthy|]. cbn [mbind option_bind].
  destruct (session_del_ok cfg cn ng o2 C2 H2) as (o3 & -> & C3 & H3 & G3). cbn [mbind option_bind].
  destruct (disconnect_ok cfg cn o3 C3 H3) as (o4 & -> & N4 & G4). cbn [mbind option_bind].
  eexists _, _, o4. split; [done|]. split; [done|]. split; [done|].
  etrans; [exact G1|]. etrans; [exact G2|]. by etrans.
Qed.

(** The rounds of the client alone. *)
Fixpoint task_rounds (rs : list (option Z * Now * list IterIn)) (st : CW * Z) : option (CW * Z * list Z) :=
  match rs with
  | [] => Some (st, [])
  | (stream, n, ins) :: rs =>
      '(st, slept) ← task_round pb_encode pb_decode filler dispatcher stream n ins st;
      '(st, ds) ← task_rounds rs st;
      Some (st, slept :: ds)
  end.

Definition round_in (cfg : NetConfig) (r : Round) : option Z * Now * list IterIn :=
  (reaches cfg (r_dial r), r_now r, map (iter_of cfg) (r_polls r)).

(** C26: However lookups, connects, handshakes, submits, writes, polls and
    reads end, every round of the task comes back with nothing left open: no
    socket, TLS session or HTTP/2 session is leaked, closed twice or used
    after it was closed, and at most one socket is ever open.  With a
    configured CA every connection is a TLS one that verifies it, no byte
    leaves in the clear and every request says https; without one no
    handshake takes place.  To the client the rounds are those of its own
    loop. *)
Theorem rounds_leave_nothing_open cfg rs (st : CW * Z) (o : Net) (Ho : nothing_open o) :
  exists st' ds o' ops,
    connect_rounds pb_encode pb_decode filler dispatcher cfg rs st o = Some (st', ds, o') /\
    nothing_open o' /\ (peak o' <= peak o `max` 1)%nat /\
    net_trace o' = net_trace o ++ ops /\ Forall (allowed cfg) ops /\
    task_rounds (map (round_in cfg) rs) st = Some (st', ds).
Proof.
  revert st o Ho. induction rs as [|r rs IH]; intros st o Ho; cbn [connect_rounds task_rounds map].
  { exists st, [], o, []. rewrite app_nil_r. split_and!; try done; lia. }
  unfold connect_round, round_in at 1, task_round. destruct st as [cw backoff].
  destruct (transport_session_ok cfg (r_dial r) (r_now r) (r_polls r) cw o Ho)
    as ([c w] & b & o1 & -> & -> & N1 & P1 & tr & T1 & A1). cbn [mbind option_bind]. cbv zeta.
  destruct (next_backoff _ b backoff) as [backoff' slept]. cbn [mbind option_bind].
  match goal with |- context [connect_rounds _ _ _ _ cfg rs ?st1 o1] =>
    destruct (IH st1 o1 N1) as (st2 & ds & o2 & ops & -> & N2 & P2 & T2 & A2 & ->) end.
  cbn [mbind option_bind]. exists st2, (slept :: ds), o2, (tr ++ ops). split_and!; try done.
  - lia.
  - by rewrite T2, T1, app_assoc.
  - by apply Forall_app.
Qed.
End safety.

(** ** Concrete runs *)

Definition net_config (ca : option string) : NetConfig :=
  mkNetConfig "gate-server" 50051 ca (Some "CERT") (Some "KEY").
Definition Net_new : Net := mkNet ∅ ∅ ∅ 0 0 [].

Definition sample_now : Now := mkNow 5000000 0 0 0 0.
Definition sample_client : Client (ListQueue (list Z)) * unit := (Client_new ClientConfig_default, tt).

(** A handshake that fails on an open socket, then a session: one poll that
    writes twice, and one that reads the end of the connection. *)
Definition sample_rounds : list Round :=
  [mkRound (mkDial None true true false true 1) sample_now [];
   mkRound (mkDial None true true true true 1) sample_now
     [mkPoll sample_now true [512%nat] [Wrote 20; Wrote 5; WriteWould] true false false 0 [];
      mkPoll sample_now true [] [] true false true 0 [ReadEof];
      mkPoll sample_now true [] [] true false false 0 []]].

Definition sample_run :=
  connect_rounds tiny_encode (fun _ => None) None None (net_config (Some "CA")) sample_rounds
    (sample_client, 1000) Net_new.

Lemma rounds_leave_nothing_open_witness :
  (fun r => (r.1.2, net_trace r.2)) <$> sample_run =
    Some ([1000; 2000],
          [ONetHandshake (mkTlsCfg ["h2"] 10000 "CA" (Some ("CERT", "KEY")));
           ONetHandshake (mkTlsCfg ["h2"] 10000 "CA" (Some ("CERT", "KEY")));
           ONetRequest (request_headers (net_config (Some "CA")));
           ONetWrite true; ONetWrite true]) /\
  exists st' ds o', sample_run = Some (st', ds, o') /\ nothing_open o' /\ (peak o' <= 1)%nat /\
    Forall (allowed (net_config (Some "CA"))) (net_trace o').
Proof.
  split; [vm_compute; reflexivity|].
  destruct (rounds_leave_nothing_open tiny_encode (fun _ => None) None None (net_config (Some "CA"))
    sample_rounds (sample_client, 1000) Net_new) as (st' & ds & o' & ops & E & N & P & T & A & _);
    [by split_and!|].
  exists st', ds, o'. split; [exact E|]. split; [exact N|]. split; [exact P|].
  cbn in T. rewrite T. exact A.
Defined.

(** A host name too long for the buffer loses its port and its own end. *)
Example long_host_is_cut :
  authority (mkNetConfig "gate-server-of-the-north-entrance.site-01.example-company.internal" 50051 None None None) =
    "gate-server-of-the-north-entrance.site-01.example-company.inter".
Proof. reflexivity. Qed.
