(* ===== verification/Firmware.v ===== *)
(** The firmware as it boots: the Ethernet wrapper
    (src/firmware/components/gate_drivers/src/ethernet.cpp) and [app_main]
    (src/firmware/main/main.cpp), which builds the components, wires them and
    confirms a freshly flashed image.

    ESP-IDF is outside the repository: how its calls end is an argument, and a
    failed [ESP_ERROR_CHECK] aborts the boot.  The callbacks of the wrapper
    are functions on the rest of the firmware. *)

From S2P Require Import Prelude StateMachine Platform Drivers GateController.
From S2P Require Import CommandTracker Ota ControlClient.
Local Open Scope Z_scope.

(** ** Calls that may abort *)

(** A call that aborts names its check. *)
Definition Checked (A : Type) : Type := string + A.

Definition error_check {A} (ok : bool) (what : string) (k : Checked A) : Checked A :=
  if ok then k else inl what.

(** ** The Ethernet wrapper *)

Inductive EthEvent :=
| ETHERNET_EVENT_CONNECTED | ETHERNET_EVENT_DISCONNECTED | ETHERNET_EVENT_START | ETHERNET_EVENT_STOP
| ETHERNET_EVENT_OTHER.
Inductive IpEvent := IP_EVENT_ETH_GOT_IP (addr : Z) | IP_EVENT_ETH_LOST_IP | IP_EVENT_OTHER.

Record EthConfig := mkEthConfig { ec_mac : list Z; ec_hostname : option string }.
Definition EthConfig_default : EthConfig := mkEthConfig (replicate 6 0) (Some "gate-fw").

Section Ethernet.
Context {W : Type}.

(** The process-wide state, the handlers that are registered, the address
    that was given to the chip, and whether the driver runs. *)
Record Ethernet := mkEth {
  started : bool; link_up : bool; ip_addr : Z;
  link_cb : option (bool -> W -> W); got_ip_cb : option (Z -> W -> W);
  lost_ip_cb : option (bool -> W -> W);
  on_eth_registered : bool; on_got_ip_registered : bool; on_lost_ip_registered : bool;
  chip_mac : option (list Z); driver_on : bool;
}.

Definition Ethernet_new : Ethernet :=
  mkEth false false 0 None None None false false false None false.

Definition set_link (up : bool) (ip : Z) (s : Ethernet) : Ethernet :=
  mkEth (started s) up ip (link_cb s) (got_ip_cb s) (lost_ip_cb s) (on_eth_registered s)
    (on_got_ip_registered s) (on_lost_ip_registered s) (chip_mac s) (driver_on s).

Definition on_link (cb : option (bool -> W -> W)) (s : Ethernet) : Ethernet :=
  mkEth (started s) (link_up s) (ip_addr s) cb (got_ip_cb s) (lost_ip_cb s) (on_eth_registered s)
    (on_got_ip_registered s) (on_lost_ip_registered s) (chip_mac s) (driver_on s).
Definition on_got_ip (cb : option (Z -> W -> W)) (s : Ethernet) : Ethernet :=
  mkEth (started s) (link_up s) (ip_addr s) (link_cb s) cb (lost_ip_cb s) (on_eth_registered s)
    (on_got_ip_registered s) (on_lost_ip_registered s) (chip_mac s) (driver_on s).
Definition on_lost_ip (cb : option (bool -> W -> W)) (s : Ethernet) : Ethernet :=
  mkEth (started s) (link_up s) (ip_addr s) (link_cb s) (got_ip_cb s) cb (on_eth_registered s)
    (on_got_ip_registered s) (on_lost_ip_registered s) (chip_mac s) (driver_on s).

Definition is_up (s : Ethernet) : bool := link_up s.
Definition current_ip (s : Ethernet) : Z := ip_addr s.

(** [if (cb) cb(arg);] *)
Definition call {A} (cb : option (A -> W -> W)) (a : A) (w : W) : W :=
  match cb with Some f => f a w | None => w end.

Definition on_eth_event (ev : EthEvent) (sw : Ethernet * W) : Ethernet * W :=
  let '(s, w) := sw in
  match ev with
  | ETHERNET_EVENT_CONNECTED => (set_link true (ip_addr s) s, call (link_cb s) true w)
  | ETHERNET_EVENT_DISCONNECTED =>
      (set_link false 0 s, call (lost_ip_cb s) false (call (link_cb s) false w))
  | ETHERNET_EVENT_START | ETHERNET_EVENT_STOP | ETHERNET_EVENT_OTHER => (s, w)
  end.

Definition on_ip_event (ev : IpEvent) (sw : Ethernet * W) : Ethernet * W :=
  let '(s, w) := sw in
  match ev with
  | IP_EVENT_ETH_GOT_IP addr => (set_link (link_up s) addr s, call (got_ip_cb s) addr w)
  | IP_EVENT_ETH_LOST_IP => (set_link (link_up s) 0 s, call (lost_ip_cb s) false w)
  | IP_EVENT_OTHER => (s, w)
  end.

(** An event of the loop, which only a registered handler sees. *)
Inductive NetifEvent := NetifEth (ev : EthEvent) | NetifIp (ev : IpEvent).

Definition netif_event (ev : NetifEvent) (sw : Ethernet * W) : Ethernet * W :=
  match ev with
  | NetifEth ev => if on_eth_registered sw.1 then on_eth_event ev sw else sw
  | NetifIp (IP_EVENT_ETH_GOT_IP a) =>
      if on_got_ip_registered sw.1 then on_ip_event (IP_EVENT_ETH_GOT_IP a) sw else sw
  | NetifIp IP_EVENT_ETH_LOST_IP =>
      if on_lost_ip_registered sw.1 then on_ip_event IP_EVENT_ETH_LOST_IP sw else sw
  | NetifIp IP_EVENT_OTHER => sw
  end.

(** [derive_mac_if_blank]; [None] is an error code of the fuse reader. *)
Definition derive_mac_if_blank (efuse : option (list Z)) (mac : list Z) : option (list Z) :=
  if existsb (fun b => negb (b =? 0)) mac then Some mac
  else
    match efuse with
    | None => None
    | Some (b0 :: rest) => Some (u8 (Z.lor (Z.land b0 254) 2) :: rest)
    | Some [] => Some []
    end.

(** How the calls of [start] end; [ec_ports] is [None] when the installation
    fails. *)
Record EthCalls := mkEthCalls {
  ec_netif_init : bool; ec_event_loop : bool; ec_ports : option nat; ec_attach : bool;
  ec_set_hostname : bool; ec_efuse : option (list Z); ec_set_mac : bool;
  ec_reg_eth : bool; ec_reg_got : bool; ec_reg_lost : bool; ec_start : bool;
}.

Definition set_started (s : Ethernet) : Ethernet :=
  mkEth true (link_up s) (ip_addr s) (link_cb s) (got_ip_cb s) (lost_ip_cb s) (on_eth_registered s)
    (on_got_ip_registered s) (on_lost_ip_registered s) (chip_mac s) (driver_on s).
Definition set_chip_mac (mac : list Z) (s : Ethernet) : Ethernet :=
  mkEth (started s) (link_up s) (ip_addr s) (link_cb s) (got_ip_cb s) (lost_ip_cb s) (on_eth_registered s)
    (on_got_ip_registered s) (on_lost_ip_registered s) (Some mac) (driver_on s).
Definition set_registered (s : Ethernet) : Ethernet :=
  mkEth (started s) (link_up s) (ip_addr s) (link_cb s) (got_ip_cb s) (lost_ip_cb s) true true true
    (chip_mac s) (driver_on s).
Definition set_driver_on (s : Ethernet) : Ethernet :=
  mkEth (started s) (link_up s) (ip_addr s) (link_cb s) (got_ip_cb s) (lost_ip_cb s) (on_eth_registered s)
    (on_got_ip_registered s) (on_lost_ip_registered s) (chip_mac s) true.

(** [Ethernet::start]. *)
Definition Ethernet_start (cfg : EthConfig) (c : EthCalls) (s : Ethernet) : Checked (Ethernet * EspErr) :=
  if started s then inr (s, ESP_ERR_INVALID_STATE)
  else
    let s := set_started s in
    error_check (ec_netif_init c) "esp_netif_init" (
    error_check (ec_event_loop c) "esp_event_loop_create_default" (
    match ec_ports c with
    | None => inl "ethernet_init_all"
    | Some ports =>
        if negb (ports =? 1)%nat then inr (s, ESP_ERR_INVALID_STATE)
        else
          error_check (ec_attach c) "esp_netif_attach" (
          error_check (match ec_hostname cfg with
                       | Some (String _ _) => ec_set_hostname c
                       | _ => true
                       end) "esp_netif_set_hostname" (
          match derive_mac_if_blank (ec_efuse c) (ec_mac cfg) with
          | None => inl "derive_mac_if_blank"
          | Some mac =>
              error_check (ec_set_mac c) "esp_eth_ioctl" (
              error_check (ec_reg_eth c && ec_reg_got c && ec_reg_lost c) "esp_event_handler_register" (
              error_check (ec_start c) "esp_eth_start" (
              inr (set_driver_on (set_registered (set_chip_mac mac s)), ESP_OK))))
          end))
    end)).
End Ethernet.
Arguments Ethernet : clear implicits.

(** ** The boot *)

Inductive ImgState := ESP_OTA_IMG_NEW | ESP_OTA_IMG_PENDING_VERIFY | ESP_OTA_IMG_VALID
| ESP_OTA_IMG_INVALID | ESP_OTA_IMG_ABORTED | ESP_OTA_IMG_UNDEFINED.
#[export] Instance ImgState_eq_dec : EqDecision ImgState.
Proof. solve_decision. Defined.

#[export] Instance EspErr_eq_dec : EqDecision EspErr.
Proof. solve_decision. Defined.

(** The milestones of [app_main], in the order they are passed. *)
Inductive BootStep :=
| BRebootTimer | BListener | BGateStarted | BCallbacks | BEthernet (err : EspErr) | BSntp
| BClientStarted | BMarkedValid.
#[export] Instance BootStep_eq_dec : EqDecision BootStep.
Proof. solve_decision. Defined.

Definition main_gate_config : GateConfig := mkGateConfig (mkConfig Sliding 30000 0) Pins_default true 5000.

Section boot.
Context {Q QG T : Type} `{!RtosQueue (list Z) Q} `{!RtosQueue Event QG} `{!EspTimer T}.
Context (pb_encode : nat -> Envelope -> option (list Z)).

(** The static objects. *)
Record Board := mkBoard { b_fw : Firmware QG T; b_client : Client Q }.

(** The listener: what the gate has reported since it was [before] goes to
    the client. *)
Definition forward (n : Now) (before after : GateController QG T) (c : Client Q) : Client Q :=
  foldl (fun c x => notify_gate_event pb_encode n x.1.1 x.1.2 x.2 c) c
    (drop (length (notified before)) (notified after)).

(** [GateController::start] with the samples the polls take meanwhile;
    [task_ok] is whether the pump task starts. *)
Definition poll_all (r : Z * Z * Z) (g : GateController QG T) : GateController QG T :=
  poll_beam r.2 (poll_limit_closed r.1.2 (poll_limit_open r.1.1 g)).
Definition gate_start (samples : list (Z * Z * Z)) (task_ok : bool) (g : GateController QG T)
    : GateController QG T * EspErr :=
  match phase g with
  | NotStarted =>
      let g := foldl (fun g r => poll_all r g) (start_call g) samples in
      let g := start_continue (start_continue g) in
      if task_ok then (start_continue g, ESP_OK) else (g, ESP_ERR_NO_MEM)
  | _ => (g, ESP_ERR_INVALID_STATE)
  end.

(** The callbacks given to the wrapper. *)
Definition main_got_ip (addr : Z) (b : Board) : Board := mkBoard (b_fw b) (notify_network_up (b_client b)).
Definition main_link (up : bool) (b : Board) : Board :=
  if up then b else mkBoard (b_fw b) (notify_network_down (b_client b)).

(** Events of the network, one after the other. *)
Definition netif_events (evs : list NetifEvent) (sb : Ethernet Board * Board) : Ethernet Board * Board :=
  foldl (fun sb ev => netif_event ev sb) sb evs.

(** How the calls of [app_main] end; [bc_early] are the network events that
    come while the boot goes on. *)
Record BootCalls := mkBoot {
  bc_timer_create : bool; bc_levels : Z * Z * Z; bc_samples : list (Z * Z * Z); bc_gate_task : bool;
  bc_eth : EthCalls; bc_early : list NetifEvent; bc_sntp : bool; bc_client_task : bool; bc_image : option ImgState; bc_mark : bool;
  bc_now : Now;
}.

Definition is_ok (e : EspErr) : bool := match e with ESP_OK => true | _ => false end.

(** The objects as they are constructed. *)
Definition main_objects (cfg : ClientConfig) (c : BootCalls) : Board :=
  let '(o, cl, bm) := bc_levels c in
  mkBoard (mkFirmware (GateController_new main_gate_config o cl bm) timer_create (mkOta false []) "")
    (Client_new cfg).

(** [app_main] up to its idle loop. *)
Definition app_main (cfg : ClientConfig) (c : BootCalls)
    : list BootStep * Checked (Ethernet Board * Board) :=
  if negb (bc_timer_create c) then ([], inl "esp_timer_create")
  else
    let b := main_objects cfg c in
    let '(g, err) := gate_start (bc_samples c) (bc_gate_task c) (fw_gate (b_fw b)) in
    let b := mkBoard (set_gate g (b_fw b)) (forward (bc_now c) (fw_gate (b_fw b)) g (b_client b)) in
    if negb (is_ok err) then ([BRebootTimer; BListener], inl "gate_ctrl.start")
    else
      let e := on_link (Some main_link) (on_got_ip (Some main_got_ip) Ethernet_new) in
      match Ethernet_start EthConfig_default (bc_eth c) e with
      | inl what => ([BRebootTimer; BListener; BGateStarted; BCallbacks], inl what)
      | inr (e, err) =>
          let '(e, b) := netif_events (bc_early c) (e, b) in
          let log := [BRebootTimer; BListener; BGateStarted; BCallbacks; BEthernet err] in
          if negb (bc_sntp c) then (log, inl "esp_netif_sntp_init")
          else
            let log := log ++ [BSntp] in
            let '(cl, err) := client_start (bc_client_task c) (b_client b) in
            if negb (is_ok err) then (log, inl "control_client.start")
            else
              let log := log ++ [BClientStarted] in
              let b := mkBoard (b_fw b) cl in
              if bool_decide (bc_image c = Some ESP_OTA_IMG_PENDING_VERIFY)
              then if bc_mark c then (log ++ [BMarkedValid], inr (e, b))
                   else (log, inl "esp_ota_mark_app_valid_cancel_rollback")
              else (log, inr (e, b))
      end.

(** The REBOOT command and the success of an update arm the reboot timer;
    [None] is the abort of the check when it is armed already. *)
Definition reboot_checked (f : Firmware QG T) : option (Firmware QG T) :=
  match timer_start_once 1500000 (reboot_timer f) with
  | Some t => Some (mkFirmware (fw_gate f) t (fw_ota f) (ota_cmd_id f))
  | None => None
  end.
End boot.
Arguments Board : clear implicits.

(** ** Lemmas *)

Section boot_facts.
Context {Q QG T : Type} `{!RtosQueue (list Z) Q} `{!RtosQueue Event QG} `{!EspTimer T}.
Context (pb_encode : nat -> Envelope -> option (list Z)).
Notation B := (Board Q QG T).

Lemma edge_phase ev (g : GateController QG T) : phase (edge ev g) = phase g.
Proof. unfold edge, post. by repeat case_match. Qed.

Lemma poll_all_phase r (g : GateController QG T) : phase (poll_all r g) = phase g.
Proof.
  assert (Ho : forall raw g, phase (poll_limit_open raw g : GateController QG T) = phase g).
  { intros raw g'. unfold poll_limit_open. destruct (LimitSwitch_on_poll _ _ _) as [d [[|]|]]; by rewrite ?edge_phase. }
  assert (Hc : forall raw g, phase (poll_limit_closed raw g : GateController QG T) = phase g).
  { intros raw g'. unfold poll_limit_closed. destruct (LimitSwitch_on_poll _ _ _) as [d [[|]|]]; by rewrite ?edge_phase. }
  assert (Hb : forall raw g, phase (poll_beam raw g : GateController QG T) = phase g).
  { intros raw g'. unfold poll_beam. destruct (SafetyBeam_on_poll _ _ _) as [d [[|]|]]; by rewrite ?edge_phase. }
  unfold poll_all. by rewrite Hb, Hc, Ho.
Qed.

Lemma polls_phase l (g : GateController QG T) :
  phase (foldl (fun g r => poll_all r g) g l) = phase g.
Proof. revert g. induction l as [|r l IH]; intros g; cbn [foldl]; [done|]. by rewrite IH, poll_all_phase. Qed.

Lemma gate_start_running samples task_ok (g : GateController QG T) :
  phase g = NotStarted ->
  (gate_start samples task_ok g).2 = (if task_ok then ESP_OK else ESP_ERR_NO_MEM) /\
  (task_ok = true -> phase (gate_start samples task_ok g).1 = Running).
Proof.
  intros Hp. unfold gate_start. rewrite Hp.
  set (g1 := foldl _ _ samples).
  assert (H1 : phase g1 = Settling) by (subst g1; rewrite polls_phase; unfold start_call; by rewrite Hp).
  assert (H2 : phase (start_continue g1) = Latched) by (unfold start_continue; by rewrite H1).
  assert (H3 : phase (start_continue (start_continue g1)) = Resolved)
    by (unfold start_continue at 1; by rewrite H2).
  destruct task_ok; (split; [done|]); [|done]. intros _. cbn [fst].
  unfold start_continue at 1. by rewrite H3.
Qed.

(** What a gate event leaves of the client's life cycle. *)
Lemma send_envelope_link e (c : Client Q) :
  net_up (send_envelope pb_encode e c).1 = net_up c /\
  cl_started_ (send_envelope pb_encode e c).1 = cl_started_ c.
Proof. unfold send_envelope. by repeat case_match. Qed.

Lemma forward_link n before (after : GateController QG T) (c : Client Q) :
  net_up (forward pb_encode n before after c) = net_up c /\
  cl_started_ (forward pb_encode n before after c) = cl_started_ c.
Proof.
  unfold forward. generalize (drop (length (notified before)) (notified after)) as l.
  intros l. revert c. induction l as [|x l IH]; intros c; cbn [foldl]; [done|].
  destruct (IH (notify_gate_event pb_encode n x.1.1 x.1.2 x.2 c)) as [-> ->].
  unfold notify_gate_event, ack_verdict, send_ack_completed. destruct (on_gate_event _ _ _ _) as [t v].
  destruct (v_fire v); [|done]. by rewrite (proj1 (send_envelope_link _ _)), (proj2 (send_envelope_link _ _)).
Qed.

(** What an event makes of the client's network bit. *)
Definition net_bit (up : bool) (ev : NetifEvent) : bool :=
  match ev with
  | NetifEth ETHERNET_EVENT_DISCONNECTED => false
  | NetifIp (IP_EVENT_ETH_GOT_IP _) => true
  | _ => up
  end.

(** The wrapper as [app_main] wires it; once the driver runs every handler is
    registered. *)
Definition wired (e : Ethernet B) : Prop :=
  link_cb e = Some main_link /\ got_ip_cb e = Some main_got_ip /\ lost_ip_cb e = None /\
  (driver_on e = true -> on_eth_registered e = true /\ on_got_ip_registered e = true /\
     on_lost_ip_registered e = true) /\
  (driver_on e = false -> on_eth_registered e = false /\ on_got_ip_registered e = false /\
     on_lost_ip_registered e = false).

Lemma netif_event_wired ev (e : Ethernet B) (b : B) :
  wired e ->
  wired (netif_event ev (e, b)).1 /\ driver_on (netif_event ev (e, b)).1 = driver_on e /\
  b_fw (netif_event ev (e, b)).2 = b_fw b /\
  cl_started_ (b_client (netif_event ev (e, b)).2) = cl_started_ (b_client b) /\
  net_up (b_client (netif_event ev (e, b)).2) =
    if driver_on e then net_bit (net_up (b_client b)) ev else net_up (b_client b).
Proof.
  intros Hw. pose proof Hw as (Hl & Hg & Hlost & Hon & Hoff). unfold netif_event. cbn [fst].
  assert (Hreg : on_eth_registered e = driver_on e /\ on_got_ip_registered e = driver_on e /\
            on_lost_ip_registered e = driver_on e) by (destruct (driver_on e); naive_solver).
  destruct Hreg as (-> & -> & ->). destruct (driver_on e) eqn:Hd.
  - destruct ev as [[]|[]]; cbn; rewrite ?Hl, ?Hg, ?Hlost, ?Hd; cbn; (split; [|done]); split_and!; try done; naive_solver.
  - by destruct ev as [|[]].
Qed.

Lemma netif_events_wired evs (e : Ethernet B) (b : B) :
  wired e ->
  let sb := netif_events evs (e, b) in
  wired sb.1 /\ driver_on sb.1 = driver_on e /\ b_fw sb.2 = b_fw b /\
  cl_started_ (b_client sb.2) = cl_started_ (b_client b) /\
  net_up (b_client sb.2) =
    if driver_on e then foldl net_bit (net_up (b_client b)) evs else net_up (b_client b).
Proof.
  revert e b. induction evs as [|ev evs IH]; intros e b Hw.
  { split_and!; try done. cbn. by destruct (driver_on e). }
  destruct (netif_event_wired ev e b Hw) as (Hw' & Hd & Hf & Hs & Hn).
  unfold netif_events. cbn [foldl]. destruct (netif_event ev (e, b)) as [e' b']. cbn [fst snd] in *.
  destruct (IH e' b' Hw') as (I1 & I2 & I3 & I4 & I5). unfold netif_events in *.
  split_and!; try congruence. rewrite I5, Hd, Hn. by destruct (driver_on e).
Qed.

Lemma Ethernet_start_wired cfg c (e e' : Ethernet B) err :
  wired e -> driver_on e = false -> Ethernet_start cfg c e = inr (e', err) ->
  wired e' /\ driver_on e' = is_ok err.
Proof.
  intros (Hl & Hg & Hlost & _ & Hoff) Hd. specialize (Hoff Hd). unfold Ethernet_start, error_check.
  repeat case_match; try done; intros [= <- <-]; (split; [|by cbn; rewrite ?Hd]);
    unfold wired; cbn; rewrite ?Hd; split_and!; try done; by intros [=].
Qed.

Lemma wired_new : wired (on_link (Some main_link) (on_got_ip (Some main_got_ip) Ethernet_new)).
Proof. by split_and!. Qed.

(** A boot that stops before the last step. *)
Ltac stopped_boot :=
  cbv beta iota zeta; split; [split; [intros H; exfalso; set_solver | by intros [_ [? [=]]]] | done].

End boot_facts.

(** The address that is given to the chip: the configured one, or a unicast,
    locally administered one. *)
Lemma derived_mac_is_local efuse mac mac' :
  derive_mac_if_blank efuse mac = Some mac' ->
  (existsb (fun b => negb (b =? 0)) mac = true /\ mac' = mac) \/
  forall b0 rest, mac' = b0 :: rest -> Z.testbit b0 0 = false /\ Z.testbit b0 1 = true.
Proof.
  unfold derive_mac_if_blank. destruct (existsb _ mac); [by intros [= <-]; left|].
  destruct efuse as [[|b l]|]; [by intros [= <-]; right| |done]. intros [= <-]. right.
  intros b0 rest [= <- _]. unfold u8. change 256 with (2 ^ 8).
  rewrite <- Z.land_ones by lia.
  rewrite !Z.land_spec, !Z.lor_spec, !Z.land_spec. split.
  - change (Z.testbit 254 0) with false. change (Z.testbit 2 0) with false. by rewrite andb_false_r.
  - change (Z.testbit 2 1) with true. by rewrite orb_true_r.
Qed.

(** ** Concrete boots *)

Definition good_eth (ports : nat) : EthCalls :=
  mkEthCalls true true (Some ports) true true (Some [36; 10; 196; 1; 2; 3]) true true true true true.
Definition first_boot (ports : nat) (early : list NetifEvent) : BootCalls :=
  mkBoot true (1, 0, 1) (replicate 30 (1, 0, 1)) true (good_eth ports) early true true
    (Some ESP_OTA_IMG_PENDING_VERIFY) true (mkNow 0 0 0 0 0).

Definition boot (c : BootCalls) :=
  app_main (Q := ListQueue (list Z)) (QG := ListQueue Event) (T := PeriodTimer) tiny_encode
    ClientConfig_default c.

(** A boot whose Ethernet hardware is not found runs offline, and its image is
    confirmed all the same. *)
Example offline_image_is_confirmed :
  (boot (first_boot 0 [])).1 =
    [BRebootTimer; BListener; BGateStarted; BCallbacks; BEthernet ESP_ERR_INVALID_STATE; BSntp;
     BClientStarted; BMarkedValid].
Proof. vm_compute. reflexivity. Qed.

(** A good boot that gets an address before the client starts. *)
Example early_address_is_kept :
  match (boot (first_boot 1 [NetifEth ETHERNET_EVENT_CONNECTED; NetifIp (IP_EVENT_ETH_GOT_IP 16777343)])).2 with
  | inr (e, b) => net_up (b_client b) = true /\ is_up e = true /\ current_ip e = 16777343 /\
                  chip_mac e = Some [38; 10; 196; 1; 2; 3]
  | inl _ => False
  end.
Proof. vm_compute. done. Qed.

(** A second REBOOT while the first is pending fails its check. *)
Example second_reboot_aborts :
  let f := mkFirmware (GateController_new main_gate_config 1 0 1) timer_create (mkOta false []) "" in
  match reboot_checked (f : Firmware (ListQueue Event) PeriodTimer) with
  | Some f => reboot_checked f = None
  | None => False
  end.
Proof. reflexivity. Qed.

(** An Ethernet wrapper that failed to find its port cannot be started again. *)
Lemma failed_start_is_final {W} cfg c c' (s : Ethernet W) :
  started s = false -> ec_netif_init c = true -> ec_event_loop c = true -> ec_ports c = Some 0%nat ->
  exists s', Ethernet_start cfg c s = inr (s', ESP_ERR_INVALID_STATE) /\
    Ethernet_start cfg c' s' = inr (s', ESP_ERR_INVALID_STATE).
Proof.
  intros Hs H1 H2 H3. unfold Ethernet_start at 1. rewrite Hs, H1, H2, H3. by eexists.
Qed.
