(* ===== verification/VirtualGate.v ===== *)
(** The virtual gate of the simulator (src/simulation: virtual_gate.hpp and
    .cpp): the firmware's state machine and command tracker, composed with
    simulated travel and timers.  The position is a double that only ever
    gains or loses 32-bit millisecond counts between two integer bounds, so
    every value it takes is an exact integer and is modelled as one. *)

From S2P Require Import Prelude StateMachine Platform Drivers GateController CommandTracker.
Local Open Scope Z_scope.

(** [VirtualGate::Config]. *)
Record VgConfig := mkVgConfig {
  travel_ms : Z;
  vg_motor_timeout_ms : Z;
  vg_auto_close_ms : Z;
  vg_reverse_on_beam : bool;
  vg_command_deadline_ms : Z;
}.

Definition VgConfig_default : VgConfig := mkVgConfig 12000 30000 0 true 40000.

Record Ack := mkVgAck { va_command_id : string; va_success : bool; va_error : string }.

Inductive Command := CmdOpen | CmdClose.

Record VirtualGate := mkVG {
  vg_cfg : VgConfig;
  machine_ : StateMachine;
  vg_tracker : CommandTracker;
  now_ms_ : Z;
  position_ms_ : Z;
  motor_open_ : bool;
  motor_close_ : bool;
  beam_blocked_ : bool;
  watchdog_deadline_ : Z;
  autoclose_deadline_ : Z;
  acks_ : list Ack;
}.

(** *** Member assignments *)
Definition set_machine (m : StateMachine) (v : VirtualGate) : VirtualGate :=
  mkVG (vg_cfg v) m (vg_tracker v) (now_ms_ v) (position_ms_ v) (motor_open_ v)
    (motor_close_ v) (beam_blocked_ v) (watchdog_deadline_ v) (autoclose_deadline_ v) (acks_ v).
Definition set_vg_tracker (t : CommandTracker) (a : list Ack) (v : VirtualGate) : VirtualGate :=
  mkVG (vg_cfg v) (machine_ v) t (now_ms_ v) (position_ms_ v) (motor_open_ v)
    (motor_close_ v) (beam_blocked_ v) (watchdog_deadline_ v) (autoclose_deadline_ v) a.
Definition set_now (n : Z) (v : VirtualGate) : VirtualGate :=
  mkVG (vg_cfg v) (machine_ v) (vg_tracker v) n (position_ms_ v) (motor_open_ v)
    (motor_close_ v) (beam_blocked_ v) (watchdog_deadline_ v) (autoclose_deadline_ v) (acks_ v).
Definition set_position (p : Z) (v : VirtualGate) : VirtualGate :=
  mkVG (vg_cfg v) (machine_ v) (vg_tracker v) (now_ms_ v) p (motor_open_ v)
    (motor_close_ v) (beam_blocked_ v) (watchdog_deadline_ v) (autoclose_deadline_ v) (acks_ v).
Definition set_motors (o c : bool) (v : VirtualGate) : VirtualGate :=
  mkVG (vg_cfg v) (machine_ v) (vg_tracker v) (now_ms_ v) (position_ms_ v) o c
    (beam_blocked_ v) (watchdog_deadline_ v) (autoclose_deadline_ v) (acks_ v).
Definition set_beam_blocked (b : bool) (v : VirtualGate) : VirtualGate :=
  mkVG (vg_cfg v) (machine_ v) (vg_tracker v) (now_ms_ v) (position_ms_ v) (motor_open_ v)
    (motor_close_ v) b (watchdog_deadline_ v) (autoclose_deadline_ v) (acks_ v).
Definition set_deadlines (w a : Z) (v : VirtualGate) : VirtualGate :=
  mkVG (vg_cfg v) (machine_ v) (vg_tracker v) (now_ms_ v) (position_ms_ v) (motor_open_ v)
    (motor_close_ v) (beam_blocked_ v) w a (acks_ v).

Definition vg_sm_config (c : VgConfig) : Config :=
  mkConfig Sliding (vg_motor_timeout_ms c) (vg_auto_close_ms c).

(** The constructor. *)
Definition VirtualGate_new (c : VgConfig) : VirtualGate :=
  mkVG c (StateMachine_new (vg_sm_config c)) CommandTracker_new 0 0 false false false 0 0 [].

(** [VirtualGate::record]. *)
Definition record_verdict (tv : CommandTracker * Verdict) (v : VirtualGate) : VirtualGate :=
  let '(t, vd) := tv in
  set_vg_tracker t
    (if v_fire vd then acks_ v ++ [mkVgAck (v_command_id vd) (v_success vd) (v_error vd)]
     else acks_ v) v.

(** One action of the dispatch loop of [apply_locked]. *)
Definition vg_action (v : VirtualGate) (a : Action) : VirtualGate :=
  match a with
  | DriveMotorOpen => set_motors true false v
  | DriveMotorClose => set_motors false true v
  | StopMotor => set_motors false false v
  | _ => v
  end.

(** [apply_locked] up to the policies: actions, deadlines, listener. *)
Definition vg_effects (out : Outputs) (v : VirtualGate) : VirtualGate :=
  let v := foldl vg_action v (emitted out) in
  let v := if transitioned out then
      set_deadlines
        (if moving (new_state out) then u64 (now_ms_ v + vg_motor_timeout_ms (vg_cfg v)) else 0)
        (if bool_decide (new_state out = Open) && (0 <? vg_auto_close_ms (vg_cfg v))
         then u64 (now_ms_ v + vg_auto_close_ms (vg_cfg v)) else 0) v
    else v in
  if transitioned out || negb (bool_decide (out_reason out = ReasonNone))
  then record_verdict (on_gate_event (vg_tracker v) (new_state out) (out_reason out)
                         (transitioned out)) v
  else v.

(** [apply_locked] and [step_locked] call each other for the reversal; the
    reopening step never reverses again, so a depth of two is enough
    ([apply_locked_fuel]). *)
Fixpoint apply_locked (fuel : nat) (out : Outputs) (v : VirtualGate) : VirtualGate :=
  let v := vg_effects out v in
  if vg_reverse_on_beam (vg_cfg v) && transitioned out
     && bool_decide (new_state out = StoppedClose)
     && bool_decide (out_reason out = SafetyBeamObstacle)
  then
    match fuel with
    | O => v
    | S fuel =>
        let '(m, out) := handle (machine_ v) CommandOpen in
        apply_locked fuel out (set_machine m v)
    end
  else if negb (transitioned out) && bool_decide (new_state out = Open)
          && bool_decide (out_reason out = SafetyBeamObstacle) && (0 <? vg_auto_close_ms (vg_cfg v))
  then set_deadlines (watchdog_deadline_ v) (u64 (now_ms_ v + vg_auto_close_ms (vg_cfg v))) v
  else v.

Definition apply (mo : StateMachine * Outputs) (v : VirtualGate) : VirtualGate :=
  apply_locked 2 mo.2 (set_machine mo.1 v).

(** [VirtualGate::step_locked]. *)
Definition step_locked (ev : Event) (v : VirtualGate) : VirtualGate :=
  apply (handle (machine_ v) ev) v.

(** [VirtualGate::resolve_position_locked]. *)
Definition resolve_position_locked (v : VirtualGate) : VirtualGate :=
  if position_ms_ v <=? 0 then apply (init_closed (machine_ v)) v
  else if travel_ms (vg_cfg v) <=? position_ms_ v then apply (init_open (machine_ v)) v
  else apply (init_unknown (machine_ v)) v.

(** The public operations. *)
Definition boot_closed (v : VirtualGate) : VirtualGate :=
  let v := set_position 0 v in apply (init_closed (machine_ v)) v.

Definition issue (id : string) (c : Command) (v : VirtualGate) : VirtualGate :=
  let terminal := match c with CmdOpen => Open | CmdClose => Closed end in
  let v := record_verdict
    (arm (vg_tracker v) id terminal
       (u32 (u32 (now_ms_ v) + vg_command_deadline_ms (vg_cfg v)))) v in
  step_locked (match c with CmdOpen => CommandOpen | CmdClose => CommandClose end) v.

Definition local_open (v : VirtualGate) : VirtualGate := step_locked CommandOpen v.
Definition local_close (v : VirtualGate) : VirtualGate := step_locked CommandClose v.
Definition operator_stop (v : VirtualGate) : VirtualGate := step_locked CommandStop v.

Definition vg_clear_fault (v : VirtualGate) : VirtualGate :=
  let v := step_locked FaultCleared v in
  if bool_decide (state_ (machine_ v) = Initializing) then resolve_position_locked v else v.

Definition reboot (v : VirtualGate) : VirtualGate :=
  let v := set_deadlines 0 0 (set_motors false false v) in
  let v := set_machine (StateMachine_new (vg_sm_config (vg_cfg v))) v in
  let v := if beam_blocked_ v
           then set_machine (handle (machine_ v) SafetyBeamTripped).1 v else v in
  resolve_position_locked v.

Definition trip_beam (v : VirtualGate) : VirtualGate :=
  step_locked SafetyBeamTripped (set_beam_blocked true v).
Definition clear_beam (v : VirtualGate) : VirtualGate :=
  step_locked SafetyBeamCleared (set_beam_blocked false v).

(** The motion of one tick. *)
Definition vg_move (dt : Z) (v : VirtualGate) : VirtualGate :=
  if motor_open_ v then
    let v := set_position (position_ms_ v + dt) v in
    if travel_ms (vg_cfg v) <=? position_ms_ v
    then step_locked LimitOpenHit (set_position (travel_ms (vg_cfg v)) v) else v
  else if motor_close_ v then
    let v := set_position (position_ms_ v - dt) v in
    if position_ms_ v <=? 0 then step_locked LimitClosedHit (set_position 0 v) else v
  else v.

(** [VirtualGate::advance]. *)
Definition advance (dt : Z) (v : VirtualGate) : VirtualGate :=
  let v := set_now (u64 (now_ms_ v + dt)) v in
  let v := record_verdict (CommandTracker.on_tick (vg_tracker v) (u32 (now_ms_ v))) v in
  let v := vg_move dt v in
  let v := if negb (watchdog_deadline_ v =? 0) && (watchdog_deadline_ v <=? now_ms_ v)
           then step_locked MotorTimeout (set_deadlines 0 (autoclose_deadline_ v) v) else v in
  if negb (autoclose_deadline_ v =? 0) && (autoclose_deadline_ v <=? now_ms_ v)
  then step_locked CommandClose (set_deadlines (watchdog_deadline_ v) 0 v) else v.

(** [VirtualGate::drain_acks]. *)
Definition drain_acks (v : VirtualGate) : VirtualGate * list Ack :=
  (set_vg_tracker (vg_tracker v) [] v, acks_ v).

(** The snapshots. *)
Definition vg_limit_open (v : VirtualGate) : bool := travel_ms (vg_cfg v) <=? position_ms_ v.
Definition vg_limit_closed (v : VirtualGate) : bool := position_ms_ v <=? 0.
Definition beam_clear (v : VirtualGate) : bool := negb (beam_blocked_ v).

(** ** Histories *)

Inductive VgOp :=
| VgBoot | VgIssue (id : string) (c : Command) | VgOpen | VgClose | VgStop | VgClearFault
| VgReboot | VgTrip | VgClear | VgAdvance (dt : Z) | VgDrain.

Definition vg_do (v : VirtualGate) (op : VgOp) : VirtualGate :=
  match op with
  | VgBoot => boot_closed v
  | VgIssue id c => issue id c v
  | VgOpen => local_open v
  | VgClose => local_close v
  | VgStop => operator_stop v
  | VgClearFault => vg_clear_fault v
  | VgReboot => reboot v
  | VgTrip => trip_beam v
  | VgClear => clear_beam v
  | VgAdvance dt => advance (u32 dt) v
  | VgDrain => (drain_acks v).1
  end.

Definition vg_run (c : VgConfig) (ops : list VgOp) : VirtualGate :=
  foldl vg_do (VirtualGate_new c) ops.

(** ** Invariant *)

Definition vg_motor (v : VirtualGate) : option Motor :=
  motor_of_relays (motor_open_ v) (motor_close_ v).

(** The electrical and mechanical core: the motor does what the state says,
    the latch is the beam, an armed watchdog belongs to a moving gate. *)
Definition vg_core (v : VirtualGate) : Prop :=
  sm_inv (machine_ v) /\
  vg_motor v = Some (motor_of (state_ (machine_ v))) /\
  beam_clear_ (machine_ v) = negb (beam_blocked_ v) /\
  (watchdog_deadline_ v <> 0 -> moving (state_ (machine_ v)) = true).

(** What [apply_locked] may assume: [out] is the report of the step that
    produced the current machine. *)
Definition apply_pre (out : Outputs) (v : VirtualGate) : Prop :=
  sm_inv (machine_ v) /\ beam_clear_ (machine_ v) = negb (beam_blocked_ v) /\
  new_state out = state_ (machine_ v) /\
  (exists mt, vg_motor v = Some mt /\
     motor_actions mt (emitted out) = motor_of (state_ (machine_ v))) /\
  (transitioned out = false -> watchdog_deadline_ v <> 0 ->
     moving (state_ (machine_ v)) = true).

(** The members that no step touches. *)
Definition vg_frame (v v' : VirtualGate) : Prop :=
  vg_cfg v' = vg_cfg v /\ now_ms_ v' = now_ms_ v /\ position_ms_ v' = position_ms_ v /\
  beam_blocked_ v' = beam_blocked_ v.

#[export] Instance vg_frame_preorder : PreOrder vg_frame.
Proof. split; [done|]. unfold vg_frame. intros x y z. naive_solver congruence. Qed.

Lemma vg_actions_motor acts v mt :
  vg_motor v = Some mt ->
  vg_motor (foldl vg_action v acts) = Some (motor_actions mt acts) /\
  vg_frame v (foldl vg_action v acts) /\
  machine_ (foldl vg_action v acts) = machine_ v /\
  vg_tracker (foldl vg_action v acts) = vg_tracker v /\ acks_ (foldl vg_action v acts) = acks_ v /\
  watchdog_deadline_ (foldl vg_action v acts) = watchdog_deadline_ v /\
  autoclose_deadline_ (foldl vg_action v acts) = autoclose_deadline_ v.
Proof.
  revert v mt. induction acts as [|a acts IH]; intros v mt Hm; [done|].
  simpl. destruct (IH (vg_action v a) (motor_action mt a)) as (H1 & H2 & H3).
  { by destruct a. }
  split; [done|]. destruct H2 as (F1 & F2 & F3 & F4).
  unfold vg_frame. rewrite F1, F2, F3, F4. by destruct a.
Qed.

Lemma record_verdict_frame tv v :
  vg_frame v (record_verdict tv v) /\ machine_ (record_verdict tv v) = machine_ v /\
  vg_motor (record_verdict tv v) = vg_motor v /\
  watchdog_deadline_ (record_verdict tv v) = watchdog_deadline_ v /\
  autoclose_deadline_ (record_verdict tv v) = autoclose_deadline_ v.
Proof. by destruct tv. Qed.

Lemma vg_effects_ok out v :
  apply_pre out v ->
  vg_core (vg_effects out v) /\ vg_frame v (vg_effects out v) /\
  machine_ (vg_effects out v) = machine_ v.
Proof.
  intros (Hsm & Hb & Hs & (mt & Hm & Hma) & Hw). unfold vg_effects.
  destruct (vg_actions_motor (emitted out) v mt Hm) as (A1 & A2 & A3 & A4 & A5 & A6 & A7).
  set (v1 := foldl vg_action v (emitted out)) in *. clearbody v1.
  set (v2 := if transitioned out then _ else v1).
  assert (H2 : vg_core v2 /\ vg_frame v v2 /\ machine_ v2 = machine_ v).
  { destruct A2 as (F1 & F2 & F3 & F4).
    unfold v2, vg_core, vg_frame. destruct (transitioned out); simpl; rewrite A3;
      (split_and!; try done; try congruence).
    - unfold vg_motor in *. simpl. congruence.
    - rewrite <- Hs. by destruct (moving (new_state out)).
    - rewrite A6. by apply Hw. }
  clearbody v2. destruct (transitioned out || _); [|done].
  pose proof (record_verdict_frame (on_gate_event (vg_tracker v2) (new_state out)
                (out_reason out) (transitioned out)) v2) as (R1 & R2 & R3 & R4 & _).
  destruct H2 as (C & F & M). split_and!.
  - unfold vg_core in *. destruct R1 as (_ & _ & _ & Rb). by rewrite R2, R3, R4, Rb.
  - by transitivity v2.
  - congruence.
Qed.

(** A step of the machine from a core state is a legal [apply_locked]. *)
Lemma call_apply_pre c v :
  vg_core v ->
  beam_clear_ (call (machine_ v) c).1 = beam_clear_ (machine_ v) ->
  apply_pre (call (machine_ v) c).2 (set_machine (call (machine_ v) c).1 v).
Proof.
  intros (Hsm & Hm & Hb & Hw) Hl. unfold apply_pre. simpl.
  split_and!; [by apply call_inv | congruence | apply call_new_state | |].
  - eexists. split; [exact Hm | apply call_motor].
  - intros Ht Hne. destruct c as [ev| | |]; [|done..]. cbn [call] in *.
    destruct (handle_untransitioned (machine_ v) ev Ht) as [-> _]. auto.
Qed.

Lemma apply_locked_ok fuel out v :
  apply_pre out v ->
  vg_core (apply_locked fuel out v) /\ vg_frame v (apply_locked fuel out v).
Proof.
  revert out v. induction fuel as [|fuel IH]; intros out v Hpre;
    destruct (vg_effects_ok out v Hpre) as (C & F & M); cbn [apply_locked].
  - destruct (_ && _); [done|]. by destruct (_ && _).
  - destruct (_ && _); [|by destruct (_ && _)].
    pose proof (call_apply_pre (CallEvent CommandOpen) _ C) as Hp. simpl in Hp.
    specialize (Hp (handle_latch _ _)).
    destruct (handle (machine_ (vg_effects out v)) CommandOpen) as [m o]. simpl in Hp.
    destruct (IH o _ Hp) as [C' F']. split; [done|].
    transitivity (vg_effects out v); done.
Qed.

(** *** Every operation keeps the core *)

Definition vg_inv (v : VirtualGate) : Prop :=
  vg_core v /\ 0 <= position_ms_ v <= travel_ms (vg_cfg v).

Lemma apply_ok c v :
  vg_core v -> beam_clear_ (call (machine_ v) c).1 = beam_clear_ (machine_ v) ->
  vg_core (apply (call (machine_ v) c) v) /\ vg_frame v (apply (call (machine_ v) c) v).
Proof. intros H1 H2. apply (apply_locked_ok 2), call_apply_pre; done. Qed.

Lemma apply_init_ok c v :
  vg_core v -> match c with CallEvent _ => False | _ => True end ->
  vg_core (apply (call (machine_ v) c) v) /\ vg_frame v (apply (call (machine_ v) c) v).
Proof. intros H1 H2. apply apply_ok; [done|]. by destruct c. Qed.

Lemma step_ok ev v :
  vg_core v -> ev <> SafetyBeamTripped -> ev <> SafetyBeamCleared ->
  vg_core (step_locked ev v) /\ vg_frame v (step_locked ev v).
Proof.
  intros H1 H2 H3. apply (apply_ok (CallEvent ev)); [done|].
  simpl. rewrite handle_latch. by destruct ev.
Qed.

(** A beam edge moves the beam and the latch together. *)
Lemma beam_step_ok (b : bool) v :
  vg_core v ->
  let ev := if b then SafetyBeamTripped else SafetyBeamCleared in
  vg_core (step_locked ev (set_beam_blocked b v)) /\
  vg_frame (set_beam_blocked b v) (step_locked ev (set_beam_blocked b v)).
Proof.
  intros (Hsm & Hm & Hb & Hw) ev.
  refine (apply_locked_ok 2 (handle (machine_ v) ev).2
            (set_machine (handle (machine_ v) ev).1 (set_beam_blocked b v)) _).
  unfold apply_pre. simpl. split_and!.
  - by apply handle_inv.
  - rewrite handle_latch. by destruct b.
  - apply handle_new_state.
  - eexists. split; [exact Hm | apply handle_motor].
  - intros Ht Hne. destruct (handle_untransitioned _ ev Ht) as [-> _]. auto.
Qed.

Lemma resolve_ok v :
  vg_core v -> vg_core (resolve_position_locked v) /\ vg_frame v (resolve_position_locked v).
Proof.
  intros H. unfold resolve_position_locked.
  repeat case_match; [apply (apply_init_ok CallInitClosed) | apply (apply_init_ok CallInitOpen)
                     | apply (apply_init_ok CallInitUnknown)]; done.
Qed.

Lemma frame_inv v v' : vg_inv v -> vg_core v' /\ vg_frame v v' -> vg_inv v'.
Proof.
  intros [_ Hp] [Hc (F1 & _ & F3 & _)]. split; [done|]. by rewrite F1, F3.
Qed.

(** *** Every operation keeps the invariant *)

Lemma vg_new_inv c : 0 <= travel_ms c -> vg_inv (VirtualGate_new c).
Proof. intros. split; [|simpl; lia]. split_and!; done. Qed.

Lemma reboot_core v : vg_core v -> vg_core (reboot v) /\ vg_frame v (reboot v).
Proof.
  intros _. unfold reboot.
  set (v1 := set_machine (StateMachine_new _) _).
  set (v2 := if beam_blocked_ v1 then _ else v1).
  assert (Hc : vg_core v2 /\ vg_frame v v2).
  { unfold v2. destruct (beam_blocked_ v1) eqn:Hb; change (beam_blocked_ v = true) in Hb
      || change (beam_blocked_ v = false) in Hb;
      (split; [|done]); unfold vg_core; simpl; rewrite Hb; by split_and!. }
  clearbody v2. destruct Hc as [Hc Hf]. destruct (resolve_ok v2 Hc) as [H1 H2].
  split; [done | by transitivity v2].
Qed.

Lemma vg_move_inv dt v : 0 <= dt -> vg_inv v -> vg_inv (vg_move dt v).
Proof.
  intros Hdt [Hc Hp]. unfold vg_move. destruct (motor_open_ v) eqn:Ho; simpl.
  - destruct (Z.leb_spec (travel_ms (vg_cfg v)) (position_ms_ v + dt)).
    + eapply frame_inv; [|apply step_ok; done]. split; [done | simpl; lia].
    + split; [done | simpl; lia].
  - destruct (motor_close_ v) eqn:Hmc; [|done]. simpl.
    destruct (Z.leb_spec (position_ms_ v - dt) 0).
    + eapply frame_inv; [|apply step_ok; done]. split; [done | simpl; lia].
    + split; [done | simpl; lia].
Qed.

Lemma record_inv tv v : vg_inv v -> vg_inv (record_verdict tv v).
Proof. by destruct tv. Qed.

Lemma disarm_core v : vg_core v -> vg_core (set_deadlines 0 (autoclose_deadline_ v) v).
Proof. intros (H1 & H2 & H3 & H4). by split_and!. Qed.

Lemma advance_inv dt v : 0 <= dt -> vg_inv v -> vg_inv (advance dt v).
Proof.
  intros Hdt Hinv. unfold advance.
  set (v1 := record_verdict _ _).
  assert (H1 : vg_inv v1) by (apply record_inv; done). clearbody v1.
  apply (vg_move_inv dt _ Hdt) in H1. set (v2 := vg_move dt v1) in *. clearbody v2.
  set (v3 := if negb (watchdog_deadline_ v2 =? 0) && _ then _ else v2).
  assert (H3 : vg_inv v3).
  { unfold v3. destruct (_ && _); [|done].
    eapply frame_inv; [|apply step_ok; [apply disarm_core, H1 | done | done]]. destruct H1.
    split; [by apply disarm_core | done]. }
  clearbody v3. destruct (_ && _); [|done].
  eapply frame_inv; [|apply step_ok; [|done|done]]; [exact H3 | apply H3].
Qed.

Lemma vg_do_inv op v : vg_inv v -> vg_inv (vg_do v op).
Proof.
  intros Hinv. destruct op as [|id c| | | | | | | |dt|]; simpl.
  - eapply frame_inv; [|apply (apply_init_ok CallInitClosed (set_position 0 v)); [apply Hinv|done]].
    destruct Hinv. split; [done | simpl; lia].
  - unfold issue. set (v1 := record_verdict _ v).
    assert (H1 : vg_inv v1) by (by apply record_inv). clearbody v1.
    eapply frame_inv; [exact H1|]. apply step_ok; [apply H1 | by destruct c | by destruct c].
  - eapply frame_inv; [exact Hinv|]. by apply step_ok; [apply Hinv|..].
  - eapply frame_inv; [exact Hinv|]. by apply step_ok; [apply Hinv|..].
  - eapply frame_inv; [exact Hinv|]. by apply step_ok; [apply Hinv|..].
  - unfold vg_clear_fault.
    destruct (step_ok FaultCleared v) as [C F]; [apply Hinv | done | done |].
    pose proof (frame_inv _ _ Hinv (conj C F)) as H1.
    case_match; [|done]. eapply frame_inv; [exact H1|]. by apply resolve_ok.
  - eapply frame_inv; [exact Hinv|]. apply reboot_core, Hinv.
  - destruct (beam_step_ok true v) as [C (F1 & F2 & F3 & F4)]; [apply Hinv|].
    split; [exact C|]. unfold trip_beam. rewrite F3, F1. apply Hinv.
  - destruct (beam_step_ok false v) as [C (F1 & F2 & F3 & F4)]; [apply Hinv|].
    split; [exact C|]. unfold clear_beam. rewrite F3, F1. apply Hinv.
  - apply advance_inv; [apply u32_range | done].
  - done.
Qed.

Lemma vg_run_inv c ops : 0 <= travel_ms c -> vg_inv (vg_run c ops).
Proof.
  intros Hc. unfold vg_run. assert (H : vg_inv (VirtualGate_new c)) by (by apply vg_new_inv).
  revert H. generalize (VirtualGate_new c). induction ops as [|op ops IH]; intros v Hv; [done|].
  simpl. apply IH. by apply vg_do_inv.
Qed.

(** The simulated gate is physically consistent.  After any history of
    commands, beam edges, reboots and time steps, the motor runs exactly as
    the state says (so never both ways), the position stays between the two
    limits, the machine's beam latch is the beam, the gate is not closing
    over an obstacle, and an armed watchdog belongs to a moving gate. *)
Theorem virtual_gate_consistent c ops (Hc : 0 <= travel_ms c) :
  let v := vg_run c ops in
  motor_of_relays (motor_open_ v) (motor_close_ v) = Some (motor_of (state_ (machine_ v))) /\
  0 <= position_ms_ v <= travel_ms (vg_cfg v) /\
  beam_clear_ (machine_ v) = beam_clear v /\
  (beam_blocked_ v = true -> state_ (machine_ v) <> Closing) /\
  (watchdog_deadline_ v <> 0 -> moving (state_ (machine_ v)) = true).
Proof.
  intros v. destruct (vg_run_inv c ops Hc) as [((_ & Hcl) & Hm & Hb & Hw) Hp].
  split_and!; try done; [apply Hp | apply Hp |].
  intros Hbl Hst. specialize (Hcl Hst). fold v in Hcl, Hb. rewrite Hb, Hbl in Hcl. done.
Qed.

Lemma virtual_gate_consistent_witness :
  let v := vg_run VgConfig_default
    [VgBoot; VgIssue "1" CmdOpen; VgAdvance 5000; VgStop; VgClose; VgAdvance 100; VgTrip] in
  motor_of_relays (motor_open_ v) (motor_close_ v) = Some (motor_of (state_ (machine_ v))).
Proof.
  apply (virtual_gate_consistent VgConfig_default
    [VgBoot; VgIssue "1" CmdOpen; VgAdvance 5000; VgStop; VgClose; VgAdvance 100; VgTrip]).
  simpl. lia.
Defined.

(** ** A command carried out *)

Lemma vg_move_short d v :
  motor_open_ v = true -> position_ms_ v + d < travel_ms (vg_cfg v) ->
  vg_move d v = set_position (position_ms_ v + d) v.
Proof.
  intros Hm Hp. unfold vg_move. rewrite Hm.
  change (position_ms_ (set_position (position_ms_ v + d) v)) with (position_ms_ v + d).
  change (vg_cfg (set_position (position_ms_ v + d) v)) with (vg_cfg v).
  by destruct (Z.leb_spec (travel_ms (vg_cfg v)) (position_ms_ v + d)); [lia|].
Qed.

Lemma vg_move_arrive d v :
  motor_open_ v = true -> travel_ms (vg_cfg v) <= position_ms_ v + d ->
  vg_move d v = step_locked LimitOpenHit (set_position (travel_ms (vg_cfg v)) v).
Proof.
  intros Hm Hp. unfold vg_move. rewrite Hm.
  change (position_ms_ (set_position (position_ms_ v + d) v)) with (position_ms_ v + d).
  change (vg_cfg (set_position (position_ms_ v + d) v)) with (vg_cfg v).
  by destruct (Z.leb_spec (travel_ms (vg_cfg v)) (position_ms_ v + d)); [|lia].
Qed.

(** Evaluates the effects of a known report on a gate given by its members. *)
Ltac vg_eval :=
  unfold set_machine, on_gate_event, resolve;
  cbn [foldl vg_action set_motors orb set_deadlines vg_cfg machine_ vg_tracker now_ms_
    position_ms_ motor_open_ motor_close_ beam_blocked_ watchdog_deadline_
    autoclose_deadline_ acks_ armed_ terminal_ok_ id_ deadline_ms_ negb andb moving];
  done.

(** An accepted open command on a closed gate. *)
Lemma command_open_starts c cfg b id dl now p mo mc bb w a acks :
  step_locked CommandOpen
    (mkVG c (mkSM cfg Closed ReasonNone b) (mkTracker id Open dl true) now p mo mc bb w a acks)
  = mkVG c (mkSM cfg Opening ReasonNone b) (mkTracker id Open dl true) now p true false bb
      (u64 (now + vg_motor_timeout_ms c)) 0 acks.
Proof.
  unfold step_locked. cbn [machine_].
  set (o := (handle (mkSM cfg Closed ReasonNone b) CommandOpen).2).
  replace (handle (mkSM cfg Closed ReasonNone b) CommandOpen)
    with (mkSM cfg Opening ReasonNone b, o) by reflexivity.
  unfold apply. cbn [fst snd]. set (v := mkVG _ _ _ _ _ _ _ _ _ _ _).
  assert (E : vg_effects o (set_machine (mkSM cfg Opening ReasonNone b) v) =
    mkVG c (mkSM cfg Opening ReasonNone b) (mkTracker id Open dl true) now p true false bb
      (u64 (now + vg_motor_timeout_ms c)) 0 acks).
  { unfold vg_effects.
    change (emitted o) with [DriveMotorOpen; SetLedOpening; EmitTelemetryStateChanged].
    change (transitioned o) with true. change (new_state o) with Opening.
    change (out_reason o) with ReasonNone. unfold v. vg_eval. }
  cbn [apply_locked]. rewrite E. cbn [vg_cfg].
  change (bool_decide (new_state o = StoppedClose)) with false.
  change (transitioned o) with true. by rewrite andb_false_r.
Qed.

(** The open limit, reached on behalf of a tracked command. *)
Lemma limit_open_completes c cfg b id dl now p bb w a acks :
  step_locked LimitOpenHit
    (mkVG c (mkSM cfg Opening ReasonNone b) (mkTracker id Open dl true) now p true false bb
       w a acks)
  = mkVG c (mkSM cfg Open ReasonNone b) (mkTracker id Open dl false) now p false false bb
      0 (if 0 <? vg_auto_close_ms c then u64 (now + vg_auto_close_ms c) else 0)
      (acks ++ [mkVgAck id true ""]).
Proof.
  unfold step_locked. cbn [machine_].
  set (o := (handle (mkSM cfg Opening ReasonNone b) LimitOpenHit).2).
  replace (handle (mkSM cfg Opening ReasonNone b) LimitOpenHit)
    with (mkSM cfg Open ReasonNone b, o) by reflexivity.
  unfold apply. cbn [fst snd]. set (v := mkVG _ _ _ _ _ _ _ _ _ _ _).
  assert (E : vg_effects o (set_machine (mkSM cfg Open ReasonNone b) v) =
    mkVG c (mkSM cfg Open ReasonNone b) (mkTracker id Open dl false) now p false false bb
      0 (if 0 <? vg_auto_close_ms c then u64 (now + vg_auto_close_ms c) else 0)
      (acks ++ [mkVgAck id true ""])).
  { unfold vg_effects. change (emitted o) with [StopMotor; SetLedOpen; EmitTelemetryStateChanged].
    change (transitioned o) with true. change (new_state o) with Open.
    change (out_reason o) with ReasonNone. unfold v. vg_eval. }
  cbn [apply_locked]. rewrite E. cbn [vg_cfg].
  change (bool_decide (new_state o = StoppedClose)) with false.
  change (transitioned o) with true. by rewrite andb_false_r.
Qed.

Section opening.
Variables (c : VgConfig) (cfg : Config) (b bb : bool) (id : string) (t0 : Z) (acks : list Ack).
Hypothesis Hdl : 0 <= vg_command_deadline_ms c < 2 ^ 31.

(** A gate that is opening on behalf of a tracked command issued at [t0]. *)
Definition opening_at (now p : Z) : VirtualGate :=
  mkVG c (mkSM cfg Opening ReasonNone b)
    (mkTracker id Open (u32 (t0 + vg_command_deadline_ms c)) true)
    now p true false bb (t0 + vg_motor_timeout_ms c) 0 acks.

(** Before the deadline a tick leaves the command pending. *)
Lemma tick_pending now t :
  t0 <= now -> now - t0 < vg_command_deadline_ms c ->
  armed_ t = true -> deadline_ms_ t = u32 (t0 + vg_command_deadline_ms c) ->
  CommandTracker.on_tick t (u32 now) = (t, Verdict_none).
Proof.
  intros Hn Hd Ha Hdt. unfold CommandTracker.on_tick. rewrite Ha, Hdt. simpl.
  assert (Hw : i32 (u32 (u32 now - u32 (t0 + vg_command_deadline_ms c)))
               = now - (t0 + vg_command_deadline_ms c)).
  { rewrite <- (i32_sub_wrapped now (t0 + vg_command_deadline_ms c)) by lia.
    unfold i32, u32. by rewrite Zmod_mod. }
  rewrite Hw. by destruct (Z.ltb_spec (now - (t0 + vg_command_deadline_ms c)) 0); [|lia].
Qed.

Lemma advance_opening now p d :
  0 <= t0 <= now -> 0 <= d -> now + d < 2 ^ 64 -> p + d < travel_ms c ->
  now + d - t0 < vg_motor_timeout_ms c -> now + d - t0 < vg_command_deadline_ms c ->
  advance d (opening_at now p) = opening_at (now + d) (p + d).
Proof.
  intros Hn Hd H64 Htr Hwd Hcd. unfold advance. cbn [now_ms_ opening_at].
  rewrite u64_small by lia. cbn [vg_tracker set_now opening_at now_ms_].
  rewrite tick_pending by (done || lia). cbn [record_verdict set_vg_tracker v_fire Verdict_none].
  change (set_vg_tracker _ _ _) with (opening_at (now + d) p).
  rewrite vg_move_short by (done || exact Htr).
  change (set_position _ _) with (opening_at (now + d) (p + d)).
  cbn [watchdog_deadline_ autoclose_deadline_ now_ms_ opening_at].
  destruct (Z.leb_spec (t0 + vg_motor_timeout_ms c) (now + d)); [lia|].
  by rewrite andb_false_r.
Qed.

Lemma advance_many ds now p :
  0 <= t0 <= now -> Forall (fun d => 0 <= d) ds ->
  let s := foldr Z.add 0 ds in
  now + s < 2 ^ 64 -> p + s < travel_ms c ->
  now + s - t0 < vg_motor_timeout_ms c -> now + s - t0 < vg_command_deadline_ms c ->
  foldl (fun v d => advance d v) (opening_at now p) ds = opening_at (now + s) (p + s).
Proof.
  intros Hn Hds. revert now p Hn. induction Hds as [|d ds Hd Hds IH]; intros now p Hn; simpl.
  { intros _ _ _ _. by rewrite !Z.add_0_r. }
  intros H64 Htr Hwd Hcd.
  assert (Hs : 0 <= foldr Z.add 0 ds) by (clear -Hds; induction Hds; simpl; lia).
  rewrite advance_opening, IH by lia. f_equal; lia.
Qed.

Lemma advance_arrives now p d :
  0 <= t0 <= now -> 0 <= d -> now + d < 2 ^ 64 -> travel_ms c <= p + d ->
  now + d - t0 < vg_command_deadline_ms c ->
  0 <= vg_auto_close_ms c -> now + d + vg_auto_close_ms c < 2 ^ 64 ->
  let v := advance d (opening_at now p) in
  state_ (machine_ v) = Open /\ position_ms_ v = travel_ms c /\
  motor_open_ v = false /\ motor_close_ v = false /\
  acks_ v = acks ++ [mkVgAck id true ""].
Proof.
  intros Hn Hd H64 Htr Hcd Hac1 Hac2. unfold advance. cbn [now_ms_ opening_at].
  rewrite u64_small by lia. cbn [vg_tracker set_now opening_at now_ms_].
  rewrite tick_pending by (done || lia). cbn [record_verdict set_vg_tracker v_fire Verdict_none].
  change (set_vg_tracker _ _ _) with (opening_at (now + d) p).
  rewrite vg_move_arrive by (done || exact Htr).
  unfold set_position. cbn [vg_cfg machine_ vg_tracker now_ms_ motor_open_ motor_close_
    beam_blocked_ watchdog_deadline_ autoclose_deadline_ acks_ opening_at].
  rewrite limit_open_completes.
  cbn [watchdog_deadline_ autoclose_deadline_ now_ms_ Z.eqb negb andb].
  destruct (Z.ltb_spec 0 (vg_auto_close_ms c)); [|done].
  rewrite u64_small by lia.
  destruct (Z.leb_spec (now + d + vg_auto_close_ms c) (now + d)); [lia|].
  by rewrite andb_false_r.
Qed.
End opening.

(** An undisturbed open command is carried out and answered.  On a
    closed gate with no command in flight, issuing an open command and then
    stepping time, in steps of any size, until the travel time is over (and
    before the watchdog and the command deadline) ends with the gate Open at
    the open limit, the motor off, and exactly one new ack: success for that
    command. *)
Theorem open_command_completes (v : VirtualGate) (id : string) (ds : list Z) (d : Z)
    (Hsm : sm_inv (machine_ v)) (Hst : state_ (machine_ v) = Closed) (Hpos : position_ms_ v = 0)
    (Hidle : armed_ (vg_tracker v) = false)
    (Hds : Forall (fun d => 0 <= d) (ds ++ [d]))
    (Htravel : foldr Z.add 0 ds < travel_ms (vg_cfg v) <= foldr Z.add 0 ds + d)
    (Hwd : foldr Z.add 0 ds + d < vg_motor_timeout_ms (vg_cfg v) < 2 ^ 32)
    (Hdl : foldr Z.add 0 ds + d < vg_command_deadline_ms (vg_cfg v) < 2 ^ 31)
    (Hac : 0 <= vg_auto_close_ms (vg_cfg v) < 2 ^ 32)
    (Hnow : 0 <= now_ms_ v < 2 ^ 63) :
  let v' := foldl (fun v d => advance d v) (issue id CmdOpen v) (ds ++ [d]) in
  state_ (machine_ v') = Open /\ position_ms_ v' = travel_ms (vg_cfg v) /\
  motor_open_ v' = false /\ motor_close_ v' = false /\
  acks_ v' = acks_ v ++ [mkVgAck (cstr_copy kMaxCommandId id) true ""].
Proof.
  intros v'. subst v'. apply Forall_app in Hds as [Hds [Hd _]%Forall_cons_1].
  assert (Hs : 0 <= foldr Z.add 0 ds) by (clear -Hds; induction Hds; simpl; lia).
  destruct v as [c [cfg s r b] [tid tk tdl ta] now p mo mc bb w a acks].
  cbn [machine_ state_ vg_tracker armed_ position_ms_ vg_cfg now_ms_ acks_] in *. subst s p ta.
  assert (r = ReasonNone) as -> by (by apply Hsm).
  assert (Hi : issue id CmdOpen
    (mkVG c (mkSM cfg Closed ReasonNone b) (mkTracker tid tk tdl false) now 0 mo mc bb w a acks)
    = opening_at c cfg b bb (cstr_copy kMaxCommandId id) now acks now 0).
  { unfold issue, arm, record_verdict, set_vg_tracker.
    cbn [armed_ vg_tracker now_ms_ vg_cfg machine_ position_ms_ motor_open_ motor_close_
         beam_blocked_ watchdog_deadline_ autoclose_deadline_ acks_ v_fire Verdict_none].
    rewrite command_open_starts, u64_small by lia. unfold opening_at. do 2 f_equal.
    unfold u32. by rewrite Zplus_mod_idemp_l. }
  rewrite Hi, foldl_app, advance_many by (done || lia). cbn [foldl].
  apply advance_arrives; lia.
Qed.

Lemma open_command_completes_witness :
  let v := vg_run VgConfig_default [VgBoot] in
  acks_ (foldl (fun v d => advance d v) (issue "42" CmdOpen v) [5000; 6999; 50])
  = [mkVgAck "42" true ""].
Proof.
  intros v. change [5000; 6999; 50] with ([5000; 6999] ++ [50]).
  refine (proj2 (proj2 (proj2 (proj2 (open_command_completes v "42" [5000; 6999] 50
            _ eq_refl eq_refl eq_refl _ _ _ _ _ _))))).
  - split; [done | discriminate].
  - repeat constructor; lia.
  - change (vg_cfg v) with VgConfig_default. cbn. lia.
  - change (vg_cfg v) with VgConfig_default. cbn. lia.
  - change (vg_cfg v) with VgConfig_default. cbn. lia.
  - change (vg_cfg v) with VgConfig_default. cbn. lia.
  - change (now_ms_ v) with 0. lia.
Defined.

(** ** The simulator mirrors the firmware *)

Section mirror.
Context {Q T : Type} `{!RtosQueue Event Q} `{!RtosQueueLaws Event Q}
        `{!EspTimer T} `{!EspTimerLaws T}.
Implicit Types g : GateController Q T.

Definition deadline_armed (d : Z) : bool := negb (d =? 0).

(** The controller and the virtual gate show the same gate: same machine,
    same motor outputs, same timers running, same policies. *)
Definition mirrors g (v : VirtualGate) : Prop :=
  gc_sm g = machine_ v /\
  relay_state (relay_open g) = motor_open_ v /\ relay_state (relay_close g) = motor_close_ v /\
  timer_is_active (watchdog_timer g) = deadline_armed (watchdog_deadline_ v) /\
  timer_is_active (autoclose_timer g) = deadline_armed (autoclose_deadline_ v) /\
  reverse_on_beam (gc_cfg g) = vg_reverse_on_beam (vg_cfg v) /\
  motor_timeout_ms (gcfg_sm (gc_cfg g)) = vg_motor_timeout_ms (vg_cfg v) /\
  auto_close_ms (gcfg_sm (gc_cfg g)) = vg_auto_close_ms (vg_cfg v).

(** The clock is far from its wrap and the watchdog is configured. *)
Definition vg_sane (v : VirtualGate) : Prop :=
  0 <= now_ms_ v < 2 ^ 63 /\ 0 < vg_motor_timeout_ms (vg_cfg v) < 2 ^ 32 /\
  0 <= vg_auto_close_ms (vg_cfg v) < 2 ^ 32.

(** [apply_locked] without the reversal. *)
Definition vg_settle (out : Outputs) (v : VirtualGate) : VirtualGate :=
  let v := vg_effects out v in
  if negb (transitioned out) && bool_decide (new_state out = Open)
     && bool_decide (out_reason out = SafetyBeamObstacle) && (0 <? vg_auto_close_ms (vg_cfg v))
  then set_deadlines (watchdog_deadline_ v) (u64 (now_ms_ v + vg_auto_close_ms (vg_cfg v))) v
  else v.

Definition reverses (c : VgConfig) (out : Outputs) : bool :=
  vg_reverse_on_beam c && transitioned out && bool_decide (new_state out = StoppedClose)
  && bool_decide (out_reason out = SafetyBeamObstacle).

Lemma apply_locked_unfold n out v :
  vg_cfg (vg_effects out v) = vg_cfg v ->
  apply_locked (S n) out v =
  if reverses (vg_cfg v) out
  then apply_locked n (handle (machine_ (vg_settle out v)) CommandOpen).2
         (set_machine (handle (machine_ (vg_settle out v)) CommandOpen).1 (vg_settle out v))
  else vg_settle out v.
Proof.
  intros Hc. cbn [apply_locked]. unfold reverses, vg_settle. rewrite !Hc.
  destruct (transitioned out) eqn:Ht; cbn [negb andb].
  - destruct (_ && _); [|done]. by destruct (handle _ CommandOpen).
  - by rewrite !andb_false_r.
Qed.

Lemma u64_armed now d : 0 <= now < 2 ^ 63 -> 0 < d < 2 ^ 32 -> deadline_armed (u64 (now + d)) = true.
Proof.
  intros. rewrite u64_small by lia. unfold deadline_armed.
  by destruct (Z.eqb_spec (now + d) 0); [lia|].
Qed.

Lemma vg_effects_timers out v mt :
  vg_motor v = Some mt -> vg_sane v ->
  deadline_armed (watchdog_deadline_ (vg_effects out v)) =
    (if transitioned out then moving (new_state out)
     else deadline_armed (watchdog_deadline_ v)) /\
  deadline_armed (autoclose_deadline_ (vg_effects out v)) =
    (if transitioned out then bool_decide (new_state out = Open) && (0 <? vg_auto_close_ms (vg_cfg v))
     else deadline_armed (autoclose_deadline_ v)).
Proof.
  intros Hm (Hn & Hto & Hac). unfold vg_effects.
  destruct (vg_actions_motor (emitted out) v mt Hm) as (A1 & (F1 & F2 & _) & A3 & A4 & A5 & A6 & A7).
  set (v1 := foldl vg_action v (emitted out)) in *. clearbody v1.
  set (v2 := if transitioned out then _ else v1).
  assert (H : deadline_armed (watchdog_deadline_ v2) =
    (if transitioned out then moving (new_state out)
     else deadline_armed (watchdog_deadline_ v)) /\
    deadline_armed (autoclose_deadline_ v2) =
    (if transitioned out then bool_decide (new_state out = Open) && (0 <? vg_auto_close_ms (vg_cfg v))
     else deadline_armed (autoclose_deadline_ v))).
  { unfold v2. destruct (transitioned out); [|by rewrite A6, A7].
    cbn [watchdog_deadline_ autoclose_deadline_ set_deadlines]. rewrite F1, F2. split.
    - destruct (moving (new_state out)); [by apply u64_armed | done].
    - destruct (bool_decide (new_state out = Open)); [|done]. cbn [andb].
      destruct (Z.ltb_spec 0 (vg_auto_close_ms (vg_cfg v))); [apply u64_armed; lia | done]. }
  clearbody v2. destruct (transitioned out || _); [|done].
  pose proof (record_verdict_frame (on_gate_event (vg_tracker v2) (new_state out)
                (out_reason out) (transitioned out)) v2) as (_ & _ & _ & R4 & R5).
  by rewrite R4, R5.
Qed.

(** One event, one pump iteration. *)
Lemma mirror_one g g' ev l v :
  gc_inv g -> gc_inv g' -> phase g = Running -> queue_items (gc_queue g) = ev :: l ->
  ev <> FaultCleared -> pump g = Some g' -> gc_sm g' = (handle (gc_sm g) ev).1 ->
  mirrors g v -> vg_sane v ->
  apply_pre (handle (machine_ v) ev).2 (set_machine (handle (machine_ v) ev).1 v) ->
  let v' := vg_settle (handle (machine_ v) ev).2 (set_machine (handle (machine_ v) ev).1 v) in
  mirrors g' v' /\ vg_core v' /\ vg_frame v v'.
Proof.
  intros Hinv Hinv' Hph Hi Hne Hpump Hsm' (M1 & M2 & M3 & M4 & M5 & M6 & M7 & M8) Hsane Hpre v'.
  destruct (pump_front_timers g g' ev l Hph Hi Hne Hpump) as (C1 & C2 & C3).
  rewrite M1 in Hsm', C2, C3. set (out := (handle (machine_ v) ev).2) in *.
  set (v0 := set_machine (handle (machine_ v) ev).1 v) in *.
  destruct (vg_effects_ok out v0 Hpre) as (Hcore & Hfr & Hmach).
  destruct Hpre as (_ & _ & _ & (mt & Hmt & _) & _).
  destruct (vg_effects_timers out v0 mt Hmt Hsane) as [W A].
  assert (Hv' : vg_core v' /\ vg_frame v v' /\ machine_ v' = machine_ (vg_effects out v0) /\
    watchdog_deadline_ v' = watchdog_deadline_ (vg_effects out v0) /\
    deadline_armed (autoclose_deadline_ v') =
      (if transitioned out
       then bool_decide (new_state out = Open) && (0 <? vg_auto_close_ms (vg_cfg v))
       else close_refused (gc_cfg g) out || deadline_armed (autoclose_deadline_ v))).
  { unfold v', vg_settle, close_refused. rewrite M8. destruct Hfr as (F1 & F2 & F3 & F4).
    rewrite F1, F2. change (vg_cfg v0) with (vg_cfg v) in *.
    destruct (transitioned out); cbn [negb andb]; [by split_and!|].
    destruct (_ && _ && _) eqn:E; [|by split_and!].
    split_and!; try done. cbn [set_deadlines autoclose_deadline_ orb].
    destruct Hsane as (S1 & S2 & S3).
    apply andb_prop in E as [_ E%Z.ltb_lt]. apply u64_armed; [exact S1 | lia]. }
  destruct Hv' as (Hc' & Hf' & Hm' & Hw' & Ha'). split; [|done].
  destruct Hinv' as (_ & Hr & _). unfold relays_ok in Hr. rewrite Hsm' in Hr.
  destruct Hc' as (_ & Hvm & _). rewrite Hm', Hmach in Hvm. unfold vg_motor in Hvm.
  cbn [machine_ set_machine v0] in Hvm. rewrite <- Hr in Hvm.
  destruct Hf' as (G1 & _). unfold mirrors. rewrite C1, C2, C3, G1, Hm', Hmach, Hw', W, Ha', M4, M5, M7, M8.
  assert (Hmot : relay_state (relay_open g') = motor_open_ v' /\
                 relay_state (relay_close g') = motor_close_ v').
  { destruct (relay_state (relay_open g')), (relay_state (relay_close g')),
      (motor_open_ v'), (motor_close_ v'); simpl in Hvm; by simplify_eq. }
  destruct Hsane as (_ & S2 & _).
  split_and!; try done; try apply Hmot.
  destruct (transitioned out); [|done].
  destruct (Z.ltb_spec 0 (vg_motor_timeout_ms (vg_cfg v))); [|lia]. by rewrite andb_true_r.
Qed.

(** [n] iterations of the pump. *)
Fixpoint pumps (n : nat) g : option (GateController Q T) :=
  match n with
  | O => Some g
  | S n => match pump g with Some g' => pumps n g' | None => None end
  end.

(** The simulator's entry point for an event: a beam edge moves the beam. *)
Definition sim_event (ev : Event) (v : VirtualGate) : VirtualGate :=
  match ev with
  | SafetyBeamTripped => set_beam_blocked true v
  | SafetyBeamCleared => set_beam_blocked false v
  | _ => v
  end.

Lemma sim_event_pre ev v :
  vg_core v ->
  apply_pre (handle (machine_ v) ev).2 (set_machine (handle (machine_ v) ev).1 (sim_event ev v)).
Proof.
  intros (Hsm & Hm & Hb & Hw). unfold apply_pre.
  assert (Hv : machine_ (sim_event ev v) = machine_ v /\ vg_motor (sim_event ev v) = vg_motor v /\
               watchdog_deadline_ (sim_event ev v) = watchdog_deadline_ v) by (by destruct ev).
  destruct Hv as (E1 & E2 & E3). cbn [machine_ set_machine beam_blocked_ watchdog_deadline_].
  rewrite E3. split_and!.
  - by apply handle_inv.
  - rewrite handle_latch, Hb. by destruct ev.
  - apply handle_new_state.
  - exists (motor_of (state_ (machine_ v))). split; [|apply handle_motor].
    unfold vg_motor in *. cbn [motor_open_ motor_close_ set_machine]. congruence.
  - intros Ht Hne. destruct (handle_untransitioned _ ev Ht) as [-> _]. auto.
Qed.

End mirror.

(** A closing gate on both sides, with the beam break queued. *)
Definition closing_sim : VirtualGate :=
  vg_run VgConfig_default [VgBoot; VgOpen; VgAdvance 12000; VgClose].

