(* ===== verification/AllowlistStore.v ===== *)
(** The site-scoped allowlist and blocklist (src/server/auth:
    allowlist_store.hpp and .cpp).  The SQL statements are translated to
    operations on tables; how SQLite ends each statement is an outcome given
    by an oracle, so that the error paths and the transactions are part of
    the model.  Preparing a statement, whose text is constant, is taken to
    succeed. *)

From S2P Require Import Prelude.
From Stdlib Require Import Ascii Sorted.
Local Open Scope Z_scope.

(** ** Messages (gate_service.proto), with timestamps at second resolution *)

Record TimeWindow := mkWindow {
  start_minute_of_day : Z; end_minute_of_day : Z; days_of_week_mask : Z;
}.

Record Allowlistentry := mkEntry {
  plate_text : string; owner_name : string; owner_unit : string;
  allowed_classes : list Z;
  valid_from : option Z; valid_until : option Z;
  time_windows : list TimeWindow;
  notes : string; added_by : string; added_ts : option Z;
}.

#[export] Instance TimeWindow_eq_dec : EqDecision TimeWindow.
Proof. solve_decision. Defined.
#[export] Instance Allowlistentry_eq_dec : EqDecision Allowlistentry.
Proof. solve_decision. Defined.

(** ** Free helpers *)

Definition ch (c : Ascii.ascii) : Z := Z.of_N (Ascii.N_of_ascii c).

(** The characters [normalize_plate] drops, and the case fold of the rest. *)
Definition dropped_char (c : Ascii.ascii) : bool :=
  (ch c =? 32) || (ch c =? 9) || (ch c =? 45) || (ch c =? 95).

Definition upper (c : Ascii.ascii) : Ascii.ascii :=
  if (97 <=? ch c) && (ch c <=? 122) then Ascii.ascii_of_N (Z.to_N (ch c - 32)) else c.

(** [normalize_plate]. *)
Fixpoint normalize_plate (raw : string) : string :=
  match raw with
  | EmptyString => EmptyString
  | String c raw =>
      if dropped_char c then normalize_plate raw
      else String (upper c) (normalize_plate raw)
  end.

(** [window_contains]. *)
Definition window_contains (w : TimeWindow) (minute_of_day iso_dow_bit : Z) : bool :=
  if Z.land (days_of_week_mask w) (Z.shiftl 1 iso_dow_bit) =? 0 then false
  else
    let start := i32 (start_minute_of_day w) in
    let end_ := i32 (end_minute_of_day w) in
    if start <=? end_ then (start <=? minute_of_day) && (minute_of_day <? end_)
    else (start <=? minute_of_day) || (minute_of_day <? end_).

(** [class_allowed]. *)
Definition class_allowed (e : Allowlistentry) (cls : Z) : bool :=
  match allowed_classes e with
  | [] => true
  | cs => existsb (Z.eqb cls) cs
  end.

(** The fields of [std::tm] that are read. *)
Record Tm := mkTm { tm_hour : Z; tm_min : Z; tm_wday : Z }.

(** [is_allowed_now]. *)
Definition is_allowed_now (e : Allowlistentry) (cls : Z) (now_unix : Z) (now_local : Tm) : bool :=
  let too_early :=
    match valid_from e with Some s => (0 <? s) && (now_unix <? s) | None => false end in
  let too_late :=
    match valid_until e with Some s => (0 <? s) && (s <=? now_unix) | None => false end in
  if too_early then false
  else if too_late then false
  else if negb (class_allowed e cls) then false
  else match time_windows e with
       | [] => true
       | ws =>
           let minute := tm_hour now_local * 60 + tm_min now_local in
           let iso_bit := (tm_wday now_local + 6) mod 7 in
           existsb (fun w => window_contains w minute iso_bit) ws
       end.

(** ** Tables *)

Record AllowRow := mkRow {
  r_owner_name : string; r_owner_unit : string; r_valid_from : Z; r_valid_until : Z;
  r_notes : string; r_added_by : string; r_added_ts : Z;
}.

Notation Key := (string * string)%type.

(** The tables of [kSchemaSql].  [t_windows] is in rowid order. *)
Record Db := mkDb {
  t_allow : gmap Key AllowRow;
  t_classes : gset (Key * Z);
  t_windows : list (Key * (Z * Z * Z));
  t_block : gmap Key (string * Z);
  t_version : list Z;
}.

Definition Db_empty : Db := mkDb ∅ ∅ [] ∅ [].

Definition set_allow (t : gmap Key AllowRow) (db : Db) : Db :=
  mkDb t (t_classes db) (t_windows db) (t_block db) (t_version db).
Definition set_classes (t : gset (Key * Z)) (db : Db) : Db :=
  mkDb (t_allow db) t (t_windows db) (t_block db) (t_version db).
Definition set_windows (t : list (Key * (Z * Z * Z))) (db : Db) : Db :=
  mkDb (t_allow db) (t_classes db) t (t_block db) (t_version db).
Definition set_block (t : gmap Key (string * Z)) (db : Db) : Db :=
  mkDb (t_allow db) (t_classes db) (t_windows db) t (t_version db).
Definition set_version (l : list Z) (db : Db) : Db :=
  mkDb (t_allow db) (t_classes db) (t_windows db) (t_block db) l.

(** *** The statements *)

(** [INSERT .. ON CONFLICT DO UPDATE] on the main table. *)
Definition sql_upsert_main (k : Key) (r : AllowRow) (db : Db) : Db :=
  set_allow (<[k := r]> (t_allow db)) db.
Definition sql_del_classes (k : Key) (db : Db) : Db :=
  set_classes (base.filter (fun x => x.1 <> k) (t_classes db)) db.
(** [INSERT OR IGNORE]: the primary key makes the table a set. *)
Definition sql_ins_class (k : Key) (c : Z) (db : Db) : Db :=
  set_classes ({[ (k, c) ]} ∪ t_classes db) db.
Definition sql_del_windows (k : Key) (db : Db) : Db :=
  set_windows (base.filter (fun x => x.1 <> k) (t_windows db)) db.
Definition sql_ins_window (k : Key) (w : TimeWindow) (db : Db) : Db :=
  set_windows (t_windows db ++ [(k, (i32 (start_minute_of_day w), i32 (end_minute_of_day w),
                                     days_of_week_mask w))]) db.
(** [DELETE FROM allowlist], whose foreign keys cascade. *)
Definition sql_delete_allow (k : Key) (db : Db) : Db :=
  match t_allow db !! k with
  | None => db
  | Some _ => set_allow (delete k (t_allow db)) (sql_del_windows k (sql_del_classes k db))
  end.

(** [ORDER BY] an integer column; ties keep the table order. *)
Section sort.
Context {A : Type} (key : A -> Z).

Fixpoint insert_first (x : A) (l : list A) : list A :=
  match l with
  | [] => [x]
  | y :: l => if key y <? key x then y :: insert_first x l else x :: y :: l
  end.

Definition order_by (l : list A) : list A := foldr insert_first [] l.
End sort.

(** [WHERE site_id = ? AND plate_text = ?], in table order. *)
Fixpoint rows_of {A} (k : Key) (l : list (Key * A)) : list A :=
  match l with
  | [] => []
  | (k', a) :: l => if decide (k' = k) then a :: rows_of k l else rows_of k l
  end.

(** The SELECTs of the two detail tables. *)
Definition class_set (k : Key) (t : gset (Key * Z)) : gset Z :=
  set_map snd (base.filter (fun x : Key * Z => x.1 = k) t).

Definition select_classes (k : Key) (db : Db) : list Z :=
  order_by id (elements (class_set k (t_classes db))).

Definition select_windows (k : Key) (db : Db) : list TimeWindow :=
  map (fun '(s, e, m) => mkWindow (u32 s) (u32 e) (u32 m))
    (order_by (fun x => x.1.1) (rows_of k (t_windows db))).

(** ** Operations *)

(** [run_migrations] on an opened database, once the schema script ran:
    [inl] is the thrown message. *)
Definition kSchemaVersion : Z := 1.

Definition run_migrations (db : Db) : string + Db :=
  let current := match t_version db with v :: _ => v | [] => 0 end in
  if current =? kSchemaVersion then inr db
  else if kSchemaVersion <? current
  then inl "schema_version is newer than this binary supports"%string
  else inr (set_version [kSchemaVersion] db).

Record UpsertStats := mkStats { inserted : Z; updated : Z }.

(** *** Connections and transactions *)

(** A connection: the database file, and the tables a transaction sees while
    one is open. *)
Record Conn := mkConn { durable : Db; working : option Db }.

Definition Conn_new (db : Db) : Conn := mkConn db None.

(** What statements on the connection read. *)
Definition view (c : Conn) : Db := default (durable c) (working c).

(** A write goes to the open transaction, or is committed by itself. *)
Definition write (f : Db -> Db) (c : Conn) : Conn :=
  match working c with
  | Some w => mkConn (durable c) (Some (f w))
  | None => mkConn (f (durable c)) None
  end.

(** How SQLite ends a statement: it may fail, and some failures (a full
    disk, an I/O error, no memory) roll the open transaction back. *)
Inductive Outcome := Done | Failed | Aborted.

(** The outcome of the n-th statement of a call. *)
Record Outcomes := mkOutcomes { write_outcome : nat -> Outcome; read_outcome : nat -> Outcome }.

Definition all_done : Outcomes := mkOutcomes (fun _ => Done) (fun _ => Done).

(** A call in progress: the connection and the statements executed so far;
    [inl] is a thrown exception. *)
Definition TX (A : Type) : Type := Conn * nat -> (Conn * nat) * (string + A).

Definition tx_ret {A} (a : A) : TX A := fun s => (s, inr a).
Definition tx_throw {A} (e : string) : TX A := fun s => (s, inl e).
Definition tx_bind {A B} (m : TX A) (k : A -> TX B) : TX B := fun s =>
  match m s with
  | (s, inl e) => (s, inl e)
  | (s, inr a) => k a s
  end.

Notation "'let!' x := m 'in' k" := (tx_bind m (fun x => k))
  (at level 200, x name, m at level 100, k at level 200) : gate_scope.
Local Open Scope gate_scope.

Definition abort (c : Conn) : Conn := mkConn (durable c) None.

Section statements.
Context (o : Outcomes).

(** [sqlite3_step] of a write that must end with [SQLITE_DONE]; the result
    is what [sqlite3_changes] reports. *)
Definition statement (what : string) (changes : Db -> Z) (f : Db -> Db) : TX Z := fun '(c, n) =>
  match write_outcome o n with
  | Done => ((write f c, S n), inr (changes (view c)))
  | Failed => ((c, S n), inl what)
  | Aborted => ((abort c, S n), inl what)
  end.

Definition run_stmt (what : string) (f : Db -> Db) : TX Z := statement what (fun _ => 0) f.

(** [sqlite3_step(..) == SQLITE_ROW]: an error counts as no row. *)
Definition probe (p : Db -> bool) : TX bool := fun '(c, n) =>
  match read_outcome o n with
  | Done => ((c, S n), inr (p (view c)))
  | Failed => ((c, S n), inr false)
  | Aborted => ((abort c, S n), inr false)
  end.

Definition exec_failed : string := "exec failed".

(** [exec(db, "BEGIN IMMEDIATE")], which an open transaction refuses. *)
Definition sql_begin : TX unit := fun '(c, n) =>
  match working c, write_outcome o n with
  | None, Done => ((mkConn (durable c) (Some (durable c)), S n), inr tt)
  | _, _ => ((c, S n), inl exec_failed)
  end.

(** [exec(db, "COMMIT")] and [exec(db, "ROLLBACK")], which need one. *)
Definition sql_commit : TX unit := fun '(c, n) =>
  match working c, write_outcome o n with
  | Some w, Done => ((mkConn w None, S n), inr tt)
  | Some _, Aborted => ((abort c, S n), inl exec_failed)
  | _, _ => ((c, S n), inl exec_failed)
  end.

Definition sql_rollback : TX unit := fun '(c, n) =>
  match working c, write_outcome o n with
  | Some _, Done => ((abort c, S n), inr tt)
  | Some _, Aborted => ((abort c, S n), inl exec_failed)
  | _, _ => ((c, S n), inl exec_failed)
  end.

(** [exec("BEGIN IMMEDIATE"); try { body; exec("COMMIT"); } catch (...) {
    exec("ROLLBACK"); throw; }]: a failing rollback replaces the exception. *)
Definition transaction {A} (body : TX A) : TX A :=
  let! _ := sql_begin in
  fun s =>
    match (let! a := body in let! _ := sql_commit in tx_ret a) s with
    | (s, inr a) => (s, inr a)
    | (s, inl e) => (let! _ := sql_rollback in tx_throw e) s
    end.

Fixpoint run_stmts (what : string) (fs : list (Db -> Db)) : TX unit :=
  match fs with
  | [] => tx_ret tt
  | f :: fs => let! _ := run_stmt what f in run_stmts what fs
  end.
End statements.

(** The call as a whole, from its first statement. *)
Definition call {A} (m : TX A) (c : Conn) : Conn * (string + A) :=
  let '((c', _), r) := m (c, 0%nat) in (c', r).

Definition row_of (e : Allowlistentry) : AllowRow :=
  mkRow (owner_name e) (owner_unit e) (default 0 (valid_from e)) (default 0 (valid_until e))
    (notes e) (added_by e) (default 0 (added_ts e)).

(** One iteration of the loop of [upsert]. *)
Definition upsert_entry (o : Outcomes) (site : string) (e : Allowlistentry)
    (stats : UpsertStats) : TX UpsertStats :=
  let plate := normalize_plate (plate_text e) in
  if String.eqb plate "" then tx_throw "upsert: plate_text is empty after normalization"
  else
    let k := (site, plate) in
    let! existed := probe o (fun db => bool_decide (is_Some (t_allow db !! k))) in
    let! _ := run_stmt o "upsert main" (sql_upsert_main k (row_of e)) in
    let! _ := run_stmt o "del classes" (sql_del_classes k) in
    let! _ := run_stmts o "ins class" (map (fun c => sql_ins_class k (i32 c)) (allowed_classes e)) in
    let! _ := run_stmt o "del windows" (sql_del_windows k) in
    let! _ := run_stmts o "ins window" (map (sql_ins_window k) (time_windows e)) in
    tx_ret (if (existed : bool) then mkStats (inserted stats) (u32 (updated stats + 1))
            else mkStats (u32 (inserted stats + 1)) (updated stats)).

Fixpoint upsert_loop (o : Outcomes) (site : string) (es : list Allowlistentry)
    (stats : UpsertStats) : TX UpsertStats :=
  match es with
  | [] => tx_ret stats
  | e :: es => let! stats := upsert_entry o site e stats in upsert_loop o site es stats
  end.

(** [AllowlistStore::upsert]. *)
Definition upsert (o : Outcomes) (site : string) (es : list Allowlistentry) (c : Conn)
    : Conn * (string + UpsertStats) :=
  call (transaction o (upsert_loop o site es (mkStats 0 0))) c.

(** The entry built from a row, without its detail tables. *)
Definition positive (z : Z) : option Z := if 0 <? z then Some z else None.

Definition entry_of_row (plate : string) (r : AllowRow) (cs : list Z) (ws : list TimeWindow)
    : Allowlistentry :=
  mkEntry plate (r_owner_name r) (r_owner_unit r) cs
    (positive (r_valid_from r)) (positive (r_valid_until r)) ws
    (r_notes r) (r_added_by r) (positive (r_added_ts r)).

(** How the SELECT statements of one call end: the main one may fail, and a
    [while (step == SQLITE_ROW)] loop may stop early on an error. *)
Record ReadOutcome := mkRead {
  main_ok : bool; classes_rows : option nat; windows_rows : option nat;
}.

Definition read_all : ReadOutcome := mkRead true None None.

Definition rows_read {A} (n : option nat) (l : list A) : list A :=
  match n with Some n => take n l | None => l end.

(** [AllowlistStore::lookup]. *)
Definition lookup (o : ReadOutcome) (site plate : string) (db : Db)
    : string + option Allowlistentry :=
  let k := (site, normalize_plate plate) in
  if negb (main_ok o) then inl "lookup"%string
  else match t_allow db !! k with
       | None => inr None
       | Some r =>
           inr (Some (entry_of_row k.2 r (rows_read (classes_rows o) (select_classes k db))
                        (rows_read (windows_rows o) (select_windows k db))))
       end.

(** [AllowlistStore::is_blocklisted]: any result but a row is "no". *)
Definition is_blocklisted (ok : bool) (site plate : string) (db : Db) : bool :=
  ok && bool_decide (is_Some (t_block db !! (site, normalize_plate plate))).

(** [AllowlistStore::blocklist_upsert] at time [now]. *)
Definition blocklist_upsert (o : Outcomes) (now : Z) (site plate reason : string) (c : Conn)
    : Conn * (string + Z) :=
  let p := normalize_plate plate in
  if String.eqb p ""
  then (c, inl "blocklist_upsert: plate_text is empty after normalization"%string)
  else call (let! _ := run_stmt o "blocklist_upsert"
                         (fun db => set_block (<[(site, p) := (reason, now)]> (t_block db)) db) in
             tx_ret 1) c.

(** [DELETE]s and the rows they change. *)
Definition block_hits (k : Key) (db : Db) : Z := if decide (is_Some (t_block db !! k)) then 1 else 0.
Definition allow_hits (k : Key) (db : Db) : Z := if decide (is_Some (t_allow db !! k)) then 1 else 0.

(** [AllowlistStore::blocklist_remove]: no transaction, each deletion is
    final even when a later one throws. *)
Fixpoint blocklist_remove_loop (o : Outcomes) (site : string) (plates : list string) (removed : Z)
    : TX Z :=
  match plates with
  | [] => tx_ret removed
  | p :: plates =>
      let k := (site, normalize_plate p) in
      let! hits := statement o "blocklist_remove" (block_hits k)
                     (fun db => set_block (delete k (t_block db)) db) in
      blocklist_remove_loop o site plates (removed + hits)
  end.

Definition blocklist_remove (o : Outcomes) (site : string) (plates : list string) (c : Conn)
    : Conn * (string + Z) :=
  call (blocklist_remove_loop o site plates 0) c.

Fixpoint remove_loop (o : Outcomes) (site : string) (plates : list string) (removed : Z) : TX Z :=
  match plates with
  | [] => tx_ret removed
  | p :: plates =>
      let k := (site, normalize_plate p) in
      let! hits := statement o "remove" (allow_hits k) (sql_delete_allow k) in
      remove_loop o site plates (removed + hits)
  end.

(** [AllowlistStore::remove]. *)
Definition remove (o : Outcomes) (site : string) (plates : list string) (c : Conn)
    : Conn * (string + Z) :=
  call (transaction o (remove_loop o site plates 0)) c.

(** *** Paging *)

Record Page := mkPage { entries : list Allowlistentry; next_token : string }.

(** The plates of a site in the binary collation. *)
Fixpoint insert_plate (p : string) (l : list string) : list string :=
  match l with
  | [] => [p]
  | q :: l => if String.ltb q p then q :: insert_plate p l else p :: q :: l
  end.

Definition site_plates (site : string) (db : Db) : list string :=
  foldr insert_plate []
    (omap (fun kr : Key * AllowRow => if decide (kr.1.1 = site) then Some kr.1.2 else None)
       (map_to_list (t_allow db))).

(** [SELECT .. WHERE plate_text > ? ORDER BY plate_text LIMIT ?]. *)
Definition select_page (site token : string) (n : nat) (db : Db) : list string :=
  take n (base.filter (fun p => String.ltb token p = true) (site_plates site db)).

(** The rows fetched before hydration. *)
Definition bare_entry (site : string) (db : Db) (p : string) : Allowlistentry :=
  match t_allow db !! (site, p) with
  | Some r => entry_of_row p r [] []
  | None => entry_of_row p (mkRow "" "" 0 0 "" "" 0) [] []
  end.

Definition hydrate (site : string) (db : Db) (e : Allowlistentry) : Allowlistentry :=
  mkEntry (plate_text e) (owner_name e) (owner_unit e)
    (allowed_classes e ++ select_classes (site, plate_text e) db)
    (valid_from e) (valid_until e)
    (time_windows e ++ select_windows (site, plate_text e) db)
    (notes e) (added_by e) (added_ts e).

(** [AllowlistStore::list]. *)
Definition list_page (site : string) (page_size : Z) (token : string) (db : Db) : Page :=
  let limit := Z.to_nat (Z.max 1 (Z.min page_size 1000)) in
  let rows := select_page site token (S limit) db in
  let es := map (bare_entry site db) (take limit rows) in
  if decide (limit < length rows)%nat
  then mkPage es (match last es with Some e => plate_text e | None => "" end)
  else mkPage (map (hydrate site db) es) "".

(** A normalised plate is its own spelling. *)
Lemma upper_normal c :
  dropped_char c = false -> dropped_char (upper c) = false /\ upper (upper c) = upper c.
Proof. destruct c as [[] [] [] [] [] [] [] []]; vm_compute; done. Qed.

Lemma normalize_plate_idemp p : normalize_plate (normalize_plate p) = normalize_plate p.
Proof.
  induction p as [|c p IH]; [done|]. cbn [normalize_plate].
  destruct (dropped_char c) eqn:Hc; [done|]. destruct (upper_normal c Hc) as [Hd Hu].
  cbn [normalize_plate]. by rewrite Hd, Hu, IH.
Qed.

(** ** What an upsert leaves behind *)

(** The entry a lookup returns for a stored entry: plate normalised, classes
    a sorted set, windows ordered by start, non-positive times absent. *)
Definition stored (e : Allowlistentry) : Allowlistentry :=
  mkEntry (normalize_plate (plate_text e)) (owner_name e) (owner_unit e)
    (order_by id (elements (list_to_set (map i32 (allowed_classes e)) : gset Z)))
    (positive (default 0 (valid_from e))) (positive (default 0 (valid_until e)))
    (map (fun '(s, f, m) => mkWindow (u32 s) (u32 f) (u32 m))
       (order_by (fun x => x.1.1)
          (map (fun w => (i32 (start_minute_of_day w), i32 (end_minute_of_day w),
                          days_of_week_mask w)) (time_windows e))))
    (notes e) (added_by e) (positive (default 0 (added_ts e))).

(** The statements of one entry, all successful. *)
Definition entry_effect (k : Key) (e : Allowlistentry) (db : Db) : Db :=
  foldl (fun db w => sql_ins_window k w db)
    (sql_del_windows k
       (foldl (fun db c => sql_ins_class k (i32 c) db)
          (sql_del_classes k (sql_upsert_main k (row_of e) db)) (allowed_classes e)))
    (time_windows e).

(** *** Statements inside a transaction *)

(** Run inside an open transaction, [m] leaves the file alone and either
    throws or keeps the transaction open, with effect [E] on its tables. *)
Definition inside {A} (m : TX A) (E : Db -> A -> Db -> Prop) : Prop :=
  forall c n w, working c = Some w ->
    durable (m (c, n)).1.1 = durable c /\
    forall a, (m (c, n)).2 = inr a ->
      exists w', working (m (c, n)).1.1 = Some w' /\ E w a w'.

Lemma inside_weaken {A} (m : TX A) (E E' : Db -> A -> Db -> Prop) :
  inside m E -> (forall w a w', E w a w' -> E' w a w') -> inside m E'.
Proof.
  intros Hm HE c n w Hw. destruct (Hm c n w Hw) as [Hd Hr]. split; [done|].
  intros a Ha. destruct (Hr a Ha) as (w' & ? & ?). eauto.
Qed.

Lemma inside_ret {A} (a : A) : inside (tx_ret a) (fun w b w' => b = a /\ w' = w).
Proof. intros c n w Hw. split; [done|]. intros b [= <-]. eauto. Qed.

Lemma inside_throw {A} e (E : Db -> A -> Db -> Prop) : inside (tx_throw e) E.
Proof. done. Qed.

Lemma inside_bind {A B} (m : TX A) (k : A -> TX B) E F :
  inside m E -> (forall a, inside (k a) (F a)) ->
  inside (tx_bind m k) (fun w b w' => exists a w1, E w a w1 /\ F a w1 b w').
Proof.
  intros Hm Hk c n w Hw. unfold tx_bind. destruct (Hm c n w Hw) as [Hd Hr].
  destruct (m (c, n)) as [[c1 n1] [e|a]]; cbn [fst snd] in *; [done|].
  destruct (Hr a eq_refl) as (w1 & Hw1 & HE). destruct (Hk a c1 n1 w1 Hw1) as [Hd' Hr'].
  split; [by rewrite Hd'|]. intros b Hb. destruct (Hr' b Hb) as (w' & ? & ?). eauto 6.
Qed.

Lemma inside_statement o what ch f :
  inside (statement o what ch f) (fun w a w' => a = ch w /\ w' = f w).
Proof.
  intros c n w Hw. unfold statement. destruct (write_outcome o n); [|done|done].
  unfold write, view. rewrite Hw. split; [done|]. intros a [= <-]. eauto.
Qed.

Lemma inside_stmts o what {A} (f : A -> Db -> Db) (l : list A) :
  inside (run_stmts o what (map f l)) (fun w _ w' => w' = foldl (fun db x => f x db) w l).
Proof.
  induction l as [|x l IH]; cbn [run_stmts map].
  - eapply inside_weaken; [apply inside_ret|]. by intros w a w' [_ ->].
  - eapply inside_weaken; [apply inside_bind; [apply inside_statement | intros; apply IH]|].
    by intros w a w' (? & ? & [_ ->] & ->).
Qed.

(** The file changes only by a commit; the transaction stays open only
    behind a failing rollback. *)
Lemma transaction_spec {A} o (body : TX A) E c n :
  inside body E -> working c = None ->
  let '((c', _), r) := transaction o body (c, n) in
  match r with
  | inr a => working c' = None /\ E (durable c) a (durable c')
  | inl e => durable c' = durable c /\
             (working c' = None \/ exists k, write_outcome o k = Failed /\ e = exec_failed)
  end.
Proof.
  intros Hb Hc. unfold transaction, tx_bind, sql_begin. rewrite Hc.
  destruct (write_outcome o n); [|by auto|by auto].
  destruct (Hb (mkConn (durable c) (Some (durable c))) (S n) (durable c) eq_refl) as [Hd Hr].
  destruct (body _) as [[c1 n1] r1]. cbn [fst snd durable] in *.
  assert (Hroll : forall c2 n2 e, durable c2 = durable c ->
    let '((c', _), r) := sql_rollback o (c2, n2) in
    durable c' = durable c /\
    match r with
    | inl e' => working c' = None \/ exists k, write_outcome o k = Failed /\ e' = exec_failed
    | inr _ => working c' = None \/ exists k, write_outcome o k = Failed /\ e = exec_failed
    end).
  { intros c2 n2 e H2. unfold sql_rollback.
    destruct (working c2) eqn:Ew, (write_outcome o n2) eqn:Eo; simpl; eauto 6. }
  destruct r1 as [e|a].
  - specialize (Hroll c1 n1 e Hd). destruct (sql_rollback o (c1, n1)) as [[c' n'] [e'|[]]];
      destruct Hroll as [? ?]; done.
  - destruct (Hr a eq_refl) as (w & Hw & HE). unfold sql_commit. rewrite Hw.
    destruct (write_outcome o n1); [by simpl|..].
    + specialize (Hroll c1 (S n1) exec_failed Hd).
      destruct (sql_rollback o (c1, S n1)) as [[c' n'] [e'|[]]]; destruct Hroll as [? ?]; done.
    + specialize (Hroll (abort c1) (S n1) exec_failed Hd).
      destruct (sql_rollback o (abort c1, S n1)) as [[c' n'] [e'|[]]]; destruct Hroll as [? ?]; done.
Qed.

(** The store as long as failing reads leave the transaction alone. *)
Section reads.
Context (o : Outcomes) (Hreads : forall n, read_outcome o n <> Aborted).

Lemma inside_probe p : inside (probe o p) (fun w _ w' => w' = w).
Proof.
  intros c n w Hw. unfold probe. specialize (Hreads n).
  destruct (read_outcome o n); [..|done]; (split; [done|]; eauto).
Qed.

Lemma upsert_entry_inside site e st :
  inside (upsert_entry o site e st) (fun w st' w' =>
    normalize_plate (plate_text e) <> ""%string /\
    w' = entry_effect (site, normalize_plate (plate_text e)) e w /\
    (st' = mkStats (inserted st) (u32 (updated st + 1)) \/
     st' = mkStats (u32 (inserted st + 1)) (updated st))).
Proof.
  unfold upsert_entry. destruct (String.eqb_spec (normalize_plate (plate_text e)) "");
    [apply inside_throw|]. cbv zeta.
  eapply inside_weaken.
  { apply inside_bind; [apply inside_probe | intros ex].
    apply inside_bind; [apply inside_statement | intros ?].
    apply inside_bind; [apply inside_statement | intros ?].
    apply inside_bind; [apply (inside_stmts o "ins class"
      (fun c => sql_ins_class (site, normalize_plate (plate_text e)) (i32 c))) | intros ?].
    apply inside_bind; [apply inside_statement | intros ?].
    apply inside_bind; [apply inside_stmts | intros ?].
    apply inside_ret. }
  intros w st' w' (ex & ? & -> & ? & ? & [_ ->] & ? & ? & [_ ->] & ? & ? & -> & ? & ? & [_ ->]
    & ? & ? & -> & -> & ->).
  split_and!; [done | done | by destruct ex; auto].
Qed.
End reads.

Lemma ins_classes_effect k cs db :
  let db' := foldl (fun db c => sql_ins_class k (i32 c) db) db cs in
  t_allow db' = t_allow db /\ t_windows db' = t_windows db /\ t_block db' = t_block db /\
  forall x, x ∈ t_classes db' <-> x ∈ t_classes db \/ (x.1 = k /\ x.2 ∈ map i32 cs).
Proof.
  revert db. induction cs as [|c cs IH]; intros db; simpl.
  { split_and!; try done. intros x. set_solver. }
  destruct (IH (sql_ins_class k (i32 c) db)) as (H1 & H2 & H3 & H4).
  split_and!; try done. intros x. rewrite H4. simpl. destruct x as [kx zx].
  rewrite elem_of_union, elem_of_singleton, elem_of_cons. simpl. naive_solver.
Qed.

Lemma ins_windows_effect k ws db :
  let db' := foldl (fun db w => sql_ins_window k w db) db ws in
  t_allow db' = t_allow db /\ t_classes db' = t_classes db /\ t_block db' = t_block db /\
  t_windows db' = t_windows db ++
    map (fun w => (k, (i32 (start_minute_of_day w), i32 (end_minute_of_day w),
                       days_of_week_mask w))) ws.
Proof.
  revert db. induction ws as [|w ws IH]; intros db; simpl; [by rewrite app_nil_r|].
  destruct (IH (sql_ins_window k w db)) as (H1 & H2 & H3 & H4).
  split_and!; try done. rewrite H4. simpl. by rewrite <- app_assoc.
Qed.

Lemma rows_of_app {A} k (l1 l2 : list (Key * A)) :
  rows_of k (l1 ++ l2) = rows_of k l1 ++ rows_of k l2.
Proof.
  induction l1 as [|[k' a] l1 IH]; cbn [rows_of app]; [done|].
  rewrite IH. by destruct (decide (k' = k)).
Qed.

Lemma rows_of_filter {A} k k' (l : list (Key * A)) :
  rows_of k' (base.filter (fun x => x.1 <> k) l) =
  if decide (k' = k) then [] else rows_of k' l.
Proof.
  induction l as [|[kx a] l IH]; [by destruct (decide (k' = k))|].
  rewrite filter_cons. cbn [rows_of fst].
  destruct (decide (kx <> k)) as [Hx|Hx]; cbn [rows_of]; rewrite IH;
    repeat case_decide; naive_solver.
Qed.

Lemma rows_of_map {A B} k k' (f : B -> A) (l : list B) :
  rows_of k' (map (fun x => (k, f x)) l) = if decide (k' = k) then map f l else [].
Proof.
  induction l as [|x l IH]; cbn [rows_of map]; [by destruct (decide (k' = k))|].
  rewrite IH. repeat case_decide; naive_solver.
Qed.

(** The effect of an entry on the tables, read through the SELECTs. *)
Lemma entry_effect_select k e db :
  t_allow (entry_effect k e db) = <[k := row_of e]> (t_allow db) /\
  t_block (entry_effect k e db) = t_block db /\
  (forall k', select_classes k' (entry_effect k e db) =
    if decide (k' = k) then allowed_classes (stored e) else select_classes k' db) /\
  (forall k', select_windows k' (entry_effect k e db) =
    if decide (k' = k) then time_windows (stored e) else select_windows k' db).
Proof.
  unfold entry_effect.
  set (db1 := sql_del_classes k (sql_upsert_main k (row_of e) db)).
  destruct (ins_classes_effect k (allowed_classes e) db1) as (A1 & A2 & A3 & A4).
  set (db2 := foldl _ db1 _) in *. clearbody db2.
  destruct (ins_windows_effect k (time_windows e) (sql_del_windows k db2)) as (B1 & B2 & B3 & B4).
  set (db3 := foldl _ _ (time_windows e)) in *. clearbody db3.
  split_and!.
  - rewrite B1. exact A1.
  - rewrite B3. exact A3.
  - intros k'. unfold select_classes, stored. cbn [allowed_classes].
    assert (Hset : class_set k' (t_classes db3) =
      if decide (k' = k) then list_to_set (map i32 (allowed_classes e))
      else class_set k' (t_classes db)).
    { rewrite B2. cbn [t_classes sql_del_windows set_windows]. apply set_eq. intros z.
      unfold class_set. rewrite elem_of_map.
      setoid_rewrite elem_of_filter. setoid_rewrite A4. cbn [t_classes db1 sql_del_classes set_classes].
      setoid_rewrite elem_of_filter. cbn [t_classes sql_upsert_main set_allow].
      destruct (decide (k' = k)) as [->|Hne].
      - rewrite elem_of_list_to_set. split.
        + intros ([kx zx] & -> & Hk & [[Hn _]|[_ Hin]]); simpl in *; naive_solver.
        + intros Hin. exists (k, z). naive_solver.
      - rewrite elem_of_map. setoid_rewrite elem_of_filter. naive_solver. }
    rewrite Hset. by destruct (decide (k' = k)).
  - intros k'. unfold select_windows, stored. cbn [time_windows].
    rewrite B4. cbn [t_windows sql_del_windows set_windows]. rewrite A2.
    cbn [t_windows db1 sql_del_classes set_classes sql_upsert_main set_allow].
    rewrite rows_of_app, rows_of_filter, rows_of_map.
    destruct (decide (k' = k)); [done | by rewrite app_nil_r].
Qed.

(** ** Whole transactions *)

Definition entry_key (site : string) (e : Allowlistentry) : Key :=
  (site, normalize_plate (plate_text e)).

Definition upsert_effect (site : string) (es : list Allowlistentry) (db : Db) : Db :=
  foldl (fun db e => entry_effect (entry_key site e) e db) db es.

Lemma upsert_loop_inside o site es st :
  (forall n, read_outcome o n <> Aborted) ->
  inside (upsert_loop o site es st) (fun w st' w' =>
    w' = upsert_effect site es w /\
    Forall (fun e => normalize_plate (plate_text e) <> ""%string) es /\
    (0 <= inserted st -> 0 <= updated st ->
     inserted st + updated st + Z.of_nat (length es) < 2 ^ 32 ->
     inserted st' + updated st' = inserted st + updated st + Z.of_nat (length es))).
Proof.
  intros Hreads. revert st. induction es as [|e es IH]; intros st; cbn [upsert_loop].
  { eapply inside_weaken; [apply inside_ret|]. intros w a w' [-> ->].
    split_and!; [done | done | simpl; lia]. }
  eapply inside_weaken; [apply inside_bind;
    [by apply upsert_entry_inside | intros st1; apply (IH st1)]|].
  intros w st' w' (st1 & w1 & (Hne & -> & Hst1) & -> & H2 & H3).
  split_and!; [done | by constructor |].
  intros Hi Hu Hb. cbn [length] in *. destruct Hst1 as [-> | ->]; cbn [inserted updated] in *;
    rewrite u32_small in H3 by lia; rewrite H3; lia.
Qed.

Lemma lookup_entry_effect site' plate site e db :
  lookup read_all site' plate (entry_effect (entry_key site e) e db) =
  if decide ((site', normalize_plate plate) = entry_key site e)
  then inr (Some (stored e)) else lookup read_all site' plate db.
Proof.
  destruct (entry_effect_select (entry_key site e) e db) as (H1 & H2 & H3 & H4).
  unfold lookup. cbn [main_ok read_all negb classes_rows windows_rows rows_read].
  rewrite H1, H3, H4. case_decide as Hk.
  - rewrite Hk, lookup_insert_eq. done.
  - rewrite lookup_insert_ne by done. done.
Qed.

(** The last entry of a batch for a plate. *)
Definition last_for (site : string) (k : Key) (es : list Allowlistentry) : option Allowlistentry :=
  last (base.filter (fun e => entry_key site e = k) es).

Lemma lookup_upsert_effect site' plate site es db :
  lookup read_all site' plate (upsert_effect site es db) =
  match last_for site (site', normalize_plate plate) es with
  | Some e => inr (Some (stored e))
  | None => lookup read_all site' plate db
  end.
Proof.
  unfold upsert_effect, last_for. revert db. induction es as [|e es IH] using rev_ind; [done|].
  intros db. rewrite foldl_app, filter_app. cbn [foldl].
  rewrite lookup_entry_effect, filter_cons, filter_nil.
  destruct (decide (entry_key site e = (site', normalize_plate plate))) as [He|He].
  - rewrite decide_True by done. by rewrite last_snoc.
  - rewrite decide_False by done. rewrite app_nil_r. apply IH.
Qed.

Lemma upsert_effect_block site es db : t_block (upsert_effect site es db) = t_block db.
Proof.
  unfold upsert_effect. revert db. induction es as [|e es IH]; intros db; [done|].
  cbn [foldl]. rewrite IH. apply entry_effect_select.
Qed.

(** *** Deletions *)

Lemma delete_select k db k' :
  t_allow (sql_delete_allow k db) = delete k (t_allow db) /\
  t_block (sql_delete_allow k db) = t_block db /\
  (k' <> k -> select_classes k' (sql_delete_allow k db) = select_classes k' db /\
              select_windows k' (sql_delete_allow k db) = select_windows k' db).
Proof.
  unfold sql_delete_allow. destruct (t_allow db !! k) as [r|] eqn:Hk.
  2:{ split_and!; try done. by rewrite delete_id. }
  split_and!; try done. intros Hne. split.
  - unfold select_classes. do 2 f_equal. cbn. unfold class_set. set_solver.
  - unfold select_windows. cbn [t_windows set_allow sql_del_windows set_windows sql_del_classes
      set_classes]. by rewrite rows_of_filter, decide_False by done.
Qed.

Definition remove_effect (site : string) (plates : list string) (db : Db) : Db :=
  foldl (fun db p => sql_delete_allow (site, normalize_plate p) db) db plates.

Lemma delete_hits k db :
  allow_hits k db + Z.of_nat (size (t_allow (sql_delete_allow k db)))
  = Z.of_nat (size (t_allow db)).
Proof.
  destruct (delete_select k db k) as (-> & _). unfold allow_hits.
  destruct (decide (is_Some (t_allow db !! k))) as [[x Hx]|Hn].
  - rewrite map_size_delete, Hx.
    assert (0 < size (t_allow db))%nat.
    { destruct (decide (size (t_allow db) = 0)%nat) as [Hz%map_size_empty_inv|]; [|lia].
      by rewrite Hz in Hx. }
    lia.
  - rewrite delete_id by (by apply eq_None_not_Some). lia.
Qed.

Lemma remove_loop_inside o site plates r :
  inside (remove_loop o site plates r) (fun w r' w' =>
    w' = remove_effect site plates w /\
    r' + Z.of_nat (size (t_allow w')) = r + Z.of_nat (size (t_allow w))).
Proof.
  revert r. induction plates as [|p plates IH]; intros r; cbn [remove_loop].
  { eapply inside_weaken; [apply inside_ret|]. by intros w a w' [-> ->]. }
  eapply inside_weaken; [apply inside_bind; [apply inside_statement | intros h; apply (IH (r + h))]|].
  intros w r' w' (h & w1 & [-> ->] & -> & Hr). split; [done|].
  rewrite Hr. pose proof (delete_hits (site, normalize_plate p) w). lia.
Qed.

Lemma lookup_remove_effect site' plate site plates db :
  lookup read_all site' plate (remove_effect site plates db) =
  if decide (site' = site /\ normalize_plate plate ∈ map normalize_plate plates)
  then inr None else lookup read_all site' plate db.
Proof.
  unfold remove_effect. revert db. induction plates as [|p plates IH]; intros db; cbn [foldl map].
  { rewrite decide_False; [done|]. intros [_ H]. set_solver. }
  rewrite IH. case_decide as H1.
  { rewrite decide_True; [done|]. set_solver. }
  unfold lookup. cbn [main_ok read_all negb classes_rows windows_rows rows_read].
  destruct (delete_select (site, normalize_plate p) db (site', normalize_plate plate))
    as (-> & _ & H4).
  destruct (decide ((site', normalize_plate plate) = (site, normalize_plate p))) as [[= -> Hp]|Hne].
  - rewrite Hp, lookup_delete_eq. rewrite decide_True; [done|]. set_solver.
  - rewrite lookup_delete_ne by done. destruct (H4 Hne) as [-> ->].
    rewrite decide_False; [done|]. intros [-> H].
    apply elem_of_cons in H as [H|H]; [congruence | by apply H1].
Qed.

(** *** The binary collation *)

Definition slt (a b : string) : Prop := String.ltb a b = true.

#[export] Instance slt_dec a b : Decision (slt a b).
Proof. unfold slt. apply _. Defined.

Lemma slt_cons a s b t :
  slt (String a s) (String b t) <->
  (Ascii.N_of_ascii a < Ascii.N_of_ascii b)%N \/ (a = b /\ slt s t).
Proof.
  unfold slt, String.ltb. cbn [String.compare]. unfold Ascii.compare.
  destruct (N.compare_spec (Ascii.N_of_ascii a) (Ascii.N_of_ascii b)) as [He|Hl|Hg].
  - assert (a = b) as ->.
    { rewrite <- (Ascii.ascii_N_embedding a), <- (Ascii.ascii_N_embedding b). by rewrite He. }
    split; [auto|]. intros [H|[_ H]]; [lia | done].
  - split; [auto | done].
  - split; [done|]. intros [H|[-> _]]; lia.
Qed.

Lemma slt_trans a b c : slt a b -> slt b c -> slt a c.
Proof.
  revert b c. induction a as [|x a IH]; intros [|y b] [|z c] H1 H2; try done.
  rewrite slt_cons in *. destruct H1 as [H1|[-> H1]], H2 as [H2|[-> H2]];
    [left; lia | left; lia | left; lia | right; eauto].
Qed.

Lemma slt_irrefl a : ~ slt a a.
Proof. induction a as [|x a IH]; [done|]. rewrite slt_cons. intros [H|[_ H]]; [lia | done]. Qed.

Lemma slt_total a b : slt a b \/ a = b \/ slt b a.
Proof.
  revert b. induction a as [|x a IH]; intros [|y b]; [by right; left | by left | by right; right |].
  rewrite !slt_cons. destruct (N.lt_trichotomy (Ascii.N_of_ascii x) (Ascii.N_of_ascii y))
    as [H|[H|H]]; [auto | | auto].
  assert (x = y) as ->.
  { rewrite <- (Ascii.ascii_N_embedding x), <- (Ascii.ascii_N_embedding y). by rewrite H. }
  destruct (IH b) as [H'|[->|H']]; auto.
Qed.

Lemma insert_plate_elem p q l : q ∈ insert_plate p l <-> q = p \/ q ∈ l.
Proof.
  induction l as [|x l IH]; simpl; [set_solver|].
  destruct (String.ltb x p); rewrite !elem_of_cons, ?IH; naive_solver.
Qed.

Lemma insert_plate_sorted p l :
  p ∉ l -> StronglySorted slt l -> StronglySorted slt (insert_plate p l).
Proof.
  intros Hp Hs. induction Hs as [|x l Hs IH Hx]; simpl; [repeat constructor|].
  rewrite elem_of_cons in Hp. destruct (String.ltb x p) eqn:E.
  - constructor; [naive_solver|]. rewrite Forall_forall in *. intros q Hq.
    apply insert_plate_elem in Hq as [->|Hq]; [exact E | auto].
  - assert (Hlt : slt p x).
    { destruct (slt_total x p) as [H|[->|H]]; [by rewrite H in E | naive_solver | done]. }
    constructor; [by constructor|]. constructor; [done|].
    rewrite Forall_forall in *. intros q Hq. eapply slt_trans; [exact Hlt | auto].
Qed.

Lemma foldr_insert_plate l :
  NoDup l -> StronglySorted slt (foldr insert_plate [] l) /\
             forall p, p ∈ foldr insert_plate [] l <-> p ∈ l.
Proof.
  induction 1 as [|x l Hx _ [IH1 IH2]]; cbn [foldr]; [split; [constructor | done]|].
  split.
  - apply insert_plate_sorted; [by rewrite IH2 | done].
  - intros p. rewrite insert_plate_elem, IH2, elem_of_cons. done.
Qed.

(** The plates of a site: exactly its keys, strictly increasing. *)
Lemma site_plates_spec site db :
  StronglySorted slt (site_plates site db) /\
  forall p, p ∈ site_plates site db <-> is_Some (t_allow db !! (site, p)).
Proof.
  unfold site_plates. set (f := fun kr : Key * AllowRow => _).
  assert (Hnd : NoDup (omap f (map_to_list (t_allow db)))).
  { pose proof (NoDup_fst_map_to_list (t_allow db)) as Hn. revert Hn.
    generalize (map_to_list (t_allow db)) as l. induction l as [|[[s p] r] l IH]; [constructor|].
    cbn [fmap list_fmap fst]. intros [Hni Hn]%NoDup_cons. cbn. unfold f at 1. cbn [fst snd].
    destruct (decide (s = site)) as [->|]; [|by apply IH].
    constructor; [|by apply IH]. intros Hin. apply Hni.
    apply list_elem_of_omap in Hin as ([[s' p'] r'] & Hin & Hf). unfold f in Hf. cbn in Hf.
    destruct (decide (s' = site)) as [->|]; simplify_eq.
    apply list_elem_of_fmap. by exists ((site, p), r'). }
  destruct (foldr_insert_plate _ Hnd) as [H1 H2]. split; [done|].
  intros p. rewrite H2, list_elem_of_omap. split.
  - intros ([[s p'] r] & Hin & Hf). unfold f in Hf. cbn in Hf.
    destruct (decide (s = site)) as [->|]; simplify_eq.
    apply elem_of_map_to_list in Hin. eauto.
  - intros [r Hr]. exists ((site, p), r). unfold f. cbn. rewrite decide_True by done.
    split; [by apply elem_of_map_to_list | done].
Qed.

(** Resuming after the n-th element of a strictly sorted list. *)
Lemma filter_after (l1 l2 : list string) x :
  StronglySorted slt (l1 ++ x :: l2) ->
  base.filter (slt x) (l1 ++ x :: l2) = l2.
Proof.
  induction l1 as [|y l1 IH]; cbn [app]; intros Hs; apply StronglySorted_inv in Hs as [Hs Hf].
  - rewrite filter_cons_False by apply slt_irrefl.
    clear Hs. induction Hf as [|z l2 Hz _ IH]; [done|]. rewrite filter_cons_True by done. by f_equal.
  - rewrite filter_cons_False; [by apply IH|]. intros Hxy.
    rewrite Forall_forall in Hf. apply (slt_irrefl x). eapply slt_trans; [exact Hxy|].
    apply Hf. set_solver.
Qed.

(** Following the page tokens, as a client does. *)
Fixpoint walk_pages (fuel : nat) (site : string) (page_size : Z) (token : string) (db : Db)
    : list Allowlistentry :=
  match fuel with
  | O => []
  | S fuel =>
      let pg := list_page site page_size token db in
      entries pg ++
      (if String.eqb (next_token pg) "" then [] else walk_pages fuel site page_size (next_token pg) db)
  end.

Lemma bare_entry_plate site db p : plate_text (bare_entry site db p) = p.
Proof. unfold bare_entry. by destruct (t_allow db !! (site, p)). Qed.

Lemma map_bare_plate site db l : map plate_text (map (bare_entry site db) l) = l.
Proof. rewrite map_map. rewrite <- (map_id l) at 2. apply map_ext, bare_entry_plate. Qed.

(** One page over the plates [rest] that follow the token. *)
Lemma list_page_spec site page_size token db rest :
  base.filter (slt token) (site_plates site db) = rest ->
  let limit := Z.to_nat (Z.max 1 (Z.min page_size 1000)) in
  let pg := list_page site page_size token db in
  map plate_text (entries pg) = take limit rest /\
  (length rest <= limit -> next_token pg = ""%string)%nat /\
  (limit < length rest -> exists l x, take limit rest = l ++ [x] /\ next_token pg = x)%nat.
Proof.
  intros Hr limit pg. unfold pg, list_page. fold limit.
  assert (Hlim : (0 < limit)%nat) by (unfold limit; lia). clearbody limit.
  assert (Hsel : select_page site token (S limit) db = take (S limit) rest).
  { unfold select_page. by rewrite <- Hr. }
  rewrite Hsel, take_take, length_take. replace (limit `min` S limit)%nat with limit by lia.
  case_decide as Hd; cbn [entries next_token].
  - assert (Hlen : length (take limit rest) = limit) by (rewrite length_take; lia).
    destruct (take limit rest) as [|x l _] eqn:E using rev_ind; [simpl in Hlen; lia|].
    rewrite map_bare_plate. split_and!; [done | lia |]. intros _. exists l, x.
    split; [done|]. rewrite map_app. cbn [map]. rewrite last_snoc. apply bare_entry_plate.
  - split_and!; [|done|lia]. rewrite map_map.
    exact (map_bare_plate site db (take limit rest)).
Qed.

Lemma walk_pages_spec fuel site page_size token db rest :
  t_allow db !! (site, ""%string) = None ->
  base.filter (slt token) (site_plates site db) = rest ->
  (exists l1, site_plates site db = l1 ++ rest) -> (length rest < fuel)%nat ->
  map plate_text (walk_pages fuel site page_size token db) = rest.
Proof.
  intros Hne. revert token rest. induction fuel as [|fuel IH]; intros token rest Hf [l1 Hl] Hfuel;
    [lia|].
  pose proof (site_plates_spec site db) as [Hsorted Helem].
  cbn [walk_pages]. rewrite map_app.
  destruct (list_page_spec site page_size token db rest Hf) as (P1 & P2 & P3).
  set (limit := Z.to_nat _) in *. assert (Hlim : (0 < limit)%nat) by (unfold limit; lia).
  clearbody limit. rewrite P1. destruct (decide (length rest <= limit)%nat) as [Hle|Hgt].
  { rewrite P2 by done. cbn. rewrite app_nil_r. by apply take_ge. }
  destruct (P3 ltac:(lia)) as (l & x & Htk & ->).
  assert (Hsplit : site_plates site db = (l1 ++ l) ++ x :: drop limit rest).
  { rewrite Hl, <- (take_drop limit rest) at 1. rewrite Htk, <- !app_assoc. done. }
  destruct (String.eqb_spec x "") as [->|Hx].
  { assert (Hin : ""%string ∈ site_plates site db) by (rewrite Hsplit; set_solver).
    apply Helem in Hin as [r Hr]. by rewrite Hne in Hr. }
  rewrite (IH x (drop limit rest)).
  - apply take_drop.
  - rewrite Hsplit. apply filter_after. by rewrite <- Hsplit.
  - exists ((l1 ++ l) ++ [x]). rewrite Hsplit, <- !app_assoc. done.
  - rewrite length_drop. lia.
Qed.

(** ** Properties *)

(** A lookup after a successful upsert. *)
Lemma lookup_after_upsert o site es c c' stats site' plate
    (Hreads : forall n, read_outcome o n <> Aborted) (Hc : working c = None)
    (Hup : upsert o site es c = (c', inr stats)) :
  lookup read_all site' plate (view c') =
    match last_for site (site', normalize_plate plate) es with
    | Some e => inr (Some (stored e))
    | None => lookup read_all site' plate (view c)
    end /\
  is_blocklisted true site' plate (view c') = is_blocklisted true site' plate (view c).
Proof.
  pose proof (transaction_spec o _ _ c 0 (upsert_loop_inside o site es (mkStats 0 0) Hreads) Hc) as H.
  unfold upsert, call in Hup. destruct (transaction _ _ _) as [[c1 n1] r]. simplify_eq.
  destruct H as (Hw & Hd & _). unfold view. rewrite Hw, Hc, Hd. cbn [default].
  split; [apply lookup_upsert_effect|]. unfold is_blocklisted. by rewrite upsert_effect_block.
Qed.

(** What is upserted is what is looked up.  After a successful upsert,
    looking up any spelling of any plate on any site finds the last entry of
    the batch for that normalised plate of that site, in stored form, and
    otherwise exactly what was found before; the blocklist is untouched. *)
Theorem upsert_then_lookup o site es c c' stats site' plate
    (Hreads : forall n, read_outcome o n <> Aborted) (Hc : working c = None)
    (Hup : upsert o site es c = (c', inr stats)) :
  lookup read_all site' plate (view c') =
    match last_for site (site', normalize_plate plate) es with
    | Some e => inr (Some (stored e))
    | None => lookup read_all site' plate (view c)
    end /\
  is_blocklisted true site' plate (view c') = is_blocklisted true site' plate (view c).
Proof. exact (lookup_after_upsert o site es c c' stats site' plate Hreads Hc Hup). Qed.

Definition sample_entry : Allowlistentry :=
  mkEntry "kda 123-a" "Ann" "4B" [5; 4; 5] (Some 100) None
    [mkWindow 600 720 31; mkWindow 60 120 127] "" "guard" None.

Lemma upsert_then_lookup_witness :
  lookup read_all "s" "KDA-123 A"
    (view (upsert all_done "s" [sample_entry] (Conn_new Db_empty)).1) =
    inr (Some (mkEntry "KDA123A" "Ann" "4B" [4; 5] (Some 100) None
                 [mkWindow 60 120 127; mkWindow 600 720 31] "" "guard" None)).
Proof.
  destruct (upsert_then_lookup all_done "s" [sample_entry] (Conn_new Db_empty)
              (upsert all_done "s" [sample_entry] (Conn_new Db_empty)).1 (mkStats 1 0)
              "s" "KDA-123 A")
    as [H _]; [discriminate | reflexivity | vm_compute; reflexivity|].
  rewrite H. vm_compute. reflexivity.
Defined.

(** C29: An upsert is all or nothing.  Whichever statements fail or abort the
    transaction (reads excepted), and when an entry's plate is empty, a
    throwing call leaves the database file as it was, and no transaction
    open unless the rollback itself failed; a successful one has stored every
    entry and counted each exactly once, as inserted or as updated. *)
Theorem upsert_atomic o site es c
    (Hreads : forall n, read_outcome o n <> Aborted) (Hc : working c = None) :
  let '(c', r) := upsert o site es c in
  match r with
  | inl e => durable c' = durable c /\
             (working c' = None \/ exists k, write_outcome o k = Failed /\ e = exec_failed)
  | inr stats =>
      working c' = None /\ durable c' = upsert_effect site es (durable c) /\
      Forall (fun e => normalize_plate (plate_text e) <> ""%string) es /\
      (Z.of_nat (length es) < 2 ^ 32 ->
       inserted stats + updated stats = Z.of_nat (length es))
  end.
Proof.
  pose proof (transaction_spec o _ _ c 0 (upsert_loop_inside o site es (mkStats 0 0) Hreads) Hc) as H.
  unfold upsert, call. destruct (transaction _ _ _) as [[c1 n1] [e|stats]]; [done|].
  destruct H as (Hw & Hd & Hf & Hn). split_and!; [done | done | done |].
  intros Hl. cbn [inserted updated] in Hn. rewrite Hn; lia.
Qed.

(** The fifth statement of the second entry aborts the transaction. *)
Definition abort_late : Outcomes :=
  mkOutcomes (fun n => if decide (n = 12)%nat then Aborted else Done) (fun _ => Done).

Lemma upsert_atomic_witness :
  let r := upsert abort_late "s" [sample_entry; sample_entry] (Conn_new Db_empty) in
  r.2 = inl exec_failed /\ durable r.1 = Db_empty.
Proof.
  pose proof (upsert_atomic abort_late "s" [sample_entry; sample_entry] (Conn_new Db_empty)
                ltac:(discriminate) eq_refl) as H.
  assert (Hr : (upsert abort_late "s" [sample_entry; sample_entry] (Conn_new Db_empty)).2
               = inl exec_failed) by (vm_compute; reflexivity).
  destruct (upsert _ _ _ _) as [c' r]. cbn [fst snd] in *. subst r.
  split; [reflexivity | exact (proj1 H)].
Defined.

(** Removal.  A successful remove makes the listed plates of the site
    unknown, with their restrictions, leaves every other lookup as it was,
    and returns the number of rows that disappeared; a throwing one leaves
    the database file as it was. *)
Theorem remove_spec o site plates c (Hc : working c = None) :
  let '(c', r) := remove o site plates c in
  match r with
  | inl e => durable c' = durable c /\
             (working c' = None \/ exists k, write_outcome o k = Failed /\ e = exec_failed)
  | inr removed =>
      working c' = None /\
      (forall site' plate, lookup read_all site' plate (durable c') =
         if decide (site' = site /\ normalize_plate plate ∈ map normalize_plate plates)
         then inr None else lookup read_all site' plate (durable c)) /\
      removed = Z.of_nat (size (t_allow (durable c))) - Z.of_nat (size (t_allow (durable c')))
  end.
Proof.
  pose proof (transaction_spec o _ _ c 0 (remove_loop_inside o site plates 0) Hc) as H.
  unfold remove, call. destruct (transaction _ _ _) as [[c1 n1] [e|k]]; [done|].
  destruct H as (Hw & Hd & Hk). split_and!; [done | | lia].
  intros. rewrite Hd. apply lookup_remove_effect.
Qed.

Lemma remove_spec_witness :
  let c := (upsert all_done "s" [sample_entry] (Conn_new Db_empty)).1 in
  lookup read_all "s" "kda123a" (durable (remove all_done "s" ["KDA 123A"] c).1) = inr None.
Proof.
  intros c.
  pose proof (remove_spec all_done "s" ["KDA 123A"%string] c ltac:(vm_compute; reflexivity)) as H.
  assert (Hr : (remove all_done "s" ["KDA 123A"%string] c).2 = inr 1) by (vm_compute; reflexivity).
  destruct (remove _ _ _ _) as [c' r]. cbn [fst snd] in *. subst r.
  destruct H as (_ & H & _). rewrite H. vm_compute. reflexivity.
Defined.

(** A rollback that fails leaves the transaction open: later lookups see the
    rows of the call that threw, and later upserts are refused. *)
Example failed_rollback_leaks :
  let bad := mkOutcomes (fun n => if decide (n < 9)%nat then Done else Failed) (fun _ => Done) in
  let '(c, r) := upsert bad "s" [sample_entry; sample_entry] (Conn_new Db_empty) in
  r = inl exec_failed /\ durable c = Db_empty /\
  (exists e, lookup read_all "s" "kda123a" (view c) = inr (Some e)) /\
  (upsert all_done "s" [] c).2 = inl exec_failed.
Proof. vm_compute. split_and!; try reflexivity. eexists. reflexivity. Qed.

(** The existence check takes an error for "no row"; if that error has
    aborted the transaction, the statements that follow commit one by one
    although the call throws. *)
Example aborted_read_breaks_atomicity :
  let bad := mkOutcomes (fun _ => Done) (fun _ => Aborted) in
  let '(c, r) := upsert bad "s" [sample_entry] (Conn_new Db_empty) in
  r = inl exec_failed /\ exists e, lookup read_all "s" "kda123a" (durable c) = inr (Some e).
Proof. vm_compute. split; [reflexivity|]. eexists. reflexivity. Qed.

(** Paging is complete and exact.  Whatever the page size, following
    the page tokens from the empty token visits every plate of the site
    exactly once, in increasing order, and no other plate. *)
Theorem paging_complete site page_size db (Hne : t_allow db !! (site, ""%string) = None) :
  let ps := map plate_text
              (walk_pages (S (length (site_plates site db))) site page_size "" db) in
  StronglySorted slt ps /\ forall p, p ∈ ps <-> is_Some (t_allow db !! (site, p)).
Proof.
  intros ps. pose proof (site_plates_spec site db) as [H1 H2].
  assert (Hps : ps = site_plates site db).
  { apply walk_pages_spec; [done | | by exists [] | lia].
    assert (Hall : Forall (slt "") (site_plates site db)).
    { apply Forall_forall. intros p Hp%H2. destruct p; [|done].
      destruct Hp as [r Hr]. by rewrite Hne in Hr. }
    clear -Hall. induction Hall as [|p l Hp _ IH]; [done|].
    rewrite filter_cons_True by done. by f_equal. }
  by rewrite Hps.
Qed.

Definition three_plates : Db :=
  upsert_effect "s" [mkEntry "b" "" "" [] None None [] "" "" None;
                     mkEntry "a" "" "" [4] None None [] "" "" None;
                     mkEntry "c" "" "" [] None None [] "" "" None] Db_empty.

Lemma paging_complete_witness :
  let ps := map plate_text (walk_pages (S (length (site_plates "s" three_plates))) "s" 2 ""
                              three_plates) in
  StronglySorted slt ps /\ forall p, p ∈ ps <-> is_Some (t_allow three_plates !! ("s", p)%string).
Proof. apply (paging_complete "s" 2 three_plates). vm_compute. reflexivity. Defined.

(** A page that is not the last one is returned before its classes and
    windows are read: the restricted plate "a" shows no restriction on the
    first of two pages and shows it when the page is the last one. *)
Example early_pages_lack_restrictions :
  map allowed_classes (entries (list_page "s" 1 "" three_plates)) = [[]] /\
  map allowed_classes (entries (list_page "s" 3 "" three_plates)) = [[4]; []; []].
Proof. split; vm_compute; reflexivity. Qed.

(** A failing read is taken for the end of the rows: the class restriction
    of an entry disappears and a blocklisted plate is not seen as one. *)
Example read_errors_open_up :
  let db := view (blocklist_upsert all_done 0 "s" "a" "stolen" (Conn_new three_plates)).1 in
  lookup (mkRead true (Some 0%nat) None) "s" "a" db
    = inr (Some (mkEntry "A" "" "" [] None None [] "" "" None)) /\
  is_blocklisted false "s" "a" db = false /\ is_blocklisted true "s" "a" db = true.
Proof. split_and!; vm_compute; reflexivity. Qed.
