(* ===== verification/Float32.v ===== *)
(** IEEE-754 binary32, as the server's [float] arithmetic uses it: the
    specification floats of the Standard Library at precision 24 and exponent
    bound 128, round to nearest even, without contraction of products and
    sums; and binary64, where the server accumulates in [double].  Shared by
    the fusion engine, the inference post-processing and the scenario
    reader. *)

From S2P Require Import Prelude.
From stdpp Require Import pretty.
From Stdlib Require Export Floats.SpecFloat.
Local Open Scope Z_scope.

Notation f32 := spec_float.

Definition fadd (x y : f32) : f32 := SFadd 24 128 x y.
Definition fmul (x y : f32) : f32 := SFmul 24 128 x y.
Definition flt (x y : f32) : bool := SFltb x y.
Definition fle (x y : f32) : bool := SFleb x y.

(** [std::max(a, b)]. *)
Definition fmax (a b : f32) : f32 := if flt a b then b else a.

Definition f_zero : f32 := S754_zero false.
Definition f_half : f32 := S754_finite false 8388608 (-24).      (* 0.5f *)
Definition f_minus_one : f32 := S754_finite true 8388608 (-23).  (* -1.0f *)
Definition f_0_7 : f32 := S754_finite false 11744051 (-24).      (* 0.7f *)

Definition fsub (x y : f32) : f32 := SFsub 24 128 x y.
Definition fdiv (x y : f32) : f32 := SFdiv 24 128 x y.

(** [std::min(a, b)] and [std::clamp(v, lo, hi)]. *)
Definition fmin (a b : f32) : f32 := if flt b a then b else a.
Definition fclamp (v lo hi : f32) : f32 := if flt v lo then lo else if flt hi v then hi else v.

(** Conversions from integers and between the two formats. *)
Definition f32_of_Z (z : Z) : f32 := binary_normalize 24 128 z 0 false.
Definition f64_of_Z (z : Z) : spec_float := binary_normalize 53 1024 z 0 false.
Definition convert (prec emax : Z) (x : spec_float) : spec_float :=
  match x with
  | S754_finite s m e => binary_normalize prec emax (cond_Zopp s (Zpos m)) e s
  | _ => x
  end.
Definition f64_of_f32 : f32 -> spec_float := convert 53 1024.
Definition f32_of_f64 : spec_float -> f32 := convert 24 128.
Definition dadd (x y : spec_float) : spec_float := SFadd 53 1024 x y.
Definition ddiv (x y : spec_float) : spec_float := SFdiv 53 1024 x y.

(** [static_cast<int>] of a rounded value: undefined outside [int]. *)
Definition to_int (z : Z) : option Z :=
  if (- 2 ^ 31 <=? z) && (z <? 2 ^ 31) then Some z else None.

(** [std::floor], [std::ceil] and [std::round] (half away from zero), as
    integers; [None] on an infinity or NaN. *)
Definition f_floor (x : f32) : option Z :=
  match x with
  | S754_zero _ => Some 0
  | S754_finite s m e =>
      let z := cond_Zopp s (Zpos m) in
      Some (if 0 <=? e then z * 2 ^ e else z / 2 ^ (- e))
  | _ => None
  end.
Definition f_ceil (x : f32) : option Z := Z.opp <$> f_floor (SFopp x).
Definition f_round (x : f32) : option Z :=
  match x with
  | S754_zero _ => Some 0
  | S754_finite s m e =>
      Some (if 0 <=? e then cond_Zopp s (Zpos m) * 2 ^ e
            else cond_Zopp s ((2 * Zpos m + 2 ^ (- e)) / (2 * 2 ^ (- e))))
  | _ => None
  end.

Definition is_nan (x : f32) : bool := match x with S754_nan => true | _ => false end.

(** [x < y] is transitive, NaN included. *)
Lemma flt_trans x y z : flt x y = true -> flt y z = true -> flt x z = true.
Proof.
  unfold flt, SFltb, SFcompare.
  destruct x as [[]|[]| |[] mx ex], y as [[]|[]| |[] my ey], z as [[]|[]| |[] mz ez]; try done.
  - destruct (Z.compare_spec ex ey); destruct (Z.compare_spec ey ez); subst; try done;
      intros H1 H2.
    + rewrite Z.compare_refl.
      change (PosDef.Pos.compare_cont Eq) with Pos.compare in *.
      destruct (Pos.compare_spec mx my); try done. destruct (Pos.compare_spec my mz); try done.
      destruct (Pos.compare_spec mx mz); try done; lia.
    + by rewrite (proj2 (Z.compare_gt_iff ey ez)) by lia.
    + by rewrite (proj2 (Z.compare_gt_iff ex ez)) by lia.
    + by rewrite (proj2 (Z.compare_gt_iff ex ez)) by lia.
  - destruct (Z.compare_spec ex ey); destruct (Z.compare_spec ey ez); subst; try done;
      intros H1 H2.
    + rewrite Z.compare_refl.
      change (PosDef.Pos.compare_cont Eq) with Pos.compare in *.
      destruct (Pos.compare_spec mx my); try done. destruct (Pos.compare_spec my mz); try done.
      destruct (Pos.compare_spec mx mz); try done; lia.
    + by rewrite (proj2 (Z.compare_lt_iff ey ez)) by lia.
    + by rewrite (proj2 (Z.compare_lt_iff ex ez)) by lia.
    + by rewrite (proj2 (Z.compare_lt_iff ex ez)) by lia.
Qed.

Lemma flt_irrefl x : flt x x = false.
Proof.
  unfold flt, SFltb, SFcompare. destruct x as [[]|[]| |[] m e]; try done;
    rewrite Z.compare_refl; change (PosDef.Pos.compare_cont Eq m m) with (Pos.compare m m);
    by rewrite Pos.compare_refl.
Qed.

(** Away from NaN, [<] is a strict weak order. *)
Lemma flt_negtrans x y z :
  is_nan y = false -> flt x z = true -> flt x y = true \/ flt y z = true.
Proof.
  unfold flt, SFltb, SFcompare.
  destruct x as [[]|[]| |[] mx ex], y as [[]|[]| |[] my ey], z as [[]|[]| |[] mz ez];
    try (by auto); intros _;
    change (PosDef.Pos.compare_cont Eq) with Pos.compare in *.
  all: destruct (Z.compare_spec ex ez); destruct (Z.compare_spec ex ey);
    destruct (Z.compare_spec ey ez); subst; try done; try lia; try (by auto);
    destruct (Pos.compare_spec mx mz); destruct (Pos.compare_spec mx my);
    destruct (Pos.compare_spec my mz); subst; try done; try lia; by auto.
Qed.

Lemma fle_nlt x y : is_nan x = false -> is_nan y = false -> fle x y = negb (flt y x).
Proof.
  unfold fle, flt, SFleb, SFltb, SFcompare. change (PosDef.Pos.compare_cont Eq) with Pos.compare.
  destruct x as [[]|[]| |[] mx ex], y as [[]|[]| |[] my ey]; try done; intros _ _;
    rewrite (Z.compare_antisym ex ey), (Pos.compare_antisym mx my);
    destruct (ex ?= ey), (mx ?= my)%positive; done.
Qed.

(** Rounding an exact value never gives NaN. *)
Lemma iter_pos_inv {A} (f : A -> A) (P : A -> Prop) n x :
  (forall x, P x -> P (f x)) -> P x -> P (iter_pos f n x).
Proof. intros Hf. revert x. induction n; intros x Hx; cbn [iter_pos]; auto. Qed.

Lemma shr_fexp_pos prec emax m e l : 0 <= m -> 0 <= shr_m (shr_fexp prec emax m e l).1.
Proof.
  intros Hm. unfold shr_fexp, shr.
  assert (0 <= shr_m (shr_record_of_loc m l)) by (destruct l as [|[]]; done).
  destruct (_ - e); try done. cbn [fst]. apply (iter_pos_inv shr_1 (fun r => 0 <= shr_m r)); [|done].
  intros [[|[]|] r s0] Hx; cbn in *; lia.
Qed.

Lemma binary_normalize_not_nan prec emax z e s : is_nan (binary_normalize prec emax z e s) = false.
Proof.
  assert (H : forall sx m e, is_nan (binary_round prec emax sx m e) = false).
  { clear. intros sx m e. unfold binary_round, binary_round_aux.
    destruct (shl_align _ _ _) as [mz ez].
    pose proof (shr_fexp_pos prec emax (Zpos mz) ez loc_Exact ltac:(lia)) as H1.
    destruct (shr_fexp _ _ (Zpos mz) _ _) as [r1 e1]. cbn [fst] in H1.
    assert (H2 : 0 <= round_nearest_even (shr_m r1) (loc_of_shr_record r1)).
    { unfold round_nearest_even. repeat case_match; lia. }
    pose proof (shr_fexp_pos prec emax _ e1 loc_Exact H2) as H3.
    destruct (shr_fexp _ _ (round_nearest_even _ _) _ _) as [r2 e2]. cbn [fst] in H3.
    destruct (shr_m r2); [done | by case_match | lia]. }
  destruct z; cbn [binary_normalize]; [done | apply H | apply H].
Qed.

(** *** [printf("%.3f")] *)

(** The magnitude in thousandths, rounded to nearest, ties to even. *)
Definition thousandths (m : positive) (e : Z) : Z :=
  if 0 <=? e then Zpos m * 2 ^ e * 1000
  else
    let n := Zpos m * 1000 in
    let d := 2 ^ (- e) in
    let q := n / d in
    let r := n mod d in
    if (2 * r <? d) || ((2 * r =? d) && Z.even q) then q else q + 1.

Definition pad3 (n : Z) : string :=
  if n <? 10 then ("00" +:+ pretty n) else if n <? 100 then ("0" +:+ pretty n) else pretty n.

Definition fmt_3f (x : f32) : string :=
  let sgn (s : bool) : string := if s then "-" else "" in
  match x with
  | S754_nan => "nan"
  | S754_infinity s => sgn s +:+ "inf"
  | S754_zero s => sgn s +:+ "0.000"
  | S754_finite s m e =>
      let t := thousandths m e in
      sgn s +:+ pretty (t / 1000) +:+ "." +:+ pad3 (t mod 1000)
  end.

Example fmt_half : fmt_3f f_half = "0.500"%string.
Proof. reflexivity. Qed.

Example fmt_0_7 : fmt_3f f_0_7 = "0.700"%string.
Proof. reflexivity. Qed.
