(* ===== verification/FusionEngine.v ===== *)
(** The authorisation decision (src/server/fusion: fusion_engine.hpp and
    .cpp).  The engine sees the allowlist store through the interface
    [AuthStore]; AllowlistStore discharges it. *)

From S2P Require Import Prelude Float32 AllowlistStore.
Local Open Scope Z_scope.

(** ** Messages *)

Inductive AuthVerdict :=
| VERDICT_UNSPECIFIED | AUTHORIZED | DENIED | LOW_CONFIDENCE | MANUAL_REVIEW.

Inductive DenyReason :=
| DENY_NONE | BLOCKLISTED | NOT_ON_ALLOWLIST | OUTSIDE_WINDOW | FORCE_CLOSE
| LOW_ALPR_CONF | LOW_LIDAR_CONF | CLASS_MISMATCH | NO_PLATE_FOUND | DUPLICATE_ENTRY.

#[export] Instance AuthVerdict_eq_dec : EqDecision AuthVerdict.
Proof. solve_decision. Defined.
#[export] Instance DenyReason_eq_dec : EqDecision DenyReason.
Proof. solve_decision. Defined.

Record PlateDetection := mkPlate {
  pd_plate_text : string; detection_conf : f32; ocr_conf : f32;
}.

Record VehicleDetection := mkVehicle { vehicle_class : Z; class_conf : f32 }.

Record DetectionFrame := mkFrame {
  df_gate_id : string; df_frame_id : Z;
  plates : list PlateDetection; vehicles : list VehicleDetection;
}.

Record AuthorizeRequest := mkRequest {
  frame_ : DetectionFrame; site_id : string; override_allowlist : bool; ar_actor : string;
}.

Record AuthDecision := mkDecision {
  decision_id : string; decision_ts : Z; ad_gate_id : string;
  verdict : AuthVerdict; deny_reason : DenyReason;
  matched_plate : string; matched_class : Z; combined_conf : f32;
  reason_text : string; ad_frame_id : Z; ad_actor : string;
}.

Definition VEHICLE_CLASS_UNKNOWN : Z := 0.

(** ** The store, as the engine uses it *)

Class AuthStore (S : Type) := {
  (** [is_blocklisted(site, plate)]. *)
  st_blocklisted : S -> string -> string -> bool;
  (** [lookup(site, plate)]; [inl] is a thrown [AuthDbException]. *)
  st_lookup : S -> string -> string -> string + option Allowlistentry;
}.

(** The SQLite store: the tables its connection sees, and how its reads end. *)
#[export] Instance db_store : AuthStore (Db * bool * ReadOutcome) := {|
  st_blocklisted '(db, ok, _) := fun site plate => is_blocklisted ok site plate db;
  st_lookup '(db, _, o) := fun site plate => lookup o site plate db;
|}.

(** ** The engine *)

Record FusionConfig := mkFusionConfig {
  alpr_weight : f32; lidar_weight : f32; min_combined_threshold : f32;
  lidar_missing_confidence : f32;
}.

Definition FusionConfig_default : FusionConfig := mkFusionConfig f_half f_half f_0_7 f_zero.

Inductive OverrideState := kNone | kForceOpen | kForceClose.

#[export] Instance OverrideState_eq_dec : EqDecision OverrideState.
Proof. solve_decision. Defined.

Record FusionEngine := mkEngine {
  fe_cfg : FusionConfig;
  overrides_ : gmap string OverrideState;
}.

(** [FusionEngine::set_override]. *)
Definition set_override (gate : string) (s : OverrideState) (e : FusionEngine) : FusionEngine :=
  mkEngine (fe_cfg e)
    (match s with kNone => delete gate (overrides_ e) | _ => <[gate := s]> (overrides_ e) end).

(** [FusionEngine::override_for]. *)
Definition override_for (e : FusionEngine) (gate : string) : OverrideState :=
  default kNone (overrides_ e !! gate).

(** [fold_alpr_confidence]. *)
Definition fold_alpr_confidence (p : PlateDetection) : f32 :=
  let det := fmax (detection_conf p) f_zero in
  let ocr := fmax (ocr_conf p) f_zero in
  fadd (fmul f_half det) (fmul f_half ocr).

(** The loop shared by [pick_best_plate] and [pick_best_vehicle]; [None]
    is the index -1. *)
Fixpoint pick_loop (scores : list f32) (i : nat) (best : option nat) (best_score : f32)
    : option nat :=
  match scores with
  | [] => best
  | s :: scores =>
      if flt best_score s then pick_loop scores (S i) (Some i) s
      else pick_loop scores (S i) best best_score
  end.

Definition pick_best (scores : list f32) : option nat := pick_loop scores 0 None f_minus_one.

Definition pick_best_plate (req : AuthorizeRequest) : option nat :=
  pick_best (map detection_conf (plates (frame_ req))).
Definition pick_best_vehicle (req : AuthorizeRequest) : option nat :=
  pick_best (map class_conf (vehicles (frame_ req))).

(** [class_in_allowlist]. *)
Definition class_in_allowlist (e : Allowlistentry) (cls : Z) : bool :=
  match allowed_classes e with [] => true | cs => existsb (fun c => c =? cls) cs end.

(** The text of a low-confidence verdict, in a 128-byte buffer. *)
Definition low_conf_text (combined threshold alpr lidar : f32) : string :=
  string_take 127
    ("combined confidence " +:+ fmt_3f combined +:+ " below threshold " +:+ fmt_3f threshold +:+
     " (alpr=" +:+ fmt_3f alpr +:+ ", lidar=" +:+ fmt_3f lidar +:+ ")").

Section engine.
Context {S : Type} `{!AuthStore S}.

(** [FusionEngine::decide_at]; [uuid] is the generated decision id. *)
Definition decide_at (e : FusionEngine) (st : S) (uuid : string) (req : AuthorizeRequest)
    (now_unix : Z) (now_local : Tm) : string + AuthDecision :=
  let f := frame_ req in
  let conclude v d plate cls conf text :=
    inr (mkDecision uuid now_unix (df_gate_id f) v d plate cls conf text
           (df_frame_id f) (ar_actor req)) in
  let override_state := override_for e (df_gate_id f) in
  if decide_rel (=) override_state kForceClose
  then conclude DENIED FORCE_CLOSE "" 0 f_zero "force-close lockdown active"
  else
    match pick_best_plate req ≫= (fun i => plates f !! i) with
    | None => conclude DENIED NO_PLATE_FOUND "" 0 f_zero "no plate detected in frame"
    | Some plate =>
        let normalized := normalize_plate (pd_plate_text plate) in
        let '(lidar_conf, cls) :=
          match pick_best_vehicle req ≫= (fun i => vehicles f !! i) with
          | Some vd => (class_conf vd, vehicle_class vd)
          | None => (lidar_missing_confidence (fe_cfg e), VEHICLE_CLASS_UNKNOWN)
          end in
        let alpr_conf := fold_alpr_confidence plate in
        let combined := fadd (fmul (alpr_weight (fe_cfg e)) alpr_conf)
                             (fmul (lidar_weight (fe_cfg e)) lidar_conf) in
        if decide_rel (=) override_state kForceOpen
        then conclude AUTHORIZED DENY_NONE normalized cls combined "force-open override active"
        else if flt combined (min_combined_threshold (fe_cfg e))
        then conclude LOW_CONFIDENCE
               (if fle alpr_conf lidar_conf then LOW_ALPR_CONF else LOW_LIDAR_CONF)
               normalized cls combined
               (low_conf_text combined (min_combined_threshold (fe_cfg e)) alpr_conf lidar_conf)
        else if st_blocklisted st (site_id req) normalized
        then conclude DENIED BLOCKLISTED normalized cls combined "plate is blocklisted"
        else if override_allowlist req
        then conclude AUTHORIZED DENY_NONE normalized cls combined
               "guard manual override (allowlist bypassed)"
        else
          match st_lookup st (site_id req) normalized with
          | inl err => inl err
          | inr None =>
              conclude DENIED NOT_ON_ALLOWLIST normalized cls combined "plate not on allowlist"
          | inr (Some entry) =>
              if negb (is_allowed_now entry cls now_unix now_local) then
                if negb (class_in_allowlist entry cls)
                then conclude MANUAL_REVIEW CLASS_MISMATCH normalized cls combined
                       "plate match but vehicle class not permitted"
                else conclude DENIED OUTSIDE_WINDOW normalized cls combined
                       "plate match but outside allowed time window"
              else conclude AUTHORIZED DENY_NONE normalized cls combined "plate + class match"
          end
    end%string.
End engine.

(** [generate_uuidv4] on the sixteen random bytes. *)
Definition hex_char (n : Z) : Ascii.ascii :=
  Ascii.ascii_of_N (Z.to_N (if n <? 10 then 48 + n else 87 + n)).
Definition hex2 (b : Z) : string := String (hex_char (b / 16)) (String (hex_char (b mod 16)) "").

Definition generate_uuidv4 (b : list Z) : string :=
  let b := <[6%nat := Z.lor (Z.land (b !!! 6%nat) 15) 64]> b in
  let b := <[8%nat := Z.lor (Z.land (b !!! 8%nat) 63) 128]> b in
  let h := fun i => hex2 (b !!! i) in
  (h 0%nat +:+ h 1%nat +:+ h 2%nat +:+ h 3%nat +:+ "-" +:+ h 4%nat +:+ h 5%nat +:+ "-" +:+
   h 6%nat +:+ h 7%nat +:+ "-" +:+ h 8%nat +:+ h 9%nat +:+ "-" +:+
   h 10%nat +:+ h 11%nat +:+ h 12%nat +:+ h 13%nat +:+ h 14%nat +:+ h 15%nat).

(** ** Lemmas *)

(** The loop keeps the index of a score that nothing seen so far beats. *)
Lemma pick_loop_spec scores seen best bs i :
  pick_loop scores (length seen) best bs = Some i ->
  (forall j t, seen !! j = Some t -> flt bs t = false) ->
  (forall k, best = Some k -> seen !! k = Some bs) ->
  (best = None -> bs = f_minus_one) -> (flt f_minus_one bs = true \/ bs = f_minus_one) ->
  exists s, (seen ++ scores) !! i = Some s /\
    forall j t, (seen ++ scores) !! j = Some t -> flt s t = false.
Proof.
  revert seen best bs. induction scores as [|s scores IH]; intros seen best bs Hp Hbest Hk Hn Hm;
    cbn [pick_loop] in Hp.
  { subst best. rewrite app_nil_r. exists bs. split; [by apply Hk | done]. }
  assert (Hsnoc : seen ++ s :: scores = (seen ++ [s]) ++ scores) by (by rewrite <- app_assoc).
  rewrite Hsnoc. replace (S (length seen)) with (length (seen ++ [s])) in Hp
    by (rewrite length_app; simpl; lia).
  destruct (flt bs s) eqn:Hlt; eapply IH; try exact Hp.
  - intros j t [Hj|[-> <-]]%lookup_snoc_Some; [|apply flt_irrefl].
    destruct (flt s t) eqn:Hst; [|done].
    pose proof (flt_trans _ _ _ Hlt Hst) as Hc. by rewrite (Hbest j t) in Hc by apply Hj.
  - intros k [= <-]. by rewrite lookup_app_r, Nat.sub_diag by done.
  - done.
  - left. destruct Hm as [Hm | ->]; [by eapply flt_trans | done].
  - intros j t [Hj|[-> <-]]%lookup_snoc_Some; [by apply (Hbest j), Hj | done].
  - intros k Hb. rewrite lookup_app_l; [by apply Hk|]. by eapply lookup_lt_Some, Hk.
  - done.
  - done.
Qed.

Lemma pick_loop_none scores i best bs :
  pick_loop scores i best bs = None -> best = None /\ Forall (fun s => flt bs s = false) scores.
Proof.
  revert i best bs. induction scores as [|s scores IH]; intros i best bs Hp; cbn [pick_loop] in Hp;
    [done|].
  destruct (flt bs s) eqn:Hlt; apply IH in Hp as [Hb Hf]; [done|]. split; [done|]. by constructor.
Qed.

(** The two copies of the class test agree. *)
Lemma class_tests_agree e cls : class_in_allowlist e cls = class_allowed e cls.
Proof.
  unfold class_in_allowlist, class_allowed. destruct (allowed_classes e) as [|c cs]; [done|].
  induction (c :: cs) as [|x l IH]; [done|]. simpl. by rewrite IH, (Z.eqb_sym x cls).
Qed.

(** A branch of the ladder that refuses, or admits plate [p]. *)
Ltac refused Hd :=
  injection Hd as <-; cbn [verdict]; split; [discriminate|];
  intros (? & p' & ? & [?|(? & ? & [?|(? & ? & ?)])]); simplify_eq/=; congruence.
Ltac admitted Hd p :=
  injection Hd as <-; cbn [verdict]; split; [intros _|done]; split; [congruence|];
  exists p; split; [done|].

Section properties.
Context {S : Type} `{!AuthStore S}.

(** The engine's view of a request: the plate it uses, the vehicle class and
    the combined confidence. *)
Definition best_plate (req : AuthorizeRequest) : option PlateDetection :=
  pick_best_plate req ≫= fun i => plates (frame_ req) !! i.
Definition best_class (req : AuthorizeRequest) : Z :=
  match pick_best_vehicle req ≫= fun i => vehicles (frame_ req) !! i with
  | Some vd => vehicle_class vd | None => VEHICLE_CLASS_UNKNOWN end.
Definition best_lidar (c : FusionConfig) (req : AuthorizeRequest) : f32 :=
  match pick_best_vehicle req ≫= fun i => vehicles (frame_ req) !! i with
  | Some vd => class_conf vd | None => lidar_missing_confidence c end.
Definition combined_for (c : FusionConfig) (req : AuthorizeRequest) (p : PlateDetection) : f32 :=
  fadd (fmul (alpr_weight c) (fold_alpr_confidence p)) (fmul (lidar_weight c) (best_lidar c req)).

(** The condition of an authorisation, shared with the RPC handlers. *)
Lemma authorized_cond e (st : S) uuid req now tm d
    (Hd : decide_at e st uuid req now tm = inr d) :
  let ov := override_for e (df_gate_id (frame_ req)) in
  verdict d = AUTHORIZED <->
  ov <> kForceClose /\
  exists p, best_plate req = Some p /\
    (ov = kForceOpen \/
     (flt (combined_for (fe_cfg e) req p) (min_combined_threshold (fe_cfg e)) = false /\
      st_blocklisted st (site_id req) (normalize_plate (pd_plate_text p)) = false /\
      (override_allowlist req = true \/
       exists entry, st_lookup st (site_id req) (normalize_plate (pd_plate_text p))
                     = inr (Some entry) /\
         is_allowed_now entry (best_class req) now tm = true))).
Proof.
  unfold decide_at in Hd. fold (best_plate req) in Hd.
  set (ov := override_for _ _) in *. clearbody ov. cbv zeta in *.
  destruct (decide_rel (=) ov kForceClose) as [->|Hnc]; [refused Hd|].
  destruct (best_plate req) as [p|]; [|refused Hd].
  unfold combined_for, best_lidar, best_class.
  destruct (pick_best_vehicle req ≫= _) as [vd|];
    (destruct (decide_rel (=) ov kForceOpen) as [->|Hno]; [admitted Hd p; by left|];
     destruct (flt _ _) eqn:Hf; [refused Hd|];
     destruct (st_blocklisted _ _ _) eqn:Hb; [refused Hd|];
     destruct (override_allowlist req); [admitted Hd p; naive_solver|];
     destruct (st_lookup _ _ _) as [|[entry|]] eqn:Hl; [done| |refused Hd];
     destruct (is_allowed_now _ _ _ _) eqn:Ha; cbn [negb] in Hd;
     [admitted Hd p; right; split_and!; eauto|];
     destruct (class_in_allowlist _ _); cbn [negb] in Hd; refused Hd).
Qed.

(** C9: Who gets in.  A decision authorises exactly when there is no
    lockdown, a plate was seen, and either the gate is forced open, or the
    combined confidence reaches the threshold, the plate is not blocklisted,
    and the guard overrides or an allowlist entry admits this vehicle now.
    In particular a forced-open gate admits a blocklisted plate. *)
Theorem authorized_iff e (st : S) uuid req now tm d
    (Hd : decide_at e st uuid req now tm = inr d) :
  let ov := override_for e (df_gate_id (frame_ req)) in
  verdict d = AUTHORIZED <->
  ov <> kForceClose /\
  exists p, best_plate req = Some p /\
    (ov = kForceOpen \/
     (flt (combined_for (fe_cfg e) req p) (min_combined_threshold (fe_cfg e)) = false /\
      st_blocklisted st (site_id req) (normalize_plate (pd_plate_text p)) = false /\
      (override_allowlist req = true \/
       exists entry, st_lookup st (site_id req) (normalize_plate (pd_plate_text p))
                     = inr (Some entry) /\
         is_allowed_now entry (best_class req) now tm = true))).
Proof. exact (authorized_cond e st uuid req now tm d Hd). Qed.

(** Every refusal says why.  An authorised decision carries no deny
    reason; every other decision carries one, of the kind its verdict
    allows; a manual review means the entry was found, the class is not
    permitted, and nothing else is reported as a class mismatch; the request
    is echoed in the decision. *)
Theorem refusals_are_explained e (st : S) uuid req now tm d
    (Hd : decide_at e st uuid req now tm = inr d) :
  decision_id d = uuid /\ ad_gate_id d = df_gate_id (frame_ req) /\
  ad_frame_id d = df_frame_id (frame_ req) /\ ad_actor d = ar_actor req /\
  match verdict d with
  | AUTHORIZED => deny_reason d = DENY_NONE
  | LOW_CONFIDENCE => deny_reason d = LOW_ALPR_CONF \/ deny_reason d = LOW_LIDAR_CONF
  | MANUAL_REVIEW =>
      deny_reason d = CLASS_MISMATCH /\
      exists entry, st_lookup st (site_id req) (matched_plate d) = inr (Some entry) /\
        class_allowed entry (matched_class d) = false
  | DENIED => deny_reason d ∈
      [FORCE_CLOSE; NO_PLATE_FOUND; BLOCKLISTED; NOT_ON_ALLOWLIST; OUTSIDE_WINDOW]
  | VERDICT_UNSPECIFIED => False
  end.
Proof.
  revert Hd. unfold decide_at. fold (best_plate req).
  set (ov := override_for _ _). clearbody ov. cbv zeta.
  destruct (decide_rel (=) ov kForceClose); [intros [= <-]; cbn; set_solver|].
  destruct (best_plate req) as [p|]; [|intros [= <-]; cbn; set_solver].
  destruct (match pick_best_vehicle req ≫= _ with Some _ => _ | None => _ end) as [lc cls].
  destruct (decide_rel (=) ov kForceOpen); [intros [= <-]; done|].
  destruct (flt _ _); [intros [= <-]; cbn; destruct (fle _ _); by split_and!; auto|].
  destruct (st_blocklisted st (site_id req) (normalize_plate (pd_plate_text p)));
    [intros [= <-]; cbn; set_solver|].
  destruct (override_allowlist req); [intros [= <-]; done|].
  destruct (st_lookup st (site_id req) (normalize_plate (pd_plate_text p)))
    as [|[entry|]] eqn:Hl; [done| |intros [= <-]; cbn; set_solver].
  destruct (is_allowed_now _ _ _ _); cbn [negb]; [intros [= <-]; done|].
  destruct (class_in_allowlist _ _) eqn:Hc; cbn [negb]; intros [= <-]; cbn.
  - set_solver.
  - rewrite class_tests_agree in Hc. split_and!; try done. eauto.
Qed.

(** The best detection is used.  When a frame has a usable detection
    the engine picks one that no other detection's confidence exceeds; it
    reports none exactly when no confidence exceeds -1 (an empty frame, or
    only NaN or absurd scores). *)
Theorem best_detection_wins (scores : list f32) :
  match pick_best scores with
  | Some i => exists s, scores !! i = Some s /\
                forall j t, scores !! j = Some t -> flt s t = false
  | None => Forall (fun s => flt f_minus_one s = false) scores
  end.
Proof.
  unfold pick_best. destruct (pick_loop scores 0 None f_minus_one) as [i|] eqn:E.
  - apply (pick_loop_spec scores [] None f_minus_one i E); [done | done | done | by right].
  - by apply pick_loop_none in E as [_ H].
Qed.
End properties.

(** ** Decisions on a concrete store *)

Definition f_one : f32 := S754_finite false 8388608 (-23).

(** The plate of [sample_entry] (AllowlistStore), seen with a sedan. *)
Definition sample_request : AuthorizeRequest :=
  mkRequest (mkFrame "g" 7 [mkPlate "kda 123-a" f_one f_one] [mkVehicle 4 f_one]) "s" false "auto".

Definition sample_store : Db * bool * ReadOutcome :=
  (view (upsert all_done "s" [sample_entry] (Conn_new Db_empty)).1, true, read_all).

(** Wednesday 10:30, inside the 10:00 to 12:00 weekday window. *)
Definition wednesday : Tm := mkTm 10 30 3.

Definition plain_engine : FusionEngine := mkEngine FusionConfig_default ∅.

Definition sample_decision : AuthDecision :=
  mkDecision "id" 200 "g" AUTHORIZED DENY_NONE "KDA123A" 4 f_one "plate + class match" 7 "auto".

Lemma authorized_iff_witness :
  decide_at plain_engine sample_store "id" sample_request 200 wednesday = inr sample_decision /\
  exists p, best_plate sample_request = Some p.
Proof.
  assert (Hd : decide_at plain_engine sample_store "id" sample_request 200 wednesday
               = inr sample_decision) by (vm_compute; reflexivity).
  split; [exact Hd|].
  destruct (proj1 (authorized_iff plain_engine sample_store "id" sample_request 200 wednesday
                     sample_decision Hd) eq_refl) as (_ & p & Hp & _).
  exists p. exact Hp.
Defined.

(** The same plate on a truck goes to manual review. *)
Definition truck_request : AuthorizeRequest :=
  mkRequest (mkFrame "g" 8 [mkPlate "KDA123A" f_one f_one] [mkVehicle 8 f_one]) "s" false "auto".

Lemma refusals_are_explained_witness :
  exists d, decide_at plain_engine sample_store "id" truck_request 200 wednesday = inr d /\
    verdict d = MANUAL_REVIEW /\ ad_frame_id d = 8.
Proof.
  exists (mkDecision "id" 200 "g" MANUAL_REVIEW CLASS_MISMATCH "KDA123A" 8 f_one
            "plate match but vehicle class not permitted" 8 "auto").
  assert (Hd : decide_at plain_engine sample_store "id" truck_request 200 wednesday
    = inr (mkDecision "id" 200 "g" MANUAL_REVIEW CLASS_MISMATCH "KDA123A" 8 f_one
            "plate match but vehicle class not permitted" 8 "auto")) by (vm_compute; reflexivity).
  split; [exact Hd|]. split; [reflexivity|].
  exact (proj1 (proj2 (proj2 (refusals_are_explained _ _ _ _ _ _ _ Hd)))).
Defined.

(** The forced-open gate admits a blocklisted plate seen with no confidence. *)
Example force_open_beats_blocklist :
  match decide_at (set_override "g" kForceOpen plain_engine)
          (view (blocklist_upsert all_done 0 "s" "KDA123A" "stolen" (Conn_new Db_empty)).1, true, read_all) "id"
          (mkRequest (mkFrame "g" 9 [mkPlate "KDA123A" f_zero f_zero] []) "s" false "auto")
          200 wednesday with
  | inr d => verdict d = AUTHORIZED /\ combined_conf d = f_zero
  | inl _ => False
  end.
Proof. vm_compute. done. Qed.
