(* ===== verification/EventBroadcaster.v ===== *)
(** The fan-out hub of dashboard events (src/server/dash:
    event_broadcaster.hpp and .cpp): the replay ring, the subscriber queues,
    and the publishers, subscribers and readers that run against them.

    A method that takes the hub's mutex and then each subscriber's is split
    at its lock boundaries; [exec] runs one such piece, and a list of labels
    is one interleaving of any number of threads.  The fields [log],
    [sub_offered], [sub_taken], [sub_replayed] and [sub_joined] are history:
    no operation reads them. *)

From S2P Require Import Prelude Float32 ControlClient FusionEngine.
Local Open Scope Z_scope.

(** ** Messages *)

Record FaultEvent := mkFault {
  fault_id : string; occurred_ts : option Timestamp; fe_gate_id : string; severity : Z;
  fault_code : string; fault_description : string; fault_context : gmap string string;
}.

Record OtaProgress := mkOtaProgress {
  op_command_id : string; bytes_received : Z; bytes_total : Z; ota_phase : Z; op_message : string;
}.

(** The messages of the firmware, with the fields only the server uses. *)
Record TelemetryMsg := mkTelemetryMsg {
  tm_base : Telemetry; tm_rssi_dbm : Z; tm_supply_voltage_v : f32; tm_core_temp_c : f32;
  tm_firmware_sha256 : string;
}.

Record GateCommandMsg := mkCommandMsg {
  cm_base : GateCommand; cm_issued_ts : option Timestamp; cm_gate_id : string;
  cm_duration : option Timestamp; cm_relay_index : Z; cm_signature : string;
}.

Inductive Payload :=
| kDecision (d : AuthDecision)
| kTelemetry (t : TelemetryMsg)
| kFault (f : FaultEvent)
| kOta (p : OtaProgress)
| kCommand (c : GateCommandMsg)
| kAck (a : CommandAck)
| PAYLOAD_NOT_SET.

Record DashboardEvent := mkEvent {
  event_id : Z; event_ts : option Timestamp; payload : Payload;
}.

Record DashboardSubscription := mkFilter {
  f_site_id : string; f_gate_ids : list string;
  include_decisions : bool; include_telemetry : bool; include_faults : bool; include_ota : bool;
  since_event_id : Z;
}.

Record EventEnvelope := mkEnv {
  env_site_id : string; env_gate_id : string; env_event : DashboardEvent;
}.

(** [filter_matches]. *)
Definition filter_matches (f : DashboardSubscription) (site gate : string)
    (e : DashboardEvent) : bool :=
  if negb (String.eqb (f_site_id f) "") && negb (String.eqb (f_site_id f) site) then false
  else if negb (bool_decide (f_gate_ids f = [])) && negb (existsb (String.eqb gate) (f_gate_ids f))
  then false
  else if negb (include_decisions f || include_telemetry f || include_faults f || include_ota f)
  then true
  else match payload e with
       | kDecision _ => include_decisions f
       | kTelemetry _ => include_telemetry f
       | kFault _ => include_faults f
       | kOta _ => include_ota f
       | kCommand _ | kAck _ => true
       | PAYLOAD_NOT_SET => false
       end.

Definition matches (f : DashboardSubscription) (v : EventEnvelope) : bool :=
  filter_matches f (env_site_id v) (env_gate_id v) (env_event v).

(** ** Subscriptions *)

(** [Subscription::Impl]; [sub_owned] says that a [Subscription] handle
    still holds it. *)
Record Sub := mkSub {
  sub_queue : list DashboardEvent;
  sub_filter : DashboardSubscription;
  sub_capacity : nat;
  sub_dropped : Z;
  sub_closed : bool;
  sub_owned : bool;
  sub_offered : list DashboardEvent;
  sub_taken : list DashboardEvent;
  sub_replayed : list DashboardEvent;
  sub_joined : nat;
}.

Definition Sub_new (f : DashboardSubscription) (cap joined : nat) : Sub :=
  mkSub [] f cap 0 false true [] [] [] joined.

(** [Subscription::Impl::push_locked]. *)
Definition push_locked (e : DashboardEvent) (s : Sub) : Sub :=
  let full := (0 <? sub_capacity s)%nat && (sub_capacity s <=? length (sub_queue s))%nat in
  mkSub ((if full then drop 1 (sub_queue s) else sub_queue s) ++ [e])
    (sub_filter s) (sub_capacity s)
    (if full then u64 (sub_dropped s + 1) else sub_dropped s)
    (sub_closed s) (sub_owned s) (sub_offered s ++ [e]) (sub_taken s) (sub_replayed s)
    (sub_joined s).

(** [Subscription::next], once the wait is over. *)
Definition next (s : Sub) : option DashboardEvent * Sub :=
  match sub_queue s with
  | [] => (None, s)
  | e :: q =>
      (Some e, mkSub q (sub_filter s) (sub_capacity s) (sub_dropped s) (sub_closed s)
                 (sub_owned s) (sub_offered s) (sub_taken s ++ [e]) (sub_replayed s)
                 (sub_joined s))
  end.

(** [Subscription::drain_now]. *)
Definition drain_now (s : Sub) : list DashboardEvent * Sub :=
  (sub_queue s,
   mkSub [] (sub_filter s) (sub_capacity s) (sub_dropped s) (sub_closed s) (sub_owned s)
     (sub_offered s) (sub_taken s ++ sub_queue s) (sub_replayed s) (sub_joined s)).

(** [Subscription::close]. *)
Definition close (s : Sub) : Sub :=
  mkSub (sub_queue s) (sub_filter s) (sub_capacity s) (sub_dropped s) true (sub_owned s)
    (sub_offered s) (sub_taken s) (sub_replayed s) (sub_joined s).

(** [Subscription::~Subscription]: closes, then releases the shared object. *)
Definition destroy (s : Sub) : Sub :=
  let s := close s in
  mkSub (sub_queue s) (sub_filter s) (sub_capacity s) (sub_dropped s) (sub_closed s) false
    (sub_offered s) (sub_taken s) (sub_replayed s) (sub_joined s).

(** ** The hub *)

(** [EventBroadcaster::Impl]; [subs] holds weak references into [heap]. *)
Record Hub := mkHub {
  ring : list EventEnvelope;
  ring_capacity : nat;
  per_sub_capacity : nat;
  next_event_id : Z;
  subs : list nat;
  stopped : bool;
  heap : list Sub;
  log : list EventEnvelope;
}.

Definition Hub_new (rc pc : nat) : Hub := mkHub [] rc pc 1 [] false [] [].

Definition with_subs (l : list nat) (h : Hub) : Hub :=
  mkHub (ring h) (ring_capacity h) (per_sub_capacity h) (next_event_id h) l (stopped h)
    (heap h) (log h).
Definition with_heap (l : list Sub) (h : Hub) : Hub :=
  mkHub (ring h) (ring_capacity h) (per_sub_capacity h) (next_event_id h) (subs h) (stopped h)
    l (log h).
Definition with_stopped (h : Hub) : Hub :=
  mkHub (ring h) (ring_capacity h) (per_sub_capacity h) (next_event_id h) (subs h) true
    (heap h) (log h).

(** [last_event_id]. *)
Definition last_event_id (h : Hub) : Z := u64 (next_event_id h - 1).

(** Lines 216-218 of [publish]: [None] is [pop_front] on an empty deque. *)
Definition ring_push (v : EventEnvelope) (cap : nat) (r : list EventEnvelope)
    : option (list EventEnvelope) :=
  if (length r =? cap)%nat then
    match r with [] => None | _ :: r => Some (r ++ [v]) end
  else Some (r ++ [v]).

(** Lines 209-212: the id, and the wall clock when no time is set. *)
Definition stamp (id now : Z) (e : DashboardEvent) : DashboardEvent :=
  mkEvent id
    (match event_ts e with
     | None => Some (mkTs now 0)
     | Some t => Some (if ts_seconds t =? 0 then mkTs now (ts_nanos t) else t)
     end) (payload e).

(** The section of [publish] under the hub's mutex; [alive] says which weak
    references still lock. *)
Definition publish_locked (alive : nat -> bool) (now : Z) (site gate : string)
    (e : DashboardEvent) (h : Hub) : option (list nat * EventEnvelope * Hub) :=
  let id := next_event_id h in
  let v := mkEnv site gate (stamp id now e) in
  r ← ring_push v (ring_capacity h) (ring h);
  let targets := base.filter (fun i => alive i = true) (subs h) in
  Some (targets, v,
        mkHub r (ring_capacity h) (per_sub_capacity h) (u64 (id + 1)) targets (stopped h)
          (heap h) (log h ++ [v])).

(** One turn of the loop over the targets. *)
Definition offer (v : EventEnvelope) (s : Sub) : Sub :=
  if sub_closed s then s
  else if negb (matches (sub_filter s) v) then s
  else push_locked (env_event v) s.

Definition deliver (v : EventEnvelope) (i : nat) (h : Hub) : Hub :=
  with_heap (alter (offer v) i (heap h)) h.

(** The replay loop of [subscribe]. *)
Fixpoint replay (since : Z) (r : list EventEnvelope) (s : Sub) : Sub :=
  match r with
  | [] => s
  | v :: r =>
      if event_id (env_event v) <=? since then replay since r s
      else if negb (matches (sub_filter s) v) then replay since r s
      else replay since r (push_locked (env_event v) s)
  end.

(** What a subscription with filter [f] gets out of the ring [r]. *)
Definition replayable (f : DashboardSubscription) (r : list EventEnvelope)
    : list DashboardEvent :=
  map env_event (base.filter (fun v => since_event_id f < event_id (env_event v) /\
                                       matches f v = true) r).

(** The section of [subscribe] under the hub's mutex: the new subscription
    is the next object of the heap. *)
Definition subscribe_locked (f : DashboardSubscription) (h : Hub) : Hub :=
  let s := replay (since_event_id f) (ring h) (Sub_new f (per_sub_capacity h) (length (log h))) in
  let s := mkSub (sub_queue s) (sub_filter s) (sub_capacity s) (sub_dropped s) (sub_closed s)
             (sub_owned s) (sub_offered s) (sub_taken s) (sub_offered s) (sub_joined s) in
  with_subs (subs h ++ [length (heap h)]) (with_heap (heap h ++ [s]) h).

(** ** Threads *)

(** A method between two lock sections.  [Publishing] keeps every target it
    locked alive until it returns; [todo] are the targets not reached yet. *)
Inductive Thread :=
| PublishChecked (site gate : string) (e : DashboardEvent)
| Publishing (targets todo : list nat) (v : EventEnvelope)
| SubChecked (f : DashboardSubscription)
| StopChecked
| Stopping (alive todo : list nat).

Record World := mkWorld { hub : Hub; threads : gmap nat Thread }.

Definition World_new (rc pc : nat) : World := mkWorld (Hub_new rc pc) ∅.

Definition holds (i : nat) (t : Thread) : bool :=
  match t with
  | Publishing targets _ _ => bool_decide (i ∈ targets)
  | Stopping alive _ => bool_decide (i ∈ alive)
  | _ => false
  end.

(** [weak_ptr::lock] succeeds: a handle or a running thread owns the object. *)
Definition alive (w : World) (i : nat) : bool :=
  match heap (hub w) !! i with
  | Some s => sub_owned s || existsb (fun p => holds i p.2) (map_to_list (threads w))
  | None => false
  end.

(** [subscriber_count]. *)
Definition subscriber_count (w : World) : nat :=
  length (base.filter (fun i => alive w i = true) (subs (hub w))).

Inductive Label :=
| LPublish (t : nat) (site gate : string) (e : DashboardEvent)
| LPublishLock (t : nat) (now : Z)
| LDeliver (t : nat)
| LSubscribe (t : nat) (f : DashboardSubscription)
| LSubscribeLock (t : nat)
| LStop (t : nat)
| LStopLock (t : nat)
| LStopClose (t : nat)
| LReturn (t : nat)
| LNext (i : nat)
| LDrain (i : nat)
| LClose (i : nat)
| LDestroy (i : nat).

Definition on_sub (g : Sub -> Sub) (i : nat) (w : World) : World :=
  mkWorld (with_heap (alter g i (heap (hub w))) (hub w)) (threads w).

(** A method that starts by loading [stopped]. *)
Definition enter (t : nat) (th : Thread) (w : World) : World :=
  if stopped (hub w) then w else mkWorld (hub w) (<[t := th]> (threads w)).

(** One piece of one method; [None] where the label names no such piece, or
    where the code pops an empty ring. *)
Definition exec (l : Label) (w : World) : option World :=
  match l with
  | LPublish t site gate e =>
      guard (threads w !! t = None) ;; Some (enter t (PublishChecked site gate e) w)
  | LPublishLock t now =>
      match threads w !! t with
      | Some (PublishChecked site gate e) =>
          '(ts, v, h) ← publish_locked (alive w) now site gate e (hub w);
          Some (mkWorld h (<[t := Publishing ts ts v]> (threads w)))
      | _ => None
      end
  | LDeliver t =>
      match threads w !! t with
      | Some (Publishing ts (i :: todo) v) =>
          Some (mkWorld (deliver v i (hub w)) (<[t := Publishing ts todo v]> (threads w)))
      | _ => None
      end
  | LSubscribe t f => guard (threads w !! t = None) ;; Some (enter t (SubChecked f) w)
  | LSubscribeLock t =>
      match threads w !! t with
      | Some (SubChecked f) =>
          Some (mkWorld (subscribe_locked f (hub w)) (delete t (threads w)))
      | _ => None
      end
  | LStop t =>
      guard (threads w !! t = None) ;;
      Some (if stopped (hub w) then w
            else mkWorld (with_stopped (hub w)) (<[t := StopChecked]> (threads w)))
  | LStopLock t =>
      match threads w !! t with
      | Some StopChecked =>
          let ts := base.filter (fun i => alive w i = true) (subs (hub w)) in
          Some (mkWorld (with_subs [] (hub w)) (<[t := Stopping ts ts]> (threads w)))
      | _ => None
      end
  | LStopClose t =>
      match threads w !! t with
      | Some (Stopping ts (i :: todo)) =>
          Some (on_sub close i (mkWorld (hub w) (<[t := Stopping ts todo]> (threads w))))
      | _ => None
      end
  | LReturn t =>
      match threads w !! t with
      | Some (Publishing _ [] _) | Some (Stopping _ []) =>
          Some (mkWorld (hub w) (delete t (threads w)))
      | _ => None
      end
  | LNext i => Some (on_sub (fun s => (next s).2) i w)
  | LDrain i => Some (on_sub (fun s => (drain_now s).2) i w)
  | LClose i => Some (on_sub close i w)
  | LDestroy i => Some (on_sub destroy i w)
  end.

Fixpoint exec_all (ls : list Label) (w : World) : option World :=
  match ls with
  | [] => Some w
  | l :: ls => w ← exec l w; exec_all ls w
  end.

(** [EventBroadcaster::publish] run without interruption: the id it returns
    and the hub it leaves. *)
Definition publish (now : Z) (site gate : string) (e : DashboardEvent) (w : World)
    : option (Z * World) :=
  if stopped (hub w) then Some (0, w)
  else
    '(ts, v, h) ← publish_locked (alive w) now site gate e (hub w);
    Some (event_id (env_event v), mkWorld (foldl (fun h i => deliver v i h) h ts) (threads w)).

(** The wrappers: the routing gate is the payload's, where it has one. *)
Definition no_event (p : Payload) : DashboardEvent := mkEvent 0 None p.
Definition publish_decision now site (d : AuthDecision) :=
  publish now site (ad_gate_id d) (no_event (kDecision d)).
Definition publish_telemetry now site (t : TelemetryMsg) :=
  publish now site (t_gate_id (tm_base t)) (no_event (kTelemetry t)).
Definition publish_fault now site (f : FaultEvent) :=
  publish now site (fe_gate_id f) (no_event (kFault f)).
Definition publish_ota now site gate (p : OtaProgress) :=
  publish now site gate (no_event (kOta p)).
Definition publish_command now site (c : GateCommandMsg) :=
  publish now site (cm_gate_id c) (no_event (kCommand c)).
Definition publish_ack now site gate (a : CommandAck) :=
  publish now site gate (no_event (kAck a)).

(** ** One subscription *)

(** The queue is the tail of what was offered; what is before it was either
    taken by the reader, in order, or dropped and counted. *)
Definition sub_ok (s : Sub) : Prop :=
  exists p, sub_offered s = p ++ sub_queue s /\ sublist (sub_taken s) p /\
    sub_dropped s = u64 (Z.of_nat (length p) - Z.of_nat (length (sub_taken s))) /\
    ((0 < sub_capacity s)%nat -> (length (sub_queue s) <= sub_capacity s)%nat).

Lemma u64_succ z : u64 (u64 z + 1) = u64 (z + 1).
Proof. unfold u64. by rewrite Zplus_mod_idemp_l. Qed.

Lemma push_locked_ok e s : sub_ok s -> sub_ok (push_locked e s).
Proof.
  intros (p & Ho & Ht & Hd & Hc). unfold push_locked.
  destruct (_ && _) eqn:Hfull.
  - apply andb_prop in Hfull as [H0 Hle]. apply Nat.ltb_lt in H0. apply Nat.leb_le in Hle.
    destruct (sub_queue s) as [|e0 q] eqn:Hq; [simpl in Hle; lia|].
    exists (p ++ [e0]). cbn [sub_offered sub_queue sub_taken sub_dropped sub_capacity drop].
    rewrite Ho, Hd, u64_succ. repeat split.
    + by rewrite <- !(assoc_L (++)).
    + by apply sublist_inserts_r.
    + f_equal. rewrite length_app. simpl. lia.
    + intros _. specialize (Hc H0). rewrite length_app. simpl in *. rewrite drop_0. lia.
  - exists p. cbn [sub_offered sub_queue sub_taken sub_dropped sub_capacity].
    rewrite Ho. repeat split; [by rewrite (assoc_L (++)) | done | done |].
    intros H0. rewrite length_app. simpl.
    apply andb_false_iff in Hfull as [Hf | Hf].
    + apply Nat.ltb_ge in Hf. lia.
    + apply Nat.leb_gt in Hf. lia.
Qed.

Lemma next_ok s : sub_ok s -> sub_ok (next s).2.
Proof.
  intros (p & Ho & Ht & Hd & Hc). unfold next.
  destruct (sub_queue s) as [|e q] eqn:Hq; [exists p; cbn [snd]; by rewrite Hq|].
  exists (p ++ [e]). cbn [snd sub_offered sub_queue sub_taken sub_dropped sub_capacity].
  rewrite Ho, Hd. repeat split.
  - by rewrite <- (assoc_L (++)).
  - by apply sublist_app.
  - f_equal. rewrite !length_app. simpl. lia.
  - intros H0. specialize (Hc H0). simpl in Hc. lia.
Qed.

Lemma drain_now_ok s : sub_ok s -> sub_ok (drain_now s).2.
Proof.
  intros (p & Ho & Ht & Hd & Hc). exists (p ++ sub_queue s).
  unfold drain_now. cbn [snd sub_offered sub_queue sub_taken sub_dropped sub_capacity].
  rewrite Ho, Hd, app_nil_r. repeat split; [by apply sublist_app | | simpl; lia].
  f_equal. rewrite !length_app. lia.
Qed.

Lemma replay_spec since r s :
  let t := replay since r s in
  sub_offered t = sub_offered s ++
    map env_event (base.filter (fun v => since < event_id (env_event v) /\
                                         matches (sub_filter s) v = true) r) /\
  sub_filter t = sub_filter s /\ sub_closed t = sub_closed s /\ sub_owned t = sub_owned s /\
  sub_joined t = sub_joined s /\ sub_taken t = sub_taken s /\ sub_capacity t = sub_capacity s.
Proof.
  revert s. induction r as [|v r IH]; intros s; cbn [replay].
  { simpl. by rewrite app_nil_r. }
  rewrite filter_cons. destruct (Z.leb_spec (event_id (env_event v)) since).
  { rewrite decide_False by lia. apply IH. }
  destruct (matches (sub_filter s) v) eqn:Hm; cbn [negb].
  - rewrite decide_True by done. destruct (IH (push_locked (env_event v) s)) as [Ho Hr].
    split; [|exact Hr]. rewrite Ho. cbn [push_locked sub_offered sub_filter map].
    by rewrite <- (assoc_L (++)).
  - rewrite decide_False by naive_solver. apply IH.
Qed.

Lemma replay_ok since r s : sub_ok s -> sub_ok (replay since r s).
Proof.
  revert s. induction r as [|v r IH]; intros s Hs; cbn [replay]; [done|].
  destruct (_ <=? _); [by apply IH|]. destruct (negb _); [by apply IH|].
  by apply IH, push_locked_ok.
Qed.

(** ** Events on their way to a subscription *)

Definition pending (f : DashboardSubscription) (i : nat) (th : Thread) : list DashboardEvent :=
  match th with
  | Publishing _ todo v =>
      if bool_decide (i ∈ todo) && matches f v then [env_event v] else []
  | _ => []
  end.

Definition inflight (ths : gmap nat Thread) (f : DashboardSubscription) (i : nat)
    : list DashboardEvent :=
  map_to_list ths ≫= (fun p => pending f i p.2).

Lemma inflight_insert ths t th f i :
  inflight (<[t := th]> ths) f i ≡ₚ pending f i th ++ inflight (delete t ths) f i.
Proof.
  unfold inflight. rewrite <- insert_delete_eq, map_to_list_insert; [done|].
  apply lookup_delete_eq.
Qed.

Lemma inflight_delete ths t th f i :
  ths !! t = Some th -> inflight ths f i ≡ₚ pending f i th ++ inflight (delete t ths) f i.
Proof.
  intros H. rewrite <- (insert_id ths t th) at 1 by done. apply inflight_insert.
Qed.

Lemma inflight_new ths t th f i :
  ths !! t = None -> pending f i th = [] -> inflight (<[t := th]> ths) f i ≡ₚ inflight ths f i.
Proof. intros H Hp. by rewrite inflight_insert, Hp, delete_id. Qed.

(** Replacing a thread by one with the same events on their way. *)
Lemma inflight_swap ths t th th' f i :
  ths !! t = Some th -> pending f i th = pending f i th' ->
  inflight (<[t := th']> ths) f i ≡ₚ inflight ths f i.
Proof. intros H Hp. by rewrite inflight_insert, (inflight_delete ths t th) , Hp. Qed.

Lemma inflight_none ths f i :
  (forall t th, ths !! t = Some th -> pending f i th = []) -> inflight ths f i = [].
Proof.
  intros H. unfold inflight.
  assert (Hl : Forall (fun p => pending f i p.2 = []) (map_to_list ths)).
  { apply Forall_forall. intros [t th] Hin. apply elem_of_map_to_list in Hin. by eapply H. }
  induction Hl as [|p l Hp Hl IH]; [done|]. rewrite bind_cons, Hp. exact IH.
Qed.

(** ** The invariant of every interleaving *)

(** The matching events of a stretch of the log. *)
Definition wanted (f : DashboardSubscription) (l : list EventEnvelope) : list DashboardEvent :=
  map env_event (base.filter (fun v => matches f v = true) l).

Lemma wanted_snoc f l v :
  wanted f (l ++ [v]) = wanted f l ++ (if matches f v then [env_event v] else []).
Proof.
  unfold wanted. rewrite filter_app, map_app. f_equal.
  rewrite filter_cons, filter_nil. by destruct (matches f v).
Qed.

(** The account of an open subscription: everything it was due was offered
    to it or is on its way, once. *)
Definition balanced (w : World) (i : nat) (s : Sub) : Prop :=
  (sub_joined s <= length (log (hub w)))%nat /\
  sub_offered s ++ inflight (threads w) (sub_filter s) i
  ≡ₚ sub_replayed s ++ wanted (sub_filter s) (drop (sub_joined s) (log (hub w))).

Record Inv (w : World) : Prop := {
  inv_cap : (0 < ring_capacity (hub w))%nat;
  inv_ring : ring (hub w) = last_n (ring_capacity (hub w)) (log (hub w));
  inv_next : next_event_id (hub w) = u64 (1 + Z.of_nat (length (log (hub w))));
  inv_ids k v : log (hub w) !! k = Some v -> event_id (env_event v) = u64 (1 + Z.of_nat k);
  inv_nodup : NoDup (subs (hub w));
  inv_bound i : i ∈ subs (hub w) -> (i < length (heap (hub w)))%nat;
  inv_todo t ts todo v : threads w !! t = Some (Publishing ts todo v) ->
    NoDup todo /\ forall i, i ∈ todo -> (i < length (heap (hub w)))%nat;
  inv_sub i s : heap (hub w) !! i = Some s ->
    sub_ok s /\ (sub_closed s = false -> sub_owned s = true);
  inv_due i s : heap (hub w) !! i = Some s -> sub_closed s = false -> i ∈ subs (hub w) ->
    balanced w i s;
  inv_reg i s : stopped (hub w) = false -> heap (hub w) !! i = Some s ->
    sub_closed s = false -> i ∈ subs (hub w);
  inv_stop t : threads w !! t = Some StopChecked -> stopped (hub w) = true;
}.

Lemma Inv_new rc pc : (0 < rc)%nat -> Inv (World_new rc pc).
Proof. intros H. split; simpl; try set_solver; try done. constructor. Qed.

(** Threads come and go without touching the hub. *)
Lemma Inv_threads w ths :
  Inv w ->
  (forall t ts todo v, ths !! t = Some (Publishing ts todo v) ->
     exists t' ts' todo', threads w !! t' = Some (Publishing ts' todo' v) /\ todo = todo') ->
  (forall t, ths !! t = Some StopChecked -> threads w !! t = Some StopChecked) ->
  (forall f i, inflight ths f i ≡ₚ inflight (threads w) f i) ->
  Inv (mkWorld (hub w) ths).
Proof.
  intros [] Hths Hst Hfl. split; try done.
  - intros t ts todo v H. destruct (Hths _ _ _ _ H) as (? & ? & ? & ? & ->). eauto.
  - intros i s Hi Hc Hin. destruct (inv_due0 i s Hi Hc Hin) as [Hj Hb].
    split; [done|]. cbn [threads hub]. by rewrite Hfl.
  - intros t Ht. by apply (inv_stop0 t), Hst.
Qed.

Lemma Inv_enter t th w :
  Inv w -> threads w !! t = None -> (forall f i, pending f i th = []) ->
  (forall ts todo v, th <> Publishing ts todo v) -> th <> StopChecked -> Inv (enter t th w).
Proof.
  intros Hw Ht Hp Hnp Hns. unfold enter. destruct (stopped _); [done|].
  apply Inv_threads; [done | | |].
  - intros t' ts todo v H. apply lookup_insert_Some in H as [[<- ->] | [_ H]]; [|by eauto].
    by edestruct Hnp.
  - intros t' H. apply lookup_insert_Some in H as [[<- ->] | [_ H]]; [|done]. done.
  - intros f i. apply inflight_new; [done | apply Hp].
Qed.

(** A subscription's own operation that offers it nothing. *)
Lemma Inv_on_sub g i w :
  Inv w ->
  (forall s, sub_filter (g s) = sub_filter s /\ sub_offered (g s) = sub_offered s /\
     sub_replayed (g s) = sub_replayed s /\ sub_joined (g s) = sub_joined s) ->
  (forall s, sub_ok s -> sub_ok (g s)) ->
  (forall s, sub_closed (g s) = false -> sub_closed s = false /\ sub_owned (g s) = sub_owned s) ->
  Inv (on_sub g i w).
Proof.
  intros [] Hsame Hok Hcl. split; cbn [on_sub hub threads with_heap ring ring_capacity log
    next_event_id subs heap]; try done.
  - intros j. rewrite length_alter. apply inv_bound0.
  - intros t ts todo v H. setoid_rewrite length_alter. by eapply inv_todo0.
  - intros j s Hj. destruct (decide (i = j)) as [<- | Hne].
    + rewrite list_lookup_alter_eq in Hj. destruct (heap (hub w) !! i) as [s0|] eqn:E; [|done].
      simplify_eq/=. destruct (inv_sub0 _ _ E) as [H1 H2]. split; [by apply Hok|].
      intros Hc. destruct (Hcl _ Hc) as [Hc0 ->]. by apply H2.
    + rewrite list_lookup_alter_ne in Hj by done. by apply inv_sub0 with j.
  - intros j s Hj Hc Hin. destruct (decide (i = j)) as [<- | Hne].
    + rewrite list_lookup_alter_eq in Hj. destruct (heap (hub w) !! i) as [s0|] eqn:E; [|done].
      simplify_eq/=. destruct (Hcl _ Hc) as [Hc0 _].
      destruct (Hsame s0) as (Hf & Ho & Hr & Hjn).
      unfold balanced. rewrite Hf, Ho, Hr, Hjn. by apply (inv_due0 i s0).
    + rewrite list_lookup_alter_ne in Hj by done. by apply (inv_due0 j s).
  - intros j s Hst Hj Hc. destruct (decide (i = j)) as [<- | Hne].
    + rewrite list_lookup_alter_eq in Hj. destruct (heap (hub w) !! i) as [s0|] eqn:E; [|done].
      simplify_eq/=. destruct (Hcl _ Hc) as [Hc0 _]. by apply (inv_reg0 i s0).
    + rewrite list_lookup_alter_ne in Hj by done. by apply (inv_reg0 j s).
Qed.

(** The ring always holds the newest events of the log. *)
Lemma ring_push_spec v cap l :
  (0 < cap)%nat -> ring_push v cap (last_n cap l) = Some (last_n cap (l ++ [v])).
Proof.
  intros Hc. rewrite <- last_n_snoc_idemp by done. unfold ring_push.
  destruct (Nat.eqb_spec (length (last_n cap l)) cap) as [E | E].
  - rewrite last_n_snoc_full by done.
    by destruct (last_n cap l) as [|a r]; [simpl in E; lia|].
  - rewrite (last_n_all cap (_ ++ _)); [done|]. rewrite length_app.
    rewrite length_last_n in *. simpl. lia.
Qed.

Lemma alive_open w i s :
  Inv w -> heap (hub w) !! i = Some s -> sub_closed s = false -> alive w i = true.
Proof.
  intros Hw Hi Hc. unfold alive. rewrite Hi.
  destruct (inv_sub w Hw i s Hi) as [_ ->]; done.
Qed.

Lemma Inv_publish_lock t now w w' :
  Inv w -> exec (LPublishLock t now) w = Some w' -> Inv w'.
Proof.
  intros Hw Hx. pose proof (alive_open w) as Hal. destruct Hw. cbn [exec] in Hx.
  destruct (threads w !! t) as [th|] eqn:Ht; [|done]. destruct th; try done.
  unfold publish_locked in Hx. rewrite inv_ring0, ring_push_spec in Hx by done.
  simplify_eq/=. set (v := mkEnv _ _ _). set (ts := base.filter _ _).
  assert (Hts : forall i, i ∈ ts -> i ∈ subs (hub w)).
  { intros i H. by apply list_elem_of_filter in H as [_ H]. }
  split; cbn [hub threads ring ring_capacity log next_event_id subs heap stopped]; try done.
  - rewrite length_app, inv_next0, u64_succ. f_equal. simpl. lia.
  - intros k u Hk. apply lookup_snoc_Some in Hk as [[_ Hk] | [-> <-]]; [by apply inv_ids0|].
    simpl. done.
  - by apply NoDup_filter.
  - intros i H. by apply inv_bound0, Hts.
  - intros t' ts' todo v' H. apply lookup_insert_Some in H as [[<- H] | [_ H]]; [|by eauto].
    simplify_eq. split; [by apply NoDup_filter | intros i Hi; by apply inv_bound0, Hts].
  - intros i s Hi Hc Hin. destruct (inv_due0 i s Hi Hc (Hts i Hin)) as [Hj Hb].
    split; cbn [hub log threads]; [rewrite length_app; lia|].
    rewrite inflight_insert, drop_app_le, wanted_snoc, (assoc_L (++) (sub_replayed s)) by lia.
    rewrite <- Hb, (inflight_delete (threads w) t _ _ _ Ht). cbn [pending app].
    rewrite bool_decide_true by done. cbn [andb].
    rewrite <- (assoc_L (++)). f_equiv. apply Permutation_app_comm.
  - intros i s Hst Hi Hc. apply list_elem_of_filter. split; [|by apply (inv_reg0 i s)].
    apply (Hal i s); [by constructor | done | done].
  - intros t' H. apply lookup_insert_Some in H as [[<- H] | [_ H]]; [done|by eauto].
Qed.

Lemma offer_fields v s :
  sub_filter (offer v s) = sub_filter s /\ sub_closed (offer v s) = sub_closed s /\
  sub_owned (offer v s) = sub_owned s /\ sub_replayed (offer v s) = sub_replayed s /\
  sub_joined (offer v s) = sub_joined s /\
  (sub_closed s = false -> sub_offered (offer v s) =
     sub_offered s ++ (if matches (sub_filter s) v then [env_event v] else [])).
Proof.
  unfold offer. destruct (sub_closed s) eqn:Hc; [by rewrite Hc|].
  destruct (matches _ _); simpl; [by rewrite Hc|]. by rewrite Hc, app_nil_r.
Qed.

Lemma offer_ok v s : sub_ok s -> sub_ok (offer v s).
Proof.
  intros H. unfold offer. destruct (sub_closed s); [done|].
  destruct (negb _); [done | by apply push_locked_ok].
Qed.

(** A look at one object of the heap after an update of another or itself. *)
Lemma lookup_alter_cases {A} (g : A -> A) i j (l : list A) x :
  alter g i l !! j = Some x ->
  (i = j /\ exists x0, l !! j = Some x0 /\ x = g x0) \/ (i <> j /\ l !! j = Some x).
Proof.
  intros H. destruct (decide (i = j)) as [<- | Hne].
  - rewrite list_lookup_alter_eq in H. destruct (l !! i) eqn:E; simplify_eq/=. eauto.
  - rewrite list_lookup_alter_ne in H by done. eauto.
Qed.

Lemma Inv_deliver t w w' : Inv w -> exec (LDeliver t) w = Some w' -> Inv w'.
Proof.
  intros [] Hx. cbn [exec] in Hx.
  destruct (threads w !! t) as [th|] eqn:Ht; [|done]. destruct th as [|ts [|i todo] v| | |]; try done.
  simplify_eq/=. destruct (inv_todo0 _ _ _ _ Ht) as [Hnd Hb].
  apply NoDup_cons in Hnd as [Hni Hnd].
  split; cbn [deliver with_heap hub threads ring ring_capacity log next_event_id subs heap stopped];
    try done.
  - intros j H. rewrite length_alter. by apply inv_bound0.
  - intros t' ts' todo' v' H. setoid_rewrite length_alter.
    apply lookup_insert_Some in H as [[<- H] | [_ H]]; [|by eauto].
    simplify_eq. split; [done|]. intros j Hj. apply Hb. by right.
  - intros j s Hj. destruct (lookup_alter_cases _ _ _ _ _ Hj) as [(-> & s0 & H0 & ->) | [_ H0]];
      [|by apply (inv_sub0 j)].
    destruct (inv_sub0 _ _ H0) as [Hok Hop]. destruct (offer_fields v s0) as (_ & -> & -> & _).
    split; [by apply offer_ok | done].
  - intros j s Hj Hc Hin. unfold balanced. cbn [hub threads log].
    destruct (lookup_alter_cases _ _ _ _ _ Hj) as [(-> & s0 & H0 & ->) | [Hne H0]].
    + destruct (offer_fields v s0) as (Hf & Hcl & _ & Hr & Hjn & Ho).
      rewrite Hcl in Hc. destruct (inv_due0 j s0 H0 Hc Hin) as [Hle Hbal].
      rewrite Hf, Hr, Hjn, (Ho Hc). split; [done|]. rewrite <- Hbal.
      rewrite inflight_insert, (inflight_delete (threads w) t _ _ _ Ht). cbn [pending].
      rewrite (bool_decide_false _ Hni), (bool_decide_true (j ∈ j :: todo)) by (by left).
      cbn [andb app]. by rewrite <- (assoc_L (++)).
    + destruct (inv_due0 j s H0 Hc Hin) as [Hle Hbal]. split; [done|]. rewrite <- Hbal.
      f_equiv. apply (inflight_swap _ _ _ _ _ _ Ht). cbn [pending].
      rewrite (bool_decide_ext (j ∈ i :: todo) (j ∈ todo)); [done|]. set_solver.
  - intros j s Hst Hj Hc. destruct (lookup_alter_cases _ _ _ _ _ Hj) as [(-> & s0 & H0 & ->) | [_ H0]].
    + destruct (offer_fields v s0) as (_ & Hcl & _). rewrite Hcl in Hc. by apply (inv_reg0 j s0).
    + by apply (inv_reg0 j s).
  - intros t' H. apply lookup_insert_Some in H as [[<- H] | [_ H]]; [done|by eauto].
Qed.

(** A new subscription is due exactly what the ring replayed to it. *)
Lemma Inv_subscribe_lock t w w' : Inv w -> exec (LSubscribeLock t) w = Some w' -> Inv w'.
Proof.
  intros [] Hx. cbn [exec] in Hx.
  destruct (threads w !! t) as [th|] eqn:Ht; [|done]. destruct th as [| |f| |]; try done.
  simplify_eq/=. unfold subscribe_locked. set (s := replay _ _ _). set (s' := mkSub _ _ _ _ _ _ _ _ _ _).
  assert (Hs := replay_spec (since_event_id f) (ring (hub w))
                  (Sub_new f (per_sub_capacity (hub w)) (length (log (hub w))))).
  fold s in Hs. cbn [Sub_new sub_offered sub_filter sub_closed sub_owned sub_joined] in Hs.
  destruct Hs as (Ho & Hf & Hc & Hw & Hj & _).
  assert (Hok : sub_ok s).
  { apply replay_ok. exists []. simpl. repeat split; [done | lia]. }
  assert (Hfl : forall g i, inflight (delete t (threads w)) g i ≡ₚ inflight (threads w) g i).
  { intros g i. symmetry. by rewrite (inflight_delete _ t (SubChecked f)). }
  split; cbn [with_subs with_heap hub threads ring ring_capacity log next_event_id subs heap stopped];
    try done.
  - apply NoDup_app. split; [done|]. split; [|apply NoDup_singleton].
    intros i Hi Hl%list_elem_of_singleton. apply inv_bound0 in Hi. lia.
  - intros i Hi. rewrite length_app. simpl. apply elem_of_app in Hi as [Hi | Hi%list_elem_of_singleton];
      [apply inv_bound0 in Hi; lia | lia].
  - intros t' ts todo v H. apply lookup_delete_Some in H as [_ H].
    destruct (inv_todo0 _ _ _ _ H) as [Hn Hb]. split; [done|]. intros i Hi.
    rewrite length_app. specialize (Hb i Hi). lia.
  - intros i u Hi. apply lookup_snoc_Some in Hi as [[_ Hi] | [-> <-]]; [by apply (inv_sub0 i)|].
    split; [exact Hok | done].
  - intros i u Hi Hcu Hin. unfold balanced. cbn [hub threads log]. rewrite Hfl.
    apply lookup_snoc_Some in Hi as [[Hlt Hi] | [-> <-]].
    + apply (inv_due0 i u Hi Hcu). apply elem_of_app in Hin as [? | ?%list_elem_of_singleton]; [done|lia].
    + subst s'. cbn [sub_filter sub_offered sub_replayed sub_joined]. rewrite Hj. split; [done|].
      rewrite inflight_none, drop_all, !app_nil_r; [done|].
      intros t' th Hth. destruct th as [|ts todo v| | |]; try done. cbn [pending].
      destruct (inv_todo0 _ _ _ _ Hth) as [_ Hb]. rewrite bool_decide_false; [done|].
      intros Hin'. specialize (Hb _ Hin'). lia.
  - intros i u Hst Hi Hcu. apply elem_of_app.
    apply lookup_snoc_Some in Hi as [[Hlt Hi] | [-> <-]]; [left; by apply (inv_reg0 i u) | right].
    by apply list_elem_of_singleton.
  - intros t' H. apply lookup_delete_Some in H as [_ H]. by eauto.
Qed.

Lemma Inv_stop_flag t w :
  Inv w -> threads w !! t = None ->
  Inv (mkWorld (with_stopped (hub w)) (<[t := StopChecked]> (threads w))).
Proof.
  intros [] Ht. split; cbn [with_stopped hub threads ring ring_capacity log next_event_id subs
    heap stopped]; try done.
  - intros t' ts todo v H. apply lookup_insert_Some in H as [[_ H] | [_ H]]; [done | by eauto].
  - intros i s Hi Hc Hin. destruct (inv_due0 i s Hi Hc Hin) as [Hj Hb]. split; [done|].
    cbn [hub threads log]. by rewrite inflight_new.
Qed.

Lemma Inv_stop_lock t w w' : Inv w -> exec (LStopLock t) w = Some w' -> Inv w'.
Proof.
  intros [] Hx. cbn [exec] in Hx.
  destruct (threads w !! t) as [th|] eqn:Ht; [|done]. destruct th; try done. simplify_eq/=.
  split; cbn [with_subs hub threads ring ring_capacity log next_event_id subs heap stopped];
    try done.
  - constructor.
  - by intros i Hi%not_elem_of_nil.
  - intros t' ts todo v H. apply lookup_insert_Some in H as [[_ H] | [_ H]]; [done | by eauto].
  - by intros i s _ _ Hi%not_elem_of_nil.
  - intros i s Hst. by rewrite (inv_stop0 t Ht) in Hst.
  - intros t' H. apply lookup_insert_Some in H as [[_ H] | [_ H]]; [done | by eauto].
Qed.

Lemma close_fields s :
  (sub_filter (close s) = sub_filter s /\ sub_offered (close s) = sub_offered s /\
   sub_replayed (close s) = sub_replayed s /\ sub_joined (close s) = sub_joined s) /\
  (sub_ok s -> sub_ok (close s)) /\ (sub_ok s -> sub_ok (destroy s)).
Proof. split; [done|]. by split; intros (p & ?); exists p. Qed.

Lemma Inv_stop_close t w w' : Inv w -> exec (LStopClose t) w = Some w' -> Inv w'.
Proof.
  intros Hw Hx. cbn [exec] in Hx.
  destruct (threads w !! t) as [th|] eqn:Ht; [|done]. destruct th as [| | | |al [|i todo]]; try done.
  simplify_eq/=. apply Inv_on_sub; [|apply close_fields|apply close_fields|done].
  apply Inv_threads; [done | | |].
  - intros t' ts td v H. apply lookup_insert_Some in H as [[_ H] | [_ H]]; [done | by eauto 6].
  - intros t' H. by apply lookup_insert_Some in H as [[_ H] | [_ H]].
  - intros f j. by apply (inflight_swap _ _ _ _ _ _ Ht).
Qed.

Lemma Inv_return t w w' : Inv w -> exec (LReturn t) w = Some w' -> Inv w'.
Proof.
  intros Hw Hx. cbn [exec] in Hx. destruct (threads w !! t) as [th|] eqn:Ht; [|done].
  assert (w' = mkWorld (hub w) (delete t (threads w)) /\ forall f i, pending f i th = []) as [-> Hp].
  { destruct th as [|? []| | |? []]; simplify_eq; (split; [done|]); by intros f i. }
  apply Inv_threads; [done | | |].
  - intros t' ts td v H. apply lookup_delete_Some in H as [_ H]. by eauto 6.
  - intros t' H. by apply lookup_delete_Some in H as [_ H].
  - intros f i. symmetry. by rewrite (inflight_delete _ t th), Hp.
Qed.

Lemma Inv_exec l w w' : Inv w -> exec l w = Some w' -> Inv w'.
Proof.
  intros Hw Hx. destruct l.
  2: by eapply Inv_publish_lock.
  2: by eapply Inv_deliver.
  3: by eapply Inv_subscribe_lock.
  4: by eapply Inv_stop_lock.
  4: by eapply Inv_stop_close.
  4: by eapply Inv_return.
  all: cbn [exec] in Hx; try (apply bind_Some in Hx as (Hg & _ & Hx)); simplify_eq.
  all: try (apply Inv_enter; done).
  - destruct (stopped (hub w)); [done | by apply Inv_stop_flag].
  - apply Inv_on_sub; [done | | apply next_ok |].
    all: intros s; unfold next; by destruct (sub_queue s).
  - apply Inv_on_sub; [done | done | apply drain_now_ok | done].
  - apply Inv_on_sub; [done | done | apply close_fields | done].
  - apply Inv_on_sub; [done | done | apply close_fields | done].
Qed.

Lemma Inv_run ls w w' : Inv w -> exec_all ls w = Some w' -> Inv w'.
Proof.
  revert w. induction ls as [|l ls IH]; intros w Hw Hx; simplify_eq/=; [done|].
  apply bind_Some in Hx as (w1 & H1 & Hx). eauto using Inv_exec.
Qed.

Lemma filter_ext_in {A} (P Q : A -> Prop) `{!forall x, Decision (P x), !forall x, Decision (Q x)}
    (l : list A) :
  (forall x, x ∈ l -> P x <-> Q x) -> base.filter P l = base.filter Q l.
Proof.
  induction l as [|x l IH]; intros Hl; [done|].
  rewrite !filter_cons, IH by (intros; apply Hl; by right).
  assert (Hx : P x <-> Q x) by (apply Hl; by left). repeat case_decide; tauto.
Qed.

(** ** [publish] without interruption is one of the interleavings *)

Lemma alive_enter t site gate e w i :
  threads w !! t = None ->
  alive (mkWorld (hub w) (<[t := PublishChecked site gate e]> (threads w))) i = alive w i.
Proof.
  intros Ht. unfold alive. cbn [hub threads]. destruct (heap (hub w) !! i) as [s|]; [|done].
  f_equal. apply eq_true_iff_eq. rewrite !existsb_exists.
  setoid_rewrite <- list_elem_of_In. setoid_rewrite map_to_list_insert; [|done].
  setoid_rewrite elem_of_cons. split; intros ([t' th] & Hin & Hh); [|by eauto].
  destruct Hin as [[= -> ->] | Hin]; [done | by eauto].
Qed.

Lemma deliver_all t ts todo v h ths :
  ths !! t = Some (Publishing ts todo v) ->
  exec_all (replicate (length todo) (LDeliver t) ++ [LReturn t]) (mkWorld h ths)
  = Some (mkWorld (foldl (fun h i => deliver v i h) h todo) (delete t ths)).
Proof.
  revert h ths. induction todo as [|i todo IH]; intros h ths Ht;
    cbn [length replicate app exec_all exec threads]; rewrite Ht; [done|].
  cbn [mbind option_bind hub]. rewrite IH by apply lookup_insert_eq.
  by rewrite delete_insert_eq.
Qed.

Lemma publish_is_run t now site gate e w id w' :
  threads w !! t = None -> stopped (hub w) = false ->
  publish now site gate e w = Some (id, w') ->
  exists n, exec_all (LPublish t site gate e :: LPublishLock t now ::
                      replicate n (LDeliver t) ++ [LReturn t]) w = Some w'.
Proof.
  intros Ht Hst Hp. unfold publish in Hp. rewrite Hst in Hp.
  apply bind_Some in Hp as ([[ts v] h] & Hl & Hp). simplify_eq.
  exists (length ts). cbn [exec_all exec]. case_guard; [|done].
  unfold enter. rewrite Hst. cbn [mret option_ret mbind option_bind threads hub].
  rewrite lookup_insert_eq.
  assert (Hf : base.filter (fun i => alive (mkWorld (hub w)
                 (<[t := PublishChecked site gate e]> (threads w))) i = true) (subs (hub w))
               = base.filter (fun i => alive w i = true) (subs (hub w))).
  { apply filter_ext_in. intros i _. by rewrite alive_enter. }
  unfold publish_locked in *. rewrite Hf, Hl.
  cbn [mbind option_bind]. rewrite (deliver_all t ts ts v) by apply lookup_insert_eq.
  by rewrite !delete_insert_eq, delete_id.
Qed.

(** ** What a subscriber is promised *)

(** What a queue of capacity [cap] keeps of a list of events. *)
Definition keep {A} (cap : nat) (l : list A) : list A :=
  match cap with O => l | _ => last_n cap l end.

Lemma push_locked_keep e s :
  sub_queue s = keep (sub_capacity s) (sub_offered s) ->
  sub_queue (push_locked e s) = keep (sub_capacity s) (sub_offered s ++ [e]).
Proof.
  intros Hq. unfold push_locked. cbn [sub_queue]. rewrite Hq. unfold keep.
  destruct (sub_capacity s) as [|c]; [done|]. rewrite (proj2 (Nat.ltb_lt 0 (S c))) by lia.
  cbn [andb]. rewrite <- (last_n_snoc_idemp (S c)) by lia. rewrite length_last_n.
  destruct (Nat.leb_spec (S c) (Nat.min (S c) (length (sub_offered s)))).
  - rewrite last_n_snoc_full; [done | lia | rewrite length_last_n; lia].
  - rewrite (last_n_all (S c) (_ ++ _)); [done|].
    rewrite length_app, length_last_n. cbn [length]. lia.
Qed.

Lemma replay_keep since r s :
  sub_queue s = keep (sub_capacity s) (sub_offered s) ->
  sub_queue (replay since r s) = keep (sub_capacity s) (sub_offered (replay since r s)).
Proof.
  revert s. induction r as [|v r IH]; intros s Hq; cbn [replay]; [done|].
  destruct (_ <=? _); [by apply IH|]. destruct (negb _); [by apply IH|].
  apply (IH (push_locked (env_event v) s)). by apply push_locked_keep.
Qed.

(** In a log whose ids count from one, the events after [n] that are still in
    a long enough tail are the log after its first [n] entries. *)
Lemma replayable_tail f l d n :
  (forall k v, l !! k = Some v -> event_id (env_event v) = 1 + Z.of_nat k) ->
  since_event_id f = Z.of_nat n -> (d <= n <= length l)%nat ->
  replayable f (drop d l) = wanted f (drop n l).
Proof.
  intros Hid Hs Hd. unfold replayable, wanted. f_equal.
  assert (Hsplit : drop d l = drop d (take n l) ++ drop n l).
  { rewrite <- (take_drop n l) at 1. rewrite drop_app_le; [done|]. rewrite length_take. lia. }
  rewrite Hsplit, filter_app.
  assert (H0 : base.filter (fun v => since_event_id f < event_id (env_event v) /\ matches f v = true)
                 (drop d (take n l)) = []).
  { destruct (base.filter _ _) as [|v r] eqn:E; [done|].
    assert (Hv : v ∈ v :: r) by left. rewrite <- E in Hv.
    apply list_elem_of_filter in Hv as [[Hlt _] Hin].
    apply list_elem_of_lookup in Hin as [k Hk]. rewrite lookup_drop in Hk.
    apply lookup_take_Some in Hk as [Hk Hlen]. rewrite (Hid _ _ Hk) in Hlt. lia. }
  rewrite H0. cbn [app]. apply filter_ext_in.
  intros v Hin. apply list_elem_of_lookup in Hin as [k Hk]. rewrite lookup_drop in Hk.
  rewrite (Hid _ _ Hk). split; [by intros [_ ?] | intros ?; split; [lia | done]].
Qed.

(** No step changes the capacities. *)
Lemma exec_capacity l w w' :
  exec l w = Some w' ->
  ring_capacity (hub w') = ring_capacity (hub w) /\
  per_sub_capacity (hub w') = per_sub_capacity (hub w).
Proof.
  intros Hx. destruct l; cbn [exec] in Hx; unfold publish_locked, enter in Hx;
    repeat (case_match || (apply bind_Some in Hx as (? & ? & Hx)) || simplify_eq); try done.
  match goal with H : _ ≫= _ = Some _ |- _ => apply bind_Some in H as (? & _ & H) end.
  by simplify_eq.
Qed.

Lemma exec_all_capacity ls w w' :
  exec_all ls w = Some w' ->
  ring_capacity (hub w') = ring_capacity (hub w) /\
  per_sub_capacity (hub w') = per_sub_capacity (hub w).
Proof.
  revert w. induction ls as [|l ls IH]; intros w Hx; simplify_eq/=; [done|].
  apply bind_Some in Hx as (w1 & H1 & Hx). destruct (exec_capacity _ _ _ H1) as [<- <-]. by apply IH.
Qed.


(** What a new subscription finds in its queue. *)
Lemma subscribe_replays_gap rc pc ls w f :
  (0 < rc)%nat -> exec_all ls (World_new rc pc) = Some w ->
  Z.of_nat (length (log (hub w))) < 2 ^ 64 - 1 ->
  0 <= since_event_id f <= Z.of_nat (length (log (hub w))) ->
  Z.of_nat (length (log (hub w))) - since_event_id f <= Z.of_nat rc ->
  let due := wanted f (drop (Z.to_nat (since_event_id f)) (log (hub w))) in
  exists s, heap (subscribe_locked f (hub w)) !! length (heap (hub w)) = Some s /\
    sub_queue s = keep (per_sub_capacity (hub w)) due /\
    sub_dropped s = u64 (Z.of_nat (length due) - Z.of_nat (length (sub_queue s))) /\
    sub_closed s = false /\ length (heap (hub w)) ∈ subs (subscribe_locked f (hub w)).
Proof.
  intros Hrc Hx Hlen Hs Hgap due.
  assert (Hw : Inv w) by (eapply Inv_run; [by apply Inv_new | done]).
  assert (Hcap : ring_capacity (hub w) = rc) by (by eapply exec_all_capacity in Hx as [-> _]).
  set (s0 := Sub_new f (per_sub_capacity (hub w)) (length (log (hub w)))).
  assert (Hr : sub_offered (replay (since_event_id f) (ring (hub w)) s0) = due).
  { destruct (replay_spec (since_event_id f) (ring (hub w)) s0) as [-> _].
    change (replayable f (ring (hub w)) = due). rewrite (inv_ring w Hw). unfold last_n.
    apply replayable_tail; [| rewrite Z2Nat.id; lia | lia].
    intros k v Hk. rewrite (inv_ids w Hw k v Hk). apply u64_small.
    apply lookup_lt_Some in Hk. lia. }
  destruct (replay_ok (since_event_id f) (ring (hub w)) s0) as (p & Ho & _ & Hd & _).
  { exists []. simpl. repeat split; [done | lia]. }
  eexists. cbn [subscribe_locked with_subs with_heap heap subs].
  rewrite list_lookup_middle by done. split; [done|]. cbn [sub_queue sub_dropped sub_closed].
  fold s0. split; [rewrite replay_keep by (unfold keep; by destruct (per_sub_capacity (hub w))); by rewrite Hr|].
  rewrite Hd. destruct (replay_spec (since_event_id f) (ring (hub w)) s0) as (_ & _ & Hc & _ & _ & Ht & _).
  rewrite Ht, Hc. repeat split; [|apply elem_of_app; right; by left].
  f_equal. rewrite <- Hr, Ho, length_app. cbn [s0 Sub_new sub_taken length]. lia.
Qed.

(** A dashboard that reconnects with the last event id it saw gets
    exactly the matching events published after that id, oldest first, as
    long as the ring still reaches back to it; a queue too small for them
    keeps the newest and counts the others as dropped. *)
Theorem reconnect_replays_gap rc pc ls w f :
  (0 < rc)%nat -> exec_all ls (World_new rc pc) = Some w ->
  Z.of_nat (length (log (hub w))) < 2 ^ 64 - 1 ->
  0 <= since_event_id f <= Z.of_nat (length (log (hub w))) ->
  Z.of_nat (length (log (hub w))) - since_event_id f <= Z.of_nat rc ->
  let due := wanted f (drop (Z.to_nat (since_event_id f)) (log (hub w))) in
  exists s, heap (subscribe_locked f (hub w)) !! length (heap (hub w)) = Some s /\
    sub_queue s = keep (per_sub_capacity (hub w)) due /\
    sub_dropped s = u64 (Z.of_nat (length due) - Z.of_nat (length (sub_queue s))) /\
    sub_closed s = false /\ length (heap (hub w)) ∈ subs (subscribe_locked f (hub w)).
Proof. exact (subscribe_replays_gap rc pc ls w f). Qed.

(** ** Runs *)

Definition everything (since : Z) : DashboardSubscription :=
  mkFilter "" [] false false false false since.
Definition only_decisions : DashboardSubscription := mkFilter "s" ["g"] true false false false 0.
Definition fault_event : DashboardEvent :=
  no_event (kFault (mkFault "f" None "g" 3 "MOTOR_TIMEOUT" "" ∅)).
Definition ack_event : DashboardEvent :=
  no_event (kAck (mkAck "c" None None false true "" GATE_STATE_CLOSED)).

(** Two publishers overtake each other on the way to one subscriber, a
    second one wants only decisions and acks, and the first queue is read
    once. *)
Definition busy_run : list Label :=
  [LSubscribe 0 (everything 0); LSubscribeLock 0; LSubscribe 1 only_decisions; LSubscribeLock 1;
   LPublish 2 "s" "g" fault_event; LPublish 3 "s" "g" ack_event;
   LPublishLock 2 100; LPublishLock 3 101; LDeliver 3; LNext 0].

Definition busy_world : World := default (World_new 2 1) (exec_all busy_run (World_new 2 1)).
Definition busy_sub : Sub := default (Sub_new only_decisions 0 0) (heap (hub busy_world) !! 0%nat).


Lemma reconnect_replays_gap_witness :
  exists s, heap (subscribe_locked (everything 1) (hub busy_world)) !! 2%nat = Some s /\
    map event_id (sub_queue s) = [2] /\ sub_dropped s = 0.
Proof.
  destruct (reconnect_replays_gap 2 1 busy_run busy_world (everything 1)) as (s & Hs & Hq & Hd & _).
  - lia.
  - vm_compute; reflexivity.
  - vm_compute; reflexivity.
  - split; vm_compute; discriminate.
  - vm_compute; discriminate.
  - exists s. split; [exact Hs|]. rewrite Hd, Hq. split; vm_compute; reflexivity.
Defined.

(** A reader that stops there has seen event 2 and not event 1; when it
    reconnects after the last id it saw, event 1 is not replayed. *)
Example overtaken_event_is_lost :
  option_map (fun w => (map (fun s => map event_id (sub_taken s)) (heap (hub w)),
                        map (fun s => map event_id (sub_queue s)) (heap (hub w))))
    (exec_all (busy_run ++ [LDestroy 0; LDeliver 2; LSubscribe 4 (everything 2); LSubscribeLock 4])
       (World_new 8 8))
  = Some ([[2]; []; []], [[]; []; []]).
Proof. vm_compute. reflexivity. Qed.

(** A hub built with no ring pops an empty deque on its first event. *)
Example empty_ring_underflows :
  exec_all [LPublish 0 "s" "g" fault_event; LPublishLock 0 100] (World_new 0 1) = None.
Proof. reflexivity. Qed.
