(* ===== verification/Grpc.v ===== *)
(** The status values of a gRPC call (grpcpp), shared by the server's
    handlers and by their clients. *)

From S2P Require Import Prelude.

(** [grpc::StatusCode]; [CODE_OTHER] is any value the enum has no name for. *)
Inductive StatusCode :=
| OK | CANCELLED | UNKNOWN | INVALID_ARGUMENT | DEADLINE_EXCEEDED | NOT_FOUND | ALREADY_EXISTS
| PERMISSION_DENIED | RESOURCE_EXHAUSTED | FAILED_PRECONDITION | ABORTED | OUT_OF_RANGE
| UNIMPLEMENTED | INTERNAL | UNAVAILABLE | DATA_LOSS | UNAUTHENTICATED | CODE_OTHER (n : Z).

#[export] Instance StatusCode_eq_dec : EqDecision StatusCode.
Proof. solve_decision. Defined.

Record Status := mkStatus { error_code : StatusCode; error_message : string }.

Definition Status_OK : Status := mkStatus OK "".
Definition status_ok (s : Status) : bool := bool_decide (error_code s = OK).

(** How a handler ends: it throws, or returns a status and the response it
    has filled in, if any. *)
Inductive Reply (R : Type) :=
| Threw (what : string)
| Replied (st : Status) (resp : option R).
Arguments Threw {R} _.
Arguments Replied {R} _ _.

Definition refuse {R} (c : StatusCode) (m : string) : Reply R := Replied (mkStatus c m) None.
Definition answer {R} (r : R) : Reply R := Replied Status_OK (Some r).
