(* ===== verification/RpcServices.v ===== *)
(** The server's RPC handlers (src/server/rpc: field_controller_service.cpp,
    dashboard_service.cpp, admin_service.cpp, server.cpp) over the
    broadcaster, the fusion engine and the allowlist store.

    A unary handler first validates its request, asks the engine or the
    store, and then publishes on the bus; the first part is its front, which
    returns the publications still to make.  [rpc_exec] runs one front, one
    publication or one turn of a stream's loops, so that a list of labels is
    one interleaving of the server's threads.  [ses_wire] and [ds_wire] are
    what the streams have written. *)

From S2P Require Import Prelude Float32 ControlClient AllowlistStore FusionEngine.
From S2P Require Import EventBroadcaster Grpc.
From stdpp Require Import pretty.
Local Open Scope Z_scope.

(** ** The server *)

(** The objects the daemon's main constructs and hands to the services. *)
Record Server := mkServer {
  bus_ : World; fusion_ : FusionEngine; store_ : Conn; default_site_id_ : string;
}.

Definition with_bus (w : World) (s : Server) : Server :=
  mkServer w (fusion_ s) (store_ s) (default_site_id_ s).
Definition with_fusion (f : FusionEngine) (s : Server) : Server :=
  mkServer (bus_ s) f (store_ s) (default_site_id_ s).
Definition with_store (c : Conn) (s : Server) : Server :=
  mkServer (bus_ s) (fusion_ s) c (default_site_id_ s).

(** What one call finds outside the server: the clock and local time, the
    random bytes of two ids, and how the statements of the database end. *)
Record CallEnv := mkCall {
  ce_now : Z; ce_later : Z; ce_local : Tm; ce_random1 : list Z; ce_random2 : list Z;
  ce_block_ok : bool; ce_reads : ReadOutcome; ce_outcomes : Outcomes;
}.

(** One call of a [publish_*] wrapper of the bus. *)
Inductive Pub :=
| PubDecision (site : string) (d : AuthDecision)
| PubTelemetry (site : string) (t : TelemetryMsg)
| PubFault (site : string) (f : FaultEvent)
| PubCommand (site : string) (c : GateCommandMsg)
| PubAck (site gate : string) (a : CommandAck).

Definition run_pub (now : Z) (p : Pub) : World -> option (Z * World) :=
  match p with
  | PubDecision site d => publish_decision now site d
  | PubTelemetry site t => publish_telemetry now site t
  | PubFault site f => publish_fault now site f
  | PubCommand site c => publish_command now site c
  | PubAck site gate a => publish_ack now site gate a
  end.

(** What a handler's front leaves: the server, the publications to make, and
    the reply once they are made. *)
Definition Front (R : Type) : Type := Server * list Pub * Reply R.

(** [FusionEngine::decide]. *)
Definition fusion_decide (env : CallEnv) (s : Server) (req : AuthorizeRequest)
    : string + AuthDecision :=
  decide_at (fusion_ s) (view (store_ s), ce_block_ok env, ce_reads env)
    (generate_uuidv4 (ce_random1 env)) req (ce_now env) (ce_local env).

(** ** FieldControllerService *)

(** The OPEN_GATE command of an authorised decision. *)
Definition open_command (env : CallEnv) (gate : string) (d : AuthDecision) : GateCommandMsg :=
  mkCommandMsg
    (mkCommand (generate_uuidv4 (ce_random2 env)) COMMAND_KIND_OPEN_GATE 0
       ("auto:" +:+ decision_id d))
    (Some (mkTs (ce_later env) 0)) gate None 0 "".

(** [SubmitDetection]. *)
Definition SubmitDetection (env : CallEnv) (req : DetectionFrame) (s : Server)
    : Front AuthDecision :=
  if String.eqb (df_gate_id req) ""
  then (s, [], refuse INVALID_ARGUMENT "frame.gate_id is required")
  else
    let site := default_site_id_ s in
    match fusion_decide env s (mkRequest req site false "firmware-submit") with
    | inl err => (s, [], Threw err)
    | inr d =>
        (s,
         PubDecision site d ::
           (if decide (verdict d = AUTHORIZED)
            then [PubCommand site (open_command env (df_gate_id req) d)] else []),
         answer d)
    end.

(** [DeliverOta] and [ReportOtaProgress]. *)
Definition DeliverOta (s : Server) : Front unit :=
  (s, [], refuse UNIMPLEMENTED "OTA delivery is implemented in Phase 4.5").
Definition ReportOtaProgress (s : Server) : Front unit :=
  (s, [], refuse UNIMPLEMENTED "OTA progress reporting is implemented in Phase 4.5").

(** The payload of a [ControlEnvelope] as the server sees it. *)
Inductive ControlPayload :=
| CTelemetry (t : TelemetryMsg)
| CCommand (c : GateCommandMsg)
| CAck (a : CommandAck)
| CFault (f : FaultEvent)
| C_NOT_SET.

(** One open [Control] call: its gate, its subscription once it has one, its
    writer thread, and the commands written to the stream. *)
Record Session := mkSession {
  ses_gate : string; ses_sub : option nat; ses_writing : bool; ses_shutting_down : bool;
  ses_wire : list GateCommandMsg;
}.

(** The checks of [Control] on the first envelope; [None] is a failed read. *)
Definition Control_identify (first : option ControlPayload) : Status + TelemetryMsg :=
  match first with
  | None => inl (mkStatus INVALID_ARGUMENT "control stream closed before identifying gate")
  | Some (CTelemetry t) =>
      if String.eqb (t_gate_id (tm_base t)) ""
      then inl (mkStatus INVALID_ARGUMENT "telemetry.gate_id is required")
      else inr t
  | Some _ => inl (mkStatus INVALID_ARGUMENT "first envelope must be Telemetry carrying gate_id")
  end.

(** The filter of the subscription that carries a gate's commands. *)
Definition command_filter (gate : string) : DashboardSubscription :=
  mkFilter "" [gate] true false false false 0.

(** [EventBroadcaster::subscribe] run without interruption. *)
Definition subscribe (f : DashboardSubscription) (w : World) : World * option nat :=
  if stopped (hub w) then (w, None)
  else (mkWorld (subscribe_locked f (hub w)) (threads w), Some (length (heap (hub w)))).

(** [EventBroadcaster::stop] run without interruption. *)
Definition stop_bus (w : World) : World :=
  if stopped (hub w) then w
  else
    let ts := base.filter (fun i => alive w i = true) (subs (hub w)) in
    mkWorld (foldl (fun h i => with_heap (alter close i (heap h)) h)
               (with_subs [] (with_stopped (hub w))) ts) (threads w).

(** What the reader loop of [Control] does with one envelope. *)
Definition Control_dispatch (site gate : string) (env : ControlPayload) : list Pub :=
  match env with
  | CTelemetry t => [PubTelemetry site t]
  | CAck a => [PubAck site gate a]
  | CFault f => [PubFault site f]
  | CCommand _ | C_NOT_SET => []
  end.

(** One turn of the writer thread on subscription [i]; [cancelled] and
    [write_ok] are the answers of the stream. *)
Definition Control_write (cancelled write_ok : bool) (i : nat) (w : World) (x : Session)
    : World * Session :=
  let leave x := mkSession (ses_gate x) (ses_sub x) false (ses_shutting_down x) (ses_wire x) in
  if cancelled || ses_shutting_down x then (w, leave x)
  else
    match heap (hub w) !! i with
    | None => (w, x)
    | Some sb =>
        let '(e, sb) := next sb in
        let w := on_sub (fun _ => sb) i w in
        match e with
        | None => (w, if stopped (hub w) then leave x else x)
        | Some e =>
            match payload e with
            | kCommand c =>
                if write_ok
                then (w, mkSession (ses_gate x) (ses_sub x) (ses_writing x) (ses_shutting_down x)
                           (ses_wire x ++ [c]))
                else (w, leave x)
            | _ => (w, x)
            end
        end
    end.

(** ** DashboardService *)

(** [IssueCommand]. *)
Definition IssueCommand (env : CallEnv) (req : GateCommandMsg) (s : Server) : Front CommandAck :=
  let kind := cmd_kind (cm_base req) in
  if String.eqb (cm_gate_id req) "" then (s, [], refuse INVALID_ARGUMENT "gate_id is required")
  else
    match kind with
    | COMMAND_KIND_UNSPECIFIED => (s, [], refuse INVALID_ARGUMENT "command kind must be set")
    | _ =>
        let id := if String.eqb (command_id (cm_base req)) ""
                  then generate_uuidv4 (ce_random1 env) else command_id (cm_base req) in
        let ts := match cm_issued_ts req with
                  | None => mkTs (ce_now env) 0
                  | Some t => if ts_seconds t =? 0 then mkTs (ce_now env) (ts_nanos t) else t
                  end in
        let gate := cm_gate_id req in
        let command :=
          mkCommandMsg (mkCommand id kind (cmd_led_pattern (cm_base req)) (cmd_actor (cm_base req)))
            (Some ts) gate (cm_duration req) (cm_relay_index req) (cm_signature req) in
        let f :=
          match kind with
          | COMMAND_KIND_LATCH_OPEN => set_override gate kForceOpen (fusion_ s)
          | COMMAND_KIND_LATCH_CLOSE => set_override gate kForceClose (fusion_ s)
          | COMMAND_KIND_RELEASE_LATCH => set_override gate kNone (fusion_ s)
          | _ => fusion_ s
          end in
        let resp := mkAck id (Some (mkTs (ce_later env) 0)) None false false ""
                      GATE_STATE_UNKNOWN in
        let site := default_site_id_ s in
        (with_fusion f s, [PubCommand site command; PubAck site gate resp], answer resp)
    end.

(** [Authorize]. *)
Definition Authorize (env : CallEnv) (req : AuthorizeRequest) (s : Server)
    : Front AuthDecision :=
  if String.eqb (site_id req) "" then (s, [], refuse INVALID_ARGUMENT "site_id is required")
  else if String.eqb (df_gate_id (frame_ req)) ""
  then (s, [], refuse INVALID_ARGUMENT "frame.gate_id is required")
  else
    match fusion_decide env s req with
    | inl err => (s, [], Threw err)
    | inr d => (s, [PubDecision (site_id req) d], answer d)
    end.

(** An open [Subscribe] call; [ds_drained] says that the replayed events
    have been written. *)
Record DashSession := mkDash {
  ds_sub : nat; ds_drained : bool; ds_open : bool; ds_wire : list DashboardEvent;
}.

(** The loop of [Subscribe] over the drained events: what is written, and
    whether the call goes on.  [(cancelled, write_ok)] per event. *)
Fixpoint drain_writes (outs : list (bool * bool)) (es : list DashboardEvent)
    : list DashboardEvent * bool :=
  match es with
  | [] => ([], true)
  | e :: es =>
      let '(cancelled, write_ok) := default (false, true) (head outs) in
      if cancelled || negb write_ok then ([], false)
      else let '(l, go) := drain_writes (tail outs) es in (e :: l, go)
  end.

(** Returning destroys the subscription's handle. *)
Definition Subscribe_leave (x : DashSession) (w : World) : World * DashSession :=
  (on_sub destroy (ds_sub x) w, mkDash (ds_sub x) (ds_drained x) false (ds_wire x)).

Definition Subscribe_drain (outs : list (bool * bool)) (w : World) (x : DashSession)
    : World * DashSession :=
  match heap (hub w) !! ds_sub x with
  | None => (w, x)
  | Some sb =>
      let '(es, sb) := drain_now sb in
      let w := on_sub (fun _ => sb) (ds_sub x) w in
      let '(l, go) := drain_writes outs es in
      let x := mkDash (ds_sub x) true true (ds_wire x ++ l) in
      if go then (w, x) else Subscribe_leave x w
  end.

(** One turn of the live loop of [Subscribe]. *)
Definition Subscribe_turn (cancelled write_ok : bool) (w : World) (x : DashSession)
    : World * DashSession :=
  if cancelled then Subscribe_leave x w
  else
    match heap (hub w) !! ds_sub x with
    | None => (w, x)
    | Some sb =>
        let '(e, sb) := next sb in
        let w := on_sub (fun _ => sb) (ds_sub x) w in
        match e with
        | None => if stopped (hub w) then Subscribe_leave x w else (w, x)
        | Some e =>
            if write_ok then (w, mkDash (ds_sub x) (ds_drained x) true (ds_wire x ++ [e]))
            else Subscribe_leave x w
        end
    end.

(** ** AdminService *)

(** [UpsertAllowlist]. *)
Definition UpsertAllowlist (env : CallEnv) (site : string) (es : list Allowlistentry) (s : Server)
    : Front UpsertStats :=
  if String.eqb site "" then (s, [], refuse INVALID_ARGUMENT "site_id is required")
  else
    let '(c, r) := upsert (ce_outcomes env) site es (store_ s) in
    (with_store c s, [],
     match r with
     | inr stats => answer stats
     | inl what => refuse INTERNAL ("upsert failed: " +:+ what)
     end).

(** [ListAllowlist]; [db_error] is an exception of the store, if it throws. *)
Definition ListAllowlist (db_error : option string) (site : string) (page_size : Z)
    (token : string) (s : Server) : Front Page :=
  if String.eqb site "" then (s, [], refuse INVALID_ARGUMENT "site_id is required")
  else
    let page_size := if page_size =? 0 then 100 else page_size in
    (s, [],
     match db_error with
     | Some what => refuse INTERNAL ("list failed: " +:+ what)
     | None => answer (list_page site page_size token (view (store_ s)))
     end).

(** [DeleteAllowlist]: [updated] carries the number of removed rows. *)
Definition DeleteAllowlist (env : CallEnv) (site : string) (plates : list string) (s : Server)
    : Front UpsertStats :=
  if String.eqb site "" then (s, [], refuse INVALID_ARGUMENT "site_id is required")
  else
    let '(c, r) := AllowlistStore.remove (ce_outcomes env) site plates (store_ s) in
    (with_store c s, [],
     match r with
     | inr removed => answer (mkStats 0 (u32 removed))
     | inl what => refuse INTERNAL ("delete failed: " +:+ what)
     end).

(** ** The transport *)

Record TlsConfig := mkTls {
  cert_path : string; key_path : string; ca_path : string; require_client_cert : bool;
}.
Definition tls_enabled (t : TlsConfig) : bool := negb (String.eqb (cert_path t) "").

Inductive ClientCert := DontRequest | RequestAndVerify | RequireAndVerify.
Inductive Credentials :=
| Insecure
| Ssl (mode : ClientCert) (roots key cert : string).

(** [read_pem] on a file system: the empty string where it cannot open. *)
Definition read_pem (fs : string -> option string) (path : string) : string :=
  default ""%string (fs path).

(** [make_credentials]; [None] is [ok = false]. *)
Definition make_credentials (fs : string -> option string) (t : TlsConfig) : option Credentials :=
  if negb (tls_enabled t) then Some Insecure
  else
    let mode := if require_client_cert t then RequireAndVerify
                else if String.eqb (ca_path t) "" then DontRequest else RequestAndVerify in
    let cert := read_pem fs (cert_path t) in
    let key := read_pem fs (key_path t) in
    if String.eqb cert "" || String.eqb key "" then None
    else if negb (String.eqb (ca_path t) "") then
      let roots := read_pem fs (ca_path t) in
      if String.eqb roots "" then None else Some (Ssl mode roots key cert)
    else Some (Ssl mode "" key cert).

(** The text before the last colon, [None] without one. *)
Fixpoint before_last_colon (s : string) : option string :=
  match s with
  | EmptyString => None
  | String c s =>
      match before_last_colon s with
      | Some r => Some (String c r)
      | None => if Ascii.eqb c (Ascii.ascii_of_nat 58) then Some EmptyString else None
      end
  end.

(** [Server::start]: the credentials it listens with and the bound address.
    [build] is [BuildAndStart] with the port it selects; [None] is a false
    return. *)
Definition start (fs : string -> option string) (t : TlsConfig) (listen : string)
    (build : Credentials -> option Z) : option (Credentials * string) :=
  match make_credentials fs t with
  | None => None
  | Some creds =>
      match build creds with
      | None => None
      | Some port =>
          Some (creds,
                if 0 <? port
                then default listen (before_last_colon listen) +:+ ":" +:+ pretty port
                else listen)
      end
  end.

(** ** The threads of the server *)

Inductive Call :=
| CallSubmit (req : DetectionFrame)
| CallIssue (req : GateCommandMsg)
| CallAuthorize (req : AuthorizeRequest)
| CallUpsert (site : string) (es : list Allowlistentry)
| CallDelete (site : string) (plates : list string).

Definition front {R} (x : Front R) : Server * list Pub := x.1.

Definition call_front (env : CallEnv) (c : Call) (s : Server) : Server * list Pub :=
  match c with
  | CallSubmit req => front (SubmitDetection env req s)
  | CallIssue req => front (IssueCommand env req s)
  | CallAuthorize req => front (Authorize env req s)
  | CallUpsert site es => front (UpsertAllowlist env site es s)
  | CallDelete site plates => front (DeleteAllowlist env site plates s)
  end.

Record Rpc := mkRpc {
  srv : Server;
  calls : gmap nat (list Pub);
  sessions : gmap nat Session;
  dashes : gmap nat DashSession;
}.

Definition Rpc_new (rc pc : nat) (f : FusionEngine) (c : Conn) (site : string) : Rpc :=
  mkRpc (mkServer (World_new rc pc) f c site) ∅ ∅ ∅.

Inductive RpcLabel :=
| RCall (k : nat) (env : CallEnv) (c : Call)
| RPub (k : nat) (now : Z)
| RControlOpen (k : nat) (first : option ControlPayload) (now : Z)
| RControlSubscribe (k : nat)
| RControlRead (k : nat) (env : ControlPayload) (now : Z)
| RControlWrite (k : nat) (cancelled write_ok : bool)
| RControlEnd (k : nat)
| RControlReturn (k : nat)
| RSubscribe (k : nat) (req : DashboardSubscription)
| RSubscribeDrain (k : nat) (outs : list (bool * bool))
| RSubscribeTurn (k : nat) (cancelled write_ok : bool)
| RStop.

Definition bus (r : Rpc) : World := bus_ (srv r).
Definition set_bus (w : World) (r : Rpc) : Rpc :=
  mkRpc (with_bus w (srv r)) (calls r) (sessions r) (dashes r).
Definition set_session (k : nat) (x : Session) (r : Rpc) : Rpc :=
  mkRpc (srv r) (calls r) (<[k := x]> (sessions r)) (dashes r).
Definition set_dash (k : nat) (x : DashSession) (r : Rpc) : Rpc :=
  mkRpc (srv r) (calls r) (sessions r) (<[k := x]> (dashes r)).

Fixpoint run_pubs (now : Z) (ps : list Pub) (w : World) : option World :=
  match ps with
  | [] => Some w
  | p :: ps => '(_, w) ← run_pub now p w; run_pubs now ps w
  end.

(** One step of one thread; [None] where the label names no such step. *)
Definition rpc_exec (l : RpcLabel) (r : Rpc) : option Rpc :=
  match l with
  | RCall k env c =>
      guard (calls r !! k = None) ;;
      let '(s, ps) := call_front env c (srv r) in
      Some (mkRpc s (<[k := ps]> (calls r)) (sessions r) (dashes r))
  | RPub k now =>
      match calls r !! k with
      | Some (p :: ps) =>
          '(_, w) ← run_pub now p (bus r);
          Some (set_bus w (mkRpc (srv r) (<[k := ps]> (calls r)) (sessions r) (dashes r)))
      | Some [] => Some (mkRpc (srv r) (delete k (calls r)) (sessions r) (dashes r))
      | None => None
      end
  | RControlOpen k first now =>
      guard (sessions r !! k = None) ;;
      match Control_identify first with
      | inl _ => Some r
      | inr t =>
          w ← run_pubs now [PubTelemetry (default_site_id_ (srv r)) t] (bus r);
          Some (set_session k (mkSession (t_gate_id (tm_base t)) None false false []) (set_bus w r))
      end
  | RControlSubscribe k =>
      match sessions r !! k with
      | Some (mkSession gate None _ _ wire) =>
          match subscribe (command_filter gate) (bus r) with
          | (_, None) => Some (mkRpc (srv r) (calls r) (delete k (sessions r)) (dashes r))
          | (w, Some i) => Some (set_session k (mkSession gate (Some i) true false wire) (set_bus w r))
          end
      | _ => None
      end
  | RControlRead k env now =>
      match sessions r !! k with
      | Some (mkSession gate (Some _) _ false _) =>
          w ← run_pubs now (Control_dispatch (default_site_id_ (srv r)) gate env) (bus r);
          Some (set_bus w r)
      | _ => None
      end
  | RControlWrite k cancelled write_ok =>
      match sessions r !! k with
      | Some x =>
          match ses_sub x with
          | Some i =>
              guard (ses_writing x = true) ;;
              let '(w, x) := Control_write cancelled write_ok i (bus r) x in
              Some (set_session k x (set_bus w r))
          | None => None
          end
      | None => None
      end
  | RControlEnd k =>
      match sessions r !! k with
      | Some (mkSession gate (Some i) writing false wire) =>
          Some (set_session k (mkSession gate (Some i) writing true wire)
                  (set_bus (on_sub close i (bus r)) r))
      | _ => None
      end
  | RControlReturn k =>
      match sessions r !! k with
      | Some (mkSession gate (Some i) false true wire) =>
          Some (mkRpc (with_bus (on_sub destroy i (bus r)) (srv r)) (calls r)
                  (delete k (sessions r)) (dashes r))
      | _ => None
      end
  | RSubscribe k req =>
      guard (dashes r !! k = None) ;;
      match subscribe req (bus r) with
      | (_, None) => Some r
      | (w, Some i) => Some (set_dash k (mkDash i false true []) (set_bus w r))
      end
  | RSubscribeDrain k outs =>
      match dashes r !! k with
      | Some (mkDash i false true wire as x) =>
          let '(w, x) := Subscribe_drain outs (bus r) x in Some (set_dash k x (set_bus w r))
      | _ => None
      end
  | RSubscribeTurn k cancelled write_ok =>
      match dashes r !! k with
      | Some (mkDash i true true wire as x) =>
          let '(w, x) := Subscribe_turn cancelled write_ok (bus r) x in
          Some (set_dash k x (set_bus w r))
      | _ => None
      end
  | RStop => Some (set_bus (stop_bus (bus r)) r)
  end.

Fixpoint rpc_run (ls : list RpcLabel) (r : Rpc) : option Rpc :=
  match ls with
  | [] => Some r
  | l :: ls => r ← rpc_exec l r; rpc_run ls r
  end.

(** ** The bus under the handlers

    Whatever the handlers do to the bus is a run of the broadcaster's own
    threads, so that its theorems apply to the server. *)

Definition hub_run (w w' : World) : Prop := exists ls, exec_all ls w = Some w'.

Lemma exec_all_app ls1 ls2 w :
  exec_all (ls1 ++ ls2) w = exec_all ls1 w ≫= exec_all ls2.
Proof.
  revert w. induction ls1 as [|l ls1 IH]; intros w; [done|]. cbn [app exec_all].
  destruct (exec l w); [apply IH | done].
Qed.

#[export] Instance hub_run_preorder : PreOrder hub_run.
Proof.
  split; [by exists []|]. intros w1 w2 w3 [ls1 H1] [ls2 H2]. exists (ls1 ++ ls2).
  by rewrite exec_all_app, H1.
Qed.

Lemma free_thread (w : World) : exists t, threads w !! t = None.
Proof. exists (fresh (dom (threads w))). apply not_elem_of_dom, is_fresh. Qed.

Lemma publish_run now site gate e w id w' :
  publish now site gate e w = Some (id, w') -> hub_run w w'.
Proof.
  intros H. destruct (stopped (hub w)) eqn:Hs.
  - unfold publish in H. rewrite Hs in H. by simplify_eq.
  - destruct (free_thread w) as [t Ht].
    destruct (publish_is_run t now site gate e w id w' Ht Hs H) as [n Hn]. by eexists.
Qed.

(** The event a publication puts on the bus. *)
Definition pub_site (p : Pub) : string :=
  match p with
  | PubDecision site _ | PubTelemetry site _ | PubFault site _ | PubCommand site _
  | PubAck site _ _ => site
  end.
Definition pub_gate (p : Pub) : string :=
  match p with
  | PubDecision _ d => ad_gate_id d
  | PubTelemetry _ t => t_gate_id (tm_base t)
  | PubFault _ f => fe_gate_id f
  | PubCommand _ c => cm_gate_id c
  | PubAck _ gate _ => gate
  end.
Definition pub_payload (p : Pub) : Payload :=
  match p with
  | PubDecision _ d => kDecision d
  | PubTelemetry _ t => kTelemetry t
  | PubFault _ f => kFault f
  | PubCommand _ c => kCommand c
  | PubAck _ _ a => kAck a
  end.
Definition pub_event (p : Pub) (v : EventEnvelope) : Prop :=
  env_site_id v = pub_site p /\ env_gate_id v = pub_gate p /\
  payload (env_event v) = pub_payload p.

Lemma run_pub_publish now p w :
  run_pub now p w = publish now (pub_site p) (pub_gate p) (no_event (pub_payload p)) w.
Proof. by destruct p. Qed.

Lemma run_pubs_run now ps w w' : run_pubs now ps w = Some w' -> hub_run w w'.
Proof.
  revert w. induction ps as [|p ps IH]; intros w H; cbn [run_pubs] in H; [by simplify_eq|].
  apply bind_Some in H as ([id w1] & H1 & H).
  rewrite run_pub_publish in H1.
  etrans; [by eapply publish_run | by apply IH].
Qed.

Lemma subscribe_run f w w' o : subscribe f w = (w', o) -> hub_run w w'.
Proof.
  unfold subscribe. destruct (stopped (hub w)) eqn:Hs; intros ?; simplify_eq; [done|].
  destruct (free_thread w) as [t Ht]. exists [LSubscribe t f; LSubscribeLock t].
  cbn [exec_all exec]. case_guard; [|done]. unfold enter. rewrite Hs.
  cbn [mret option_ret mbind option_bind threads hub]. rewrite lookup_insert_eq.
  cbn [mbind option_bind]. by rewrite delete_insert_eq, delete_id.
Qed.

Lemma on_sub_run (g : Sub -> Sub) i w :
  (exists l, forall w, exec l w = Some (on_sub g i w)) -> hub_run w (on_sub g i w).
Proof. intros [l Hl]. exists [l]. cbn [exec_all]. by rewrite Hl. Qed.

Lemma on_sub_const g i w s :
  heap (hub w) !! i = Some s -> on_sub (fun _ => g s) i w = on_sub g i w.
Proof.
  intros Hi. unfold on_sub. do 2 f_equal. unfold alter.
  revert i Hi. generalize (heap (hub w)). intros l.
  induction l as [|x l IH]; intros [|i] Hi; simplify_eq/=; [done|]. f_equal. by apply IH.
Qed.

Lemma close_all t ts todo h ths :
  ths !! t = Some (Stopping ts todo) ->
  exec_all (replicate (length todo) (LStopClose t) ++ [LReturn t]) (mkWorld h ths)
  = Some (mkWorld (foldl (fun h i => with_heap (alter close i (heap h)) h) h todo) (delete t ths)).
Proof.
  revert h ths. induction todo as [|i todo IH]; intros h ths Ht;
    cbn [length replicate app exec_all exec threads]; rewrite Ht; [done|].
  unfold on_sub. cbn [mbind option_bind hub threads]. rewrite IH by apply lookup_insert_eq.
  by rewrite delete_insert_eq.
Qed.

Lemma stop_run w : hub_run w (stop_bus w).
Proof.
  unfold stop_bus. destruct (stopped (hub w)) eqn:Hs; [done|].
  destruct (free_thread w) as [t Ht]. set (ts := base.filter _ _).
  exists (LStop t :: LStopLock t :: replicate (length ts) (LStopClose t) ++ [LReturn t]).
  cbn [exec_all exec]. case_guard; [|done]. rewrite Hs.
  cbn [mret option_ret mbind option_bind threads hub]. rewrite lookup_insert_eq.
  assert (Hf : base.filter (fun i => alive (mkWorld (with_stopped (hub w))
                 (<[t := StopChecked]> (threads w))) i = true) (subs (with_stopped (hub w))) = ts).
  { apply EventBroadcaster.filter_ext_in. intros i _. unfold alive.
    cbn [hub threads with_stopped heap].
    destruct (heap (hub w) !! i) as [s|]; [|done].
    rewrite !orb_true_iff, !existsb_exists.
    setoid_rewrite <- list_elem_of_In. setoid_rewrite map_to_list_insert; [|done].
    setoid_rewrite elem_of_cons. naive_solver. }
  rewrite Hf. cbn [mbind option_bind]. rewrite (close_all t ts ts) by apply lookup_insert_eq.
  by rewrite !delete_insert_eq, delete_id.
Qed.

Lemma deliver_hub v ts h :
  let h' := foldl (fun h i => deliver v i h) h ts in
  log h' = log h /\ stopped h' = stopped h /\ subs h' = subs h.
Proof. revert h. induction ts as [|i ts IH]; intros h; [done|]. apply (IH (deliver v i h)). Qed.

(** A publication is refused by a stopped bus and logged by a running one. *)
Lemma run_pub_log now p w id w' :
  run_pub now p w = Some (id, w') ->
  stopped (hub w') = stopped (hub w) /\
  ((stopped (hub w) = true /\ w' = w) \/
   (stopped (hub w) = false /\ exists v, pub_event p v /\ log (hub w') = log (hub w) ++ [v])).
Proof.
  rewrite run_pub_publish. unfold publish. intros H.
  destruct (stopped (hub w)) eqn:Hs; [simplify_eq; by auto|].
  apply bind_Some in H as ([[ts v] h] & Hl & H).
  destruct (deliver_hub v ts h) as (Hlog & Hst & _).
  unfold publish_locked in Hl. apply bind_Some in Hl as (rg & Hr & Hl). simplify_eq.
  cbn [hub]. rewrite Hlog, Hst. cbn [stopped log]. split; [done|].
  right. split; [done|]. eexists. split; [|reflexivity]. by destruct p.
Qed.

Lemma on_sub_hub g i w :
  log (hub (on_sub g i w)) = log (hub w) /\ stopped (hub (on_sub g i w)) = stopped (hub w).
Proof. done. Qed.

Lemma subscribe_hub f w w' o :
  subscribe f w = (w', o) ->
  log (hub w') = log (hub w) /\ stopped (hub w') = stopped (hub w).
Proof. unfold subscribe. destruct (stopped (hub w)) eqn:Hs; intros ?; by simplify_eq/=. Qed.

Lemma stop_bus_log w : log (hub (stop_bus w)) = log (hub w) /\ stopped (hub (stop_bus w)) = true.
Proof.
  unfold stop_bus. destruct (stopped (hub w)) eqn:Hs; [done|]. cbn [hub].
  set (h := with_subs _ _). set (ts := base.filter _ _).
  assert (H : log h = log (hub w) /\ stopped h = true) by done. clearbody h ts.
  revert h H. induction ts as [|i ts IH]; intros h H; [done|]. cbn [foldl]. by apply IH.
Qed.

(** The step relation of the streams and the bus, by what they do to it. *)
Lemma Control_write_bus cancelled ok i w x w' x' :
  Control_write cancelled ok i w x = (w', x') ->
  hub_run w w' /\ log (hub w') = log (hub w) /\ stopped (hub w') = stopped (hub w).
Proof.
  unfold Control_write. destruct (_ || _); [intros ?; by simplify_eq|].
  destruct (heap (hub w) !! i) as [s|] eqn:Hi; [|intros ?; by simplify_eq].
  rewrite (surjective_pairing (next s)). rewrite (on_sub_const (fun s => (next s).2) i w s Hi).
  intros H. assert (w' = on_sub (fun s => (next s).2) i w) as -> by (repeat case_match; by simplify_eq).
  split; [|done]. apply on_sub_run. by exists (LNext i).
Qed.

Lemma Subscribe_leave_bus x w :
  hub_run w (Subscribe_leave x w).1 /\ log (hub (Subscribe_leave x w).1) = log (hub w) /\
  stopped (hub (Subscribe_leave x w).1) = stopped (hub w).
Proof. split; [|done]. apply on_sub_run. by exists (LDestroy (ds_sub x)). Qed.

Lemma Subscribe_drain_bus outs w x w' x' :
  Subscribe_drain outs w x = (w', x') ->
  hub_run w w' /\ log (hub w') = log (hub w) /\ stopped (hub w') = stopped (hub w).
Proof.
  unfold Subscribe_drain.
  destruct (heap (hub w) !! _) as [s|] eqn:Hi; [|intros ?; by simplify_eq].
  rewrite (surjective_pairing (drain_now s)), (on_sub_const (fun s => (drain_now s).2) _ w s Hi).
  assert (hub_run w (on_sub (fun s => (drain_now s).2) (ds_sub x) w)) as Hr
    by (apply on_sub_run; by exists (LDrain (ds_sub x))).
  destruct (drain_writes _ _) as [l [|]]; intros H; [by simplify_eq|].
  split; [|unfold Subscribe_leave in H; by simplify_eq/=]. etrans; [exact Hr|].
  pose proof (Subscribe_leave_bus (mkDash (ds_sub x) true true (ds_wire x ++ l))
    (on_sub (fun s => (drain_now s).2) (ds_sub x) w)) as [Hl _]. by rewrite H in Hl.
Qed.

Lemma Subscribe_turn_bus cancelled ok w x w' x' :
  Subscribe_turn cancelled ok w x = (w', x') ->
  hub_run w w' /\ log (hub w') = log (hub w) /\ stopped (hub w') = stopped (hub w).
Proof.
  unfold Subscribe_turn.
  destruct cancelled; [intros H; pose proof (Subscribe_leave_bus x w) as Hl; by rewrite H in Hl|].
  destruct (heap (hub w) !! _) as [s|] eqn:Hi; [|intros ?; by simplify_eq].
  rewrite (surjective_pairing (next s)), (on_sub_const (fun s => (next s).2) _ w s Hi).
  assert (hub_run w (on_sub (fun s => (next s).2) (ds_sub x) w)) as Hr
    by (apply on_sub_run; by exists (LNext (ds_sub x))).
  pose proof (Subscribe_leave_bus x (on_sub (fun s => (next s).2) (ds_sub x) w)) as [Hl _].
  intros H. assert (w' = on_sub (fun s => (next s).2) (ds_sub x) w \/
    (w', x') = Subscribe_leave x (on_sub (fun s => (next s).2) (ds_sub x) w)) as [-> | Hw]
    by (repeat case_match; simplify_eq; auto); [done|].
  rewrite <- Hw in Hl. split; [by etrans|]. unfold Subscribe_leave in Hw. by simplify_eq/=.
Qed.

(** ** Steps of the server *)

Definition streaming (l : RpcLabel) : Prop :=
  match l with RCall _ _ _ | RPub _ _ => False | _ => True end.

(** What the gates may publish themselves. *)
Definition stream_pub (p : Pub) : Prop :=
  match p with PubDecision _ _ | PubCommand _ _ => False | _ => True end.
Definition stream_event (v : EventEnvelope) : Prop := exists p, stream_pub p /\ pub_event p v.

(** A step of a stream, as the other threads see it. *)
Record quiet_step (r r' : Rpc) : Prop := {
  qs_calls : calls r' = calls r;
  qs_fusion : fusion_ (srv r') = fusion_ (srv r);
  qs_store : store_ (srv r') = store_ (srv r);
  qs_run : hub_run (bus r) (bus r');
  qs_stopped : stopped (hub (bus r)) = true -> stopped (hub (bus r')) = true;
  qs_log : exists new, log (hub (bus r')) = log (hub (bus r)) ++ new /\ Forall stream_event new;
}.

Lemma run_pubs_log now ps w w' :
  run_pubs now ps w = Some w' -> Forall stream_pub ps ->
  stopped (hub w') = stopped (hub w) /\
  exists new, log (hub w') = log (hub w) ++ new /\ Forall stream_event new.
Proof.
  revert w. induction ps as [|p ps IH]; intros w H Hs; cbn [run_pubs] in H.
  { simplify_eq. split; [done|]. exists []. by rewrite app_nil_r. }
  apply bind_Some in H as ([id w1] & H1 & H). apply Forall_cons in Hs as [Hp Hs].
  apply IH in H as (Hst & new & Hl & Hn); [|done].
  apply run_pub_log in H1 as (Hst1 & [[_ ->] | (_ & v & Hv & Hl1)]); [by eauto|].
  split; [congruence|]. exists (v :: new). rewrite Hl, Hl1, <- app_assoc.
  split; [done|]. constructor; [by exists p | done].
Qed.

Lemma Control_dispatch_stream site gate env : Forall stream_pub (Control_dispatch site gate env).
Proof. by destruct env; repeat constructor. Qed.

(** The bus changed, the rest of the server did not. *)
Lemma quiet_bus w r r' :
  hub_run (bus r) w -> (stopped (hub (bus r)) = true -> stopped (hub w) = true) ->
  (exists new, log (hub w) = log (hub (bus r)) ++ new /\ Forall stream_event new) ->
  calls r' = calls r -> srv r' = with_bus w (srv r) -> quiet_step r r'.
Proof. intros Hr Hst Hl Hc Hs. split; unfold bus; by rewrite ?Hs. Qed.

Lemma quiet_same w r r' :
  hub_run (bus r) w /\ log (hub w) = log (hub (bus r)) /\ stopped (hub w) = stopped (hub (bus r)) ->
  calls r' = calls r -> srv r' = with_bus w (srv r) -> quiet_step r r'.
Proof.
  intros (Hr & Hl & Hst). apply quiet_bus; [done | by rewrite Hst|].
  exists []. by rewrite app_nil_r.
Qed.

Lemma quiet_refl r r' : calls r' = calls r -> srv r' = srv r -> quiet_step r r'.
Proof.
  intros Hc Hs. apply (quiet_same (bus r)); [done | done |]. rewrite Hs. unfold bus; by destruct (srv r).
Qed.

Lemma on_sub_same g i w :
  (exists l, forall w, exec l w = Some (on_sub g i w)) ->
  hub_run w (on_sub g i w) /\ log (hub (on_sub g i w)) = log (hub w) /\
  stopped (hub (on_sub g i w)) = stopped (hub w).
Proof. intros H. split; [by apply on_sub_run | done]. Qed.

Lemma stream_step l r r' : rpc_exec l r = Some r' -> streaming l -> quiet_step r r'.
Proof.
  intros H Hl. destruct l; try done; cbn [rpc_exec] in H.
  - case_guard; [|done]. destruct (Control_identify first) as [st|t];
      cbn [mret option_ret mbind option_bind] in H; [injection H as <-; by apply quiet_refl|].
    apply bind_Some in H as (w & H1 & H). injection H as <-.
    pose proof (run_pubs_log _ _ _ _ H1 ltac:(by repeat constructor)) as [Hst Hn].
    apply (quiet_bus w); [by eapply run_pubs_run | congruence | done | done | done].
  - destruct (sessions r !! k) as [[gate [i|] b1 b2 wire]|]; try done.
    destruct (subscribe _ _) as [w [i|]] eqn:Hs; simplify_eq/=; [|by apply quiet_refl].
    apply (quiet_same w); [|done|done]. split; [by eapply subscribe_run | by eapply subscribe_hub].
  - destruct (sessions r !! k) as [[gate [i|] b1 [] wire]|]; try done.
    apply bind_Some in H as (w & H1 & H). injection H as <-.
    pose proof (run_pubs_log _ _ _ _ H1 (Control_dispatch_stream _ _ _)) as [Hst Hn].
    apply (quiet_bus w); [by eapply run_pubs_run | congruence | done | done | done].
  - destruct (sessions r !! k) as [x|]; [|done]. destruct (ses_sub x) as [i|]; [|done].
    case_guard; [|done]. destruct (Control_write _ _ _ _ _) as [w x'] eqn:Hw; simplify_eq/=.
    apply (quiet_same w); [by eapply Control_write_bus | done | done].
  - destruct (sessions r !! k) as [[gate [i|] b1 [] wire]|]; try done. simplify_eq/=.
    eapply quiet_same; [apply on_sub_same; by exists (LClose i) | done | done].
  - destruct (sessions r !! k) as [[gate [i|] [] [] wire]|]; try done. simplify_eq/=.
    eapply quiet_same; [apply on_sub_same; by exists (LDestroy i) | done | done].
  - case_guard; [|done]. destruct (subscribe _ _) as [w [i|]] eqn:Hs; simplify_eq/=;
      [|by apply quiet_refl].
    apply (quiet_same w); [|done|done]. split; [by eapply subscribe_run | by eapply subscribe_hub].
  - destruct (dashes r !! k) as [[i [] [] wire]|]; try done.
    destruct (Subscribe_drain _ _ _) as [w x'] eqn:Hw; simplify_eq/=.
    apply (quiet_same w); [by eapply Subscribe_drain_bus | done | done].
  - destruct (dashes r !! k) as [[i [] [] wire]|]; try done.
    destruct (Subscribe_turn _ _ _ _) as [w x'] eqn:Hw; simplify_eq/=.
    apply (quiet_same w); [by eapply Subscribe_turn_bus | done | done].
  - simplify_eq/=. destruct (stop_bus_log (bus r)) as [Hlog Hst].
    apply (quiet_bus (stop_bus (bus r))); [apply stop_run | done | | done | done].
    exists []. by rewrite app_nil_r.
Qed.

(** ** Where open commands come from *)

Definition opens (c : GateCommandMsg) : Prop := cmd_kind (cm_base c) = COMMAND_KIND_OPEN_GATE.

(** An operator asked for [c] in one of the calls of [ls]. *)
Definition was_issued (ls : list RpcLabel) (c : GateCommandMsg) : Prop :=
  exists k env req, RCall k env (CallIssue req) ∈ ls /\ cm_gate_id req = cm_gate_id c /\
    cmd_kind (cm_base req) = cmd_kind (cm_base c) /\ cmd_actor (cm_base req) = cmd_actor (cm_base c).

(** Decision [d] authorises [c], and [c] names it. *)
Definition authorises (d : AuthDecision) (c : GateCommandMsg) : Prop :=
  verdict d = AUTHORIZED /\ ad_gate_id d = cm_gate_id c /\
  cmd_actor (cm_base c) = ("auto:" +:+ decision_id d)%string.

Definition decided (l : list EventEnvelope) (d : AuthDecision) : Prop :=
  exists v, v ∈ l /\ payload (env_event v) = kDecision d.

(** The publications of one call, [known] being the decisions already on the
    bus when it goes on. *)
Fixpoint pubs_ok (issued : GateCommandMsg -> Prop) (known : AuthDecision -> Prop) (ps : list Pub)
    : Prop :=
  match ps with
  | [] => True
  | PubDecision _ d :: ps => pubs_ok issued (fun d' => known d' \/ d' = d) ps
  | PubCommand _ c :: ps =>
      (opens c -> issued c \/ exists d, known d /\ authorises d c) /\ pubs_ok issued known ps
  | _ :: ps => pubs_ok issued known ps
  end.

Lemma pubs_ok_mono (i i' : GateCommandMsg -> Prop) (k k' : AuthDecision -> Prop) ps :
  (forall c, i c -> i' c) -> (forall d, k d -> k' d) -> pubs_ok i k ps -> pubs_ok i' k' ps.
Proof.
  intros Hi. revert k k'. induction ps as [|p ps IH]; intros k k' Hk; cbn [pubs_ok]; [done|].
  destruct p; try (by apply IH).
  - apply IH. naive_solver.
  - intros [Ho Hp]. split; [|by eapply IH]. intros Hop. destruct (Ho Hop); naive_solver.
Qed.

(** The decision's gate is the request's, and a lockdown refuses. *)
Lemma decide_at_gate {S} `{!AuthStore S} e (st : S) uuid req now tm d :
  decide_at e st uuid req now tm = inr d ->
  ad_gate_id d = df_gate_id (frame_ req) /\
  (override_for e (df_gate_id (frame_ req)) = kForceClose ->
   verdict d = DENIED /\ deny_reason d = FORCE_CLOSE).
Proof.
  unfold decide_at. cbv zeta. destruct (decide_rel (=) _ kForceClose) as [He|Hn];
    [intros [= <-]; by cbn|]. intros H. split; [|done]. revert H.
  destruct (pick_best_plate req ≫= _) as [p|]; [|intros [= <-]; done].
  destruct (pick_best_vehicle req ≫= _) as [v|];
    repeat case_match; intros ?; simplify_eq; done.
Qed.

(** Every open command on the bus is explained by what precedes it. *)
Definition log_ok (issued : GateCommandMsg -> Prop) (l : list EventEnvelope) : Prop :=
  forall l1 v l2 c, l = l1 ++ v :: l2 -> payload (env_event v) = kCommand c -> opens c ->
    issued c \/ exists d, decided l1 d /\ authorises d c.

Lemma log_ok_mono (i i' : GateCommandMsg -> Prop) l :
  (forall c, i c -> i' c) -> log_ok i l -> log_ok i' l.
Proof. intros Hi Hl l1 v l2 c E Hp Ho. destruct (Hl l1 v l2 c E Hp Ho); naive_solver. Qed.

Lemma log_ok_snoc i l v :
  log_ok i l ->
  (forall c, payload (env_event v) = kCommand c -> opens c ->
     i c \/ exists d, decided l d /\ authorises d c) ->
  log_ok i (l ++ [v]).
Proof.
  intros Hl Hv l1 v' l2 c E Hp Ho. destruct l2 as [|x l2 _] using rev_ind.
  - apply app_inj_tail in E as [<- <-]. by apply Hv.
  - rewrite app_comm_cons, app_assoc in E. apply app_inj_tail in E as [E _]. by eapply Hl.
Qed.

Lemma log_ok_stream i l new : log_ok i l -> Forall stream_event new -> log_ok i (l ++ new).
Proof.
  intros Hl Hn. revert l Hl. induction Hn as [|v new (p & Hs & _ & _ & Hp) Hn IH]; intros l Hl;
    [by rewrite app_nil_r|].
  rewrite (app_assoc l [v] new : l ++ v :: new = _). apply IH, log_ok_snoc; [done|].
  intros c Hc. rewrite Hp in Hc. by destruct p.
Qed.

Lemma decided_app l1 l2 d : decided l1 d -> decided (l1 ++ l2) d.
Proof. intros (v & Hv & Hp). exists v. split; [|done]. apply elem_of_app. by left. Qed.

(** The bus knows [d], or is past telling anyone. *)
Definition knows (w : World) (d : AuthDecision) : Prop :=
  decided (log (hub w)) d \/ stopped (hub w) = true.

Record Origin (ls : list RpcLabel) (r : Rpc) : Prop := {
  or_log : log_ok (was_issued ls) (log (hub (bus r)));
  or_calls k ps : calls r !! k = Some ps -> pubs_ok (was_issued ls) (knows (bus r)) ps;
}.

Lemma was_issued_app ls ls' c : was_issued ls c -> was_issued (ls ++ ls') c.
Proof.
  intros (k & env & req & H & ?). exists k, env, req. split; [|done]. apply elem_of_app. by left.
Qed.

Lemma call_front_bus env c s : bus_ (call_front env c s).1 = bus_ s.
Proof.
  destruct c; unfold call_front, front, SubmitDetection, IssueCommand, Authorize, UpsertAllowlist,
    DeleteAllowlist; repeat (case_match; try done).
Qed.

(** The front of a call: whatever it will publish is explained. *)
Lemma call_front_pubs k env c s ls known :
  pubs_ok (was_issued (ls ++ [RCall k env c])) known (call_front env c s).2.
Proof.
  destruct c as [req|req|req|site es|site plates]; unfold call_front, front.
  - unfold SubmitDetection. destruct (String.eqb _ _); [done|].
    destruct (fusion_decide _ _ _) as [|d] eqn:Hd; [done|].
    apply decide_at_gate in Hd as [Hg _]. cbn [fst snd pubs_ok].
    destruct (decide _) as [Hv|Hv]; [|done]. cbn [pubs_ok]. split; [|done].
    intros _. right. exists d. split; [by right|]. by repeat split.
  - unfold IssueCommand. destruct (String.eqb _ _); [done|].
    assert (Hi : forall c, cm_gate_id req = cm_gate_id c ->
      cmd_kind (cm_base req) = cmd_kind (cm_base c) ->
      cmd_actor (cm_base req) = cmd_actor (cm_base c) ->
      was_issued (ls ++ [RCall k env (CallIssue req)]) c).
    { intros c H1 H2 H3. exists k, env, req. split; [|done]. apply elem_of_app. right. by left. }
    destruct (cmd_kind (cm_base req)) eqn:Hk; try done; cbn [fst snd pubs_ok]; (split; [|done]);
      intros _; left; by apply Hi.
  - unfold Authorize. repeat (case_match; try done).
  - unfold UpsertAllowlist. repeat (case_match; try done).
  - unfold DeleteAllowlist. repeat (case_match; try done).
Qed.

Lemma Origin_calls ls r r' l :
  Origin ls r -> (forall d, knows (bus r) d -> knows (bus r') d) ->
  forall k ps, calls r !! k = Some ps -> pubs_ok (was_issued (ls ++ [l])) (knows (bus r')) ps.
Proof.
  intros [_ Hc] Hk k ps Hps. eapply pubs_ok_mono, Hc, Hps; [|done]. intros c. apply was_issued_app.
Qed.

Lemma Origin_pub ls r k now r' :
  Origin ls r -> rpc_exec (RPub k now) r = Some r' -> Origin (ls ++ [RPub k now]) r'.
Proof.
  intros Ho H. pose proof (Origin_calls ls r r' (RPub k now) Ho) as Hcs.
  destruct Ho as [Hlog Hcalls]. cbn [rpc_exec] in H.
  apply (log_ok_mono _ (was_issued (ls ++ [RPub k now]))) in Hlog;
    [|intros c; apply was_issued_app].
  destruct (calls r !! k) as [[|p ps]|] eqn:Hk; simplify_eq/=.
  { split; [done|]. intros k' ps' H'. cbn [calls] in H'.
    apply lookup_delete_Some in H' as [_ H']. by eapply Hcs. }
  apply bind_Some in H as ([id w] & H1 & H). injection H as <-.
  pose proof (Hcalls k _ Hk) as Hp. apply run_pub_log in H1 as (Hst & Hw).
  assert (Hkn : forall d, knows (bus r) d -> knows w d).
  { intros d [Hd|Hd]; [|right; by rewrite Hst]. left.
    destruct Hw as [[_ ->] | (_ & v & _ & ->)]; [done|]. by apply decided_app. }
  assert (Htail : pubs_ok (was_issued (ls ++ [RPub k now])) (knows w) ps).
  { destruct p as [site d| | |site c|]; cbn [pubs_ok] in Hp; try destruct Hp as [_ Hp];
      (eapply pubs_ok_mono, Hp; [intros c0; apply was_issued_app |]); try done.
    intros d' [Hd' | ->]; [by apply Hkn|].
    destruct Hw as [[Hs ->] | (_ & v & (_ & _ & Hv) & Hl)]; [by right|].
    left. rewrite Hl. exists v. split; [|done]. apply elem_of_app. right. by left. }
  split.
  - destruct Hw as [[Hs ->] | (Hs & v & (_ & _ & Hv) & Hl)]; [done|].
    change (bus (set_bus w _)) with w. rewrite Hl. apply log_ok_snoc; [done|].
    intros c Hpay Hop. rewrite Hv in Hpay. destruct p; try done. injection Hpay as ->.
    destruct Hp as [Hp _]. destruct (Hp Hop) as [Hi | (d & [Hd|Hd] & Ha)];
      [left; by apply was_issued_app | right; by eauto | congruence].
  - intros k' ps' H'. cbn [set_bus calls] in H'.
    apply lookup_insert_Some in H' as [[<- <-] | [_ H']]; [done|]. by eapply Hcs.
Qed.

Lemma Origin_exec ls r l r' : Origin ls r -> rpc_exec l r = Some r' -> Origin (ls ++ [l]) r'.
Proof.
  intros Ho H. assert (Hs : streaming l -> Origin (ls ++ [l]) r').
  { intros Hl. destruct (stream_step l r r' H Hl) as [Hc _ _ _ Hst (new & Hlog & Hnew)].
    assert (Hkn : forall d, knows (bus r) d -> knows (bus r') d).
    { intros d [Hd|Hd]; [left; rewrite Hlog; by apply decided_app | right; by apply Hst]. }
    split; [|rewrite Hc; by eapply Origin_calls].
    rewrite Hlog. apply log_ok_stream; [|done]. eapply log_ok_mono, Ho. intros c.
    apply was_issued_app. }
  destruct l as [k env c|k now| | | | | | | | | |]; try (by apply Hs); [|by eapply Origin_pub].
  cbn [rpc_exec] in H. case_guard; [|done].
  rewrite (surjective_pairing (call_front env c (srv r))) in H.
  cbn [mret option_ret mbind option_bind] in H. injection H as <-. unfold bus.
  pose proof (call_front_bus env c (srv r)) as Hb.
  split; unfold bus; cbn [srv calls]; rewrite Hb.
  - eapply log_ok_mono, Ho. intros c'. apply was_issued_app.
  - intros k' ps' H'. apply lookup_insert_Some in H' as [[<- <-] | [_ H']];
      [by apply call_front_pubs | by eapply (Origin_calls ls r r)].
Qed.

Lemma Origin_run ls0 ls r r' : Origin ls0 r -> rpc_run ls r = Some r' -> Origin (ls0 ++ ls) r'.
Proof.
  revert ls0 r. induction ls as [|l ls IH]; intros ls0 r Ho H; cbn [rpc_run] in H.
  { simplify_eq. by rewrite app_nil_r. }
  apply bind_Some in H as (r1 & H1 & H). rewrite (app_assoc ls0 [l] ls : ls0 ++ l :: ls = _).
  eapply IH, H. by eapply Origin_exec.
Qed.

(** ** Lockdown *)

(** The call takes gate [g] out of its lockdown. *)
Definition releases (g : string) (l : RpcLabel) : Prop :=
  match l with
  | RCall _ _ (CallIssue req) =>
      cm_gate_id req = g /\ (cmd_kind (cm_base req) = COMMAND_KIND_LATCH_OPEN \/
                             cmd_kind (cm_base req) = COMMAND_KIND_RELEASE_LATCH)
  | _ => False
  end.

(** What may reach the bus about [g] during a lockdown. *)
Definition locked_payload (g : string) (ls : list RpcLabel) (p : Payload) : Prop :=
  match p with
  | kDecision d => ad_gate_id d = g -> verdict d = DENIED /\ deny_reason d = FORCE_CLOSE
  | kCommand c => cm_gate_id c = g -> opens c -> was_issued ls c
  | _ => True
  end.

Definition locked_pub g ls (p : Pub) : Prop := locked_payload g ls (pub_payload p).
Definition locked_event g ls (v : EventEnvelope) : Prop :=
  locked_payload g ls (payload (env_event v)).

Record Lockdown (g : string) (ls : list RpcLabel) (l0 : list EventEnvelope) (r : Rpc) : Prop := {
  ld_override : override_for (fusion_ (srv r)) g = kForceClose;
  ld_calls k ps : calls r !! k = Some ps -> Forall (locked_pub g ls) ps;
  ld_log : exists new, log (hub (bus r)) = l0 ++ new /\ Forall (locked_event g ls) new;
}.

Lemma override_set e gate s g :
  override_for (set_override gate s e) g = if decide (gate = g) then s else override_for e g.
Proof.
  unfold override_for, set_override. destruct s; cbn [overrides_]; case_decide; subst;
    by rewrite ?lookup_delete_eq, ?lookup_insert_eq, ?lookup_delete_ne, ?lookup_insert_ne by done.
Qed.

Lemma decision_locked g env s req d ls :
  override_for (fusion_ s) g = kForceClose -> fusion_decide env s req = inr d ->
  locked_payload g ls (kDecision d) /\
  (ad_gate_id d = df_gate_id (frame_ req)) /\ (ad_gate_id d = g -> verdict d <> AUTHORIZED).
Proof.
  intros Ho Hd. apply decide_at_gate in Hd as [Hg Hf]. cbn [locked_payload].
  split; [|split; [done|]]; intros E; rewrite Hg in E; rewrite E in Hf; specialize (Hf Ho); [done|].
  destruct Hf as [-> _]. done.
Qed.

Lemma front_locked g k env c s ls :
  override_for (fusion_ s) g = kForceClose -> ~ releases g (RCall k env c) ->
  RCall k env c ∈ ls ->
  override_for (fusion_ (call_front env c s).1) g = kForceClose /\
  Forall (locked_pub g ls) (call_front env c s).2.
Proof.
  intros Ho Hr Hin. destruct c as [req|req|req|site es|site plates]; unfold call_front, front.
  - unfold SubmitDetection. destruct (String.eqb _ _); [by repeat constructor|].
    destruct (fusion_decide _ _ _) as [|d] eqn:Hd; [by repeat constructor|].
    destruct (decision_locked g _ _ _ d ls Ho Hd) as (Hl & Hg & Hv). cbn [fst snd].
    split; [done|]. constructor; [done|]. destruct (decide _); constructor; [|constructor].
    intros E _. cbn in E. exfalso. apply Hv; [|done]. by rewrite Hg.
  - unfold IssueCommand. destruct (String.eqb _ _); [by repeat constructor|].
    assert (Hi : forall c, cm_gate_id req = cm_gate_id c ->
      cmd_kind (cm_base req) = cmd_kind (cm_base c) ->
      cmd_actor (cm_base req) = cmd_actor (cm_base c) -> was_issued ls c) by (by exists k, env, req).
    destruct (cmd_kind (cm_base req)) eqn:Hk; cbn [fst snd with_fusion fusion_];
      rewrite ?override_set; (split; [|constructor; [intros _ _; by apply Hi | by repeat constructor]
                                      || constructor]); try done; case_decide; try done;
      exfalso; apply Hr; cbn; rewrite Hk; auto.
  - unfold Authorize. do 2 (destruct (String.eqb _ _); [by repeat constructor|]).
    destruct (fusion_decide _ _ _) as [|d] eqn:Hd; [by repeat constructor|].
    destruct (decision_locked g _ _ _ d ls Ho Hd) as (Hl & _). cbn [fst snd].
    split; [done|]. constructor; [exact Hl | constructor].
  - unfold UpsertAllowlist. destruct (String.eqb _ _); [by repeat constructor|].
    destruct (upsert _ _ _ _). by repeat constructor.
  - unfold DeleteAllowlist. destruct (String.eqb _ _); [by repeat constructor|].
    destruct (AllowlistStore.remove _ _ _ _). by repeat constructor.
Qed.

Lemma Lockdown_exec g ls l0 r l r' :
  Lockdown g ls l0 r -> rpc_exec l r = Some r' -> ~ releases g l -> l ∈ ls -> Lockdown g ls l0 r'.
Proof.
  intros [Ho Hc (new & Hl & Hn)] H Hrel Hin.
  assert (Hs : streaming l -> Lockdown g ls l0 r').
  { intros Hs. destruct (stream_step l r r' H Hs) as [Hcs Hfu _ _ _ (more & Hlog & Hmore)].
    split; [by rewrite Hfu | by rewrite Hcs|]. exists (new ++ more).
    rewrite Hlog, Hl, app_assoc. split; [done|]. apply Forall_app; split; [done|].
    eapply Forall_impl; [exact Hmore|]. intros v (p & Hp & _ & _ & Hv). unfold locked_event.
    rewrite Hv. by destruct p. }
  destruct l as [k env c|k now| | | | | | | | | |]; try (by apply Hs); cbn [rpc_exec] in H.
  - case_guard; [|done]. rewrite (surjective_pairing (call_front env c (srv r))) in H.
    cbn [mret option_ret mbind option_bind] in H. injection H as <-.
    destruct (front_locked g k env c (srv r) ls Ho Hrel Hin) as [Ho' Hp].
    split; unfold bus; cbn [srv calls]; [done | | rewrite call_front_bus; by exists new].
    intros k' ps' H'. apply lookup_insert_Some in H' as [[<- <-] | [_ H']]; [done | by eapply Hc].
  - destruct (calls r !! k) as [[|p ps]|] eqn:Hk; simplify_eq/=.
    { split; [done | | by exists new]. intros k' ps' H'. cbn [calls] in H'.
      apply lookup_delete_Some in H' as [_ H']. by eapply Hc. }
    apply bind_Some in H as ([id w] & H1 & H). injection H as <-.
    pose proof (Hc k _ Hk) as Hp. apply Forall_cons in Hp as [Hp Hps].
    split; [done | |].
    + intros k' ps' H'. cbn [set_bus calls] in H'.
      apply lookup_insert_Some in H' as [[<- <-] | [_ H']]; [done | by eapply Hc].
    + change (bus (set_bus w _)) with w. apply run_pub_log in H1 as (_ & Hw).
      destruct Hw as [[_ ->] | (_ & v & (_ & _ & Hv) & ->)]; [by exists new|].
      exists (new ++ [v]). rewrite Hl, app_assoc. split; [done|].
      apply Forall_app; split; [done|]. constructor; [|done]. unfold locked_event. by rewrite Hv.
Qed.

Lemma Lockdown_run g LS l0 ls r r' :
  Lockdown g LS l0 r -> rpc_run ls r = Some r' -> Forall (fun l => ~ releases g l) ls ->
  (forall l, l ∈ ls -> l ∈ LS) -> Lockdown g LS l0 r'.
Proof.
  revert r. induction ls as [|l ls IH]; intros r Hd H Hf Hin; cbn [rpc_run] in H; [by simplify_eq|].
  apply bind_Some in H as (r1 & H1 & H). apply Forall_cons in Hf as [Hl Hf].
  eapply IH; [|done|done|]; [|intros; apply Hin; by right].
  eapply Lockdown_exec; [done..|]. apply Hin. by left.
Qed.

(** ** Commands on their way to a gate *)

Definition command_of (e : DashboardEvent) : option GateCommandMsg :=
  match payload e with kCommand c => Some c | _ => None end.

Lemma foldl_deliver v ts h i s :
  NoDup ts -> heap h !! i = Some s ->
  heap (foldl (fun h i => deliver v i h) h ts) !! i
  = Some (if decide (i ∈ ts) then offer v s else s).
Proof.
  intros Hnd. revert h s. induction Hnd as [|j ts Hj Hnd IH]; intros h s Hi; cbn [foldl].
  { by rewrite decide_False by set_solver. }
  destruct (decide (i = j)) as [<-|Hne].
  - rewrite (IH _ (offer v s)); [rewrite decide_False by done; by rewrite decide_True by set_solver|].
    cbn [deliver with_heap heap]. by rewrite list_lookup_alter_eq, Hi.
  - rewrite (IH _ s); [by destruct (decide (i ∈ ts)), (decide (i ∈ j :: ts)); set_solver|].
    cbn [deliver with_heap heap]. by rewrite list_lookup_alter_ne.
Qed.

(** A running bus accepts every publication and offers it to every open
    subscription. *)
Lemma run_pub_offers now p w :
  Inv w -> stopped (hub w) = false ->
  exists id w' v, run_pub now p w = Some (id, w') /\ Inv w' /\ pub_event p v /\
    stopped (hub w') = false /\ log (hub w') = log (hub w) ++ [v] /\
    forall i s, heap (hub w) !! i = Some s -> sub_closed s = false ->
      heap (hub w') !! i = Some (offer v s).
Proof.
  intros Hw Hs.
  assert (exists id w', run_pub now p w = Some (id, w')) as (id & w' & Hp).
  { rewrite run_pub_publish. unfold publish, publish_locked. rewrite Hs.
    rewrite (inv_ring w Hw), (ring_push_spec _ _ _ (inv_cap w Hw)). by repeat eexists. }
  assert (Hinv : Inv w').
  { rewrite run_pub_publish in Hp. apply publish_run in Hp as [ls Hls]. by eapply Inv_run. }
  destruct (run_pub_log now p w id w' Hp) as (Hst & [[? _] | (_ & v & Hv & Hl)]); [congruence|].
  exists id, w', v. split_and!; try done; [congruence|].
  intros i s Hi Hc. rewrite run_pub_publish in Hp. unfold publish in Hp. rewrite Hs in Hp.
  apply bind_Some in Hp as ([[ts v'] h] & Hpl & Hp).
  unfold publish_locked in Hpl. apply bind_Some in Hpl as (rg & Hr & Hpl).
  assert (v' = v) as ->.
  { injection Hp as _ <-. injection Hpl as <- <- <-. cbn [hub] in Hl.
    edestruct deliver_hub as (Hl' & _). rewrite Hl' in Hl. cbn [log] in Hl.
    by apply app_inj_tail in Hl as [_ ->]. }
  injection Hp as _ <-. cbn [hub]. injection Hpl as <- _ <-. rewrite (foldl_deliver v _ _ i s).
  - rewrite decide_True; [done|]. apply list_elem_of_filter.
    split; [by eapply alive_open | by eapply inv_reg].
  - apply NoDup_filter, inv_nodup, Hw.
  - done.
Qed.

(** The writer of session [k] is at work on subscription [i]. *)
Definition serving (r : Rpc) (k i : nat) (x : Session) (s : Sub) : Prop :=
  sessions r !! k = Some x /\ ses_sub x = Some i /\ ses_writing x = true /\
  ses_shutting_down x = false /\ heap (hub (bus r)) !! i = Some s.

Lemma Control_write_next i w x s e q :
  ses_shutting_down x = false -> heap (hub w) !! i = Some s -> sub_queue s = e :: q ->
  exists w1 s1, heap (hub w1) !! i = Some s1 /\ sub_queue s1 = q /\
    log (hub w1) = log (hub w) /\
    Control_write false true i w x =
      (w1, mkSession (ses_gate x) (ses_sub x) (ses_writing x) (ses_shutting_down x)
             (ses_wire x ++ omap command_of [e])).
Proof.
  destruct x as [gate sub wr down wire]. cbn [ses_shutting_down]. intros -> Hh Hq.
  unfold Control_write. cbn [ses_shutting_down orb]. rewrite Hh. unfold next. rewrite Hq. cbn [orb].
  set (s1 := mkSub q _ _ _ _ _ _ _ _ _). set (w1 := on_sub (fun _ => s1) i w).
  exists w1, s1. split_and!; [|done|done|].
  - unfold w1, on_sub, with_heap. cbn [hub heap]. by rewrite list_lookup_alter_eq, Hh.
  - cbn. unfold command_of. destruct (payload e); cbn; by rewrite ?app_nil_r.
Qed.

(** Given its turns, the writer forwards the commands of its queue in order. *)
Lemma writer_drains k i r x s :
  serving r k i x s ->
  exists r' x', rpc_run (replicate (length (sub_queue s)) (RControlWrite k false true)) r = Some r' /\
    sessions r' !! k = Some x' /\
    ses_wire x' = ses_wire x ++ omap command_of (sub_queue s) /\
    log (hub (bus r')) = log (hub (bus r)).
Proof.
  remember (sub_queue s) as q eqn:Hq. revert r x s Hq.
  induction q as [|e q IH]; intros r x s Hq (Hk & Hi & Hw & Hd & Hh).
  { exists r, x. cbn. by rewrite app_nil_r. }
  destruct (Control_write_next i (bus r) x s e q Hd Hh (eq_sym Hq)) as (w1 & s1 & Hs1 & Hq1 & Hl & Hc).
  cbn [length replicate rpc_run rpc_exec]. rewrite Hk, Hi.
  case_guard as Hg; [|done]. cbn [mret option_ret mbind option_bind]. rewrite Hc.
  set (x1 := mkSession _ _ _ _ _).
  destruct (IH (set_session k x1 (set_bus w1 r)) x1 s1 (eq_sym Hq1))
    as (r' & x' & Hr & Hx & Hwire & Hlog).
  { split_and!; try done. cbn [set_session sessions]. apply lookup_insert_eq. }
  exists r', x'. split; [exact Hr|]. split; [done|]. split; [|by rewrite Hlog].
  rewrite Hwire. unfold x1. cbn [ses_wire]. by rewrite <- app_assoc, <- omap_app.
Qed.

(** What waits in a queue was published and passed its filter. *)
Record Fed (w : World) : Prop := {
  fed_queue i s e : heap (hub w) !! i = Some s -> e ∈ sub_queue s ->
    exists v, v ∈ log (hub w) /\ env_event v = e /\ matches (sub_filter s) v = true;
  fed_thread t ts todo v : threads w !! t = Some (Publishing ts todo v) -> v ∈ log (hub w);
}.

Lemma push_locked_queue e s e' : e' ∈ sub_queue (push_locked e s) -> e' = e \/ e' ∈ sub_queue s.
Proof.
  unfold push_locked. cbn [sub_queue]. intros H. apply elem_of_app in H as [H|H]; [|set_solver].
  right. destruct (_ && _); [|done]. destruct (sub_queue s); [done|]. cbn in H. by right.
Qed.

Lemma replay_queue since rg s e :
  e ∈ sub_queue (replay since rg s) ->
  e ∈ sub_queue s \/ exists v, v ∈ rg /\ env_event v = e /\ matches (sub_filter s) v = true.
Proof.
  revert s. induction rg as [|v rg IH]; intros s H; cbn [replay] in H; [by left|].
  destruct (_ <=? _); [apply IH in H; set_solver|].
  destruct (matches (sub_filter s) v) eqn:Hm; cbn [negb] in H; [|apply IH in H; set_solver].
  apply IH in H as [H|H]; [|set_solver].
  apply push_locked_queue in H as [-> | H]; [right; exists v; set_solver | by left].
Qed.

Lemma Fed_on_sub g i w :
  (forall s, sub_filter (g s) = sub_filter s) ->
  (forall s e, e ∈ sub_queue (g s) -> e ∈ sub_queue s) -> Fed w -> Fed (on_sub g i w).
Proof.
  intros Hf Hq [Hs Ht]. split; [|done]. intros j s e Hj He. cbn in Hj.
  apply lookup_alter_cases in Hj as [(<- & s0 & Hj & ->) | (_ & Hj)]; [|by eauto].
  rewrite Hf. eapply Hs; eauto.
Qed.

Lemma Fed_same w w' :
  Fed w -> heap (hub w') = heap (hub w) -> log (hub w') = log (hub w) ->
  (forall t ts todo v, threads w' !! t = Some (Publishing ts todo v) ->
     exists t', threads w !! t' = Some (Publishing ts todo v)) -> Fed w'.
Proof.
  intros [Hs Ht] Hh Hl Hth. split; rewrite ?Hh, ?Hl; [done|].
  intros t ts todo v H. destruct (Hth t ts todo v H). eauto.
Qed.

Lemma Fed_publish_lock t now w w' : Fed w -> exec (LPublishLock t now) w = Some w' -> Fed w'.
Proof.
  intros [Hs Ht] H. cbn [exec] in H. destruct (threads w !! t) as [[]|]; try done.
  unfold publish_locked in H. apply bind_Some in H as ([[ts v] h] & Hl & H). simplify_eq.
  apply bind_Some in Hl as (rg & Hr & Hl). simplify_eq. split; cbn [hub heap log threads].
  - intros i s e' Hi He. destruct (Hs i s e' Hi He) as (v & Hv & ?). exists v.
    split; [|done]. apply elem_of_app. by left.
  - intros t' ts todo v H. apply elem_of_app.
    apply lookup_insert_Some in H as [[_ ?] | [_ H]]; [right; simplify_eq; by left | left; eauto].
Qed.

Lemma Fed_deliver t w w' : Fed w -> exec (LDeliver t) w = Some w' -> Fed w'.
Proof.
  intros [Hs Ht] H. cbn [exec] in H. destruct (threads w !! t) as [[|ts [|i todo] v| | |]|] eqn:Hth;
    try done. simplify_eq. pose proof (Ht _ _ _ _ Hth) as Hv.
  split; cbn [hub heap log threads deliver with_heap].
  - intros j s e Hj He. apply lookup_alter_cases in Hj as [(<- & s0 & Hj & ->) | (_ & Hj)];
      [|by eauto].
    destruct (offer_fields v s0) as (-> & _). unfold offer in He.
    destruct (sub_closed s0); [by eauto|].
    destruct (matches (sub_filter s0) v) eqn:Hm; cbn [negb] in He; [|by eauto].
    apply push_locked_queue in He as [-> | He]; [by exists v | by eauto].
  - intros t' ts' todo' v' H. apply lookup_insert_Some in H as [[_ ?] | [_ H]]; [by simplify_eq | eauto].
Qed.

Lemma Fed_subscribe_lock t w w' : Inv w -> Fed w -> exec (LSubscribeLock t) w = Some w' -> Fed w'.
Proof.
  intros Hw [Hs Ht] H. cbn [exec] in H. destruct (threads w !! t) as [[| |f| |]|]; try done.
  simplify_eq. split; cbn [hub heap log threads subscribe_locked with_subs with_heap].
  - intros i s e Hi He. apply lookup_snoc_Some in Hi as [[_ Hi] | [_ <-]]; [by eauto|].
    cbn [sub_queue sub_filter] in *. apply replay_queue in He as [He | (v & Hv & <- & Hm)];
      [by apply elem_of_nil in He|].
    rewrite (inv_ring w Hw) in Hv. exists v. split; [|split; [done|]].
    + unfold last_n in Hv. apply list_elem_of_lookup in Hv as [n Hn]. rewrite lookup_drop in Hn.
      by eapply list_elem_of_lookup_2.
    + match goal with |- matches (sub_filter (replay ?a ?b ?c)) _ = _ =>
        destruct (replay_spec a b c) as (_ & -> & _) end. exact Hm.
  - intros t' ts todo v H. apply lookup_delete_Some in H as [_ H]. eauto.
Qed.

Lemma Fed_exec l w w' : Inv w -> Fed w -> exec l w = Some w' -> Fed w'.
Proof.
  intros Hw Hf Hx.
  assert (Hins : forall t th h, (forall ts todo v, th <> Publishing ts todo v) ->
    heap h = heap (hub w) -> log h = log (hub w) -> Fed (mkWorld h (<[t := th]> (threads w)))).
  { intros t th h Hth Hh Hl. apply (Fed_same w); [done..|]. intros t' ts todo v H. cbn [threads] in H.
    apply lookup_insert_Some in H as [[_ H] | [_ H]]; [by apply Hth in H | by exists t']. }
  destruct l.
  2: by eapply Fed_publish_lock.
  2: by eapply Fed_deliver.
  3: by eapply Fed_subscribe_lock.
  all: cbn [exec] in Hx; unfold enter in Hx.
  1-3: case_guard; [|done]; destruct (stopped (hub w)); simplify_eq/=; [done | by apply Hins].
  - destruct (threads w !! t) as [[]|]; simplify_eq. by apply Hins.
  - destruct (threads w !! t) as [[| | | |al [|i todo]]|]; simplify_eq.
    apply Fed_on_sub; [done | done | by apply Hins].
  - assert (w' = mkWorld (hub w) (delete t (threads w))) as ->.
    { destruct (threads w !! t) as [[|? []| | |? []]|]; by simplify_eq. }
    apply (Fed_same w); [done..|]. intros t' ts todo v H. cbn [threads] in H.
    apply lookup_delete_Some in H as [_ H]. by exists t'.
  - injection Hx as <-. apply Fed_on_sub; [| |done]; intros s; unfold next;
      destruct (sub_queue s) eqn:Hq; cbn; rewrite ?Hq; set_solver.
  - injection Hx as <-. apply Fed_on_sub; [done | |done]. intros s e. cbn. set_solver.
  - injection Hx as <-. by apply Fed_on_sub.
  - injection Hx as <-. by apply Fed_on_sub.
Qed.

(** A run of the bus forgets no event and no subscription. *)
Record bus_grows (w w' : World) : Prop := {
  bg_inv : Inv w -> Fed w -> Inv w' /\ Fed w';
  bg_filter i s : heap (hub w) !! i = Some s ->
    exists s', heap (hub w') !! i = Some s' /\ sub_filter s' = sub_filter s;
}.

Lemma alter_filter g i j (l : list Sub) s :
  (forall s, sub_filter (g s) = sub_filter s) -> l !! j = Some s ->
  exists s', alter g i l !! j = Some s' /\ sub_filter s' = sub_filter s.
Proof.
  intros Hg Hj. destruct (decide (i = j)) as [<-|Hne].
  - rewrite list_lookup_alter_eq, Hj. eexists. split; [done | apply Hg].
  - rewrite list_lookup_alter_ne by done. eauto.
Qed.

Lemma exec_grows l w w' : exec l w = Some w' -> bus_grows w w'.
Proof.
  intros Hx. split; [intros Hw Hf; split; [by eapply Inv_exec | by eapply Fed_exec]|].
  intros j s Hj. assert (Hsame : heap (hub w') = heap (hub w) ->
    exists s', heap (hub w') !! j = Some s' /\ sub_filter s' = sub_filter s)
    by (intros ->; eauto).
  destruct l; cbn [exec] in Hx; unfold enter in Hx;
    try (case_guard; [|done]; destruct (stopped (hub w)); simplify_eq/=; by eauto);
    try (injection Hx as <-; apply alter_filter; [|done]; intros s';
         first [done | unfold next; by case_match]).
  - destruct (threads w !! t) as [[]|]; try done. unfold publish_locked in Hx.
    apply bind_Some in Hx as ([[ts v] h] & Hl & Hx). simplify_eq.
    apply bind_Some in Hl as (rg & Hr & Hl). simplify_eq. by apply Hsame.
  - destruct (threads w !! t) as [[|ts [|i todo] v| | |]|]; simplify_eq.
    apply alter_filter; [|done]. intros s'. apply (offer_fields v s').
  - destruct (threads w !! t) as [[]|]; simplify_eq. exists s. split; [|done].
    by apply lookup_app_l_Some.
  - destruct (threads w !! t) as [[]|]; simplify_eq. by apply Hsame.
  - destruct (threads w !! t) as [[| | | |al [|i todo]]|]; simplify_eq. by apply alter_filter.
  - destruct (threads w !! t) as [[|? []| | |? []]|]; simplify_eq; by apply Hsame.
Qed.

Lemma hub_run_grows w w' : hub_run w w' -> bus_grows w w'.
Proof.
  intros [ls H]. revert w H. induction ls as [|l ls IH]; intros w H; cbn [exec_all] in H.
  { simplify_eq. split; eauto. }
  apply bind_Some in H as (w1 & H1 & H). apply exec_grows in H1 as [Hi Hf].
  destruct (IH w1 H) as [Hi' Hf']. split; [naive_solver|].
  intros i s Hs. destruct (Hf i s Hs) as (s1 & Hs1 & <-). by apply Hf'.
Qed.

Definition routed (v : EventEnvelope) : Prop := exists p, pub_event p v.

Lemma rpc_exec_bus l r r' :
  rpc_exec l r = Some r' ->
  hub_run (bus r) (bus r') /\
  exists new, log (hub (bus r')) = log (hub (bus r)) ++ new /\ Forall routed new.
Proof.
  intros H. assert (Hs : streaming l -> hub_run (bus r) (bus r') /\
    exists new, log (hub (bus r')) = log (hub (bus r)) ++ new /\ Forall routed new).
  { intros Hl. destruct (stream_step l r r' H Hl) as [_ _ _ Hr _ (new & Hlog & Hn)].
    split; [done|]. exists new. split; [done|]. eapply Forall_impl; [exact Hn|].
    intros v (p & _ & Hp). by exists p. }
  destruct l as [k env c|k now| | | | | | | | | |]; try (by apply Hs); cbn [rpc_exec] in H.
  - case_guard; [|done]. rewrite (surjective_pairing (call_front env c (srv r))) in H.
    cbn [mret option_ret mbind option_bind] in H. injection H as <-. unfold bus. cbn [srv].
    rewrite call_front_bus. split; [done|]. exists []. by rewrite app_nil_r.
  - destruct (calls r !! k) as [[|p ps]|]; [|apply bind_Some in H as ([id w] & H1 & H)|done];
      injection H as <-; [split; [done|]; exists []; by rewrite app_nil_r|].
    change (bus (set_bus w _)) with w. split.
    + rewrite run_pub_publish in H1. by eapply publish_run.
    + apply run_pub_log in H1 as (_ & [[_ ->] | (_ & v & Hv & Hl)]);
        [exists []; by rewrite app_nil_r|].
      exists [v]. split; [done|]. constructor; [by exists p | done].
Qed.

(** A [Control] stream is fed by its gate's subscription. *)
Definition fed_session (w : World) (x : Session) : Prop :=
  (forall i, ses_sub x = Some i -> exists s, heap (hub w) !! i = Some s /\
     sub_filter s = command_filter (ses_gate x)) /\
  (forall c, c ∈ ses_wire x -> cm_gate_id c = ses_gate x /\
     exists v, v ∈ log (hub w) /\ payload (env_event v) = kCommand c).

Record Streams (r : Rpc) : Prop := {
  st_inv : Inv (bus r);
  st_fed : Fed (bus r);
  st_routed : Forall routed (log (hub (bus r)));
  st_sessions k x : sessions r !! k = Some x -> fed_session (bus r) x;
}.

Lemma fed_session_grows w w' new x :
  fed_session w x -> bus_grows w w' -> log (hub w') = log (hub w) ++ new -> fed_session w' x.
Proof.
  intros [Hs Hw] [_ Hf] Hl. split.
  - intros i Hi. destruct (Hs i Hi) as (s & Hh & Hfi). destruct (Hf i s Hh) as (s' & Hh' & E).
    exists s'. split; [done | congruence].
  - intros c Hc. destruct (Hw c Hc) as (Hg & v & Hv & Hp). split; [done|]. exists v.
    split; [|done]. rewrite Hl. apply elem_of_app. by left.
Qed.

(** A command that passes the filter of a gate is for that gate. *)
Lemma command_filter_gate gate v c :
  routed v -> matches (command_filter gate) v = true -> payload (env_event v) = kCommand c ->
  cm_gate_id c = gate.
Proof.
  intros (p & _ & Hg & Hp) Hm Hc. rewrite Hp in Hc. destruct p; simplify_eq/=.
  unfold matches, filter_matches in Hm. rewrite Hg in Hm. cbn in Hm.
  destruct (String.eqb_spec (cm_gate_id c) gate); [done|]. done.
Qed.

Lemma Control_write_fed cancelled ok i w x w' x' :
  Fed w -> Forall routed (log (hub w)) -> fed_session w x -> ses_sub x = Some i ->
  Control_write cancelled ok i w x = (w', x') ->
  ses_gate x' = ses_gate x /\ ses_sub x' = ses_sub x /\
  forall c, c ∈ ses_wire x' -> c ∈ ses_wire x \/
    (cm_gate_id c = ses_gate x /\ exists v, v ∈ log (hub w) /\ payload (env_event v) = kCommand c).
Proof.
  intros Hfed Hr [Hs _] Hi. destruct (Hs i Hi) as (s & Hh & Hf). unfold Control_write.
  destruct (_ || _); [intros [= <- <-]; by cbn; auto|]. rewrite Hh. unfold next.
  destruct (sub_queue s) as [|e q] eqn:Hq; [intros [= <- <-]; by destruct (stopped _); cbn; auto|].
  destruct (payload e) eqn:Hp; try (intros [= <- <-]; by cbn; auto).
  destruct ok; intros [= <- <-]; cbn [ses_gate ses_sub ses_wire]; (split_and!; [done | done|]);
    [|by auto].
  intros c' Hc. apply elem_of_app in Hc as [Hc | Hc]; [by left|].
  apply list_elem_of_singleton in Hc as ->. right.
  destruct (fed_queue w Hfed i s e Hh) as (v & Hv & <- & Hm); [rewrite Hq; by left|].
  rewrite Hf in Hm. split; [|by exists v].
  eapply command_filter_gate, Hp; [by eapply Forall_forall in Hr | done].
Qed.

Lemma Streams_exec l r r' : Streams r -> rpc_exec l r = Some r' -> Streams r'.
Proof.
  intros [Hi Hf Hr Hs] H. destruct (rpc_exec_bus l r r' H) as (Hrun & new & Hlog & Hnew).
  pose proof (hub_run_grows _ _ Hrun) as Hg. destruct (bg_inv _ _ Hg Hi Hf) as [Hi' Hf'].
  assert (Hold : forall k x, sessions r !! k = Some x -> fed_session (bus r') x)
    by (intros k x Hx; by eapply fed_session_grows, Hlog; [eapply Hs|]).
  split; [done | done | rewrite Hlog; by apply Forall_app |].
  assert (Hset : forall k x, (forall k' x', (<[k := x]> (sessions r)) !! k' = Some x' ->
     x' = x \/ sessions r !! k' = Some x')).
  { intros k x k' x' Hx. apply lookup_insert_Some in Hx as [[_ <-] | [_ Hx]]; auto. }
  assert (Hdel : forall k k' x', delete k (sessions r) !! k' = Some x' -> sessions r !! k' = Some x').
  { intros k k' x' Hx. by apply lookup_delete_Some in Hx as [_ Hx]. }
  assert (Hsame : sessions r' = sessions r -> forall k x, sessions r' !! k = Some x ->
    fed_session (bus r') x) by (intros ->; exact Hold).
  destruct l; cbn [rpc_exec] in H.
  - apply Hsame. case_guard; [|done]. rewrite (surjective_pairing (call_front _ _ _)) in H.
    by simplify_eq/=.
  - apply Hsame. destruct (calls r !! k) as [[|p ps]|]; [by simplify_eq | |done].
    apply bind_Some in H as ([id w] & H1 & H). by simplify_eq.
  - case_guard; [|done]. destruct (Control_identify first) as [st|t];
      cbn [mret option_ret mbind option_bind] in H; [simplify_eq; exact Hold|].
    apply bind_Some in H as (w & H1 & H). injection H as <-. intros k' x' Hx.
    apply Hset in Hx as [-> | Hx]; [|by eapply Hold]. split; [done|]. intros c Hc.
    by apply elem_of_nil in Hc.
  - destruct (sessions r !! k) as [[gate [i|] b1 b2 wire]|] eqn:Hk; try done.
    destruct (subscribe _ _) as [w [i|]] eqn:Hsub; simplify_eq/=;
      [|intros k' x' Hx; apply Hdel in Hx; by eapply Hold].
    intros k' x' Hx. apply Hset in Hx as [-> | Hx]; [|by eapply Hold].
    destruct (Hold k _ Hk) as [_ Hw]. split; [|exact Hw]. intros i' [= <-].
    unfold subscribe in Hsub. destruct (stopped (hub (bus r))); [done|]. injection Hsub as <- <-.
    eexists. split; [by apply list_lookup_middle|]. cbn [sub_filter].
    match goal with |- sub_filter (replay ?a ?b ?c) = _ =>
      destruct (replay_spec a b c) as (_ & -> & _) end. done.
  - apply Hsame. destruct (sessions r !! k) as [[gate [i|] b1 [] wire]|]; try done.
    apply bind_Some in H as (w & H1 & H). by simplify_eq.
  - destruct (sessions r !! k) as [x|] eqn:Hk; [|done]. destruct (ses_sub x) as [i|] eqn:Hx; [|done].
    case_guard; [|done]. destruct (Control_write _ _ _ _ _) as [w x1] eqn:Hw; simplify_eq/=.
    intros k' x' Hx'. apply Hset in Hx' as [-> | Hx']; [|by eapply Hold].
    destruct (Control_write_fed _ _ _ _ _ _ _ Hf Hr (Hs k x Hk) Hx Hw) as (Eg & Es & Ewire).
    destruct (Hold k x Hk) as [Ha Hb]. split; [rewrite Eg, Es; exact Ha|]. rewrite Eg.
    intros c Hc. destruct (Ewire c Hc) as [Hc' | (Hcg & v & Hv & Hp)]; [by apply Hb|].
    split; [done|]. exists v. split; [|done]. rewrite Hlog. apply elem_of_app. by left.
  - destruct (sessions r !! k) as [[gate [i|] b1 [] wire]|] eqn:Hk; try done. simplify_eq/=.
    intros k' x' Hx'. apply Hset in Hx' as [-> | Hx']; [exact (Hold k _ Hk) | by eapply Hold].
  - destruct (sessions r !! k) as [[gate [i|] [] [] wire]|]; try done. simplify_eq/=.
    intros k' x' Hx'. apply Hdel in Hx'. by eapply Hold.
  - apply Hsame. case_guard; [|done]. destruct (subscribe _ _) as [w [i|]]; by simplify_eq/=.
  - apply Hsame. destruct (dashes r !! k) as [[i [] [] wire]|]; try done.
    destruct (Subscribe_drain _ _ _). by simplify_eq/=.
  - apply Hsame. destruct (dashes r !! k) as [[i [] [] wire]|]; try done.
    destruct (Subscribe_turn _ _ _ _). by simplify_eq/=.
  - apply Hsame. by simplify_eq/=.
Qed.

Lemma Streams_new rc pc f c site : (0 < rc)%nat -> Streams (Rpc_new rc pc f c site).
Proof. intros H. split; [by apply Inv_new | by split | constructor | done]. Qed.

Lemma Streams_run ls r r' : Streams r -> rpc_run ls r = Some r' -> Streams r'.
Proof.
  revert r. induction ls as [|l ls IH]; intros r Hs H; cbn [rpc_run] in H; [by simplify_eq|].
  apply bind_Some in H as (r1 & H1 & H). eauto using Streams_exec.
Qed.

Lemma rpc_run_app ls1 ls2 r : rpc_run (ls1 ++ ls2) r = rpc_run ls1 r ≫= rpc_run ls2.
Proof.
  revert r. induction ls1 as [|l ls1 IH]; intros r; [done|]. cbn [app rpc_run].
  destruct (rpc_exec l r); [apply IH | done].
Qed.

(** ** The server's promises *)

Lemma offer_queue v s :
  sub_closed s = false -> matches (sub_filter s) v = true ->
  exists q, sub_queue (offer v s) = q ++ [env_event v].
Proof. intros Hc Hm. unfold offer. rewrite Hc, Hm. cbn [negb]. by eexists. Qed.

Lemma submit_front env req s d :
  df_gate_id req <> ""%string ->
  fusion_decide env s (mkRequest req (default_site_id_ s) false "firmware-submit") = inr d ->
  verdict d = AUTHORIZED ->
  call_front env (CallSubmit req) s =
    (s, [PubDecision (default_site_id_ s) d;
         PubCommand (default_site_id_ s) (open_command env (df_gate_id req) d)]).
Proof.
  intros Hne Hd Hv. cbn [call_front]. unfold front, SubmitDetection.
  destruct (String.eqb_spec (df_gate_id req) ""); [done|]. rewrite Hd. cbn [fst].
  by rewrite decide_True.
Qed.

Lemma command_event_matches gate v site c :
  pub_event (PubCommand site c) v -> cm_gate_id c = gate -> matches (command_filter gate) v = true.
Proof.
  intros (_ & Hg & Hp) <-. unfold matches, filter_matches. rewrite Hg, Hp. cbn.
  by rewrite String.eqb_refl.
Qed.

Lemma rpub_step k now p ps r id w :
  calls r !! k = Some (p :: ps) -> run_pub now p (bus r) = Some (id, w) ->
  rpc_exec (RPub k now) r =
    Some (mkRpc (with_bus w (srv r)) (<[k := ps]> (calls r)) (sessions r) (dashes r)).
Proof. intros Hk Hp. cbn [rpc_exec]. by rewrite Hk, Hp. Qed.

Lemma submit_step j env req r d :
  calls r !! j = None -> df_gate_id req <> ""%string ->
  fusion_decide env (srv r)
    (mkRequest req (default_site_id_ (srv r)) false "firmware-submit") = inr d ->
  verdict d = AUTHORIZED ->
  rpc_exec (RCall j env (CallSubmit req)) r =
    Some (mkRpc (srv r)
            (<[j := [PubDecision (default_site_id_ (srv r)) d;
                     PubCommand (default_site_id_ (srv r)) (open_command env (df_gate_id req) d)]]>
               (calls r)) (sessions r) (dashes r)).
Proof.
  intros Hj Hg Hd Hv. cbn [rpc_exec]. case_guard; [|done].
  by rewrite (submit_front env req (srv r) d).
Qed.

(** The run of an authorised submission: both events are logged, and the
    writer's turns put the command on the gate's stream. *)
Lemma authorised_frame_sends rc pc f0 c0 site ls r j env req d n1 n2 k i x s
    (Hrc : (0 < rc)%nat) (Hreach : rpc_run ls (Rpc_new rc pc f0 c0 site) = Some r)
    (Hup : stopped (hub (bus r)) = false) (Hj : calls r !! j = None)
    (Hgate : df_gate_id req <> ""%string)
    (Hd : fusion_decide env (srv r)
            (mkRequest req (default_site_id_ (srv r)) false "firmware-submit") = inr d)
    (Hv : verdict d = AUTHORIZED)
    (Hserve : serving r k i x s) (Hx : ses_gate x = df_gate_id req) (Hopen : sub_closed s = false) :
  let cmd := open_command env (df_gate_id req) d in
  exists n r' x',
    rpc_run ([RCall j env (CallSubmit req); RPub j n1; RPub j n2] ++
             replicate n (RControlWrite k false true)) r = Some r' /\
    sessions r' !! k = Some x' /\ last (ses_wire x') = Some cmd /\
    exists v1 v2, log (hub (bus r')) = log (hub (bus r)) ++ [v1; v2] /\
      payload (env_event v1) = kDecision d /\ payload (env_event v2) = kCommand cmd.
Proof.
  pose proof (Streams_run _ _ _ (Streams_new rc pc f0 c0 site Hrc) Hreach) as [Hinv _ _ Hses].
  destruct Hserve as (Hk & Hi & Hw & Hdn & Hh).
  destruct (Hses k x Hk) as [Hfil _]. destruct (Hfil i Hi) as (s' & Hh' & Hfs).
  rewrite Hh in Hh'. injection Hh' as <-. rewrite Hx in Hfs.
  set (p1 := PubDecision (default_site_id_ (srv r)) d).
  set (p2 := PubCommand (default_site_id_ (srv r)) (open_command env (df_gate_id req) d)).
  destruct (run_pub_offers n1 p1 (bus r) Hinv Hup) as
    (id1 & w1 & v1 & E1 & Hinv1 & Hv1 & Hup1 & Hl1 & Hh1).
  destruct (run_pub_offers n2 p2 w1 Hinv1 Hup1) as (id2 & w2 & v2 & E2 & _ & Hv2 & _ & Hl2 & Hh2).
  destruct (offer_fields v1 s) as (Ef & Ec & _).
  destruct (offer_queue v2 (offer v1 s)) as [q Hq];
    [by rewrite Ec | rewrite Ef, Hfs; by eapply command_event_matches|].
  set (r2 := mkRpc (with_bus w2 (srv r)) (<[j := []]> (<[j := [p2]]> (<[j := [p1; p2]]> (calls r))))
               (sessions r) (dashes r)).
  assert (Hrun : rpc_run [RCall j env (CallSubmit req); RPub j n1; RPub j n2] r = Some r2).
  { cbn [rpc_run]. rewrite (submit_step j env req r d) by done. cbn [mbind option_bind].
    rewrite (rpub_step j n1 p1 [p2] _ id1 w1); [|apply lookup_insert_eq | done].
    cbn [mbind option_bind].
    by rewrite (rpub_step j n2 p2 [] _ id2 w2); [|apply lookup_insert_eq | done]. }
  destruct (writer_drains k i r2 x (offer v2 (offer v1 s))) as (r' & x' & Hr' & Hk' & Hwire & Hlog).
  { split_and!; try done. apply Hh2; [by apply Hh1 | by rewrite Ec]. }
  eexists _, r', x'. rewrite rpc_run_app, Hrun.
  split; [exact Hr'|]. split; [done|].
  destruct Hv1 as (_ & _ & Hp1), Hv2 as (_ & _ & Hp2). split_and!; [|done..|].
  - rewrite Hwire, Hq, omap_app, app_assoc. cbn. unfold command_of. rewrite Hp2. cbn.
    apply last_snoc.
  - exists v1, v2. rewrite Hlog. change (bus r2) with w2. by rewrite Hl2, Hl1, <- app_assoc.
Qed.

(** An authorised vehicle gets the gate moving.  From any state the
    server can reach, with the gate's Control stream connected, a submitted
    frame that the engine authorises is published as a decision and then as
    an OPEN_GATE command naming that decision, and after finitely many turns
    of the stream's writer that command is the last one on the gate's wire. *)
Theorem authorised_frame_opens_gate rc pc f0 c0 site ls r j env req d n1 n2 k i x s
    (Hrc : (0 < rc)%nat) (Hreach : rpc_run ls (Rpc_new rc pc f0 c0 site) = Some r)
    (Hup : stopped (hub (bus r)) = false) (Hj : calls r !! j = None)
    (Hgate : df_gate_id req <> ""%string)
    (Hd : fusion_decide env (srv r)
            (mkRequest req (default_site_id_ (srv r)) false "firmware-submit") = inr d)
    (Hv : verdict d = AUTHORIZED)
    (Hserve : serving r k i x s) (Hx : ses_gate x = df_gate_id req) (Hopen : sub_closed s = false) :
  exists n r' x' cmd,
    rpc_run ([RCall j env (CallSubmit req); RPub j n1; RPub j n2] ++
             replicate n (RControlWrite k false true)) r = Some r' /\
    sessions r' !! k = Some x' /\ last (ses_wire x') = Some cmd /\
    cmd_kind (cm_base cmd) = COMMAND_KIND_OPEN_GATE /\ cm_gate_id cmd = df_gate_id req /\
    cmd_actor (cm_base cmd) = "auto:" +:+ decision_id d /\
    exists v1 v2, log (hub (bus r')) = log (hub (bus r)) ++ [v1; v2] /\
      payload (env_event v1) = kDecision d /\ payload (env_event v2) = kCommand cmd.
Proof.
  destruct (authorised_frame_sends rc pc f0 c0 site ls r j env req d n1 n2 k i x s Hrc Hreach Hup
    Hj Hgate Hd Hv Hserve Hx Hopen) as (n & r' & x' & H1 & H2 & H3 & H4).
  by exists n, r', x', (open_command env (df_gate_id req) d).
Qed.

(** C7: An open command has a cause.  In every run of the server, under every
    interleaving of its threads, each OPEN_GATE command on the bus was asked
    for by an IssueCommand call for that gate, or is preceded on the bus by a
    decision that authorises that gate and that the command names as its
    actor. *)
Theorem open_commands_have_a_cause rc pc f0 c0 site ls r l1 v l2 c
    (Hrun : rpc_run ls (Rpc_new rc pc f0 c0 site) = Some r)
    (Hlog : log (hub (bus r)) = l1 ++ v :: l2)
    (Hc : payload (env_event v) = kCommand c) (Hop : opens c) :
  was_issued ls c \/ exists d, decided l1 d /\ authorises d c.
Proof.
  assert (Origin [] (Rpc_new rc pc f0 c0 site)) as Ho.
  { split; [|done]. intros l1' v' l2' c' E. by destruct l1'. }
  apply (Origin_run [] ls _ r Ho) in Hrun as [Hl _]. by eapply Hl.
Qed.


(** A gate hears its own commands only.  In every run, every command
    written to a Control stream is addressed to the gate that opened the
    stream and was published on the bus. *)
Theorem streams_carry_own_commands rc pc f0 c0 site ls r k x c
    (Hrc : (0 < rc)%nat) (Hrun : rpc_run ls (Rpc_new rc pc f0 c0 site) = Some r)
    (Hk : sessions r !! k = Some x) (Hc : c ∈ ses_wire x) :
  cm_gate_id c = ses_gate x /\
  exists v, v ∈ log (hub (bus r)) /\ payload (env_event v) = kCommand c.
Proof.
  pose proof (Streams_run _ _ _ (Streams_new rc pc f0 c0 site Hrc) Hrun) as [_ _ _ Hs].
  by apply (Hs k x Hk).
Qed.

Lemma remove_effect_size site plates db :
  (size (t_allow (remove_effect site plates db)) <= size (t_allow db))%nat.
Proof.
  unfold remove_effect. revert db. induction plates as [|p plates IH]; intros db; [done|].
  cbn [foldl]. etrans; [apply IH|]. pose proof (delete_hits (site, normalize_plate p) db) as H.
  unfold allow_hits in H. case_decide; lia.
Qed.

(** The admin service reports what it did.  A call without a site is
    refused and touches nothing; an INTERNAL reply means that the database
    file is as it was, whichever statements failed; an OK reply to an upsert
    means that every entry is stored and counted, and to a delete that
    exactly the listed plates are gone and were counted. *)
Theorem admin_replies_are_true env site es plates s
    (Hreads : forall n, read_outcome (ce_outcomes env) n <> Aborted)
    (Hc : working (store_ s) = None)
    (Hes : Z.of_nat (length es) < 2 ^ 32)
    (Hsize : Z.of_nat (size (t_allow (durable (store_ s)))) < 2 ^ 32) :
  (forall s' ps r, UpsertAllowlist env site es s = (s', ps, r) ->
    ps = [] /\ bus_ s' = bus_ s /\ fusion_ s' = fusion_ s /\
    match r with
    | Replied st (Some stats) => st = Status_OK /\ site <> ""%string /\
        durable (store_ s') = upsert_effect site es (durable (store_ s)) /\
        inserted stats + updated stats = Z.of_nat (length es)
    | Replied st None =>
        durable (store_ s') = durable (store_ s) /\
        (error_code st = INVALID_ARGUMENT <-> site = ""%string) /\
        (error_code st = INTERNAL <-> site <> ""%string)
    | Threw _ => False
    end) /\
  (forall s' ps r, DeleteAllowlist env site plates s = (s', ps, r) ->
    ps = [] /\ bus_ s' = bus_ s /\ fusion_ s' = fusion_ s /\
    match r with
    | Replied st (Some stats) => st = Status_OK /\ site <> ""%string /\
        durable (store_ s') = remove_effect site plates (durable (store_ s)) /\
        inserted stats = 0 /\
        updated stats = Z.of_nat (size (t_allow (durable (store_ s)))) -
                        Z.of_nat (size (t_allow (durable (store_ s'))))
    | Replied st None =>
        durable (store_ s') = durable (store_ s) /\
        (error_code st = INVALID_ARGUMENT <-> site = ""%string) /\
        (error_code st = INTERNAL <-> site <> ""%string)
    | Threw _ => False
    end).
Proof.
  split; intros s' ps r.
  - unfold UpsertAllowlist. destruct (String.eqb_spec site "") as [E|E];
      [intros [= <- <- <-]; by cbn|].
    pose proof (transaction_spec (ce_outcomes env) _ _ (store_ s) 0
      (upsert_loop_inside _ site es (mkStats 0 0) Hreads) Hc) as H.
    unfold upsert, call. destruct (transaction _ _ _) as [[c1 n1] [e|stats]];
      intros [= <- <- <-]; cbn; [naive_solver|].
    destruct H as (Hw & Hd & _ & Hn). cbn [inserted updated] in Hn.
    rewrite Hn by lia. split_and!; done || lia.
  - unfold DeleteAllowlist. destruct (String.eqb_spec site "") as [E|E];
      [intros [= <- <- <-]; by cbn|].
    pose proof (transaction_spec (ce_outcomes env) _ _ (store_ s) 0
      (remove_loop_inside (ce_outcomes env) site plates 0) Hc) as H.
    unfold AllowlistStore.remove, call. destruct (transaction _ _ _) as [[c1 n1] [e|n]];
      intros [= <- <- <-]; cbn; [naive_solver|].
    destruct H as (Hw & Hd & Hn). rewrite Hd in *. split_and!; try done.
    pose proof (remove_effect_size site plates (durable (store_ s))). rewrite u32_small; lia.
Qed.

(** A deleted plate no longer opens a gate.  After an OK reply to a
    delete for the server's site, a frame whose best plate is one of the
    deleted spellings is not authorised, unless its gate is latched open. *)
Theorem deleted_plate_is_refused env plates s s' ps stats env' req p d
    (Hc : working (store_ s) = None)
    (Hdel : DeleteAllowlist env (default_site_id_ s) plates s
            = (s', ps, Replied Status_OK (Some stats)))
    (Hp : best_plate (mkRequest req (default_site_id_ s) false "firmware-submit") = Some p)
    (Hin : normalize_plate (pd_plate_text p) ∈ map normalize_plate plates)
    (Hov : override_for (fusion_ s) (df_gate_id req) <> kForceOpen)
    (Hreads : ce_reads env' = read_all)
    (Hd : fusion_decide env' s'
            (mkRequest req (default_site_id_ s') false "firmware-submit") = inr d) :
  verdict d <> AUTHORIZED.
Proof.
  revert Hdel. unfold DeleteAllowlist. destruct (String.eqb _ _); [done|].
  pose proof (transaction_spec (ce_outcomes env) _ _ (store_ s) 0
    (remove_loop_inside (ce_outcomes env) (default_site_id_ s) plates 0) Hc) as H.
  unfold AllowlistStore.remove, call. destruct (transaction _ _ _) as [[c1 n1] [e|n]]; [done|].
  intros [= <- <- <-]. destruct H as (Hw & Hdur & _). intros Hv.
  apply authorized_cond in Hd. apply Hd in Hv. cbn [frame_ with_store fusion_ store_] in Hv.
  destruct Hv as (_ & p' & Hp' & Hcase). cbn [with_store default_site_id_] in *.
  rewrite Hp in Hp'. injection Hp' as <-.
  destruct Hcase as [Hf | (_ & _ & [Hf | (entry & Hl & _)])]; [done | done |].
  cbn [st_lookup db_store site_id] in Hl. unfold view in Hl. rewrite Hreads, Hw, Hdur in Hl.
  cbn [default] in Hl. rewrite lookup_remove_effect, decide_True in Hl; [done|].
  split; [done|]. by rewrite normalize_plate_idemp.
Qed.

(** The listener is never downgraded.  With a certificate configured the
    server listens with TLS and with the configured key and certificate, or
    does not start; with client certificates required as well, unverified
    clients are rejected. *)
Theorem tls_never_downgraded fs t listen build creds addr
    (Hen : tls_enabled t = true) (Hst : start fs t listen build = Some (creds, addr)) :
  exists mode roots key cert,
    creds = Ssl mode roots key cert /\ key <> ""%string /\ cert <> ""%string /\
    fs (key_path t) = Some key /\ fs (cert_path t) = Some cert /\
    (require_client_cert t = true -> mode = RequireAndVerify) /\
    (ca_path t <> ""%string -> fs (ca_path t) = Some roots /\ roots <> ""%string /\
                               mode <> DontRequest).
Proof.
  revert Hst. unfold start, make_credentials, read_pem. rewrite Hen. cbn [negb].
  destruct (fs (cert_path t)) as [cert|] eqn:Hcert; [|done].
  destruct (fs (key_path t)) as [key|] eqn:Hkey; [|by rewrite orb_true_r]. cbn [from_option id].
  destruct (String.eqb_spec cert ""); [done|]. destruct (String.eqb_spec key ""); [done|].
  cbn [orb]. destruct (String.eqb_spec (ca_path t) "") as [Hca|Hca]; cbn [negb].
  - destruct (build _); [|done]. intros [= <- _].
    eexists _, _, key, cert. split_and!; try done. by intros ->.
  - destruct (fs (ca_path t)) as [roots|] eqn:Hroots; [|done]. cbn [from_option id].
    destruct (String.eqb_spec roots ""); [done|]. destruct (build _); [|done]. intros [= <- _].
    eexists _, roots, key, cert. split_and!; try done; [by intros ->|].
    intros _. split_and!; try done. by destruct (require_client_cert t).
Qed.

(** Required client certificates without a server certificate are ignored:
    the server listens in plaintext. *)
Example client_certs_need_a_server_cert :
  start (fun _ => Some "pem"%string) (mkTls "" "" "ca.pem" true) "0.0.0.0:50051"
    (fun _ => Some 50051) = Some (Insecure, "0.0.0.0:50051"%string).
Proof. reflexivity. Qed.

Lemma keep_all {A} cap (l : list A) : (length l <= cap)%nat -> keep cap l = l.
Proof. intros H. destruct cap; [done|]. by apply last_n_all. Qed.

(** Among the events a gate's filter lets through, the commands are those
    routed to the gate. *)
Lemma command_replay gate rg :
  Forall (fun v => routed v /\ 0 < event_id (env_event v)) rg ->
  omap command_of (map env_event (base.filter (fun v => 0 < event_id (env_event v) /\
    matches (command_filter gate) v = true) rg)) =
  omap command_of (map env_event (base.filter (fun v => env_gate_id v = gate) rg)).
Proof.
  induction 1 as [|v rg [(p & _ & Hg & Hp) Hid] Hf IH]; [done|].
  rewrite !filter_cons. destruct (command_of (env_event v)) as [c|] eqn:Hc.
  - assert (Hm : matches (command_filter gate) v = true <-> env_gate_id v = gate).
    { unfold command_of in Hc. unfold matches, filter_matches.
      destruct (payload (env_event v)); try done. cbn.
      destruct (String.eqb_spec (env_gate_id v) gate); cbn; naive_solver. }
    destruct (decide (env_gate_id v = gate)) as [E|E];
      [rewrite decide_True by naive_solver | rewrite decide_False by naive_solver; exact IH].
    cbn [map]. cbn. rewrite Hc. by f_equal.
  - repeat case_decide; cbn [map]; cbn; rewrite ?Hc; exact IH.
Qed.

(** A reconnecting gate is sent its old commands again.  The
    subscription that a Control call opens starts with every command for its
    gate that is still in the replay ring, in order, whether or not an
    earlier stream of the gate has delivered them. *)
Theorem reconnect_replays_old_commands rc pc f0 c0 site ls r k gate wire
    (Hrc : (0 < rc)%nat) (Hrun : rpc_run ls (Rpc_new rc pc f0 c0 site) = Some r)
    (Hup : stopped (hub (bus r)) = false)
    (Hk : sessions r !! k = Some (mkSession gate None false false wire))
    (Hsmall : Z.of_nat (length (log (hub (bus r)))) < 2 ^ 64 - 1)
    (Hcap : (length (ring (hub (bus r))) <= per_sub_capacity (hub (bus r)))%nat) :
  exists r' i s, rpc_exec (RControlSubscribe k) r = Some r' /\
    serving r' k i (mkSession gate (Some i) true false wire) s /\
    omap command_of (sub_queue s) =
      omap command_of (map env_event
        (base.filter (fun v => env_gate_id v = gate) (ring (hub (bus r))))).
Proof.
  pose proof (Streams_run _ _ _ (Streams_new rc pc f0 c0 site Hrc) Hrun) as [Hinv _ Hr _].
  cbn [rpc_exec]. rewrite Hk. unfold subscribe. rewrite Hup. set (w := bus r) in *.
  eexists _, (length (heap (hub w))), _. split; [reflexivity|]. split.
  { split_and!; try done; [apply lookup_insert_eq|]. cbn. by apply list_lookup_middle. }
  cbn [sub_queue]. rewrite replay_keep by (by rewrite keep_all by (cbn; lia)).
  match goal with |- context [replay ?a ?b ?c] => destruct (replay_spec a b c) as (-> & _ & _) end.
  cbn [Sub_new sub_offered sub_filter sub_capacity app].
  rewrite keep_all by (rewrite length_map; etrans; [apply length_filter | done]).
  apply command_replay, Forall_forall. intros v Hv.
  rewrite (inv_ring w Hinv) in Hv. unfold last_n in Hv. apply list_elem_of_lookup in Hv as [n Hn].
  rewrite lookup_drop in Hn. split; [by eapply Forall_lookup_1 in Hr|].
  rewrite (inv_ids w Hinv _ _ Hn). apply lookup_lt_Some in Hn. rewrite u64_small; lia.
Qed.

(** ** Concrete runs *)

Definition sample_env : CallEnv :=
  mkCall 200 201 wednesday (replicate 16 0) (replicate 16 17) true read_all all_done.
Definition sample_conn : Conn := (upsert all_done "s" [sample_entry] (Conn_new Db_empty)).1.
Definition sample_rpc : Rpc := Rpc_new 4 4 plain_engine sample_conn "s".
Definition sample_telemetry (gate : string) : ControlPayload :=
  CTelemetry (mkTelemetryMsg (mkTelemetry gate None GATE_STATE_CLOSED false true true 1 2 3 "v" 0)
                0 f_zero f_zero "").
Definition sample_frame : DetectionFrame := frame_ sample_request.

Definition connect (k : nat) : list RpcLabel :=
  [RControlOpen k (Some (sample_telemetry "g")) 100; RControlSubscribe k].

(** The gate connects. *)
Definition connected : Rpc := default sample_rpc (rpc_run (connect 0) sample_rpc).
Definition sample_sub : Sub :=
  default (Sub_new (everything 0) 0 0) (heap (hub (bus connected)) !! 0%nat).
Definition submit_decision : AuthDecision :=
  mkDecision (generate_uuidv4 (replicate 16 0)) 200 "g" AUTHORIZED DENY_NONE "KDA123A" 4 f_one
    "plate + class match" 7 "firmware-submit".

Lemma authorised_frame_opens_gate_witness :
  exists n r' x',
    rpc_run ([RCall 5 sample_env (CallSubmit sample_frame); RPub 5 300; RPub 5 301] ++
             replicate n (RControlWrite 0 false true)) connected = Some r' /\
    sessions r' !! 0%nat = Some x' /\
    (cmd_kind ∘ cm_base <$> last (ses_wire x')) = Some COMMAND_KIND_OPEN_GATE.
Proof.
  destruct (authorised_frame_opens_gate 4 4 plain_engine sample_conn "s" (connect 0) connected 5
    sample_env sample_frame submit_decision 300 301 0 0 (mkSession "g" (Some 0%nat) true false [])
    sample_sub) as (n & r' & x' & cmd & H1 & H2 & H3 & H4 & _).
  - lia.
  - vm_compute; reflexivity.
  - vm_compute; reflexivity.
  - vm_compute; reflexivity.
  - discriminate.
  - vm_compute; reflexivity.
  - reflexivity.
  - unfold serving. split_and!; vm_compute; reflexivity.
  - reflexivity.
  - vm_compute; reflexivity.
  - exists n, r', x'. split; [exact H1 | split; [exact H2 |]]. rewrite H3. cbn. by rewrite H4.
Defined.

(** The gate connects, a vehicle is admitted, and the gate is told. *)
Definition admitted_run : list RpcLabel :=
  connect 0 ++ [RCall 5 sample_env (CallSubmit sample_frame); RPub 5 300; RPub 5 301;
                RControlWrite 0 false true; RControlWrite 0 false true].
Definition admitted_rpc : Rpc := default sample_rpc (rpc_run admitted_run sample_rpc).
Definition admitted_command : GateCommandMsg := open_command sample_env "g" submit_decision.

Lemma open_commands_have_a_cause_witness :
  exists l1 v, log (hub (bus admitted_rpc)) = l1 ++ v :: [] /\
    (was_issued admitted_run admitted_command \/
     exists d, decided l1 d /\ authorises d admitted_command).
Proof.
  set (l := log (hub (bus admitted_rpc))).
  exists (take 2 l), (default (mkEnv "" "" fault_event) (l !! 2%nat)).
  assert (El : l = take 2 l ++ default (mkEnv "" "" fault_event) (l !! 2%nat) :: [])
    by (vm_compute; reflexivity).
  split; [exact El|].
  eapply (open_commands_have_a_cause 4 4 plain_engine sample_conn "s" admitted_run admitted_rpc).
  - vm_compute; reflexivity.
  - exact El.
  - vm_compute; reflexivity.
  - reflexivity.
Defined.

Lemma streams_carry_own_commands_witness :
  exists x, sessions admitted_rpc !! 0%nat = Some x /\ cm_gate_id admitted_command = ses_gate x.
Proof.
  exists (mkSession "g" (Some 0%nat) true false [admitted_command]).
  assert (Hx : sessions admitted_rpc !! 0%nat
               = Some (mkSession "g" (Some 0%nat) true false [admitted_command]))
    by (vm_compute; reflexivity).
  split; [exact Hx|].
  refine (proj1 (streams_carry_own_commands 4 4 plain_engine sample_conn "s" admitted_run
    admitted_rpc 0 (mkSession "g" (Some 0%nat) true false [admitted_command]) admitted_command
    _ _ Hx _)).
  - lia.
  - vm_compute; reflexivity.
  - left.
Defined.

(** The gate is latched closed, then the same vehicle and an operator's
    open command arrive. *)
Definition latch_command (kind : CommandKind) : GateCommandMsg :=
  mkCommandMsg (mkCommand "" kind 0 "guard") None "g" None 0 "".
Definition locked_rpc : Rpc :=
  default sample_rpc (rpc_run [RCall 1 sample_env (CallIssue (latch_command COMMAND_KIND_LATCH_CLOSE));
                               RPub 1 100; RPub 1 100] sample_rpc).
Definition locked_run : list RpcLabel :=
  [RCall 2 sample_env (CallSubmit sample_frame); RPub 2 101;
   RCall 3 sample_env (CallIssue (latch_command COMMAND_KIND_OPEN_GATE)); RPub 3 102].


(** The stream breaks and the gate connects again. *)
Definition reconnect_run : list RpcLabel :=
  admitted_run ++ [RControlEnd 0; RControlOpen 1 (Some (sample_telemetry "g")) 400].
Definition reconnect_rpc : Rpc := default sample_rpc (rpc_run reconnect_run sample_rpc).

Lemma reconnect_replays_old_commands_witness :
  exists r' i s, rpc_exec (RControlSubscribe 1) reconnect_rpc = Some r' /\
    serving r' 1 i (mkSession "g" (Some i) true false []) s /\
    omap command_of (sub_queue s) = [admitted_command].
Proof.
  destruct (reconnect_replays_old_commands 4 4 plain_engine sample_conn "s" reconnect_run
    reconnect_rpc 1 "g" []) as (r' & i & s & H1 & H2 & H3).
  - lia.
  - vm_compute; reflexivity.
  - vm_compute; reflexivity.
  - vm_compute; reflexivity.
  - vm_compute; reflexivity.
  - apply Nat.leb_le. vm_compute. reflexivity.
  - exists r', i, s. split; [exact H1|]. split; [exact H2|]. rewrite H3. vm_compute. reflexivity.
Defined.

Lemma admin_replies_are_true_witness :
  durable (store_ (UpsertAllowlist sample_env "s" [sample_entry] (srv sample_rpc)).1.1)
  = upsert_effect "s" [sample_entry] (durable sample_conn).
Proof.
  destruct (admin_replies_are_true sample_env "s" [sample_entry] [] (srv sample_rpc)) as [H _].
  - discriminate.
  - vm_compute; reflexivity.
  - vm_compute; reflexivity.
  - vm_compute; reflexivity.
  - destruct (H _ _ _ (surjective_pairing _)) as (_ & _ & _ & Hr). exact (proj1 (proj2 (proj2 Hr))).
Defined.

Lemma deleted_plate_is_refused_witness :
  exists s' ps stats d,
    DeleteAllowlist sample_env "s" ["KDA-123A"%string] (srv sample_rpc)
      = (s', ps, Replied Status_OK (Some stats)) /\
    fusion_decide sample_env s' (mkRequest sample_frame "s" false "firmware-submit") = inr d /\
    verdict d <> AUTHORIZED.
Proof.
  set (x := DeleteAllowlist sample_env "s" ["KDA-123A"%string] (srv sample_rpc)).
  set (d := match fusion_decide sample_env x.1.1
                    (mkRequest sample_frame "s" false "firmware-submit") with
            | inr d => d | inl _ => submit_decision end).
  exists x.1.1, x.1.2, (mkStats 0 1), d.
  assert (Hx : x = (x.1.1, x.1.2, Replied Status_OK (Some (mkStats 0 1))))
    by (vm_compute; reflexivity).
  assert (Hd : fusion_decide sample_env x.1.1 (mkRequest sample_frame "s" false "firmware-submit")
               = inr d) by (vm_compute; reflexivity).
  split; [exact Hx|]. split; [exact Hd|].
  refine (deleted_plate_is_refused sample_env ["KDA-123A"%string] (srv sample_rpc) x.1.1 x.1.2
    (mkStats 0 1) sample_env sample_frame (mkPlate "kda 123-a" f_one f_one) d _ Hx _ _ _ _ Hd).
  - vm_compute; reflexivity.
  - vm_compute; reflexivity.
  - vm_compute. left.
  - vm_compute. discriminate.
  - reflexivity.
Defined.

Lemma tls_never_downgraded_witness :
  exists mode roots,
    start (fun p => Some (p +:+ "-pem")%string) (mkTls "c" "k" "a" true) "[::]:0" (fun _ => Some 7)
    = Some (Ssl mode roots "k-pem" "c-pem", "[::]:7"%string) /\ mode = RequireAndVerify.
Proof.
  assert (Hs : start (fun p => Some (p +:+ "-pem")%string) (mkTls "c" "k" "a" true) "[::]:0"
      (fun _ => Some 7) = Some (Ssl RequireAndVerify "a-pem" "k-pem" "c-pem", "[::]:7"%string))
    by (vm_compute; reflexivity).
  remember RequireAndVerify as m in Hs.
  destruct (tls_never_downgraded _ (mkTls "c" "k" "a" true) _ _ _ _ eq_refl Hs)
    as (mode & roots & key & cert & E & _ & _ & _ & _ & Hm & _).
  injection E as <- <- _ _. exists m, "a-pem"%string. split; [exact Hs | exact (Hm eq_refl)].
Defined.
