(* ===== verification/ServerMain.v ===== *)
(** The server's daemon (src/server/src/main.cpp): its options, the order in
    which it opens the store, starts the listener, waits for a signal and
    shuts down, and what a shutdown does to the calls that are in flight.

    CLI11 matches the arguments; what it hands to [main] is a record of the
    options that were given.  The time between the signal handler and the end
    is the interleaving of the server's threads that RpcServices defines: the
    labels [se_before] up to the signal, the broadcaster's stop, and the labels
    [se_after] until [Server::shutdown] has returned.  [Shutdown] cancels what
    its deadline leaves over: those are the cancelled turns of [se_after]. *)

From S2P Require Import Prelude AllowlistStore FusionEngine EventBroadcaster Grpc RpcServices.
Local Open Scope Z_scope.

(** ** Options *)

(** [Option::needs]: given only together with another one. *)
Definition needs (given needed : bool) : bool := implb given needed.

Record ServerArgs := mkServerArgs {
  sa_listen : option string; sa_site_id : option string; sa_db_path : option string;
  sa_tls_cert : option string; sa_tls_key : option string; sa_tls_ca : option string;
  sa_require_client_cert : bool;
}.

Definition server_args_ok (a : ServerArgs) : bool :=
  needs (bool_decide (is_Some (sa_tls_key a))) (bool_decide (is_Some (sa_tls_cert a))) &&
  needs (sa_require_client_cert a) (bool_decide (is_Some (sa_tls_ca a))).

Definition server_tls (a : ServerArgs) : TlsConfig :=
  mkTls (default "" (sa_tls_cert a)) (default "" (sa_tls_key a)) (default "" (sa_tls_ca a))
    (sa_require_client_cert a).

(** ** [main] *)

(** What the process finds around it.  [se_sqlite] is how SQLite opens the
    file and, in the second place, how the schema script ends on it. *)
Record ServerEnv := mkServerEnv {
  se_fs : string -> option string;
  se_sqlite : string -> string + (string + Db);
  se_build : Credentials -> option Z;
  se_before : list RpcLabel;
  se_after : list RpcLabel;
}.

(** [AllowlistStore::open]. *)
Definition store_open (sqlite : string -> string + (string + Db)) (path : string) : string + Conn :=
  match sqlite path with
  | inl msg => inl ("AllowlistStore::open(" +:+ path +:+ "): " +:+ msg)%string
  | inr (inl msg) => inl ("exec failed: " +:+ msg)%string
  | inr (inr db) => match run_migrations db with inl e => inl e | inr db => inr (Conn_new db) end
  end.

(** How a run ends.  [Served] is the exit code 0: what it listened with, the
    server when the signal was seen and when [main] returned. *)
Inductive ServerExit :=
| ParseError
| Uncaught (what : string)
| ExitFailure
| Served (creds : Credentials) (addr : string) (signalled ended : Rpc).

(** The defaults of [EventBroadcaster]'s constructor. *)
Definition ring_capacity_default : nat := Z.to_nat 4096.
Definition per_subscriber_default : nat := Z.to_nat 1024.

(** [main]; [None] where the labels name no step of the server. *)
Definition server_main (a : ServerArgs) (e : ServerEnv) : option ServerExit :=
  if negb (server_args_ok a) then Some ParseError
  else
    match store_open (se_sqlite e) (default "allowlist.db" (sa_db_path a)) with
    | inl what => Some (Uncaught what)
    | inr store =>
        let fusion := mkEngine FusionConfig_default ∅ in
        let server := Rpc_new ring_capacity_default per_subscriber_default fusion store
                        (default "default" (sa_site_id a)) in
        match start (se_fs e) (server_tls a) (default "0.0.0.0:50051" (sa_listen a)) (se_build e) with
        | None => Some ExitFailure
        | Some (creds, addr) =>
            signalled ← rpc_run (se_before e) server;
            draining ← rpc_exec RStop signalled;
            ended ← rpc_run (se_after e) draining;
            Some (Served creds addr signalled ended)
        end
    end.

(** ** Who reads which subscription *)

(** The streams: [inl k] is a [Control] call, [inr k] a [Subscribe] call. *)
Definition sub_of (r : Rpc) (o : nat + nat) : option nat :=
  match o with
  | inl k => sessions r !! k ≫= ses_sub
  | inr k => ds_sub <$> dashes r !! k
  end.

Definition new_owner (l : RpcLabel) : option (nat + nat) :=
  match l with
  | RControlSubscribe k => Some (inl k)
  | RSubscribe k _ => Some (inr k)
  | _ => None
  end.

(** The stream whose queue a step reads. *)
Definition acts (l : RpcLabel) : option (nat + nat) :=
  match l with
  | RControlWrite k _ _ => Some (inl k)
  | RSubscribeDrain k _ | RSubscribeTurn k _ _ => Some (inr k)
  | _ => None
  end.

Notation subs_of r := (heap (hub (bus r))).

Record Owners (r : Rpc) : Prop := {
  ow_bound o i : sub_of r o = Some i -> (i < length (subs_of r))%nat;
  ow_inj o o' i : sub_of r o = Some i -> sub_of r o' = Some i -> o = o';
}.

Lemma subs_grow l r r' : rpc_exec l r = Some r' -> (length (subs_of r) <= length (subs_of r'))%nat.
Proof.
  intros H. destruct (rpc_exec_bus l r r' H) as (Hr & _). destruct (hub_run_grows _ _ Hr) as [_ Hf].
  destruct (length (subs_of r)) as [|n] eqn:Hn; [lia|].
  destruct (lookup_lt_is_Some_2 (subs_of r) n) as [s Hs]; [lia|].
  destruct (Hf n s Hs) as (s' & Hs' & _). apply lookup_lt_Some in Hs'. lia.
Qed.

(** The call whose own state a step may change. *)
Definition session_of (l : RpcLabel) : option nat :=
  match l with
  | RControlOpen k _ _ | RControlSubscribe k | RControlWrite k _ _ | RControlEnd k
  | RControlReturn k => Some k
  | _ => None
  end.
Definition dash_of (l : RpcLabel) : option nat :=
  match l with
  | RSubscribe k _ | RSubscribeDrain k _ | RSubscribeTurn k _ _ => Some k
  | _ => None
  end.

Lemma exec_frame l r r' :
  rpc_exec l r = Some r' ->
  (forall k, session_of l <> Some k -> sessions r' !! k = sessions r !! k) /\
  (forall k, dash_of l <> Some k -> dashes r' !! k = dashes r !! k).
Proof.
  intros H.
  destruct l as [k env c|k now|k first now|k|k env now|k c ok|k|k|k req|k outs|k c ok|];
    cbn [rpc_exec] in H; cbn [session_of dash_of].
  - case_guard; [|done]. destruct (call_front env c (srv r)). by simplify_eq/=.
  - destruct (calls r !! k) as [[|p ps]|]; simplify_eq/=; [done|].
    apply bind_Some in H as ([id w] & _ & H). by simplify_eq/=.
  - case_guard; [|done]. destruct (Control_identify first); simplify_eq/=; [done|].
    apply bind_Some in H as (w & _ & H). simplify_eq/=. split; [|done]. intros k' Hk.
    apply lookup_insert_ne. congruence.
  - destruct (sessions r !! k) as [[gate [j|] b1 b2 wire]|]; try done.
    destruct (subscribe _ _) as [w [j|]]; simplify_eq/=; (split; [|done]); intros k' Hk;
      [apply lookup_insert_ne | apply lookup_delete_ne]; congruence.
  - destruct (sessions r !! k) as [[gate [j|] b1 [] wire]|]; try done.
    apply bind_Some in H as (w & _ & H). by simplify_eq/=.
  - destruct (sessions r !! k) as [x|]; [|done]. destruct (ses_sub x); [|done].
    case_guard; [|done]. destruct (Control_write _ _ _ _ _). simplify_eq/=. split; [|done].
    intros k' Hk. apply lookup_insert_ne. congruence.
  - destruct (sessions r !! k) as [[gate [j|] b1 [] wire]|]; simplify_eq/=. split; [|done].
    intros k' Hk. apply lookup_insert_ne. congruence.
  - destruct (sessions r !! k) as [[gate [j|] [] [] wire]|]; simplify_eq/=. split; [|done].
    intros k' Hk. apply lookup_delete_ne. congruence.
  - case_guard; [|done]. destruct (subscribe _ _) as [w [j|]]; simplify_eq/=; [|done].
    split; [done|]. intros k' Hk. apply lookup_insert_ne. congruence.
  - destruct (dashes r !! k) as [[j [] [] wire]|]; try done.
    destruct (Subscribe_drain _ _ _). simplify_eq/=. split; [done|]. intros k' Hk.
    apply lookup_insert_ne. congruence.
  - destruct (dashes r !! k) as [[j [] [] wire]|]; try done.
    destruct (Subscribe_turn _ _ _ _). simplify_eq/=. split; [done|]. intros k' Hk.
    apply lookup_insert_ne. congruence.
  - by simplify_eq/=.
Qed.

Lemma subscribe_fresh f w w' i :
  subscribe f w = (w', Some i) ->
  i = length (heap (hub w)) /\ (i < length (heap (hub w')))%nat.
Proof.
  unfold subscribe. destruct (stopped (hub w)); [done|]. intros [= <- <-]. split; [done|].
  cbn. rewrite length_app. cbn. lia.
Qed.

Lemma Control_write_sub c ok i w x : ses_sub (Control_write c ok i w x).2 = ses_sub x.
Proof. unfold Control_write. repeat (case_match; simplify_eq/=; try done). Qed.

Lemma Subscribe_turn_sub c ok w x : ds_sub (Subscribe_turn c ok w x).2 = ds_sub x.
Proof. unfold Subscribe_turn, Subscribe_leave. repeat (case_match; simplify_eq/=; try done). Qed.

Lemma Subscribe_drain_sub outs w x : ds_sub (Subscribe_drain outs w x).2 = ds_sub x.
Proof. unfold Subscribe_drain, Subscribe_leave. repeat (case_match; simplify_eq/=; try done). Qed.

(** A stream keeps its subscription; a new one gets a new object. *)
Lemma exec_subs l r r' o i :
  rpc_exec l r = Some r' -> sub_of r' o = Some i ->
  sub_of r o = Some i \/
  (new_owner l = Some o /\ i = length (subs_of r) /\ (i < length (subs_of r'))%nat).
Proof.
  intros H Ho. destruct (exec_frame l r r' H) as [Hse Hda]. destruct o as [k|k]; cbn [sub_of] in *.
  - destruct (decide (session_of l = Some k)) as [E|Hne]; [|by rewrite <- Hse; auto].
    destruct l as [| |k' first now|k'| |k' c ok|k'|k'| | | |]; try done; injection E as ->;
      cbn [rpc_exec] in H.
    + case_guard as Hk; [|done]. destruct (Control_identify first); simplify_eq/=; [by left|].
      apply bind_Some in H as (w & _ & H). simplify_eq/=. by rewrite lookup_insert_eq in Ho.
    + destruct (sessions r !! k) as [[gate [j|] b1 b2 wire]|] eqn:Hk; try done.
      destruct (subscribe _ _) as [w [j|]] eqn:Hsub; simplify_eq/=;
        [|by rewrite lookup_delete_eq in Ho].
      rewrite lookup_insert_eq in Ho. injection Ho as <-. right. split; [done|].
      exact (subscribe_fresh _ _ _ _ Hsub).
    + destruct (sessions r !! k) as [x|] eqn:Hk; [|done]. destruct (ses_sub x) as [j|] eqn:Hj; [|done].
      case_guard; [|done]. pose proof (Control_write_sub c ok j (bus r) x) as Hx.
      destruct (Control_write _ _ _ _ _) as [w x1]; simplify_eq/=. rewrite lookup_insert_eq in Ho.
      cbn in Ho. left. congruence.
    + destruct (sessions r !! k) as [[gate [j|] b1 [] wire]|]; simplify_eq/=.
      rewrite lookup_insert_eq in Ho. by left.
    + destruct (sessions r !! k) as [[gate [j|] [] [] wire]|]; simplify_eq/=.
      by rewrite lookup_delete_eq in Ho.
  - destruct (decide (dash_of l = Some k)) as [E|Hne]; [|by rewrite <- Hda; auto].
    destruct l as [| | | | | | | |k' req|k' outs|k' c ok|]; try done; injection E as ->;
      cbn [rpc_exec] in H.
    + case_guard as Hk; [|done]. destruct (subscribe _ _) as [w [j|]] eqn:Hsub; simplify_eq/=;
        [|by left].
      rewrite lookup_insert_eq in Ho. injection Ho as <-. right. split; [done|].
      exact (subscribe_fresh _ _ _ _ Hsub).
    + destruct (dashes r !! k) as [[j [] [] wire]|] eqn:Hk; try done.
      pose proof (Subscribe_drain_sub outs (bus r) (mkDash j false true wire)) as Hx.
      destruct (Subscribe_drain _ _ _) as [w x1]; simplify_eq/=. rewrite lookup_insert_eq in Ho.
      cbn in Ho. left. cbn. congruence.
    + destruct (dashes r !! k) as [[j [] [] wire]|] eqn:Hk; try done.
      pose proof (Subscribe_turn_sub c ok (bus r) (mkDash j true true wire)) as Hx.
      destruct (Subscribe_turn _ _ _ _) as [w x1]; simplify_eq/=. rewrite lookup_insert_eq in Ho.
      cbn in Ho. left. cbn. congruence.
Qed.

Lemma Owners_exec l r r' : Owners r -> rpc_exec l r = Some r' -> Owners r'.
Proof.
  intros [Hb Hi] H. pose proof (subs_grow l r r' H) as Hg. split.
  - intros o i Ho. destruct (exec_subs l r r' o i H Ho) as [Ho' | (_ & _ & Hl)]; [|done].
    specialize (Hb o i Ho'). lia.
  - intros o o' i Ho Ho'. destruct (exec_subs l r r' o i H Ho) as [Ho1 | (Hn & -> & _)];
      destruct (exec_subs l r r' o' _ H Ho') as [Ho2 | (Hn' & E & _)]; [by eauto | | | congruence].
    + apply Hb in Ho1. lia.
    + apply Hb in Ho2. lia.
Qed.

Lemma Owners_run ls r r' : Owners r -> rpc_run ls r = Some r' -> Owners r'.
Proof.
  revert r. induction ls as [|l ls IH]; intros r Ho H; cbn [rpc_run] in H; [by simplify_eq|].
  apply bind_Some in H as (r1 & H1 & H). eauto using Owners_exec.
Qed.

Lemma Owners_new rc pc f c site : Owners (Rpc_new rc pc f c site).
Proof. split; intros []; cbn; by intros. Qed.

(** ** After the stop *)

(** Between two buses of a stopped broadcaster nothing is delivered: only
    subscription [acted] may lose events, and nothing reopens. *)
Record settles (acted : option nat) (w w' : World) : Prop := {
  se_stopped : stopped (hub w') = stopped (hub w);
  se_log : log (hub w') = log (hub w);
  se_sub i s : heap (hub w) !! i = Some s ->
    exists s', heap (hub w') !! i = Some s' /\
      (sub_closed s = true -> sub_closed s' = true) /\
      (acted <> Some i -> sub_queue s' = sub_queue s);
  se_old i s' : heap (hub w') !! i = Some s' -> is_Some (heap (hub w) !! i);
}.

#[local] Instance settles_refl a : Reflexive (settles a).
Proof. intros w. split; eauto. Qed.

#[local] Instance settles_trans a : Transitive (settles a).
Proof.
  intros w1 w2 w3 [Hs1 Hl1 Hh1 Ho1] [Hs2 Hl2 Hh2 Ho2]. split; try congruence.
  - intros i s Hi. destruct (Hh1 i s Hi) as (s' & Hi' & Hc & Hq).
    destruct (Hh2 i s' Hi') as (s2 & Hi2 & Hc2 & Hq2). exists s2. split_and!; [done|by auto|].
    intros Ha. by rewrite Hq2, Hq.
  - intros i s Hi. destruct (Ho2 i s Hi) as [s' Hi']. by eapply Ho1.
Qed.

Lemma settles_weaken a w w' : settles None w w' -> settles a w w'.
Proof.
  intros [Hs Hl Hh Ho]. split; try done. intros i s Hi. destruct (Hh i s Hi) as (s' & ? & ? & Hq).
  exists s'. split_and!; auto.
Qed.

Lemma on_sub_settles a g i w :
  (forall s, sub_closed s = true -> sub_closed (g s) = true) ->
  (a = Some i \/ forall s, sub_queue (g s) = sub_queue s) -> settles a w (on_sub g i w).
Proof.
  intros Hc Hq. split; [done | done | |].
  - intros j s Hj. cbn [on_sub hub heap with_heap].
    destruct (decide (i = j)) as [<-|Hne].
    + rewrite list_lookup_alter_eq, Hj. exists (g s). split_and!; [done | by apply Hc |].
      destruct Hq as [->|Hq]; [done | by auto].
    + rewrite list_lookup_alter_ne by done. eauto.
  - intros j s Hj. cbn [on_sub hub heap with_heap] in Hj.
    apply lookup_lt_Some in Hj. rewrite length_alter in Hj. by apply lookup_lt_is_Some.
Qed.

Lemma next_closed s : sub_closed (next s).2 = sub_closed s.
Proof. unfold next. by destruct (sub_queue s). Qed.

Lemma const_settles a s s0 i w :
  heap (hub w) !! i = Some s0 -> sub_closed s = sub_closed s0 -> a = Some i ->
  settles a w (on_sub (fun _ => s) i w).
Proof.
  intros Hi Hc ->. split; [done | done | |].
  - intros j s1 Hj. cbn [on_sub hub heap with_heap]. destruct (decide (i = j)) as [<-|Hne].
    + rewrite list_lookup_alter_eq, Hj. exists s. split_and!; [done | congruence | done].
    + rewrite list_lookup_alter_ne by done. eauto.
  - intros j s1 Hj. cbn [on_sub hub heap with_heap] in Hj.
    apply lookup_lt_Some in Hj. rewrite length_alter in Hj. by apply lookup_lt_is_Some.
Qed.

Lemma leave_settles a x w : settles a w (Subscribe_leave x w).1.
Proof. apply on_sub_settles; [done | by right]. Qed.

Lemma Control_write_settles c ok i w x :
  settles (Some i) w (Control_write c ok i w x).1.
Proof.
  unfold Control_write. destruct (_ || _); [done|]. destruct (heap (hub w) !! i) as [s|] eqn:Hi; [|done].
  rewrite (surjective_pairing (next s)).
  pose proof (const_settles (Some i) _ s i w Hi (next_closed s) eq_refl) as Hs.
  repeat case_match; exact Hs.
Qed.

Lemma Subscribe_turn_settles c ok w x : settles (Some (ds_sub x)) w (Subscribe_turn c ok w x).1.
Proof.
  unfold Subscribe_turn. destruct c; [apply leave_settles|].
  destruct (heap (hub w) !! ds_sub x) as [s|] eqn:Hi; [|done].
  rewrite (surjective_pairing (next s)).
  pose proof (const_settles (Some (ds_sub x)) _ s _ w Hi (next_closed s) eq_refl) as Hs.
  repeat case_match; try exact Hs; (etrans; [exact Hs | apply leave_settles]).
Qed.

Lemma Subscribe_drain_settles outs w x : settles (Some (ds_sub x)) w (Subscribe_drain outs w x).1.
Proof.
  unfold Subscribe_drain. destruct (heap (hub w) !! ds_sub x) as [s|] eqn:Hi; [|done].
  rewrite (surjective_pairing (drain_now s)).
  pose proof (const_settles (Some (ds_sub x)) (drain_now s).2 s _ w Hi eq_refl eq_refl) as Hs.
  destruct (drain_writes _ _) as [l [|]]; [exact Hs|]. etrans; [exact Hs | apply leave_settles].
Qed.

Lemma run_pubs_stopped now ps w w' :
  stopped (hub w) = true -> run_pubs now ps w = Some w' -> w' = w.
Proof.
  intros Hs. induction ps as [|p ps IH]; cbn [run_pubs]; [by intros [= <-]|].
  intros H. apply bind_Some in H as ([id w1] & H1 & H).
  apply run_pub_log in H1 as (_ & [[_ ->] | (Hn & _)]); [by apply IH | congruence].
Qed.

(** What any step does to a stopped bus. *)
Lemma stopped_step l r r' :
  stopped (hub (bus r)) = true -> rpc_exec l r = Some r' ->
  settles (acts l ≫= sub_of r) (bus r) (bus r').
Proof.
  intros Hst H. assert (Hsame : bus r' = bus r -> settles (acts l ≫= sub_of r) (bus r) (bus r'))
    by (intros ->; done).
  destruct l as [k env c|k now|k first now|k|k env now|k c ok|k|k|k req|k outs|k c ok|];
    cbn [rpc_exec] in H; cbn [acts mbind option_bind sub_of].
  - case_guard; [|done]. rewrite (surjective_pairing (call_front env c (srv r))) in H.
    simplify_eq/=. apply Hsame. unfold bus. cbn [srv]. by rewrite call_front_bus.
  - destruct (calls r !! k) as [[|p ps]|]; simplify_eq/=; [by apply Hsame|].
    apply bind_Some in H as ([id w] & H1 & H). simplify_eq/=. apply Hsame.
    apply run_pub_log in H1 as (_ & [[_ ->] | (Hn & _)]); [done | congruence].
  - case_guard; [|done]. destruct (Control_identify first) as [st|t]; simplify_eq/=; [by apply Hsame|].
    apply bind_Some in H as (w & H1 & H). simplify_eq/=. apply Hsame.
    change (run_pubs now [PubTelemetry (default_site_id_ (srv r)) t] (bus r) = Some w) in H1.
    by apply run_pubs_stopped in H1.
  - destruct (sessions r !! k) as [[gate [j|] b1 b2 wire]|]; try done.
    unfold subscribe in H. rewrite Hst in H. simplify_eq/=. by apply Hsame.
  - destruct (sessions r !! k) as [[gate [j|] b1 [] wire]|]; try done.
    apply bind_Some in H as (w & H1 & H). simplify_eq/=. apply Hsame.
    by apply run_pubs_stopped in H1.
  - destruct (sessions r !! k) as [x|]; [|done]. cbn [mbind option_bind].
    destruct (ses_sub x) as [j|]; [|done]. case_guard; [|done].
    pose proof (Control_write_settles c ok j (bus r) x) as Hs.
    destruct (Control_write _ _ _ _ _) as [w x1]. by simplify_eq/=.
  - destruct (sessions r !! k) as [[gate [j|] b1 [] wire]|]; try done. simplify_eq/=.
    apply on_sub_settles; [done | by right].
  - destruct (sessions r !! k) as [[gate [j|] [] [] wire]|]; try done. simplify_eq/=.
    apply on_sub_settles; [done | by right].
  - case_guard; [|done]. unfold subscribe in H. rewrite Hst in H. simplify_eq/=. by apply Hsame.
  - destruct (dashes r !! k) as [[j [] [] wire]|]; try done.
    pose proof (Subscribe_drain_settles outs (bus r) (mkDash j false true wire)) as Hs.
    destruct (Subscribe_drain _ _ _) as [w x1]. by simplify_eq/=.
  - destruct (dashes r !! k) as [[j [] [] wire]|]; try done.
    pose proof (Subscribe_turn_settles c ok (bus r) (mkDash j true true wire)) as Hs.
    destruct (Subscribe_turn _ _ _ _) as [w x1]. by simplify_eq/=.
  - simplify_eq/=. apply Hsame. unfold stop_bus. change (bus (set_bus ?w r)) with w.
    by rewrite Hst.
Qed.

(** A stopped broadcaster has closed every subscription. *)
Definition stop_done (w : World) : Prop :=
  stopped (hub w) = true -> forall i s, heap (hub w) !! i = Some s -> sub_closed s = true.

Lemma settles_done a w w' : settles a w w' -> stopped (hub w) = true -> stop_done w -> stop_done w'.
Proof.
  intros [_ _ Hh Ho] Hst Hd _ i s' Hi. destruct (Ho i s' Hi) as [s Hs].
  destruct (Hh i s Hs) as (s2 & Hs2 & Hc & _). rewrite Hi in Hs2. injection Hs2 as <-.
  by apply Hc, (Hd Hst i s).
Qed.

Definition close_all_subs (ts : list nat) (h : Hub) : Hub :=
  foldl (fun h i => with_heap (alter close i (heap h)) h) h ts.

Lemma close_all_spec ts h i s' :
  heap (close_all_subs ts h) !! i = Some s' ->
  exists s, heap h !! i = Some s /\ sub_queue s' = sub_queue s /\
    (sub_closed s = true \/ i ∈ ts -> sub_closed s' = true).
Proof.
  revert h. induction ts as [|t ts IH]; intros h Hi; cbn [close_all_subs foldl] in Hi.
  { exists s'. split_and!; [done..|]. intros [?|H]; [done | by apply elem_of_nil in H]. }
  destruct (IH _ Hi) as (s1 & H1 & Hq & Hc). cbn [with_heap heap] in H1.
  apply lookup_alter_cases in H1 as [(-> & s0 & H0 & ->) | [Hne H1]].
  - exists s0. split_and!; [done | done|]. intros _. apply Hc. by left.
  - exists s1. split_and!; [done | done|]. intros [H|H]; apply Hc; [by left|].
    apply elem_of_cons in H as [->|H]; [done | by right].
Qed.

(** What [stop] does to a subscription. *)
Lemma stop_bus_sub w i s' :
  Inv w -> heap (hub (stop_bus w)) !! i = Some s' ->
  (stopped (hub w) = false -> sub_closed s' = true) /\
  exists s, heap (hub w) !! i = Some s /\ sub_queue s' = sub_queue s.
Proof.
  intros Hinv. unfold stop_bus. destruct (stopped (hub w)) eqn:Hst; [intros Hi; split; [done|eauto]|].
  cbn [hub]. intros Hi. apply close_all_spec in Hi as (s & Hs & Hq & Hc).
  change (heap (hub w) !! i = Some s) in Hs. split; [|by eauto].
  intros _. apply Hc. destruct (sub_closed s) eqn:Hcl; [by left|]. right.
  apply list_elem_of_filter. split; [|by apply (inv_reg w Hinv i s)].
  unfold alive. rewrite Hs. destruct (inv_sub w Hinv i s Hs) as [_ Hown]. by rewrite Hown.
Qed.

Lemma stop_done_stop w : Inv w -> stop_done w -> stop_done (stop_bus w).
Proof.
  intros Hinv Hd _ i s' Hi. destruct (stop_bus_sub w i s' Hinv Hi) as [Hc _].
  destruct (stopped (hub w)) eqn:Hst; [|by apply Hc].
  unfold stop_bus in Hi. rewrite Hst in Hi. by apply (Hd Hst i).
Qed.

(** Nothing but [stop] stops the broadcaster. *)
Lemma only_stop_stops l r r' :
  rpc_exec l r = Some r' -> l = RStop \/ stopped (hub (bus r')) = stopped (hub (bus r)).
Proof.
  intros H.
  destruct l as [k env c|k now|k first now|k|k env now|k c ok|k|k|k req|k outs|k c ok|];
    [right .. | by left]; cbn [rpc_exec] in H.
  - case_guard; [|done]. rewrite (surjective_pairing (call_front env c (srv r))) in H.
    simplify_eq/=. unfold bus. cbn [srv]. by rewrite call_front_bus.
  - destruct (calls r !! k) as [[|p ps]|]; simplify_eq/=; [done|].
    apply bind_Some in H as ([id w] & H1 & H). simplify_eq/=. by apply run_pub_log in H1 as (Hs & _).
  - case_guard; [|done]. destruct (Control_identify first) as [st|t]; simplify_eq/=; [done|].
    apply bind_Some in H as (w & H1 & H). simplify_eq/=.
    change (run_pubs now [PubTelemetry (default_site_id_ (srv r)) t] (bus r) = Some w) in H1.
    apply run_pubs_log in H1 as [Hs _]; [exact Hs | by repeat constructor].
  - destruct (sessions r !! k) as [[gate [j|] b1 b2 wire]|]; try done.
    destruct (subscribe _ _) as [w [j|]] eqn:Hsub; simplify_eq/=; [|done].
    by apply subscribe_hub in Hsub as [_ Hs].
  - destruct (sessions r !! k) as [[gate [j|] b1 [] wire]|]; try done.
    apply bind_Some in H as (w & H1 & H). simplify_eq/=.
    apply run_pubs_log in H1 as [Hs _]; [exact Hs | apply Control_dispatch_stream].
  - destruct (sessions r !! k) as [x|]; [|done]. destruct (ses_sub x) as [j|]; [|done].
    case_guard; [|done]. destruct (Control_write _ _ _ _ _) as [w x1] eqn:Hw; simplify_eq/=.
    by apply Control_write_bus in Hw as (_ & _ & Hs).
  - destruct (sessions r !! k) as [[gate [j|] b1 [] wire]|]; by simplify_eq/=.
  - destruct (sessions r !! k) as [[gate [j|] [] [] wire]|]; by simplify_eq/=.
  - case_guard; [|done]. destruct (subscribe _ _) as [w [j|]] eqn:Hsub; simplify_eq/=; [|done].
    by apply subscribe_hub in Hsub as [_ Hs].
  - destruct (dashes r !! k) as [[j [] [] wire]|]; try done.
    destruct (Subscribe_drain _ _ _) as [w x1] eqn:Hw; simplify_eq/=.
    by apply Subscribe_drain_bus in Hw as (_ & _ & Hs).
  - destruct (dashes r !! k) as [[j [] [] wire]|]; try done.
    destruct (Subscribe_turn _ _ _ _) as [w x1] eqn:Hw; simplify_eq/=.
    by apply Subscribe_turn_bus in Hw as (_ & _ & Hs).
Qed.

(** What holds of the server at any time. *)
Record Sound (r : Rpc) : Prop := {
  so_streams : Streams r;
  so_owners : Owners r;
  so_done : stop_done (bus r);
}.

Lemma Sound_exec l r r' : Sound r -> rpc_exec l r = Some r' -> Sound r'.
Proof.
  intros [Hs Ho Hd] H. split; [by eapply Streams_exec | by eapply Owners_exec|].
  destruct (stopped (hub (bus r))) eqn:Hst.
  { by eapply settles_done, Hd; [eapply stopped_step|]. }
  destruct (only_stop_stops l r r' H) as [-> | E].
  - simplify_eq/=. change (bus (set_bus ?w r)) with w. apply stop_done_stop; [|done].
    apply (st_inv r Hs).
  - intros Hst'. congruence.
Qed.

Lemma Sound_run ls r r' : Sound r -> rpc_run ls r = Some r' -> Sound r'.
Proof.
  revert r. induction ls as [|l ls IH]; intros r Hs H; cbn [rpc_run] in H; [by simplify_eq|].
  apply bind_Some in H as (r1 & H1 & H). eauto using Sound_exec.
Qed.

Lemma Sound_new rc pc f c site : (0 < rc)%nat -> Sound (Rpc_new rc pc f c site).
Proof. intros H. split; [by apply Streams_new | apply Owners_new | done]. Qed.

(** ** How a stream ends

    The turns of one [Subscribe] call after the stop, and what they should
    write: the queue in order, and then the call returns. *)

Inductive OwnStep := Drain (outs : list (bool * bool)) | Turn (cancelled write_ok : bool).

Definition dash_step (k : nat) (l : RpcLabel) : option OwnStep :=
  match l with
  | RSubscribeDrain j outs => if decide (j = k) then Some (Drain outs) else None
  | RSubscribeTurn j c ok => if decide (j = k) then Some (Turn c ok) else None
  | _ => None
  end.

(** What one step writes, and the queue it leaves if the call goes on. *)
Definition dash_once (st : OwnStep) (q : list DashboardEvent)
    : list DashboardEvent * option (list DashboardEvent) :=
  match st with
  | Drain outs => let '(l, go) := drain_writes outs q in (l, if go then Some [] else None)
  | Turn true _ => ([], None)
  | Turn false ok =>
      match q with
      | [] => ([], None)
      | e :: q => if ok then ([e], Some q) else ([], None)
      end
  end.

Fixpoint dash_end (sts : list OwnStep) (q : list DashboardEvent) : list DashboardEvent * bool :=
  match sts with
  | [] => ([], true)
  | st :: sts =>
      match dash_once st q with
      | (l, None) => (l, false)
      | (l, Some q) => let '(l', go) := dash_end sts q in (l ++ l', go)
      end
  end.

Definition queued (r : Rpc) (i : nat) (q : list DashboardEvent) : Prop :=
  exists s, subs_of r !! i = Some s /\ sub_queue s = q.

Lemma other_step l r r' o i q :
  Sound r -> stopped (hub (bus r)) = true -> rpc_exec l r = Some r' ->
  sub_of r o = Some i -> acts l <> Some o -> queued r i q -> queued r' i q.
Proof.
  intros Hs Hst H Ho Ha (s & Hi & Hq).
  destruct (se_sub _ _ _ (stopped_step l r r' Hst H) i s Hi) as (s' & Hi' & _ & Hq').
  exists s'. split; [done|]. rewrite Hq'; [done|]. intros Hacts.
  apply bind_Some in Hacts as (o' & Ho' & Hi2).
  by rewrite (ow_inj r (so_owners r Hs) o o' i Ho Hi2) in Ha.
Qed.

(** A call keeps its state while others step. *)
Lemma dash_kept l r r' k x :
  rpc_exec l r = Some r' -> dashes r !! k = Some x -> acts l <> Some (inr k) ->
  dashes r' !! k = Some x.
Proof.
  intros H Hk Ha. rewrite (proj2 (exec_frame l r r' H) k); [done|]. intros E.
  destruct l; cbn in E, Ha; simplify_eq; try done. cbn [rpc_exec] in H.
  case_guard; [congruence | done].
Qed.

Lemma dash_step_acts k l st : dash_step k l = Some st -> acts l = Some (inr k).
Proof. destruct l; cbn; try done; case_decide; by simplify_eq. Qed.

Lemma acts_dash_step k l : acts l = Some (inr k) -> is_Some (dash_step k l).
Proof. destruct l; cbn; try done; intros [= ->]; by rewrite decide_True. Qed.

Lemma queued_on_sub (s : Sub) i w q :
  is_Some (heap (hub w) !! i) -> sub_queue s = q ->
  exists s', heap (hub (on_sub (fun _ => s) i w)) !! i = Some s' /\ sub_queue s' = q.
Proof.
  intros [s0 Hi] Hq. exists s. split; [|done]. cbn [on_sub hub heap with_heap].
  by rewrite list_lookup_alter_eq, Hi.
Qed.

(** One step of the call itself. *)
Lemma dash_own l r r' k x q st :
  stopped (hub (bus r)) = true -> rpc_exec l r = Some r' -> dash_step k l = Some st ->
  dashes r !! k = Some x -> queued r (ds_sub x) q ->
  exists x', dashes r' !! k = Some x' /\ ds_sub x' = ds_sub x /\
    ds_wire x' = ds_wire x ++ (dash_once st q).1 /\
    ds_drained x = (if st is Drain _ then false else true) /\ ds_open x = true /\
    match (dash_once st q).2 with
    | None => ds_open x' = false
    | Some q' => ds_open x' = true /\ ds_drained x' = true /\ queued r' (ds_sub x) q'
    end.
Proof.
  intros Hst H Hl Hk (s & Hi & Hq). destruct x as [i dr op wire]. cbn [ds_sub] in Hi.
  destruct l as [| | | | | | | | |k' outs|k' c ok|]; cbn in Hl; try done; case_decide; try done;
    injection Hl as <-; subst k'; cbn [rpc_exec] in H; rewrite Hk in H; destruct dr, op; try done.
  - unfold Subscribe_drain in H. cbn [ds_sub ds_wire] in H. rewrite Hi in H.
    unfold drain_now in H. rewrite Hq in H. cbn [dash_once].
    destruct (drain_writes outs q) as [l [|]]; cbn [Subscribe_leave ds_sub ds_drained ds_wire] in H;
      injection H as <-; cbn [set_dash dashes]; rewrite lookup_insert_eq; eexists;
      cbn [fst snd]; split_and!; try done.
    unfold queued, bus. cbn [set_bus set_dash srv with_bus bus_ ds_sub].
    apply queued_on_sub; [by eexists | done].
  - unfold Subscribe_turn in H. cbn [ds_sub ds_wire ds_drained] in H. cbn [dash_once].
    destruct c; [|rewrite Hi in H; unfold next in H; rewrite Hq in H; destruct q as [|e q]].
    + cbn in H. injection H as <-. cbn [set_dash dashes]. rewrite lookup_insert_eq. eexists.
      split_and!; try done. cbn. by rewrite app_nil_r.
    + change (stopped (hub (on_sub (fun _ => s) i (bus r)))) with (stopped (hub (bus r))) in H.
      rewrite Hst in H. cbn in H. injection H as <-. cbn [set_dash dashes].
      rewrite lookup_insert_eq. eexists. split_and!; try done. cbn. by rewrite app_nil_r.
    + destruct ok; cbn in H; injection H as <-; cbn [set_dash dashes]; rewrite lookup_insert_eq;
        eexists; cbn [fst snd]; split_and!; try done; [|cbn; by rewrite app_nil_r].
      unfold queued, bus.
      cbn [set_bus set_dash srv with_bus bus_].
      apply queued_on_sub; [by eexists | done].
Qed.

Lemma stopped_stays l r r' :
  rpc_exec l r = Some r' -> stopped (hub (bus r)) = true -> stopped (hub (bus r')) = true.
Proof. intros H Hst. by rewrite (se_stopped _ _ _ (stopped_step l r r' Hst H)). Qed.

(** A call that has returned takes no step. *)
Lemma dash_closed ls r r' k x :
  rpc_run ls r = Some r' -> dashes r !! k = Some x -> ds_open x = false ->
  dashes r' !! k = Some x /\ omap (dash_step k) ls = [].
Proof.
  intros H Hk Ho. revert r H Hk. induction ls as [|l ls IH]; intros r H Hk; cbn [rpc_run] in H.
  { by simplify_eq. }
  apply bind_Some in H as (r1 & H1 & H). destruct (dash_step k l) as [st|] eqn:Hl.
  { exfalso. destruct x as [i dr op wire]. cbn in Ho. subst op.
    destruct l; cbn in Hl; try done; case_decide; try done; subst; cbn [rpc_exec] in H1;
      rewrite Hk in H1; by destruct dr. }
  cbn [omap list_omap]. rewrite Hl. apply (IH r1 H). eapply dash_kept; [done..|].
  intros Ha. apply acts_dash_step in Ha as [? ?]. congruence.
Qed.

Definition turns_left (x : DashSession) (q : list DashboardEvent) : nat :=
  length q + (if ds_drained x then 1 else 2).

Lemma dash_ends ls r r' k x q :
  Sound r -> stopped (hub (bus r)) = true -> rpc_run ls r = Some r' ->
  dashes r !! k = Some x -> ds_open x = true -> queued r (ds_sub x) q ->
  let own := omap (dash_step k) ls in
  (length own <= turns_left x q)%nat /\
  exists x', dashes r' !! k = Some x' /\ ds_open x' = (dash_end own q).2 /\
    ds_wire x' = ds_wire x ++ (dash_end own q).1.
Proof.
  intros Hs Hst H Hk Ho Hq. cbv zeta. revert r x q Hs Hst H Hk Ho Hq.
  induction ls as [|l ls IH]; intros r x q Hs Hst H Hk Ho Hq; cbn [rpc_run] in H.
  { simplify_eq. split; [cbn; lia|]. exists x. split_and!; [done | done|]. cbn. by rewrite app_nil_r. }
  apply bind_Some in H as (r1 & H1 & H). pose proof (Sound_exec l r r1 Hs H1) as Hs1.
  pose proof (stopped_stays l r r1 H1 Hst) as Hst1. cbn [omap list_omap].
  destruct (dash_step k l) as [st|] eqn:Hl.
  - destruct (dash_own l r r1 k x q st Hst H1 Hl Hk Hq) as (x1 & Hk1 & Hi1 & Hw1 & Hd & _ & Hn).
    cbn [dash_end length]. destruct (dash_once st q) as [l1 [q1|]] eqn:Hon; cbn [fst snd] in *.
    + destruct Hn as (Ho1 & Hd1 & Hq1). rewrite <- Hi1 in Hq1.
      destruct (IH r1 x1 q1 Hs1 Hst1 H Hk1 Ho1 Hq1) as (Hlen & x' & Hk' & Ho' & Hw').
      split.
      * unfold turns_left in *. rewrite Hd1 in Hlen. rewrite Hd. destruct st as [outs|[] ok]; cbn in Hon.
        -- destruct (drain_writes outs q) as [? []]; simplify_eq/=. lia.
        -- done.
        -- destruct q as [|e q]; [done|]. destruct ok; simplify_eq/=. lia.
      * exists x'. destruct (dash_end _ q1) as [l2 go]. cbn [fst snd] in *.
        split_and!; [done | done|]. by rewrite Hw', Hw1, <- app_assoc.
    + destruct (dash_closed ls r1 r' k x1 H Hk1 Hn) as [Hk' ->]. split.
      * unfold turns_left. cbn. destruct (ds_drained x); lia.
      * exists x1. by rewrite Hn.
  - assert (Ha : acts l <> Some (inr k)) by (intros Ha; apply acts_dash_step in Ha as [? ?]; congruence).
    apply (IH r1 x q Hs1 Hst1 H); [by eapply dash_kept | done |].
    eapply (other_step l r r1 (inr k)); try done. cbn. by rewrite Hk.
Qed.

(** A healthy connection is written everything that was queued. *)
Definition healthy_step (st : OwnStep) : bool :=
  match st with
  | Drain outs => forallb (fun o => negb o.1 && o.2) outs
  | Turn c ok => negb c && ok
  end.

Lemma drain_healthy outs q :
  forallb (fun o : bool * bool => negb o.1 && o.2) outs = true -> drain_writes outs q = (q, true).
Proof.
  revert outs. induction q as [|e q IH]; intros outs Ho; [done|]. cbn [drain_writes].
  destruct outs as [|[c ok] outs]; cbn in Ho |- *; [by rewrite IH|].
  apply andb_true_iff in Ho as [Hc Ho]. destruct c, ok; try done. cbn. by rewrite IH.
Qed.

Lemma dash_end_healthy sts q :
  forallb healthy_step sts = true -> (dash_end sts q).2 = false -> (dash_end sts q).1 = q.
Proof.
  revert q. induction sts as [|st sts IH]; intros q Hh Hf; [done|].
  cbn [forallb] in Hh. apply andb_true_iff in Hh as [Hst Hh].
  destruct st as [outs|c ok]; cbn [dash_end dash_once healthy_step] in *.
  - rewrite (drain_healthy outs q Hst) in *. specialize (IH [] Hh).
    destruct (dash_end sts []) as [l go]. cbn in *. rewrite IH by done. by rewrite app_nil_r.
  - destruct c, ok; try done. destruct q as [|e q]; [done|]. specialize (IH q Hh).
    destruct (dash_end sts q) as [l go]. cbn in *. by rewrite IH.
Qed.

(** The writer thread of one [Control] call after the stop: it forwards the
    commands of its queue until it is empty, then it leaves. *)
Inductive WriterStep := ReaderLeft | Write (cancelled write_ok : bool).

Definition writer_step (k : nat) (l : RpcLabel) : option WriterStep :=
  match l with
  | RControlWrite j c ok => if decide (j = k) then Some (Write c ok) else None
  | RControlEnd j => if decide (j = k) then Some ReaderLeft else None
  | _ => None
  end.

Fixpoint writer_end (sts : list WriterStep) (down : bool) (q : list DashboardEvent)
    : list GateCommandMsg * bool :=
  match sts with
  | [] => ([], true)
  | ReaderLeft :: sts => writer_end sts true q
  | Write c ok :: sts =>
      if c || down then ([], false)
      else
        match q with
        | [] => ([], false)
        | e :: q =>
            match payload e with
            | kCommand cmd =>
                if ok then let '(l, go) := writer_end sts down q in (cmd :: l, go) else ([], false)
            | _ => writer_end sts down q
            end
        end
  end.

(** The turns the writer took. *)
Definition writer_turns (k : nat) (ls : list RpcLabel) : nat :=
  length (base.filter (fun l => acts l = Some (inl k)) ls).

Lemma session_kept l r r' k x :
  rpc_exec l r = Some r' -> sessions r !! k = Some x -> writer_step k l = None ->
  is_Some (ses_sub x) -> ses_writing x = true -> sessions r' !! k = Some x.
Proof.
  intros H Hk Hl Hs Hw. rewrite (proj1 (exec_frame l r r' H) k); [done|]. intros E.
  destruct x as [gate [j|] wr down wire]; [|by destruct Hs]. cbn in Hw. subst wr.
  destruct l; cbn in E, Hl; simplify_eq; try case_decide; try done; cbn [rpc_exec] in H;
    by rewrite ?Hk in H.
Qed.

(** The call [k] on subscription [i] has no writer any more, and its stream
    carried [W]. *)
Definition writer_gone (r : Rpc) (k i : nat) (W : list GateCommandMsg) : Prop :=
  forall x, sessions r !! k = Some x ->
    ses_writing x = false /\ (ses_sub x = Some i -> ses_wire x = W).

Lemma writer_gone_exec l r r' k i W :
  stopped (hub (bus r)) = true -> rpc_exec l r = Some r' -> writer_gone r k i W ->
  acts l <> Some (inl k) /\ writer_gone r' k i W.
Proof.
  intros Hst H Hg. split.
  { intros Ha. destruct l as [| | | | |k' c ok| | | | | |]; try done. injection Ha as ->.
    cbn [rpc_exec] in H. destruct (sessions r !! k) as [y|] eqn:Hy; [|done].
    destruct (Hg y Hy) as [Hw _]. destruct (ses_sub y); [|done]. case_guard; [congruence|done]. }
  intros x Hx. destruct (decide (session_of l = Some k)) as [E|Hne];
    [|rewrite (proj1 (exec_frame l r r' H) k Hne) in Hx; by apply Hg].
  destruct l as [| |k' first now|k'| |k' c ok|k'|k'| | | |]; try done; injection E as ->;
    cbn [rpc_exec] in H.
  - case_guard; [|done]. destruct (Control_identify first); simplify_eq/=.
    apply bind_Some in H as (w & _ & H). simplify_eq/=. rewrite lookup_insert_eq in Hx.
    by simplify_eq.
  - destruct (sessions r !! k) as [[gate [j|] b1 b2 wire]|]; try done.
    unfold subscribe in H. rewrite Hst in H. simplify_eq/=. by rewrite lookup_delete_eq in Hx.
  - destruct (sessions r !! k) as [y|] eqn:Hy; [|done]. destruct (ses_sub y); [|done].
    destruct (Hg y Hy). case_guard; [congruence | done].
  - destruct (sessions r !! k) as [[gate [j|] b1 [] wire]|] eqn:Hy; simplify_eq/=.
    rewrite lookup_insert_eq in Hx. simplify_eq. exact (Hg _ Hy).
  - destruct (sessions r !! k) as [[gate [j|] [] [] wire]|]; simplify_eq/=.
    by rewrite lookup_delete_eq in Hx.
Qed.

Lemma writer_gone_run ls r r' k i W :
  stopped (hub (bus r)) = true -> rpc_run ls r = Some r' -> writer_gone r k i W ->
  writer_turns k ls = 0%nat /\ writer_gone r' k i W.
Proof.
  revert r. induction ls as [|l ls IH]; intros r Hst H Hg; cbn [rpc_run] in H; [by simplify_eq|].
  apply bind_Some in H as (r1 & H1 & H).
  destruct (writer_gone_exec l r r1 k i W Hst H1 Hg) as [Ha Hg1].
  destruct (IH r1 (stopped_stays l r r1 H1 Hst) H Hg1) as [Hn Hg'].
  split; [|done]. unfold writer_turns. by rewrite filter_cons_False.
Qed.

(** One turn of the writer. *)
Lemma writer_own c ok r r' k x i q :
  stopped (hub (bus r)) = true -> rpc_exec (RControlWrite k c ok) r = Some r' ->
  sessions r !! k = Some x -> ses_sub x = Some i -> queued r i q ->
  exists x', sessions r' !! k = Some x' /\ ses_sub x' = Some i /\
    ses_shutting_down x' = ses_shutting_down x /\
    (ses_writing x' = false /\ ses_wire x' = ses_wire x /\
       (forall sts, writer_end (Write c ok :: sts) (ses_shutting_down x) q = ([], false)) \/
     exists e q' , q = e :: q' /\ ses_writing x' = true /\ queued r' i q' /\
       ses_wire x' = ses_wire x ++ omap command_of [e] /\
       forall sts, writer_end (Write c ok :: sts) (ses_shutting_down x) q =
         (omap command_of [e] ++ (writer_end sts (ses_shutting_down x) q').1,
          (writer_end sts (ses_shutting_down x) q').2)).
Proof.
  intros Hst H Hk Hi (s & Hs & Hq). destruct x as [gate sub wr down wire].
  cbn [ses_sub ses_shutting_down ses_wire] in *. subst sub. cbn [rpc_exec] in H. rewrite Hk in H.
  cbn [ses_sub ses_writing] in H. case_guard as Hw; [|done]. subst wr.
  cbn [mret option_ret mbind option_bind] in H.
  unfold Control_write in H. cbn [ses_gate ses_sub ses_shutting_down ses_wire ses_writing] in H.
  cbn [writer_end]. destruct (c || down) eqn:Hcd.
  { injection H as <-. cbn [set_session sessions]. rewrite lookup_insert_eq. eexists.
    split_and!; [done..|]. by left. }
  rewrite Hs in H. unfold next in H. rewrite Hq in H. destruct q as [|e q].
  { change (stopped (hub (on_sub (fun _ => s) i (bus r)))) with (stopped (hub (bus r))) in H.
    rewrite Hst in H. injection H as <-. cbn [set_session sessions]. rewrite lookup_insert_eq.
    eexists. split_and!; [done..|]. by left. }
  assert (Hqueue : forall x1 s1, sub_queue s1 = q ->
            queued (set_session k x1 (set_bus (on_sub (fun _ => s1) i (bus r)) r)) i q).
  { intros x1 s1 H1. unfold queued, bus. cbn [set_session set_bus srv with_bus bus_].
    by apply queued_on_sub. }
  unfold command_of. destruct (payload e) as [| | | | | |cmd] eqn:Hp; try destruct ok; injection H as <-;
    cbn [set_session sessions]; rewrite lookup_insert_eq; eexists; (split_and!; [done..|]);
    cbn [ses_writing ses_wire];
    first [by left | right; exists e, q; cbn; rewrite Hp; cbn; rewrite ?app_nil_r; split_and!;
      [done | done | by apply Hqueue | done | intros sts; by destruct (writer_end _ _ _)]].
Qed.

Lemma reader_left_own r r' k x i q :
  rpc_exec (RControlEnd k) r = Some r' ->
  sessions r !! k = Some x -> ses_sub x = Some i -> queued r i q ->
  exists x', sessions r' !! k = Some x' /\ ses_sub x' = Some i /\ ses_shutting_down x' = true /\
    ses_writing x' = ses_writing x /\ ses_wire x' = ses_wire x /\ queued r' i q.
Proof.
  intros H Hk Hi (s & Hs & Hq). destruct x as [gate sub wr down wire]. cbn in Hi. subst sub.
  cbn [rpc_exec] in H. rewrite Hk in H. destruct down; [done|]. injection H as <-.
  cbn [set_session sessions]. rewrite lookup_insert_eq. eexists. split_and!; [done..|].
  exists (close s). split; [|by cbn]. unfold bus in *. cbn [set_session set_bus srv with_bus bus_].
  cbn [on_sub hub heap with_heap]. by rewrite list_lookup_alter_eq, Hs.
Qed.

Lemma writer_ends ls r r' k x i q :
  Sound r -> stopped (hub (bus r)) = true -> rpc_run ls r = Some r' ->
  sessions r !! k = Some x -> ses_sub x = Some i -> ses_writing x = true -> queued r i q ->
  (writer_turns k ls <= length q + 1)%nat /\
  forall x', sessions r' !! k = Some x' -> ses_sub x' = Some i ->
    ses_wire x' = ses_wire x ++ (writer_end (omap (writer_step k) ls) (ses_shutting_down x) q).1 /\
    ses_writing x' = (writer_end (omap (writer_step k) ls) (ses_shutting_down x) q).2.
Proof.
  revert r x q. induction ls as [|l ls IH]; intros r x q Hs Hst H Hk Hi Hw Hq; cbn [rpc_run] in H.
  { simplify_eq. split; [cbn; lia|]. intros x' Hx' _. rewrite Hk in Hx'. injection Hx' as <-.
    cbn. by rewrite app_nil_r. }
  apply bind_Some in H as (r1 & H1 & H). pose proof (Sound_exec l r r1 Hs H1) as Hs1.
  pose proof (stopped_stays l r r1 H1 Hst) as Hst1. cbn [omap list_omap].
  destruct (writer_step k l) as [st|] eqn:Hl.
  - destruct l as [| | | | |k' c ok|k'| | | | |]; cbn in Hl; try done; case_decide; try done;
      injection Hl as <-; subst k'.
    + destruct (writer_own c ok r r1 k x i q Hst H1 Hk Hi Hq)
        as (x1 & Hk1 & Hi1 & Hd1 & [(Hw1 & Hwi & Hend) | (e & q' & -> & Hw1 & Hq1 & Hwi & Hend)]).
      * assert (Hg : writer_gone r1 k i (ses_wire x1)).
        { intros y Hy. rewrite Hk1 in Hy. by injection Hy as <-. }
        destruct (writer_gone_run ls r1 r' k i _ Hst1 H Hg) as [Hn Hg'].
        unfold writer_turns in *. rewrite filter_cons_True by done. cbn [length]. rewrite Hn.
        split; [lia|]. intros x' Hx' Hi'. destruct (Hg' x' Hx') as [Hw' Hwire'].
        rewrite Hend. cbn. rewrite app_nil_r, Hwire' by done. by rewrite Hwi.
      * destruct (IH r1 x1 q' Hs1 Hst1 H Hk1 Hi1 Hw1 Hq1) as [Hn Hx].
        unfold writer_turns in *. rewrite filter_cons_True by done. cbn [length].
        split; [lia|]. intros x' Hx' Hi'. destruct (Hx x' Hx' Hi') as [Hwire' Hw'].
        rewrite Hend. cbn [fst snd]. rewrite Hwire', Hw', Hwi, Hd1, <- app_assoc. done.
    + destruct (reader_left_own r r1 k x i q H1 Hk Hi Hq) as (x1 & Hk1 & Hi1 & Hd1 & Hw1 & Hwi & Hq1).
      rewrite Hw in Hw1. destruct (IH r1 x1 q Hs1 Hst1 H Hk1 Hi1 Hw1 Hq1) as [Hn Hx].
      unfold writer_turns in *. rewrite filter_cons_False by done. split; [done|].
      cbn [writer_end]. rewrite <- Hd1, <- Hwi. exact Hx.
  - assert (Ha : acts l <> Some (inl k)).
    { intros Ha. destruct l; cbn in Ha, Hl; try done. injection Ha as ->. by rewrite decide_True in Hl. }
    unfold writer_turns in *. rewrite filter_cons_False by done.
    apply (IH r1 x q Hs1 Hst1 H); [|done|done|].
    + eapply session_kept; [done | done | done | by rewrite Hi | done].
    + eapply (other_step l r r1 (inl k)); try done. cbn. by rewrite Hk.
Qed.

Lemma run_log ls r r' :
  rpc_run ls r = Some r' -> stopped (hub (bus r)) = true -> log (hub (bus r')) = log (hub (bus r)).
Proof.
  revert r. induction ls as [|l ls IH]; intros r H Hst; cbn [rpc_run] in H; [by simplify_eq|].
  apply bind_Some in H as (r1 & H1 & H). rewrite (IH r1 H (stopped_stays l r r1 H1 Hst)).
  by rewrite (se_log _ _ _ (stopped_step l r r1 Hst H1)).
Qed.

(** No stream gets a subscription from a stopped broadcaster. *)
Lemma run_subs ls r r' o i :
  rpc_run ls r = Some r' -> stopped (hub (bus r)) = true -> sub_of r' o = Some i ->
  sub_of r o = Some i.
Proof.
  revert r. induction ls as [|l ls IH]; intros r H Hst Ho; cbn [rpc_run] in H; [by simplify_eq|].
  apply bind_Some in H as (r1 & H1 & H).
  pose proof (IH r1 H (stopped_stays l r r1 H1 Hst) Ho) as Ho1.
  destruct (exec_subs l r r1 o i H1 Ho1) as [?|(_ & -> & Hlt)]; [done|].
  apply lookup_lt_is_Some in Hlt as [s Hs].
  apply (se_old _ _ _ (stopped_step l r r1 Hst H1)), lookup_lt_is_Some in Hs. lia.
Qed.

(** The stop itself touches no stream. *)
Lemma stop_step r r' :
  Sound r -> rpc_exec RStop r = Some r' ->
  stopped (hub (bus r')) = true /\ log (hub (bus r')) = log (hub (bus r)) /\
  dashes r' = dashes r /\ sessions r' = sessions r /\
  forall o i, sub_of r o = Some i -> exists s, subs_of r !! i = Some s /\ queued r' i (sub_queue s).
Proof.
  intros Hs H. pose proof (Sound_exec _ _ _ Hs H) as Hs'. cbn [rpc_exec] in H. injection H as <-.
  destruct (stop_bus_log (bus r)) as [Hlog Hst]. split_and!; [done..|]. intros o i Ho.
  assert (Ho' : sub_of (set_bus (stop_bus (bus r)) r) o = Some i) by (by destruct o).
  apply (ow_bound _ (so_owners _ Hs')), lookup_lt_is_Some in Ho' as [s' Hi].
  destruct (stop_bus_sub (bus r) i s' (st_inv r (so_streams r Hs)) Hi) as (_ & s & Hi0 & Hq).
  exists s. split; [done|]. by exists s'.
Qed.

Lemma server_main_served a e creds addr r0 r2 :
  server_main a e = Some (Served creds addr r0 r2) ->
  Sound r0 /\ exists r1, rpc_exec RStop r0 = Some r1 /\ rpc_run (se_after e) r1 = Some r2.
Proof.
  unfold server_main. destruct (negb _); [done|].
  destruct (store_open _ _) as [|store]; [done|].
  destruct (start _ _ _ _) as [[creds' addr']|]; [|done]. intros H.
  apply bind_Some in H as (ra & Ha & H). apply bind_Some in H as (rb & Hb & H).
  apply bind_Some in H as (rc & Hc & H). injection H as -> -> -> ->.
  split; [|by exists rb]. eapply Sound_run, Ha. apply Sound_new.
  unfold ring_capacity_default. lia.
Qed.


(** As long as its call is open, a stream can take its next turn. *)
Lemma open_call_can_step r k x c ok :
  dashes r !! k = Some x -> ds_open x = true ->
  exists l, acts l = Some (inr k) /\ is_Some (rpc_exec l r) /\
    (ds_drained x = true -> l = RSubscribeTurn k c ok).
Proof.
  intros Hk Ho. destruct x as [i dr op wire]. cbn in Ho. subst op. destruct dr.
  - exists (RSubscribeTurn k c ok). split_and!; [done | | done]. cbn [rpc_exec]. rewrite Hk.
    by destruct (Subscribe_turn _ _ _ _).
  - exists (RSubscribeDrain k []). split_and!; [done | | done]. cbn [rpc_exec]. rewrite Hk.
    by destruct (Subscribe_drain _ _ _).
Qed.

(** Client certificates asked for without a server certificate pass the
    option parser, and the server listens in plaintext. *)
Example mtls_without_certificate :
  let a := mkServerArgs None None None None None (Some "ca.pem") true in
  let e := mkServerEnv (fun _ => Some "pem") (fun _ => inr (inr Db_empty)) (fun _ => Some 50051) [] [] in
  server_args_ok a = true /\
  (match server_main a e with Some (Served c _ _ _) => Some c | _ => None end) = Some Insecure.
Proof. split; reflexivity. Qed.

(** ** A witness *)

(** A dashboard and a gate are connected, an operator asks for an opening, and
    the signal comes before either has been sent it. *)
Definition shutdown_args : ServerArgs := mkServerArgs None (Some "s") None None None None false.
Definition shutdown_env : ServerEnv :=
  mkServerEnv (fun _ => None) (fun _ => inr (inr Db_empty)) (fun _ => Some 50051)
    ([RSubscribe 7 (mkFilter "" [] false false false false 0); RSubscribeDrain 7 []]
       ++ connect 0
       ++ [RCall 1 sample_env (CallIssue (latch_command ControlClient.COMMAND_KIND_OPEN_GATE)); RPub 1 60])
    [RControlWrite 0 false true; RSubscribeTurn 7 false true; RSubscribeTurn 7 false true;
     RControlWrite 0 false true; RPub 1 60; RSubscribeTurn 7 false true].

