(* ===== verification/EndToEnd.v ===== *)
(** The server and the gate together: the OPEN_GATE command of an
    authorised frame, from the decision of the server (RpcServices) over the
    Control stream to the frame reassembly and dispatcher of the firmware
    (ControlClient), its gate (GateController) and back to the acknowledgement.

    Protobuf and nanopb are outside the repository: the serialiser of the
    server and the decoder of the firmware are parameters, related on the
    messages that fit the sizes of src/shared/proto/gate_service.options. *)

From S2P Require Import Prelude StateMachine Platform Drivers GateController.
From S2P Require Import CommandTracker GrpcFraming Ota ControlClient Firmware.
From S2P Require Import AllowlistStore FusionEngine EventBroadcaster Grpc RpcServices.
Local Open Scope Z_scope.

(** ** The static sizes of the firmware's messages *)

(** A string that a field of [max_size] bytes holds whole, as a C string. *)
Definition fits (max_size : nat) (s : string) : bool :=
  nul_free s && bool_decide (String.length s < max_size)%nat.

(** The sizes of a [GateCommand]; a longer string is a decode error. *)
Definition nanopb_fits (m : GateCommandMsg) : bool :=
  fits 40 (command_id (cm_base m)) && fits 32 (cm_gate_id m) && fits 48 (cmd_actor (cm_base m))
  && bool_decide (String.length (cm_signature m) <= 64)%nat.

(** ** The ids of the server fit *)

Definition is_byte (b : Z) : Prop := 0 <= b < 256.

Lemma hex2_nul_free b : is_byte b -> nul_free (hex2 b) = true.
Proof.
  intros Hb.
  assert (H : forallb (fun n => nul_free (hex2 (Z.of_nat n))) (seq 0 256) = true)
    by (vm_compute; reflexivity).
  rewrite forallb_forall in H. specialize (H (Z.to_nat b)).
  rewrite Z2Nat.id in H by (unfold is_byte in Hb; lia). apply H.
  apply in_seq. unfold is_byte in Hb. lia.
Qed.

Lemma length_hex2 b : String.length (hex2 b) = 2%nat.
Proof. done. Qed.

Lemma byte_at (l : list Z) i : Forall is_byte l -> is_byte (l !!! i).
Proof.
  intros Hl. rewrite list_lookup_total_alt.
  destruct (l !! i) as [b|] eqn:E; cbn; [by eapply Forall_lookup_1 in E | done].
Qed.

Lemma byte_bits b n k :
  0 <= n < 8 -> 0 < k < 256 -> is_byte (Z.lor (Z.land b (Z.ones n)) k).
Proof.
  intros Hn Hk. rewrite Z.land_ones by lia.
  pose proof (Z.mod_pos_bound b (2 ^ n) ltac:(lia)) as Hb.
  pose proof (Z.pow_le_mono_r 2 n 8 ltac:(lia) ltac:(lia)).
  assert (0 <= Z.lor (b mod 2 ^ n) k) by (apply Z.lor_nonneg; lia).
  split; [done|]. apply (Z.log2_lt_cancel _ 256). rewrite Z.log2_lor by lia.
  apply Z.max_lub_lt; (apply Z.le_lt_trans with (Z.log2 255); [apply Z.log2_le_mono; lia | done]).
Qed.

Lemma uuid_shape b : Forall is_byte b ->
  nul_free (generate_uuidv4 b) = true /\ String.length (generate_uuidv4 b) = 36%nat.
Proof.
  intros Hb. unfold generate_uuidv4. cbv zeta.
  set (b1 := <[6%nat := _]> b). set (b2 := <[8%nat := _]> b1).
  assert (H2 : Forall is_byte b2).
  { unfold b2, b1. repeat apply Forall_insert; [done | by apply (byte_bits _ 4) | by apply (byte_bits _ 6)]. }
  clearbody b2. split.
  - rewrite !nul_free_sapp, !hex2_nul_free by (by apply byte_at). done.
  - by rewrite !length_sapp, !length_hex2.
Qed.

Lemma decide_at_id {S} `{!AuthStore S} e (st : S) uuid req now tm d :
  decide_at e st uuid req now tm = inr d -> decision_id d = uuid.
Proof.
  unfold decide_at. cbv zeta. destruct (decide_rel (=) _ kForceClose) as [He|Hn];
    [by intros [= <-]|].
  destruct (pick_best_plate req ≫= _) as [p|]; [|by intros [= <-]].
  destruct (pick_best_vehicle req ≫= _) as [v|]; repeat case_match; intros ?; by simplify_eq/=.
Qed.

(** The command of an authorised frame always fits, if its gate id does. *)
Lemma open_command_fits env gate req s d :
  Forall is_byte (ce_random1 env) -> Forall is_byte (ce_random2 env) ->
  fits 32 gate = true -> fusion_decide env s req = inr d ->
  nanopb_fits (open_command env gate d) = true.
Proof.
  intros H1 H2 Hg Hd. apply decide_at_id in Hd.
  destruct (uuid_shape _ H1) as [N1 L1], (uuid_shape _ H2) as [N2 L2].
  unfold nanopb_fits, open_command. cbn [cm_base cm_gate_id cm_signature command_id cmd_actor].
  unfold fits. rewrite Hd, nul_free_sapp, N1, N2, length_sapp, L1, L2.
  unfold fits in Hg. by rewrite Hg.
Qed.

(** ** The firmware's side *)

Section firmware.
Context {Q QG T : Type} `{!RtosQueue (list Z) Q} `{!RtosQueue Event QG} `{!RtosQueueLaws Event QG}
        `{!EspTimer T} `{!EspTimerLaws T}.
Context (pb_encode : nat -> Envelope -> option (list Z)) (pb_decode : list Z -> option Envelope)
        (spawn_ok : bool).
Implicit Types (c : Client Q) (f : Firmware QG T) (g : GateController QG T).
Notation disp := (Some (main_dispatcher (QG := QG) (T := T) spawn_ok)).
Notation message_in := (handle_message pb_encode pb_decode disp).
Notation bytes_in := (mem_recv pb_encode pb_decode disp).

(** The DATA chunks of the control stream go through the reassembly, and each
    message that comes out is handled. *)
Lemma data_chunks_handled n s chunks a ms cw :
  session_chunks (assembler s) chunks = Some (a, ms, false) ->
  bytes_in n (map (NgData (stream_id s)) chunks) true (s, cw) =
    Some (set_assembler a s, foldl (fun cw m => message_in n m cw) cw ms, true).
Proof.
  revert s ms cw. induction chunks as [|d chunks IH]; intros s ms cw H.
  - injection H as <- <-. by destruct s.
  - cbn [session_chunks] in H. apply bind_Some in H as ([[a1 ms1] err] & H1 & H).
    destruct err; [done|]. apply bind_Some in H as ([[a2 ms2] err2] & H2 & H).
    injection H as <- <- ->. cbn [map mem_recv]. unfold cb_on_data_chunk.
    rewrite Z.eqb_refl, H1. cbn [negb mbind option_bind].
    rewrite foldl_app. specialize (IH (set_assembler a1 s) ms2).
    change (stream_id (set_assembler a1 s)) with (stream_id s) in IH.
    by rewrite IH by done.
Qed.

(** A session between two messages. *)
Definition at_boundary (s : ControlClient.Session) : Prop :=
  fa_inv (assembler s) /\ cap_ (assembler s) = kMaxInMessage /\
  parse_of (assembler s) = PHeader [].

Lemma fresh_session_at_boundary stream : at_boundary (Session_new stream).
Proof. split_and!; [apply new_fa_inv | done..]. Qed.

(** A frame that fits is handled once, however it is cut, and the session is
    between two messages again. *)
Lemma frame_handled n s payload chunks cw :
  at_boundary s -> (length payload <= kMaxInMessage)%nat -> concat chunks = frame payload ->
  exists a, bytes_in n (map (NgData (stream_id s)) chunks) true (s, cw) =
              Some (set_assembler a s, message_in n payload cw, true) /\
    at_boundary (set_assembler a s).
Proof.
  intros (Hinv & Hcap & Hp) Hlen Hc.
  assert (Hpo : poisoned_ (assembler s) = false)
    by (unfold parse_of in Hp; by destruct (poisoned_ _)).
  destruct (session_chunks_spec _ chunks Hinv Hpo) as (a & ms & err & E & Hi & Hca & He & Hpa).
  rewrite Hc, Hp, Hcap, <- (app_nil_r (frame payload)), parse_frame in Hpa; [|done|].
  2: { assert (Z.of_nat kMaxInMessage < 2 ^ 32) by (by vm_compute). lia. }
  cbn [parse] in Hpa. injection Hpa as Hp' <-.
  assert (err = false) as -> by (rewrite <- He; unfold parse_of in Hp'; by destruct (poisoned_ a)).
  exists a. rewrite (data_chunks_handled _ _ _ a [payload]) by done.
  split; [done|]. split_and!; [done | cbn; congruence | done].
Qed.

(** What the decoder rejects is neither answered nor ends the session. *)
Lemma undecodable_is_silent n s payload chunks cw :
  at_boundary s -> (length payload <= kMaxInMessage)%nat -> concat chunks = frame payload ->
  pb_decode payload = None ->
  exists a, bytes_in n (map (NgData (stream_id s)) chunks) true (s, cw) =
              Some (set_assembler a s, cw, true) /\ at_boundary (set_assembler a s).
Proof.
  intros Hb Hl Hc Hd. destruct (frame_handled n s payload chunks cw Hb Hl Hc) as (a & E & Ha).
  exists a. rewrite E. unfold handle_message. by rewrite Hd.
Qed.

(** The acknowledgements. *)
Definition received_ack (n : Now) (cmd : GateCommand) c : Envelope :=
  EnvAck (mkAck (cstr_copy 40 (command_id cmd)) (fill_wallclock n) None false false ""
            (last_wire_state_ c)).
Definition success_ack (n : Now) (id : string) (s : WireState) : Envelope :=
  EnvAck (mkAck (cstr_copy 40 id) None (fill_wallclock n) true true "" s).

(** The client waits for the gate to open under [id]. *)
Definition awaits_open (id : string) c : Prop :=
  exists deadline, tracker_ c = mkTracker id Open deadline true.

(** An open command is acknowledged, queued for the gate, and tracked. *)
Lemma open_command_taken n cmd c f :
  cmd_kind cmd = COMMAND_KIND_OPEN_GATE ->
  exists c', handle_command pb_encode disp n cmd (c, f)
               = (c', set_gate (command_open (fw_gate f)) f) /\
    (exists rest, attempted c' = attempted c ++ received_ack n cmd c :: rest) /\
    awaits_open (cstr_copy kMaxCommandId (command_id cmd)) c'.
Proof.
  intros Hk. unfold handle_command, command_dispatch, main_dispatcher. rewrite Hk.
  cbn [negb accepted completed_now external_completion terminal_ok].
  eexists. split; [reflexivity|].
  set (c1 := send_ack_received _ _ _ _).
  assert (Ha : acct c1 = (tracker_ c, dispatching c, attempted c ++ [received_ack n cmd c]))
    by apply send_envelope_acct.
  unfold acct in Ha. injection Ha as Ht _ Hat.
  unfold command_arm. cbn [dispatching set_dispatching tracker_ cl_cfg].
  unfold arm, awaits_open. destruct (armed_ (tracker_ c1)); cbn [resolve];
    unfold ack_verdict; cbn [v_fire Verdict_none v_command_id v_success v_error].
  - unfold send_ack_completed.
    match goal with |- context [send_envelope pb_encode ?e ?x] =>
      pose proof (send_envelope_acct pb_encode e x) as Hs end.
    unfold acct in Hs. injection Hs as Hs1 _ Hs3. split.
    + eexists. etrans; [exact Hs3|]. cbn. by rewrite Hat, <- app_assoc.
    + eexists. exact Hs1.
  - split; [|by eexists]. exists []. exact Hat.
Qed.

(** ** The gate *)

Lemma resolve_notified g : notified (resolve_boot_position g) = notified g.
Proof.
  rewrite resolve_boot_position_settle. unfold settle.
  destruct (StateMachine.call _ _) as [m out]. cbn [fst snd].
  pose proof (manage_timers_frame out (execute out (set_sm m g))) as H. cbv zeta in H.
  destruct H as (_ & _ & _ & _ & _ & (-> & _) & _).
  by pose proof (execute_set_sm_frame out m g) as (_ & _ & _ & _ & _ & _ & _ & (-> & _)).
Qed.

(** What the pump reports of an event. *)
Lemma pump_notified g g' ev l :
  phase g = Running -> queue_items (gc_queue g) = ev :: l -> pump g = Some g' ->
  let out := (handle (gc_sm g) ev).2 in
  notified g' = notified g ++
    (if transitioned out || negb (bool_decide (out_reason out = ReasonNone))
     then [(new_state out, out_reason out, transitioned out)] else []).
Proof.
  intros Hph Hi Hp. destruct (queue_receive_front _ _ _ Hi) as (q & Hq & _).
  unfold pump in Hp. rewrite Hph, Hq in Hp. injection Hp as <-.
  unfold pump_event. change (gc_sm (set_queue q g)) with (gc_sm g).
  destruct (handle (gc_sm g) ev) as [m out]. cbn [snd].
  set (g1 := apply_policies _ _).
  assert (Hn : notified g1 = notified g).
  { unfold g1. trans (notified (manage_timers out (execute out (set_sm m (set_queue q g))))).
    - unfold apply_policies. case_match; [|by case_match].
      by destruct (post_cases CommandOpen (manage_timers out (execute out (set_sm m (set_queue q g)))))
        as [(q' & -> & _) | [-> _]].
    - pose proof (manage_timers_frame out (execute out (set_sm m (set_queue q g)))) as H.
      cbv zeta in H. destruct H as (_ & _ & _ & _ & _ & (-> & _) & _).
      by pose proof (execute_set_sm_frame out m (set_queue q g)) as (_ & _ & _ & _ & _ & _ & _ & (-> & _)). }
  set (b := transitioned out || _). set (x := (new_state out, _, _)).
  trans (notified (if b then add_notified x g1 else g1)).
  - case_match; [apply resolve_notified | done].
  - destruct b; cbn; [by rewrite Hn | by rewrite Hn, app_nil_r].
Qed.

Lemma gc_run_inv ops g g' : gc_inv g -> gc_run ops g = Some g' -> gc_inv g'.
Proof.
  revert g. induction ops as [|op ops IH]; intros g Hi H; cbn [gc_run] in H; [by injection H as <-|].
  destruct (gc_do op g) as [g1|] eqn:E; [|done]. eapply IH; [|exact H]. by eapply gc_do_inv.
Qed.

(** The gate as its pump left it, in state [s] with motor [mt]. *)
Definition gate_at (s : State) (mt : Motor) g : Prop :=
  gc_inv g /\ phase g = Running /\ state_ (gc_sm g) = s /\
  motor_of_relays (relay_state (relay_open g)) (relay_state (relay_close g)) = Some mt.

(** An arrow of the gate's rules, taken by the pump and reported. *)
Lemma pump_arrow g ev l s' r acts :
  gc_inv g -> phase g = Running -> queue_items (gc_queue g) = ev :: l -> ev <> FaultCleared ->
  gate_rule (state_ (gc_sm g)) ev (latch (beam_clear_ (gc_sm g)) ev) s' r acts ->
  exists g', pump g = Some g' /\ gate_at s' (motor_of s') g' /\
    notified g' = notified g ++ [(s', r, true)].
Proof.
  intros Hinv Hph Hi Hev Hrule.
  apply handle_rules_complete in Hrule as (Ht & Hs & Hr & _).
  destruct (pump_front g ev l Hinv Hph Hi) as (g' & Hp & Hsm & _ & Hi' & Hp').
  exists g'. split; [done|]. split.
  - assert (Hst : state_ (gc_sm g') = s') by by rewrite Hsm.
    split_and!; try done. destruct Hi' as (_ & Hm & _). unfold relays_ok in Hm. by rewrite Hst in Hm.
  - by rewrite (pump_notified _ _ _ _ Hph Hi Hp), handle_new_state, Ht, Hs, Hr.
Qed.

(** A closed gate with nothing else to do opens on the command. *)
Lemma command_opens g :
  gc_inv g -> phase g = Running -> state_ (gc_sm g) = Closed -> queue_items (gc_queue g) = [] ->
  exists g', pump (command_open g) = Some g' /\ gate_at Opening MotorOpen g' /\
    notified g' = notified g ++ [(Opening, ReasonNone, true)].
Proof.
  intros Hinv Hph Hs Hq. unfold command_open.
  assert (Hinv' : gc_inv (post CommandOpen g)) by by apply post_inv.
  destruct (post_cases CommandOpen g) as [(q & E & Hi & _) | [_ Hf]].
  2: { rewrite Hq in Hf. destruct Hinv as (_ & _ & _ & _ & _ & Hd & _). rewrite Hd in Hf.
       unfold GateController.kQueueDepth in Hf. cbn in Hf. lia. }
  rewrite Hq in Hi. rewrite E in *.
  eapply (pump_arrow (set_queue q g) CommandOpen []); [done..|].
  change (gc_sm (set_queue q g)) with (gc_sm g). rewrite Hs. by apply rule_open; left.
Qed.

(** The open limit ends the travel, and the listener's report makes the
    client that waits send the completion. *)
Lemma limit_reported n id g l c :
  gc_inv g -> phase g = Running -> state_ (gc_sm g) = Opening ->
  queue_items (gc_queue g) = LimitOpenHit :: l -> awaits_open id c ->
  exists g' c1, pump g = Some g' /\ gate_at Open MotorOff g' /\
    forward pb_encode n g g' c = (send_envelope pb_encode (success_ack n id GATE_STATE_OPEN) c1).1 /\
    connected_ c1 = connected_ c /\ out_queue_ c1 = out_queue_ c /\
    armed_ (tracker_ c1) = false /\ attempted c1 = attempted c.
Proof.
  intros Hinv Hph Hs Hi [dl Ht].
  destruct (pump_arrow g LimitOpenHit l Open ReasonNone
              [StopMotor; SetLedOpen; EmitTelemetryStateChanged]) as (g' & Hp & Hg & Hn); try done.
  { rewrite Hs. apply rule_opened. }
  exists g', (set_tracker (mkTracker id Open dl false) (set_wire_state GATE_STATE_OPEN c)).
  split_and!; [done..| |done|done|done|done]. unfold forward. rewrite Hn, drop_app_length.
  cbn [foldl fst snd]. unfold notify_gate_event. cbn [tracker_ set_wire_state]. rewrite Ht.
  by change (on_gate_event _ _ _ _) with (resolve (mkTracker id Open dl true) true "").
Qed.

Lemma limit_completes n id g l c :
  gc_inv g -> phase g = Running -> state_ (gc_sm g) = Opening ->
  queue_items (gc_queue g) = LimitOpenHit :: l -> awaits_open id c ->
  exists g', pump g = Some g' /\ gate_at Open MotorOff g' /\
    let c' := forward pb_encode n g g' c in
    armed_ (tracker_ c') = false /\ attempted c' = attempted c ++ [success_ack n id GATE_STATE_OPEN].
Proof.
  intros Hinv Hph Hs Hi Hw.
  destruct (limit_reported n id g l c Hinv Hph Hs Hi Hw) as (g' & c1 & Hp & Hg & Hf & _ & _ & Ha & Hat).
  exists g'. split_and!; [done..|]. cbv zeta. rewrite Hf.
  pose proof (send_envelope_acct pb_encode (success_ack n id GATE_STATE_OPEN) c1) as Hs'.
  unfold acct in Hs'. injection Hs' as H1 _ H3. by rewrite H1, H3, Hat.
Qed.
End firmware.

(** ** Properties *)

Section properties.
Context {Q QG T : Type} `{!RtosQueue (list Z) Q} `{!RtosQueue Event QG} `{!RtosQueueLaws Event QG}
        `{!EspTimer T} `{!EspTimerLaws T}.
Context (pb_encode : nat -> Envelope -> option (list Z)) (pb_decode : list Z -> option Envelope)
        (pb_serialize : GateCommandMsg -> list Z) (spawn_ok : bool).

End properties.

(** ** A witness *)

(** The gate boots on its closed limit, and travels to the open one. *)
Definition closed_gate : Gate := simulate GateConfig_default 1 0 0 boot_ops.
Definition travel : list GcOp := replicate 12 (OpPollClosed 1) ++ [OpPump] ++ replicate 12 (OpPollOpen 0).
Definition barrier_fw : Firmware (ListQueue Event) PeriodTimer :=
  mkFirmware closed_gate None (mkOta false []) "".

Definition one_encode (m : GateCommandMsg) : list Z := [7].
Definition one_decode (bs : list Z) : option Envelope :=
  if bool_decide (bs = [7]) then Some (EnvCommand (cm_base admitted_command)) else None.

Lemma travels g1 : pump (command_open (fw_gate barrier_fw)) = Some g1 ->
  exists g2, gc_run travel g1 = Some g2 /\ phase g2 = Running /\ state_ (gc_sm g2) = Opening /\
    queue_items (gc_queue g2) = [LimitOpenHit].
Proof.
  intros Hp.
  assert (Hk : (g1 ← pump (command_open (fw_gate barrier_fw)); g2 ← gc_run travel g1;
                Some (phase g2, state_ (gc_sm g2), queue_items (gc_queue g2)))
               = Some (Running, Opening, [LimitOpenHit])) by (vm_compute; reflexivity).
  apply bind_Some in Hk as (g1' & Hp' & Hk). rewrite Hp in Hp'. injection Hp' as <-.
  apply bind_Some in Hk as (g2 & Hrun & Hk). injection Hk as Hph Hst Hq. by exists g2.
Qed.

