(* ===== verification/Causality.v ===== *)
(** Why the barrier opens: every time the opening contactor is energised is
    paid for, first in the gate controller (by an open command or by the
    reversal after a beam break), then over runs of the firmware's board (by
    an OPEN_GATE message that a session delivered), then against the server
    (by a decision that authorises the gate, or an operator).

    A board run is a list of labels, one per activity of the firmware's tasks;
    each projects to the operations of its gate. *)

From S2P Require Import Prelude StateMachine Platform Drivers GateController.
From S2P Require Import CommandTracker GrpcFraming Ota ControlClient Firmware.
From S2P Require Import AllowlistStore FusionEngine EventBroadcaster Grpc RpcServices EndToEnd.
Local Open Scope Z_scope.

(** ** Counting *)

Definition tally {A} (P : A -> bool) (l : list A) : nat := length (List.filter P l).

#[global] Arguments tally : simpl never.

Lemma tally_nil {A} (P : A -> bool) : tally P [] = O.
Proof. done. Qed.

Lemma tally_app {A} (P : A -> bool) l1 l2 : tally P (l1 ++ l2) = (tally P l1 + tally P l2)%nat.
Proof. unfold tally. by rewrite List.filter_app, length_app. Qed.

Lemma tally_cons {A} (P : A -> bool) x l : tally P (x :: l) = (Nat.b2n (P x) + tally P l)%nat.
Proof. unfold tally. cbn. by destruct (P x). Qed.

Lemma tally_elem {A} (P : A -> bool) l : (0 < tally P l)%nat -> exists x, x ∈ l /\ P x = true.
Proof.
  induction l as [|x l IH]; [unfold tally; cbn; lia|]. rewrite tally_cons. destruct (P x) eqn:E.
  - intros _. exists x. split; [by left | done].
  - intros (y & Hy & Hp)%IH. exists y. split; [by right | done].
Qed.

Lemma tally_zero {A} (P : A -> bool) l : Forall (fun x => P x = false) l -> tally P l = O.
Proof. induction 1 as [|x l Hx _ IH]; [done|]. by rewrite tally_cons, Hx, IH. Qed.

(** ** The gate's account *)

Definition is_open_event (ev : Event) : bool := bool_decide (ev = CommandOpen).
Definition is_open_drive (a : Action) : bool := bool_decide (a = DriveMotorOpen).
Definition energises (p : Pins) (w : GpioWrite) : bool := bool_decide (w = (pin_relay_open p, 1)).

(** A stop for an obstacle, as the listener hears of it. *)
Definition is_obstacle (n : State * Reason * bool) : bool :=
  bool_decide (n = (StoppedClose, SafetyBeamObstacle, true)).

Section gate.
Context {Q T : Type} `{!RtosQueue Event Q} `{!RtosQueueLaws Event Q}
        `{!EspTimer T} `{!EspTimerLaws T}.
Implicit Types g : GateController Q T.

(** The times the opening contactor was energised, the open commands that
    wait, and the stops for an obstacle. *)
Definition energised g : nat := tally (energises (gcfg_pins (gc_cfg g))) (gpio_log g).
Definition waiting g : nat := tally is_open_event (queue_items (gc_queue g)).
Definition obstacles g : nat := tally is_obstacle (notified g).

(** *** The outputs *)

Lemma write_not_open p pin l : pin <> pin_relay_open p -> energises p (pin, l) = false.
Proof. intros H. apply bool_decide_eq_false. congruence. Qed.

Lemma write_open_on p : energises p (pin_relay_open p, 1) = true.
Proof. by apply bool_decide_eq_true. Qed.
Lemma write_open_off p : energises p (pin_relay_open p, 0) = false.
Proof. by apply bool_decide_eq_false. Qed.

Lemma led_energises p r gr y : pins_distinct p ->
  tally (energises p)
    (set_color (mkLedConfig (pin_led_red p) (pin_led_green p) (pin_led_yellow p) true) r gr y) = O.
Proof.
  unfold pins_distinct. rewrite !NoDup_cons. intros Hd. apply tally_zero. unfold set_color.
  repeat constructor; apply write_not_open; cbn; set_solver.
Qed.

Lemma render_led_energised p g :
  pins_distinct (gcfg_pins (gc_cfg g)) -> wiring_ok g -> energised (render_led p g) = energised g.
Proof.
  intros Hd (_ & _ & Hl). unfold energised, render_led.
  destruct (render_effect p (led g)) as [_ Hw]. destruct (render p (led g)) as [l w]. cbn in *.
  rewrite tally_app. destruct Hw as [-> | ->]; [unfold tally; cbn; lia|]. rewrite Hl, led_energises by done. lia.
Qed.

Lemma led_tick_energised g :
  pins_distinct (gcfg_pins (gc_cfg g)) -> wiring_ok g -> energised (led_tick g) = energised g.
Proof.
  intros Hd (_ & _ & Hl). unfold energised, led_tick.
  destruct (on_tick_effect (led g)) as [_ (r & gr & y & Hw)]. destruct (Drivers.on_tick (led g)) as [l w].
  cbn in *. rewrite tally_app, Hw, Hl, led_energises by done. lia.
Qed.

Lemma execute_action_energised g a :
  pins_distinct (gcfg_pins (gc_cfg g)) -> wiring_ok g ->
  energised (execute_action g a) = (energised g + Nat.b2n (is_open_drive a))%nat.
Proof.
  intros Hd Hw.
  destruct a; try (change (is_open_drive _) with false; rewrite Nat.add_0_r;
                   (done || by apply render_led_energised)).
  all: destruct Hw as (H1 & H2 & _); unfold energised; cbn -[energises app write_gpio];
    rewrite H1, H2, !tally_app; unfold write_gpio; cbn -[energises]; rewrite !tally_cons, !tally_nil.
  all: rewrite (write_not_open _ (pin_relay_close _))
    by (unfold pins_distinct in Hd; rewrite !NoDup_cons in Hd; set_solver).
  all: rewrite ?write_open_on, ?write_open_off; change (is_open_drive DriveMotorOpen) with true;
    try (change (is_open_drive _) with false); cbn; lia.
Qed.

Lemma execute_energised out g :
  pins_distinct (gcfg_pins (gc_cfg g)) -> elec_ok g ->
  energised (execute out g) = (energised g + tally is_open_drive (emitted out))%nat.
Proof.
  intros Hd Hok. unfold execute.
  change (energised (set_snapshots ?a ?b ?g)) with (energised g).
  generalize (emitted out) as l. intros l. revert g Hd Hok.
  induction l as [|a l IH]; intros g Hd Hok; [unfold tally; cbn; lia|]. cbn [foldl].
  rewrite IH; [|by rewrite (core_cfg _ _ (execute_action_core g a)) | by apply execute_action_elec].
  rewrite execute_action_energised, tally_cons by apply Hd || apply Hok. lia.
Qed.

Lemma settle_energised out m g :
  pins_distinct (gcfg_pins (gc_cfg g)) -> elec_ok g ->
  energised (settle out m g) = (energised g + tally is_open_drive (emitted out))%nat.
Proof.
  intros Hd Hok. unfold settle.
  pose proof (manage_timers_frame out (execute out (set_sm m g))) as H. cbv zeta in H.
  destruct H as (Hc & _ & _ & _ & _ & _ & _ & _ & _ & Hg & _).
  transitivity (energised (execute out (set_sm m g))); [unfold energised; by rewrite Hc, Hg|].
  by rewrite execute_energised.
Qed.

(** Only an open command drives the gate open. *)
Lemma handle_drives m ev :
  (tally is_open_drive (emitted (handle m ev).2) <= Nat.b2n (is_open_event ev))%nat.
Proof. sm_eval m; destruct ev; vm_compute; lia. Qed.

Lemma call_drives g :
  tally is_open_drive (emitted (StateMachine.call (gc_sm g) (resolve_call g)).2) = O.
Proof. unfold resolve_call. by repeat case_match. Qed.

(** *** The operations *)

(** What the pump leaves in the queue. *)
Lemma pump_queue g g' ev l :
  gc_inv g -> phase g = Running -> queue_items (gc_queue g) = ev :: l -> pump g = Some g' ->
  queue_items (gc_queue g') = l ++ policy_event (gc_cfg g) (handle (gc_sm g) ev).2.
Proof.
  intros (_ & _ & _ & _ & _ & Hd & Hl & _) Hph Hi Hp.
  destruct (queue_receive_front _ _ _ Hi) as (q & Hq & Hqi & Hqd).
  unfold pump in Hp. rewrite Hph, Hq in Hp. injection Hp as <-. unfold pump_event.
  change (gc_sm (set_queue q g)) with (gc_sm g). destruct (handle (gc_sm g) ev) as [m out]. cbn [snd].
  fold (settle out m (set_queue q g)).
  pose proof (settle_frame out m (set_queue q g)) as (F1 & _ & F3 & _). cbn in F1, F3.
  pose proof (apply_policies_frame out (settle out m (set_queue q g))) as (_ & A2 & _).
  rewrite Hi in Hl. cbn [length] in Hl. rewrite F1, F3, Hqi, Hqd, Hd in A2.
  specialize (A2 ltac:(lia)). set (g1 := apply_policies _ _) in *.
  destruct (_ && bool_decide (new_state out = Initializing)).
  - rewrite resolve_boot_position_settle.
    etrans; [apply (f_equal queue_items), settle_frame|]. by destruct (_ || _).
  - by destruct (_ || _).
Qed.

Lemma pump_energised g g' ev l :
  pins_distinct (gcfg_pins (gc_cfg g)) -> elec_ok g ->
  phase g = Running -> queue_items (gc_queue g) = ev :: l -> pump g = Some g' ->
  (energised g' <= energised g + Nat.b2n (is_open_event ev))%nat.
Proof.
  intros Hd Hok Hph Hi Hp. destruct (queue_receive_front _ _ _ Hi) as (q & Hq & _).
  unfold pump in Hp. rewrite Hph, Hq in Hp. injection Hp as <-. unfold pump_event.
  change (gc_sm (set_queue q g)) with (gc_sm g).
  pose proof (handle_drives (gc_sm g) ev) as Hdr. destruct (handle (gc_sm g) ev) as [m out].
  cbn [snd] in Hdr. fold (settle out m (set_queue q g)).
  assert (Hs : energised (settle out m (set_queue q g))
               = (energised g + tally is_open_drive (emitted out))%nat)
    by (by apply (settle_energised out m (set_queue q g))).
  assert (Hse : elec_ok (settle out m (set_queue q g))) by (by apply settle_elec).
  pose proof (apply_policies_elec out (settle out m (set_queue q g))) as He.
  set (g1 := apply_policies out _) in *.
  set (g2 := if transitioned out || _ then _ else _).
  assert (He2 : elec g2 = elec (settle out m (set_queue q g)))
    by (rewrite <- He; unfold g2; by destruct (_ || _)).
  assert (H2 : energised g2 = energised (settle out m (set_queue q g))).
  { unfold elec in He2. injection He2 as Hc _ _ _ Hw. unfold energised. by rewrite Hc, Hw. }
  case_match; [|lia].
  rewrite resolve_boot_position_settle, settle_energised, call_drives; [lia | |].
  - rewrite (elec_cfg _ _ He2). by rewrite (proj1 (settle_frame _ _ _)).
  - by eapply elec_ok_ext.
Qed.

(** Operations other than the pump and the open command only queue events
    that are no open command. *)
Definition only_queues g g' : Prop :=
  gpio_log g' = gpio_log g /\ gc_cfg g' = gc_cfg g /\ notified g' = notified g /\ waiting g' = waiting g.

Lemma post_only_queues ev g : ev <> CommandOpen -> only_queues g (post ev g).
Proof.
  intros Hev. unfold only_queues, waiting.
  destruct (post_cases ev g) as [(q & -> & Hi & _) | [-> _]]; split_and!; try done; cbn.
  rewrite Hi, tally_app, tally_cons, tally_nil. unfold is_open_event.
  rewrite bool_decide_eq_false_2 by done. cbn. lia.
Qed.

Lemma edge_only_queues ev g : ev <> CommandOpen -> only_queues g (edge ev g).
Proof. intros Hev. unfold edge. destruct (phase g); try done. by apply post_only_queues. Qed.

(** The account: what was energised and what waits, less the obstacles. *)
Definition settled (n : nat) g : Prop := (energised g + waiting g <= n + obstacles g)%nat.

Lemma only_queues_settled n g g' : only_queues g g' -> settled n g -> settled n g'.
Proof.
  intros (H1 & H2 & H3 & H4) Hn. unfold settled, energised, obstacles in *. by rewrite H1, H2, H3, H4.
Qed.

Lemma energised_settled n g g' :
  energised g' = energised g -> gc_queue g' = gc_queue g -> notified g' = notified g ->
  settled n g -> settled n g'.
Proof. intros H1 H2 H3 Hn. unfold settled, waiting, obstacles in *. by rewrite H1, H2, H3. Qed.

Lemma pump_settled n g g' :
  pins_distinct (gcfg_pins (gc_cfg g)) -> gc_inv g -> elec_ok g ->
  pump g = Some g' -> settled n g -> settled n g'.
Proof.
  intros Hd Hinv Hok Hp Hn. assert (phase g = Running) as Hph.
  { unfold pump in Hp. by destruct (phase g). }
  destruct (queue_items (gc_queue g)) as [|ev l] eqn:Hi.
  { unfold pump in Hp. rewrite Hph, queue_receive_empty in Hp by done. by injection Hp as <-. }
  pose proof (pump_energised g g' ev l Hd Hok Hph Hi Hp) as He.
  pose proof (pump_queue g g' ev l Hinv Hph Hi Hp) as Hq.
  pose proof (pump_notified g g' ev l Hph Hi Hp) as Hr. cbv zeta in Hr.
  unfold settled, waiting, obstacles in *. rewrite Hi, tally_cons in Hn.
  rewrite Hq, Hr, !tally_app. set (out := (handle (gc_sm g) ev).2) in *.
  enough (tally is_open_event (policy_event (gc_cfg g) out) <=
          tally is_obstacle (if transitioned out || negb (bool_decide (out_reason out = ReasonNone))
            then [(new_state out, out_reason out, transitioned out)] else []))%nat by lia.
  unfold policy_event. destruct (reverse_on_beam (gc_cfg g)); [|cbn; rewrite tally_nil; lia].
  destruct (transitioned out); [|cbn; rewrite tally_nil; lia].
  destruct (decide (new_state out = StoppedClose)) as [->|Hs];
    [|rewrite (bool_decide_eq_false_2 _ Hs); cbn; rewrite tally_nil; lia].
  destruct (decide (out_reason out = SafetyBeamObstacle)) as [->|Ho];
    [|rewrite (bool_decide_eq_false_2 _ Ho), andb_false_r; rewrite tally_nil; lia].
  done.
Qed.

Definition asks_open (op : GcOp) : bool := match op with OpCommandOpen => true | _ => false end.

Lemma gc_do_settled n op g g' :
  pins_distinct (gcfg_pins (gc_cfg g)) -> gc_inv g -> elec_ok g -> gc_do op g = Some g' ->
  settled n g -> settled (n + Nat.b2n (asks_open op)) g'.
Proof.
  intros Hd Hinv Hok Hdo Hn.
  destruct op; cbn [asks_open Nat.b2n]; rewrite ?Nat.add_0_r; cbn [gc_do] in Hdo;
    try (injection Hdo as <-);
    try (apply (only_queues_settled n g); [by apply post_only_queues | done]).
  - apply (only_queues_settled n g); [|done]. unfold start_call. by destruct (phase g).
  - unfold start_continue. destruct (phase g); try done.
    + apply (only_queues_settled n g); [|done]. by destruct (SafetyBeam_is_blocked (beam g)).
    + apply (energised_settled n g); [| | |done].
      * change (energised (set_phase ?p ?g)) with (energised g).
        rewrite resolve_boot_position_settle, settle_energised, call_drives by done. lia.
      * cbn. rewrite resolve_boot_position_settle. apply settle_frame.
      * apply resolve_notified.
  - unfold settled, command_open, waiting, energised, obstacles in *.
    destruct (post_cases CommandOpen g) as [(q & -> & Hi & _) | [-> _]]; cbn in *; [|lia].
    rewrite Hi, tally_app, tally_cons, tally_nil. change (is_open_event CommandOpen) with true. cbn. lia.
  - apply (energised_settled n g); [by apply render_led_energised, Hok| | |done].
    + exact (f_equal (fun x => x.1.1.1.1.1.2) (render_led_core p g)).
    + exact (f_equal (fun x => x.2.1.1) (render_led_core p g)).
  - case_match; [|done]. injection Hdo as <-. apply (energised_settled n g);
      [by apply led_tick_energised, Hok | | |done]; unfold led_tick; by destruct (Drivers.on_tick (led g)).
  - unfold poll_limit_open.
    destruct (LimitSwitch_on_poll _ _ _) as [d [[]|]]; [..|exact Hn];
      (eapply only_queues_settled; [by apply edge_only_queues | exact Hn]).
  - unfold poll_limit_closed.
    destruct (LimitSwitch_on_poll _ _ _) as [d [[]|]]; [..|exact Hn];
      (eapply only_queues_settled; [by apply edge_only_queues | exact Hn]).
  - unfold poll_beam.
    destruct (SafetyBeam_on_poll _ _ _) as [d [[]|]]; [..|exact Hn];
      (eapply only_queues_settled; [by apply edge_only_queues | exact Hn]).
  - unfold watchdog_fires in Hdo. case_match; [|done]. injection Hdo as <-.
    eapply only_queues_settled; [by apply post_only_queues | exact Hn].
  - unfold autoclose_fires in Hdo. case_match; [|done]. injection Hdo as <-.
    eapply only_queues_settled; [by apply post_only_queues | exact Hn].
  - by apply pump_settled with g.
Qed.

Lemma gc_run_settled c n ops g g' :
  pins_distinct (gcfg_pins c) -> gc_reachable c g -> gc_run ops g = Some g' ->
  settled n g -> settled (n + tally asks_open ops) g'.
Proof.
  intros Hd. revert n g. induction ops as [|op ops IH]; intros n g Hr H Hn; cbn [gc_run] in H.
  { injection H as <-. by rewrite tally_nil, Nat.add_0_r. }
  destruct (gc_do op g) as [g1|] eqn:E; [|done]. rewrite tally_cons, Nat.add_assoc.
  destruct (gc_reachable_elec c g Hd Hr) as [Hok Hc].
  eapply IH; [by eapply gc_reach_step | exact H |].
  eapply gc_do_settled; [by rewrite Hc | by eapply gc_reachable_inv | exact Hok | exact E | exact Hn].
Qed.

Lemma new_settled c ro rc rb :
  pins_distinct (gcfg_pins c) -> settled 0 (GateController_new (Q := Q) (T := T) c ro rc rb).
Proof.
  intros Hd. unfold settled, waiting, energised. cbn -[energises app set_color write_gpio].
  rewrite queue_create_items, tally_nil, !tally_app.
  rewrite led_energises by done. unfold write_gpio. cbn -[energises].
  rewrite !tally_cons, !tally_nil, write_open_off.
  rewrite (write_not_open _ (pin_relay_close _))
    by (unfold pins_distinct in Hd; rewrite !NoDup_cons in Hd; set_solver). cbn. lia.
Qed.
End gate.

(** ** Runs of the board *)

(** The operations that the board runs only through its dispatcher. *)
Definition commanded (op : GcOp) : bool :=
  match op with OpCommandOpen | OpCommandClose | OpCommandStop | OpClearFault => true | _ => false end.

(** One activity: of the gate_rpc task in and between its sessions, of the
    tasks of the gate with the listener, or of the OTA task. *)
Inductive BoardLabel :=
| LConnect (n : Now) (stream : Z)
| LHeader (name value : string)
| LData (n : Now) (data : list Z)
| LFrame (end_stream goaway : bool)
| LStreamClose
| LIterate (n : Now)
| LRead (len : nat)
| LDisconnect
| LGate (n : Now) (op : GcOp)
| LOtaDone (n : Now) (success : bool) (error : string).

(** The bytes that each session received, the current one holding [cur]. *)
Fixpoint session_bytes (cur : list Z) (ls : list BoardLabel) : list (list Z) :=
  match ls with
  | [] => [cur]
  | LConnect _ _ :: ls => cur :: session_bytes [] ls
  | LData _ data :: ls => session_bytes (cur ++ data) ls
  | _ :: ls => session_bytes cur ls
  end.

(** The messages in the bytes of a session. *)
Definition messages_of (bytes : list Z) : list (list Z) := (parse kMaxInMessage (PHeader []) bytes).2.

Section board.
Context {Q QG T : Type} `{!RtosQueue (list Z) Q} `{!RtosQueue Event QG} `{!EspTimer T}.
Context (pb_encode : nat -> Envelope -> option (list Z)) (pb_decode : list Z -> option Envelope)
        (spawn_ok : bool).

Definition BoardState : Type := ControlClient.Session * (Client Q * Firmware QG T).

Definition board_exec (l : BoardLabel) (b : BoardState) : option BoardState :=
  let '(s, (c, f)) := b in
  match l with
  | LConnect n stream =>
      let c := set_telemetry (telemetry_seq_ c) (now_ms n) (set_connected true c) in
      Some (Session_new stream, (send_telemetry pb_encode (Some main_filler) n f c, f))
  | LHeader name value => Some (cb_on_header (stream_id s) name value s, (c, f))
  | LData n data =>
      guard (poisoned_ (assembler s) = false) ;;
      '(s, cw, _) ← cb_on_data_chunk pb_encode pb_decode (Some (main_dispatcher spawn_ok)) n
                      (stream_id s) data (s, (c, f));
      Some (s, cw)
  | LFrame e g => Some (cb_on_frame_recv (stream_id s) e g s, (c, f))
  | LStreamClose => Some (cb_on_stream_close (stream_id s) s, (c, f))
  | LIterate n =>
      let '(s, c) := iter_prologue pb_encode (Some main_filler) n f s c in Some (s, (c, f))
  | LRead len => Some ((cb_data_read len s).1, (c, f))
  | LDisconnect => Some (s, (set_out_queue (queue_reset (out_queue_ c)) (set_connected false c), f))
  | LGate n op =>
      guard (commanded op = false) ;;
      g ← gc_do op (fw_gate f);
      Some (s, (forward pb_encode n (fw_gate f) g c, set_gate g f))
  | LOtaDone n success error =>
      Some (s, (complete_command pb_encode n (ota_cmd_id f) success error c, main_ota_done success f))
  end.

Fixpoint board_run (ls : list BoardLabel) (b : BoardState) : option BoardState :=
  match ls with
  | [] => Some b
  | l :: ls => b ← board_exec l b; board_run ls b
  end.

(** The board as it is constructed, before any session. *)
Definition board_new (cfg : ClientConfig) (calls : BootCalls) : BoardState :=
  let b := main_objects cfg calls in (Session_new (-1), (b_client b, b_fw b)).

(** The message asks for an opening. *)
Definition is_open_kind (k : CommandKind) : bool :=
  match k with COMMAND_KIND_OPEN_GATE => true | _ => false end.
Definition asks_opening (m : list Z) : bool :=
  match pb_decode m with
  | Some (EnvCommand cmd) => is_open_kind (cmd_kind cmd)
  | _ => false
  end.

(** *** What a step does to the gate *)

(** The gate went from [f] to [f'] by its own operations, [n] of them open
    commands. *)
Definition gate_moves (n : nat) (f f' : Firmware QG T) : Prop :=
  exists ops, gc_run ops (fw_gate f) = Some (fw_gate f') /\ tally asks_open ops = n.

Lemma gate_moves_refl f f' : fw_gate f' = fw_gate f -> gate_moves 0 f f'.
Proof. intros H. exists []. by rewrite H. Qed.

Lemma gate_moves_op op f f' :
  gc_do op (fw_gate f) = Some (fw_gate f') -> gate_moves (Nat.b2n (asks_open op)) f f'.
Proof.
  intros H. exists [op]. cbn [gc_run]. rewrite H. by rewrite tally_cons, tally_nil, Nat.add_0_r.
Qed.

Lemma gc_run_app ops1 ops2 (g g1 : GateController QG T) :
  gc_run ops1 g = Some g1 -> gc_run (ops1 ++ ops2) g = gc_run ops2 g1.
Proof.
  revert g. induction ops1 as [|op ops1 IH]; intros g H; cbn [gc_run app] in *; [by injection H as <-|].
  destruct (gc_do op g); [by apply IH | done].
Qed.

Lemma gate_moves_trans n1 n2 f1 f2 f3 :
  gate_moves n1 f1 f2 -> gate_moves n2 f2 f3 -> gate_moves (n1 + n2) f1 f3.
Proof.
  intros (o1 & H1 & <-) (o2 & H2 & <-). exists (o1 ++ o2). rewrite tally_app. split; [|done].
  by rewrite (gc_run_app _ _ _ _ H1).
Qed.

Lemma dispatcher_moves cmd f :
  gate_moves (Nat.b2n (is_open_kind (cmd_kind cmd))) f
    (main_dispatcher spawn_ok cmd f).1.
Proof.
  unfold main_dispatcher. destruct (cmd_kind cmd);
    cbn [is_open_kind Nat.b2n]; try (by apply gate_moves_refl).
  - by apply (gate_moves_op OpCommandOpen).
  - by apply (gate_moves_op OpCommandClose).
  - destruct (running_ _); [by apply gate_moves_refl|].
    destruct (Ota.begin _ _) as [u [| |]]; cbn; [|by apply gate_moves_refl..].
    by apply (gate_moves_op (OpShowLed kOtaPulse)).
  - case_match; [by apply gate_moves_refl|]. destruct (Pattern_of_Z _) as [p|]; [|by apply gate_moves_refl].
    by apply (gate_moves_op (OpShowLed p)).
Qed.

Lemma message_moves n m (c : Client Q) f :
  gate_moves (Nat.b2n (asks_opening m)) f
    (handle_message pb_encode pb_decode (Some (main_dispatcher spawn_ok)) n m (c, f)).2.
Proof.
  unfold handle_message, asks_opening.
  destruct (pb_decode m) as [[t|cmd|a| |]|]; try (by apply gate_moves_refl).
  unfold handle_command, command_dispatch. pose proof (dispatcher_moves cmd f) as Hd.
  destruct (main_dispatcher spawn_ok cmd f) as [f' r]. cbn [fst] in Hd.
  by destruct (accepted r), (completed_now r), (external_completion r).
Qed.

Lemma messages_move n ms (c : Client Q) f :
  gate_moves (tally asks_opening ms) f
    (foldl (fun cw m => handle_message pb_encode pb_decode (Some (main_dispatcher spawn_ok)) n m cw)
       (c, f) ms).2.
Proof.
  revert c f. induction ms as [|m ms IH]; intros c f; [by apply gate_moves_refl|].
  cbn [foldl]. rewrite tally_cons.
  pose proof (message_moves n m c f) as Hm. destruct (handle_message _ _ _ _ _ _) as [c1 f1].
  by eapply gate_moves_trans.
Qed.

(** The assembler has read [cur]. *)
Definition has_read (cur : list Z) (s : ControlClient.Session) : Prop :=
  fa_inv (assembler s) /\ cap_ (assembler s) = kMaxInMessage /\
  parse_of (assembler s) = (parse kMaxInMessage (PHeader []) cur).1.

Lemma has_read_ext cur s s' : assembler s' = assembler s -> has_read cur s -> has_read cur s'.
Proof. unfold has_read. by intros ->. Qed.

Lemma messages_of_app cur d :
  messages_of (cur ++ d) =
  messages_of cur ++ (parse kMaxInMessage (parse kMaxInMessage (PHeader []) cur).1 d).2.
Proof.
  unfold messages_of. rewrite parse_app. destruct (parse _ _ cur) as [p ms]. cbn.
  by destruct (parse _ p d).
Qed.

(** The messages that one step hands on. *)
Definition opens_of (cur : list Z) : nat := tally asks_opening (messages_of cur).

Lemma data_moves cur n d s c f s' c' f' :
  has_read cur s -> board_exec (LData n d) (s, (c, f)) = Some (s', (c', f')) ->
  has_read (cur ++ d) s' /\ exists k, (opens_of (cur ++ d) = opens_of cur + k)%nat /\ gate_moves k f f'.
Proof.
  intros (Hi & Hc & Hp) H. cbn [board_exec] in H. case_guard as Hpo; [|done].
  unfold cb_on_data_chunk in H. rewrite Z.eqb_refl in H. unfold on_data_chunk in H.
  destruct (chunk_loop_spec (length d) (assembler s) d 0) as (a & ms & err & E & Hi' & Hc' & _ & Hpa);
    [lia | done | done|].
  rewrite E in H. cbn [negb mbind option_bind] in H. rewrite drop_0, Hc, Hp in Hpa.
  pose proof (messages_move n ms c f) as Hm.
  destruct (foldl _ _ ms) as [c1 f1]. injection H as <- <- <-. split.
  - apply (has_read_ext _ (set_assembler a s)); [by destruct err|]. split_and!; [done | cbn; congruence|].
    cbn. rewrite parse_app. destruct (parse _ (PHeader []) cur) as [p ms0]. cbn in Hpa. by rewrite Hpa.
  - exists (tally asks_opening ms). split; [|exact Hm].
    unfold opens_of. by rewrite messages_of_app, Hpa, tally_app.
Qed.

(** The other labels keep the assembler, or start a session, and give the
    gate no open command. *)
Definition next_bytes (cur : list Z) (l : BoardLabel) : list Z :=
  match l with LConnect _ _ => [] | LData _ d => cur ++ d | _ => cur end.

Lemma other_moves cur l s c f s' c' f' :
  match l with LData _ _ => False | _ => True end -> has_read cur s ->
  board_exec l (s, (c, f)) = Some (s', (c', f')) -> has_read (next_bytes cur l) s' /\ gate_moves 0 f f'.
Proof.
  intros Hl Hr H. destruct l; try done; cbn [board_exec next_bytes] in *.
  - injection H as <- <- <-. split; [split_and!; [apply new_fa_inv | done..] | by apply gate_moves_refl].
  - injection H as <- <- <-. split; [|by apply gate_moves_refl]. eapply has_read_ext, Hr.
    unfold cb_on_header. by repeat case_match.
  - injection H as <- <- <-. split; [|by apply gate_moves_refl]. eapply has_read_ext, Hr.
    unfold cb_on_frame_recv. by repeat case_match.
  - injection H as <- <- <-. split; [|by apply gate_moves_refl]. eapply has_read_ext, Hr.
    unfold cb_on_stream_close. by repeat case_match.
  - unfold iter_prologue, next_frame in H. split.
    + eapply has_read_ext, Hr. repeat case_match; by simplify_eq/=.
    + apply gate_moves_refl. repeat case_match; by simplify_eq/=.
  - injection H as <- <- <-. split; [|by apply gate_moves_refl]. eapply has_read_ext, Hr.
    unfold cb_data_read. by repeat case_match.
  - injection H as <- <- <-. split; [done | by apply gate_moves_refl].
  - case_guard as Hg; [|done]. cbn in H. apply bind_Some in H as (g & Hdo & H). injection H as <- <- <-.
    split; [done|]. replace O with (Nat.b2n (asks_open op)) by (by destruct op).
    by apply gate_moves_op.
  - injection H as <- <- <-. split; [done|].
    unfold main_ota_done. destruct success; [by apply gate_moves_refl|].
    by apply (gate_moves_op (OpShowLed kDenyFlash)).
Qed.

(** A run gives the gate one open command per message that asks for it. *)
Lemma board_run_moves ls cur s c f s' c' f' :
  has_read cur s -> board_run ls (s, (c, f)) = Some (s', (c', f')) ->
  exists k, gate_moves k f f' /\
    (opens_of cur + k = tally asks_opening (concat (map messages_of (session_bytes cur ls))))%nat.
Proof.
  revert cur s c f. induction ls as [|l ls IH]; intros cur s c f Hr H; cbn [board_run] in H.
  { injection H as <- <- <-. exists O. split; [by apply gate_moves_refl|].
    cbn [session_bytes map concat]. by rewrite app_nil_r, Nat.add_0_r. }
  apply bind_Some in H as ((s1 & c1 & f1) & H1 & H).
  assert (match l with LData _ _ => False | _ => True end \/ exists n d, l = LData n d) as [Hl|(n & d & ->)]
    by (destruct l; eauto).
  - destruct (other_moves cur l _ _ _ _ _ _ Hl Hr H1) as [Hr1 Hm].
    destruct (IH _ _ _ _ Hr1 H) as (k & Hk & E). exists k.
    split; [by apply (gate_moves_trans 0 k f f1 f')|].
    destruct l; try done; cbn [session_bytes next_bytes map concat] in *; [|exact E..].
    rewrite tally_app, <- E. done.
  - destruct (data_moves cur n d _ _ _ _ _ _ Hr H1) as (Hr1 & k1 & E1 & Hm).
    destruct (IH _ _ _ _ Hr1 H) as (k & Hk & E). exists (k1 + k)%nat.
    split; [by eapply gate_moves_trans|]. cbn [session_bytes]. lia.
Qed.
End board.
Arguments BoardState : clear implicits.

(** ** What the server sends *)

(** The bytes of framed messages, however far they came, hold some of the
    messages from the first on. *)
Lemma messages_of_frames payloads :
  Forall (fun m => Z.of_nat (length m) < 2 ^ 32) payloads ->
  exists n, messages_of (concat (map frame payloads)) = take n payloads.
Proof.
  induction 1 as [|m ms Hm _ [n IH]]; [by exists O|]. cbn [map concat].
  destruct (decide (length m <= kMaxInMessage)%nat) as [Hl|Hl].
  - exists (S n). unfold messages_of in *. rewrite parse_frame by done.
    destruct (parse _ _ (concat _)) as [p ms']. cbn in *. by rewrite IH.
  - exists O. unfold messages_of, frame. rewrite <- app_assoc, parse_header by lia.
    by rewrite decide_True by lia.
Qed.

Lemma messages_of_prefix bytes rest payloads :
  Forall (fun m => Z.of_nat (length m) < 2 ^ 32) payloads ->
  bytes ++ rest = concat (map frame payloads) -> exists n, messages_of bytes = take n payloads.
Proof.
  intros [n Hn]%messages_of_frames E. rewrite <- E, messages_of_app in Hn.
  exists (length (messages_of bytes) `min` n)%nat.
  rewrite <- take_take, <- Hn. by rewrite take_app_length.
Qed.

Section cause.
Context {Q QG T : Type} `{!RtosQueue (list Z) Q} `{!RtosQueue Event QG} `{!RtosQueueLaws Event QG}
        `{!EspTimer T} `{!EspTimerLaws T}.
Context (pb_encode : nat -> Envelope -> option (list Z)) (pb_decode : list Z -> option Envelope)
        (pb_serialize : GateCommandMsg -> list Z) (spawn_ok : bool).

(** The command opens this gate, and an operator issued it or a decision on
    the bus that admitted a vehicle here is its actor. *)
Definition caused (sls : list RpcLabel) (r : Rpc) (gate : string) (m : GateCommandMsg) : Prop :=
  opens m /\ cm_gate_id m = gate /\
  (was_issued sls m \/ exists d, decided (log (hub (bus r))) d /\ authorises d m).

Lemma wire_caused rc pc f0 c0 site sls r k x m :
  (0 < rc)%nat -> rpc_run sls (Rpc_new rc pc f0 c0 site) = Some r ->
  sessions r !! k = Some x -> m ∈ ses_wire x -> opens m -> caused sls r (ses_gate x) m.
Proof.
  intros Hrc Hrun Hk Hm Ho.
  pose proof (Streams_run _ _ _ (Streams_new rc pc f0 c0 site Hrc) Hrun) as [_ _ _ Hs].
  destruct (Hs k x Hk) as [_ Hw]. destruct (Hw m Hm) as (Hg & v & Hv & Hp).
  split; [done|]. split; [done|].
  assert (Origin [] (Rpc_new rc pc f0 c0 site)) as Hor.
  { split; [|done]. intros l1' v' l2' c' E. by destruct l1'. }
  apply (Origin_run [] sls _ r Hor) in Hrun as [Hl _].
  apply list_elem_of_split in Hv as (l1 & l2 & E).
  destruct (Hl l1 v l2 m E Hp Ho) as [Hi|(d & Hd & Ha)]; [by left|].
  right. exists d. split; [|done]. rewrite E. by apply decided_app.
Qed.

(** The control streams of [gate] are what the sessions received from. *)
Definition received_from (r : Rpc) (gate : string) (bytes : list Z) : Prop :=
  bytes = [] \/ exists k x rest, sessions r !! k = Some x /\ ses_gate x = gate /\
    bytes ++ rest = concat (map frame (map pb_serialize (ses_wire x))).

Lemma opens_are_caused rc pc f0 c0 site sls r gate bytess :
  (0 < rc)%nat -> rpc_run sls (Rpc_new rc pc f0 c0 site) = Some r ->
  (forall m e, pb_decode (pb_serialize m) = Some e -> e = EnvCommand (cm_base m)) ->
  (forall m, Z.of_nat (length (pb_serialize m)) < 2 ^ 32) ->
  Forall (received_from r gate) bytess ->
  exists cmds, (tally (asks_opening pb_decode) (concat (map messages_of bytess)) <= length cmds)%nat /\
    Forall (caused sls r gate) cmds.
Proof.
  intros Hrc Hrun Hcodec Hsize. induction 1 as [|bytes bytess Hb _ (cmds & Hc & Hall)];
    [by exists []|]. cbn [map concat]. rewrite tally_app.
  destruct Hb as [->|(k & x & rest & Hk & Hg & E)]; [by exists cmds|].
  apply messages_of_prefix in E as [n Hn]; [|apply Forall_fmap, Forall_true; intros m; apply Hsize].
  exists (List.filter (fun m => is_open_kind (cmd_kind (cm_base m))) (take n (ses_wire x)) ++ cmds).
  split.
  - rewrite length_app. apply Nat.add_le_mono; [|done]. rewrite Hn. change (map pb_serialize) with (fmap (M := list) pb_serialize). rewrite <- fmap_take.
    induction (take n (ses_wire x)) as [|m l IH]; [done|]. cbn [fmap list_fmap List.filter]. rewrite tally_cons.
    destruct (asks_opening pb_decode (pb_serialize m)) eqn:Ha; cbn.
    + unfold asks_opening in Ha. destruct (pb_decode (pb_serialize m)) as [e|] eqn:Ed; [|done].
      apply Hcodec in Ed as ->. rewrite Ha. cbn. lia.
    + case_match; cbn; lia.
  - apply Forall_app. split; [|done]. apply Forall_forall. intros m Hm.
    apply list_elem_of_In, filter_In in Hm as [Hm Ho]. apply list_elem_of_In, elem_of_take in Hm as (i & Hi & _).
    rewrite <- Hg. eapply wire_caused; [done..| by eapply list_elem_of_lookup_2 |].
    unfold opens. by destruct (cmd_kind (cm_base m)).
Qed.

End cause.

(** ** A witness *)

#[local] Instance CommandKind_eq_dec : EqDecision CommandKind.
Proof. solve_decision. Defined.
#[local] Instance GateCommand_eq_dec : EqDecision GateCommand.
Proof. solve_decision. Defined.

(** A codec that knows one command. *)
Definition known_encode (m : GateCommandMsg) : list Z :=
  if decide (cm_base m = cm_base admitted_command) then [7] else [0].

Lemma known_decodes m e : one_decode (known_encode m) = Some e -> e = EnvCommand (cm_base m).
Proof. unfold known_encode. destruct (decide _) as [E|]; [|done]. intros [= <-]. by f_equal. Qed.

(** A gate boots on its closed limit, connects, and receives the command of
    an admitted vehicle in two chunks; a second session hears nothing. *)
Definition admitted_ls : list BoardLabel :=
  map (LGate t0) boot_ops ++
  [LConnect t0 1; LHeader ":status" "200"; LData t0 [0; 0; 0]; LIterate t0; LData t0 [0; 1; 7];
   LGate t0 OpPump; LDisconnect; LConnect t0 1].
Definition closed_calls : BootCalls :=
  mkBoot true (1, 0, 0) [] true (good_eth 1) [] true true None true t0.
#[local] Notation admitted_board :=
  (board_run (Q := ListQueue (list Z)) (QG := ListQueue Event) (T := PeriodTimer)
     tiny_encode one_decode true admitted_ls (board_new ClientConfig_default closed_calls)).

Lemma admitted_board_opens :
  exists s c f, admitted_board = Some (s, (c, f)) /\ energised (fw_gate f) = 1%nat /\
    obstacles (fw_gate f) = O.
Proof.
  assert (Hk : (b ← admitted_board; Some (energised (fw_gate b.2.2), obstacles (fw_gate b.2.2)))
               = Some (1%nat, 0%nat)) by (vm_compute; reflexivity).
  apply bind_Some in Hk as ([s [c f]] & Hb & Hk). injection Hk as He Ho.
  exists s, c, f. exact (conj Hb (conj He Ho)).
Qed.

Lemma admitted_link : Forall (received_from known_encode admitted_rpc "g") (session_bytes [] admitted_ls).
Proof.
  change (session_bytes [] admitted_ls) with [[]; [0; 0; 0; 0; 1; 7]; []].
  apply Forall_cons. split; [by left|]. apply Forall_cons. split; [|apply Forall_singleton; by left].
  right. exists 0%nat, (mkSession "g" (Some 0%nat) true false [admitted_command]), [].
  split; [vm_compute; reflexivity|]. split; [reflexivity | vm_compute; reflexivity].
Qed.

