(* ===== verification/Inference.v ===== *)
(** The host-side parts of plate recognition (src/server/inference):
    letterbox geometry, box clamping, the CTC decoder, the decoding of the
    detector's output tensors, the dictionary, and the pipeline that joins
    detector and recogniser.

    The TensorRT engines and OpenCV are outside the repository: the engine's
    output tensors and the logits of a crop are arguments here (Networks takes
    them from the engines), and an image is its size.  An access outside a tensor is [None]; a thrown exception is
    [inl]. *)

From S2P Require Import Prelude Float32.
From stdpp Require Import pretty.
From Stdlib Require Import Sorting.Sorted.
Local Open Scope Z_scope.

(** ** Boxes *)

Record Rect2f := mkRect2f { rx : f32; ry : f32; rw : f32; rh : f32 }.
Record Rect := mkRect { ix : Z; iy : Z; iw : Z; ih : Z }.
Record LetterboxParams := mkLetterbox { lb_scale : f32; lb_pad_x : f32; lb_pad_y : f32 }.

Definition Rect2f_empty : Rect2f := mkRect2f f_zero f_zero f_zero f_zero.
Definition Rect_empty : Rect := mkRect 0 0 0 0.

(** [letterbox]: the parameters, and where the resized image lies on the
    canvas. *)
Definition letterbox (src_cols src_rows dst_w dst_h : Z) : option (LetterboxParams * Rect) :=
  let src_w := f32_of_Z src_cols in
  let src_h := f32_of_Z src_rows in
  let scale := fmin (fdiv (f32_of_Z dst_w) src_w) (fdiv (f32_of_Z dst_h) src_h) in
  new_w ← f_round (fmul src_w scale) ≫= to_int;
  new_h ← f_round (fmul src_h scale) ≫= to_int;
  let pad_x := Z.quot (dst_w - new_w) 2 in
  let pad_y := Z.quot (dst_h - new_h) 2 in
  Some (mkLetterbox scale (f32_of_Z pad_x) (f32_of_Z pad_y), mkRect pad_x pad_y new_w new_h).

(** [unmap_letterbox_box]. *)
Definition unmap_letterbox_box (x1c y1c x2c y2c : f32) (lb : LetterboxParams) (src_w src_h : Z)
    : Rect2f :=
  let x1 := fmax f_zero (fdiv (fsub x1c (lb_pad_x lb)) (lb_scale lb)) in
  let y1 := fmax f_zero (fdiv (fsub y1c (lb_pad_y lb)) (lb_scale lb)) in
  let x2 := fmin (f32_of_Z src_w) (fdiv (fsub x2c (lb_pad_x lb)) (lb_scale lb)) in
  let y2 := fmin (f32_of_Z src_h) (fdiv (fsub y2c (lb_pad_y lb)) (lb_scale lb)) in
  if fle x2 x1 || fle y2 y1 then Rect2f_empty
  else mkRect2f x1 y1 (fsub x2 x1) (fsub y2 y1).

(** [expand_box_with_margin]. *)
Definition expand_box_with_margin (box : Rect2f) (width height : Z) (margin : f32)
    (min_extent : Z) : option Rect :=
  let dx := fmul (rw box) margin in
  let dy := fmul (rh box) margin in
  let x1 := fclamp (fsub (rx box) dx) f_zero (f32_of_Z width) in
  let y1 := fclamp (fsub (ry box) dy) f_zero (f32_of_Z height) in
  let x2 := fclamp (fadd (fadd (rx box) (rw box)) dx) f_zero (f32_of_Z width) in
  let y2 := fclamp (fadd (fadd (ry box) (rh box)) dy) f_zero (f32_of_Z height) in
  xi ← f_floor x1 ≫= to_int;
  yi ← f_floor y1 ≫= to_int;
  wi ← f_ceil (fsub x2 x1) ≫= to_int;
  hi ← f_ceil (fsub y2 y1) ≫= to_int;
  Some (if (wi <? min_extent) || (hi <? min_extent) then Rect_empty else mkRect xi yi wi hi).

(** ** The CTC decoder *)

Record CtcResult := mkCtc { ctc_text : string; mean_confidence : f32 }.

(** The inner loop: the best class of one row, from class [c] on. *)
Fixpoint argmax_loop (cells : list f32) (c : Z) (best_idx : Z) (best_prob : f32) : Z * f32 :=
  match cells with
  | [] => (best_idx, best_prob)
  | p :: cells =>
      if flt best_prob p then argmax_loop cells (c + 1) c p
      else argmax_loop cells (c + 1) best_idx best_prob
  end.

(** The row of time step [t], when the tensor has it. *)
Definition row_at (logits : list f32) (num_classes t : nat) : option (list f32) :=
  let row := take num_classes (drop (t * num_classes) logits) in
  if (length row =? num_classes)%nat then Some row else None.

Record CtcState := mkCtcState {
  cs_text : string; conf_sum : spec_float; kept : Z; prev_idx : Z;
}.

(** One turn of the loop over the time steps. *)
Definition ctc_turn (dictionary : list string) (row : list f32) (st : CtcState)
    : option CtcState :=
  match row with
  | [] => None
  | p0 :: cells =>
      let '(best_idx, best_prob) := argmax_loop cells 1 0 p0 in
      if (best_idx =? 0) || (best_idx =? prev_idx st)
      then Some (mkCtcState (cs_text st) (conf_sum st) (kept st) best_idx)
      else
        Some (mkCtcState (cs_text st +:+ default ""%string (dictionary !! Z.to_nat (best_idx - 1)))
                (dadd (conf_sum st) (f64_of_f32 best_prob)) (kept st + 1) best_idx)
  end.

Fixpoint ctc_loop (dictionary : list string) (logits : list f32) (num_classes : nat)
    (steps : list nat) (st : CtcState) : option CtcState :=
  match steps with
  | [] => Some st
  | t :: steps =>
      row ← row_at logits num_classes t;
      st ← ctc_turn dictionary row st;
      ctc_loop dictionary logits num_classes steps st
  end.

(** [ctc_greedy_decode]. *)
Definition ctc_greedy_decode (logits : list f32) (seq_len num_classes : Z)
    (dictionary : list string) : option CtcResult :=
  if (seq_len <=? 0) || (num_classes <=? 0) then Some (mkCtc "" f_zero)
  else
    st ← ctc_loop dictionary logits (Z.to_nat num_classes) (seq 0 (Z.to_nat seq_len))
           (mkCtcState "" f_zero 0 (-1));
    Some (mkCtc (cs_text st)
            (if 0 <? kept st then f32_of_f64 (ddiv (conf_sum st) (f64_of_Z (kept st))) else f_zero)).

(** ** The detector *)

Record Detection := mkDetection { d_box : Rect2f; d_confidence : f32; d_class_id : Z }.

(** The host buffers after a run of the engine. *)
Record RawDetections := mkRaw {
  num_dets : Z; boxes_host : list f32; scores_host : list f32; classes_host : list Z;
}.

Record DetectorConfig := mkDetector {
  det_input_width : Z; det_input_height : Z; confidence_floor : f32; max_detections : Z;
}.

(** One turn of the decoding loop of [detect]. *)
Definition decode_one (cfg : DetectorConfig) (lb : LetterboxParams) (cols rows : Z)
    (raw : RawDetections) (i : nat) : option (option Detection) :=
  score ← scores_host raw !! i;
  if flt score (confidence_floor cfg) then Some None
  else
    x1 ← boxes_host raw !! (i * 4 + 0)%nat;
    y1 ← boxes_host raw !! (i * 4 + 1)%nat;
    x2 ← boxes_host raw !! (i * 4 + 2)%nat;
    y2 ← boxes_host raw !! (i * 4 + 3)%nat;
    let u := unmap_letterbox_box x1 y1 x2 y2 lb cols rows in
    if fle (rw u) f_zero || fle (rh u) f_zero then Some None
    else cls ← classes_host raw !! i; Some (Some (mkDetection u score cls)).

Fixpoint decode_loop (f : nat -> option (option Detection)) (ixs : list nat)
    : option (list Detection) :=
  match ixs with
  | [] => Some []
  | i :: ixs =>
      d ← f i;
      ds ← decode_loop f ixs;
      Some (match d with Some d => d :: ds | None => ds end)
  end.

(** [std::sort] by falling confidence: equal elements may come out in any
    order, here in the order they went in. *)
Fixpoint insert_by_conf (d : Detection) (l : list Detection) : list Detection :=
  match l with
  | [] => [d]
  | x :: l => if flt (d_confidence d) (d_confidence x) then x :: insert_by_conf d l else d :: x :: l
  end.
Definition sort_by_conf (l : list Detection) : list Detection := foldr insert_by_conf [] l.

(** [YoloPlateDetector::detect] on a [cols] x [rows] image; [type_ok] is the
    test for three 8-bit channels. *)
Definition detect (cfg : DetectorConfig) (cols rows : Z) (type_ok : bool) (raw : RawDetections)
    : option (string + list Detection) :=
  if (cols <=? 0) || (rows <=? 0)
  then Some (inl "YoloPlateDetector::detect: input image is empty"%string)
  else if negb type_ok
  then Some (inl "YoloPlateDetector::detect: input must be CV_8UC3 (BGR)"%string)
  else
    '(lb, _) ← letterbox cols rows (det_input_width cfg) (det_input_height cfg);
    let n := Z.min (num_dets raw) (max_detections cfg) in
    if n <? 0 then Some (inl "vector::reserve"%string)
    else
      dets ← decode_loop (decode_one cfg lb cols rows raw) (seq 0 (Z.to_nat n));
      Some (inr (sort_by_conf dets)).

(** ** The recogniser *)

(** [std::getline] until the end: a last line without a newline counts, an
    empty remainder does not. *)
Fixpoint lines_from (acc : string) (s : string) : list string :=
  match s with
  | EmptyString => match acc with EmptyString => [] | _ => [acc] end
  | String c s =>
      if Ascii.eqb c (Ascii.ascii_of_nat 10) then acc :: lines_from "" s
      else lines_from (acc +:+ String c "") s
  end.

(** Dropping one trailing carriage return. *)
Fixpoint chomp_cr (line : string) : string :=
  match line with
  | EmptyString => EmptyString
  | String c EmptyString => if Ascii.eqb c (Ascii.ascii_of_nat 13) then EmptyString else line
  | String c line => String c (chomp_cr line)
  end.

(** [read_dictionary]; [None] is a file that does not open. *)
Definition read_dictionary (path : string) (file : option string) : string + list string :=
  match file with
  | None => inl ("PaddleOcrRecognizer: cannot open dictionary: " +:+ path)%string
  | Some contents =>
      match map chomp_cr (lines_from "" contents) with
      | [] => inl ("PaddleOcrRecognizer: dictionary is empty: " +:+ path)%string
      | chars => inr chars
      end
  end.

Record Recognizer := mkRecognizer { seq_len : Z; num_classes : Z; dictionary : list string }.

(** The checks of [PaddleOcrRecognizer::load] on the resolved output shape. *)
Definition load_recognizer (output_name : string) (dict : list string) (shape : list Z)
    : string + Recognizer :=
  match shape with
  | _ :: t :: c :: _ =>
      if (t <=? 0) || (c <=? 0)
      then inl "PaddleOcrRecognizer: could not resolve output [T, C]"%string
      else if negb (c =? Z.of_nat (length dict) + 1)
      then inl ("PaddleOcrRecognizer: dictionary size " +:+ pretty (Z.of_nat (length dict)) +:+
                " + 1 blank does not match model output classes " +:+ pretty c)%string
      else inr (mkRecognizer t c dict)
  | _ => inl ("PaddleOcrRecognizer: '" +:+ output_name +:+
              "' has fewer than 3 dims (expected [N, T, C])")%string
  end.

(** [ctc_decode_]. *)
Definition recognize (r : Recognizer) (logits : list f32) : option CtcResult :=
  ctc_greedy_decode logits (seq_len r) (num_classes r) (dictionary r).

Fixpoint recognize_batch (r : Recognizer) (logits : list (list f32)) : option (list CtcResult) :=
  match logits with
  | [] => Some []
  | l :: logits => x ← recognize r l; xs ← recognize_batch r logits; Some (x :: xs)
  end.

(** ** The pipeline *)

Record PipelineConfig := mkPipeline { crop_margin : f32; max_plates_per_frame : Z }.

Record PlateReading := mkReading {
  pr_box : Rect2f; pr_text : string; detection_score : f32; ocr_score : f32;
}.

(** The crop of one detection, when it is large enough to read. *)
Definition crop_of (cfg : PipelineConfig) (cols rows : Z) (d : Detection) : option (option Rect) :=
  roi ← expand_box_with_margin (d_box d) cols rows (crop_margin cfg) 1;
  Some (if (iw roi <? 4) || (ih roi <? 4) then None else Some roi).

Fixpoint crops_of (cfg : PipelineConfig) (cols rows : Z) (ds : list Detection)
    : option (list (Detection * Rect)) :=
  match ds with
  | [] => Some []
  | d :: ds =>
      roi ← crop_of cfg cols rows d;
      rest ← crops_of cfg cols rows ds;
      Some (match roi with Some roi => (d, roi) :: rest | None => rest end)
  end.

(** [AlprPipeline::process]; [ocr] gives the logits the engine computes for
    a crop of the frame. *)
Definition process (det : DetectorConfig) (r : Recognizer) (cfg : PipelineConfig)
    (cols rows : Z) (type_ok : bool) (raw : RawDetections) (ocr : Rect -> list f32)
    : option (string + list PlateReading) :=
  ds ← detect det cols rows type_ok raw;
  match ds with
  | inl err => Some (inl err)
  | inr ds =>
      let n_keep := Nat.min (length ds) (Z.to_nat (Z.max 0 (max_plates_per_frame cfg))) in
      crops ← crops_of cfg cols rows (take n_keep ds);
      texts ← recognize_batch r (map (fun x => ocr x.2) crops);
      Some (inr (zip_with (fun x t => mkReading (d_box x.1) (ctc_text t) (d_confidence x.1)
                                        (mean_confidence t)) crops texts))
  end.

(** ** The reference decoder *)

(** The class of a row: a cell that no other exceeds, the first of its value;
    NaN cells do not count. *)
Definition best_cell (row : list f32) (x : Z * f32) : Prop :=
  exists i : nat, x.1 = Z.of_nat i /\ row !! i = Some x.2 /\
    (forall j q, row !! j = Some q -> flt x.2 q = false) /\
    (forall j q, (j < i)%nat -> row !! j = Some q -> is_nan q = false -> flt q x.2 = true).

(** Consecutive repeats are collapsed, then blanks are dropped. *)
Fixpoint collapse (prev : Z) (l : list (Z * f32)) : list (Z * f32) :=
  match l with
  | [] => []
  | x :: l => if x.1 =? prev then collapse prev l else x :: collapse x.1 l
  end.
Definition emitted (labels : list (Z * f32)) : list (Z * f32) :=
  base.filter (fun x => x.1 <> 0) (collapse (-1) labels).

Definition symbol (dict : list string) (x : Z * f32) : string :=
  default ""%string (dict !! Z.to_nat (x.1 - 1)).

Definition reference_decode (dict : list string) (labels : list (Z * f32)) : CtcResult :=
  let l := emitted labels in
  mkCtc (foldr String.append ""%string (map (symbol dict) l))
    (match l with
     | [] => f_zero
     | _ => f32_of_f64 (ddiv (foldl (fun s x => dadd s (f64_of_f32 x.2)) f_zero l)
                          (f64_of_Z (Z.of_nat (length l))))
     end).

Lemma argmax_loop_spec cells seen (i : nat) b :
  seen !! i = Some b ->
  (forall j q, seen !! j = Some q -> flt b q = false) ->
  (forall j q, (j < i)%nat -> seen !! j = Some q -> is_nan q = false -> flt q b = true) ->
  best_cell (seen ++ cells) (argmax_loop cells (Z.of_nat (length seen)) (Z.of_nat i) b).
Proof.
  revert seen i b. induction cells as [|p cells IH]; intros seen i b Hi Hmax Hfirst;
    cbn [argmax_loop].
  { rewrite app_nil_r. by exists i. }
  rewrite (app_assoc seen [p] cells : seen ++ p :: cells = _).
  replace (Z.of_nat (length seen) + 1) with (Z.of_nat (length (seen ++ [p])))
    by (rewrite length_app; simpl; lia).
  destruct (flt b p) eqn:Hp.
  - apply IH.
    + by rewrite lookup_app_r, Nat.sub_diag by done.
    + intros j q [Hj|[-> <-]]%lookup_snoc_Some; [|apply flt_irrefl].
      destruct (flt p q) eqn:Hq; [|done]. pose proof (flt_trans _ _ _ Hp Hq).
      by rewrite (Hmax j q) in H by apply Hj.
    + intros j q Hj [[_ Hq]|[-> _]]%lookup_snoc_Some Hnan; [|lia].
      destruct (flt_negtrans b q p Hnan Hp) as [H|H]; [|done].
      by rewrite (Hmax j q Hq) in H.
  - apply IH.
    + apply lookup_app_l_Some, Hi.
    + intros j q [[_ Hj]|[-> <-]]%lookup_snoc_Some; [by eapply Hmax | done].
    + intros j q Hj [[_ Hq]|[-> _]]%lookup_snoc_Some Hnan; [by eapply Hfirst|].
      apply lookup_lt_Some in Hi. lia.
Qed.

Lemma argmax_best p cells : best_cell (p :: cells) (argmax_loop cells 1 0 p).
Proof.
  apply (argmax_loop_spec cells [p] 0 p); [done | | intros; lia].
  intros [|j] q Hq; simplify_eq/=; apply flt_irrefl.
Qed.

(** The rows of a tensor stored one after the other. *)
Lemma row_at_concat (rows : list (list f32)) n t row :
  Forall (fun r => length r = n) rows -> rows !! t = Some row ->
  row_at (concat rows) n t = Some row.
Proof.
  intros Hn. revert t. induction Hn as [|r rows Hr Hn IH]; intros [|t] Ht; simplify_eq/=.
  - unfold row_at. cbn [Nat.mul]. rewrite drop_0, take_app_length, Nat.eqb_refl. done.
  - rewrite <- (IH t Ht). unfold row_at. cbn [Nat.mul].
    by rewrite <- drop_drop, drop_app_length.
Qed.

Lemma ctc_loop_reference dict (rows : list (list f32)) n done st :
  (0 < n)%nat -> Forall (fun r => length r = n) (done ++ rows) ->
  exists labels, Forall2 best_cell rows labels /\
    let l := base.filter (fun x => x.1 <> 0) (collapse (prev_idx st) labels) in
    exists prev,
    ctc_loop dict (concat (done ++ rows)) n (seq (length done) (length rows)) st =
      Some (mkCtcState (cs_text st +:+ foldr String.append ""%string (map (symbol dict) l))
              (foldl (fun s x => dadd s (f64_of_f32 x.2)) (conf_sum st) l)
              (kept st + Z.of_nat (length l)) prev).
Proof.
  intros Hpos. revert done st. induction rows as [|row rows IH]; intros done st Hn.
  { exists []. split; [constructor|]. exists (prev_idx st). cbn. destruct st; cbn.
    by rewrite sapp_nil_r, Z.add_0_r. }
  assert (Hrow : length row = n).
  { apply Forall_app in Hn as [_ Hn]. by apply Forall_cons in Hn as [Hn _]. }
  destruct row as [|p cells]; [cbn in Hrow; lia|].
  pose proof (argmax_best p cells) as Hbest. set (x := argmax_loop cells 1 0 p) in *.
  rewrite (app_assoc done [p :: cells] rows : done ++ (p :: cells) :: rows = _) in *.
  set (st1 := if (x.1 =? 0) || (x.1 =? prev_idx st)
              then mkCtcState (cs_text st) (conf_sum st) (kept st) x.1
              else mkCtcState (cs_text st +:+ symbol dict x) (dadd (conf_sum st) (f64_of_f32 x.2))
                     (kept st + 1) x.1).
  destruct (IH (done ++ [p :: cells]) st1 Hn) as (labels & Hl & prev & Hloop).
  exists (x :: labels). split; [by constructor|]. exists prev. cbn [length seq ctc_loop].
  rewrite (row_at_concat _ n _ (p :: cells)), length_app in * by
    (done || (rewrite <- app_assoc; by apply list_lookup_middle)).
  cbn [mbind option_bind ctc_turn]. fold x. rewrite (surjective_pairing x).
  replace (length done + length [p :: cells])%nat with (S (length done)) in Hloop by (cbn; lia).
  cbn [fst snd]. fold (symbol dict x). rewrite <- (surjective_pairing x).
  assert ((if (x.1 =? 0) || (x.1 =? prev_idx st)
           then Some (mkCtcState (cs_text st) (conf_sum st) (kept st) x.1)
           else Some (mkCtcState (cs_text st +:+ symbol dict x)
                        (dadd (conf_sum st) (f64_of_f32 x.2)) (kept st + 1) x.1)) = Some st1) as ->
    by (unfold st1; by case_match).
  cbn [mbind option_bind]. rewrite Hloop. unfold st1. cbn [collapse].
  destruct (Z.eqb_spec x.1 (prev_idx st)) as [E|E]; [rewrite orb_true_r, E; done|].
  destruct (Z.eqb_spec x.1 0) as [E0|E0]; cbn [orb cs_text conf_sum kept prev_idx]; rewrite filter_cons.
  - by rewrite decide_False by tauto.
  - rewrite decide_True by done. cbn [map foldr foldl length].
    rewrite sapp_assoc. do 2 f_equal. lia.
Qed.

(** The decoder on rows of equal length. *)
Lemma ctc_rows_decoded dict (rows : list (list f32)) (C : nat)
    (HC : (0 < C)%nat) (HT : rows <> []) (Hrows : Forall (fun r => length r = C) rows) :
  exists labels, Forall2 best_cell rows labels /\
    ctc_greedy_decode (concat rows) (Z.of_nat (length rows)) (Z.of_nat C) dict
    = Some (reference_decode dict labels).
Proof.
  destruct (ctc_loop_reference dict rows C [] (mkCtcState "" f_zero 0 (-1)) HC Hrows)
    as (labels & Hl & prev & Hloop).
  exists labels. split; [done|]. unfold ctc_greedy_decode.
  destruct (Z.leb_spec (Z.of_nat (length rows)) 0); [destruct rows; [done | cbn in *; lia]|].
  destruct (Z.leb_spec (Z.of_nat C) 0); [lia|]. cbn [orb]. rewrite !Nat2Z.id.
  cbn [app length] in Hloop. rewrite Hloop. cbn [mbind option_bind cs_text conf_sum kept prev_idx].
  unfold reference_decode, emitted. cbn [prev_idx]. set (l := base.filter _ _). f_equal. f_equal.
  destruct l as [|y l]; [done|]. cbn [length]. destruct (Z.ltb_spec 0 (0 + Z.of_nat (S (length l)))); [|lia].
  by rewrite Z.add_0_l.
Qed.

(** C31: The CTC decoder is the greedy decoder.  On any tensor of [T] rows of
    [C] cells it reads nothing outside the tensor and computes the reference:
    the first largest class of each row, consecutive repeats collapsed,
    blanks dropped, the rest looked up in the dictionary, with the mean of
    the kept probabilities as its confidence. *)
Theorem ctc_decode_is_reference dict (rows : list (list f32)) (C : nat)
    (HC : (0 < C)%nat) (HT : rows <> []) (Hrows : Forall (fun r => length r = C) rows) :
  exists labels, Forall2 best_cell rows labels /\
    ctc_greedy_decode (concat rows) (Z.of_nat (length rows)) (Z.of_nat C) dict
    = Some (reference_decode dict labels).
Proof. by apply ctc_rows_decoded. Qed.

(** Two rows say "7", a blank, then "7" again, and an unknown class. *)
Definition sample_rows : list (list f32) :=
  [[f_zero; f_half; f_zero]; [f_zero; f_0_7; f_zero]; [f_0_7; f_zero; f_half];
   [f_zero; f_0_7; f_half]; [f_zero; f_half; f_0_7]].

Lemma ctc_decode_is_reference_witness :
  exists labels, Forall2 best_cell sample_rows labels /\
    ctc_greedy_decode (concat sample_rows) 5 3 ["7"%string] = Some (reference_decode ["7"%string] labels) /\
    ctc_text (reference_decode ["7"%string] labels) = "77"%string.
Proof.
  destruct (ctc_decode_is_reference ["7"%string] sample_rows 3) as (labels & Hl & Hd).
  - lia.
  - discriminate.
  - repeat constructor.
  - exists labels. split; [exact Hl|]. split; [exact Hd|].
    assert (Hc : ctc_text <$> ctc_greedy_decode (concat sample_rows) 5 3 ["7"%string]
                 = Some "77"%string) by (vm_compute; reflexivity).
    change (Z.of_nat (length sample_rows)) with 5 in Hd. change (Z.of_nat 3) with 3 in Hd.
    rewrite Hd in Hc. cbn in Hc. injection Hc as Hc. exact Hc.
Defined.

(** ** What the pipeline reports *)

(** A box that starts inside a [cols] x [rows] image and is not empty. *)
Definition box_inside (cols rows : Z) (b : Rect2f) : Prop :=
  fle f_zero (rx b) = true /\ flt (rx b) (f32_of_Z cols) = true /\
  fle f_zero (ry b) = true /\ flt (ry b) (f32_of_Z rows) = true.

Lemma flt_not_nan x y : flt x y = true -> is_nan x = false /\ is_nan y = false.
Proof. destruct x, y; done. Qed.

Lemma fmax_zero a : is_nan (fmax f_zero a) = false /\ fle f_zero (fmax f_zero a) = true.
Proof.
  unfold fmax. destruct (flt f_zero a) eqn:H; [|done]. pose proof (flt_not_nan _ _ H) as [_ Hn].
  split; [done|]. rewrite fle_nlt by done.
  destruct (flt a f_zero) eqn:H'; [|done]. pose proof (flt_trans _ _ _ H H') as Hc.
  by rewrite flt_irrefl in Hc.
Qed.

Lemma fmin_bound w a : is_nan w = false -> is_nan (fmin w a) = false /\ fle (fmin w a) w = true.
Proof.
  intros Hw. unfold fmin. destruct (flt a w) eqn:H.
  - pose proof (flt_not_nan _ _ H) as [Ha _]. split; [done|]. rewrite fle_nlt by done.
    destruct (flt w a) eqn:H'; [|done]. pose proof (flt_trans _ _ _ H H') as Hc.
    by rewrite flt_irrefl in Hc.
  - split; [done|]. rewrite fle_nlt by done. by rewrite flt_irrefl.
Qed.

(** One axis of the clamping. *)
Lemma clamped_axis a w b :
  is_nan w = false -> fle (fmin w b) (fmax f_zero a) = false ->
  fle f_zero (fmax f_zero a) = true /\ flt (fmax f_zero a) w = true.
Proof.
  intros Hw H. destruct (fmax_zero a) as [Hn H0], (fmin_bound w b Hw) as [Hm H1].
  split; [done|]. rewrite fle_nlt in H, H1 by done.
  apply negb_false_iff in H. apply negb_true_iff in H1.
  destruct (flt_negtrans (fmax f_zero a) w (fmin w b) Hw H) as [E|E]; [done | congruence].
Qed.

(** Whatever the tensor holds, NaN and infinities included, an unmapped box
    is empty or inside the image. *)
Lemma unmapped_box_inside x1 y1 x2 y2 lb cols rows :
  let u := unmap_letterbox_box x1 y1 x2 y2 lb cols rows in
  u = Rect2f_empty \/ box_inside cols rows u.
Proof.
  unfold unmap_letterbox_box. cbv zeta. destruct (_ || _) eqn:E; [by left|]. right.
  apply orb_false_elim in E as [Ex Ey].
  apply clamped_axis in Ex; [|apply binary_normalize_not_nan].
  apply clamped_axis in Ey; [|apply binary_normalize_not_nan].
  destruct Ex, Ey. by split_and!.
Qed.

Definition falling (a b : Detection) : Prop := flt (d_confidence a) (d_confidence b) = false.
Definition scored (d : Detection) : Prop := is_nan (d_confidence d) = false.

Lemma insert_by_conf_perm d l : insert_by_conf d l ≡ₚ d :: l.
Proof.
  induction l as [|x l IH]; [done|]. cbn [insert_by_conf]. case_match; [|done].
  rewrite IH. constructor.
Qed.

Lemma sort_by_conf_perm l : sort_by_conf l ≡ₚ l.
Proof.
  induction l as [|d l IH]; [done|]. cbn [sort_by_conf foldr]. rewrite insert_by_conf_perm.
  by constructor.
Qed.

Lemma insert_by_conf_sorted d l :
  scored d -> Forall scored l -> StronglySorted falling l -> StronglySorted falling (insert_by_conf d l).
Proof.
  intros Hd Hl Hs. induction Hs as [|x l Hs IH Hx]; cbn [insert_by_conf]; [by repeat constructor|].
  apply Forall_cons in Hl as [Hxn Hl]. destruct (flt (d_confidence d) (d_confidence x)) eqn:E.
  - constructor; [by apply IH|]. rewrite insert_by_conf_perm. constructor; [|done].
    unfold falling. destruct (flt (d_confidence x) (d_confidence d)) eqn:E'; [|done].
    pose proof (flt_trans _ _ _ E E') as Hc. by rewrite flt_irrefl in Hc.
  - constructor; [by constructor|]. constructor; [done|].
    eapply Forall_impl; [exact Hx|]. intros y Hy. unfold falling in *.
    destruct (flt (d_confidence d) (d_confidence y)) eqn:E'; [|done].
    destruct (flt_negtrans _ (d_confidence x) _ Hxn E'); congruence.
Qed.

Lemma sort_by_conf_sorted l : Forall scored l -> StronglySorted falling (sort_by_conf l).
Proof.
  induction 1 as [|d l Hd Hl IH]; [constructor|]. cbn [sort_by_conf foldr].
  apply insert_by_conf_sorted; [done | | done]. by rewrite sort_by_conf_perm.
Qed.

Definition acceptable (cfg : DetectorConfig) (cols rows : Z) (raw : RawDetections) (d : Detection)
    : Prop :=
  flt (d_confidence d) (confidence_floor cfg) = false /\ d_confidence d ∈ scores_host raw /\
  box_inside cols rows (d_box d).

Lemma decode_one_ok cfg lb cols rows raw i d :
  decode_one cfg lb cols rows raw i = Some (Some d) -> acceptable cfg cols rows raw d.
Proof.
  unfold decode_one. intros H. apply bind_Some in H as (score & Hs & H).
  destruct (flt score _) eqn:Hf; [done|].
  repeat (apply bind_Some in H as (? & _ & H)).
  set (u := unmap_letterbox_box _ _ _ _ _ _ _) in *.
  destruct (_ || _) eqn:Hd; [done|]. apply bind_Some in H as (cls & _ & H). injection H as <-.
  split_and!; cbn; [done | by eapply list_elem_of_lookup_2|].
  edestruct unmapped_box_inside as [Hu|Hu]; [|exact Hu]. fold u in Hu. by rewrite Hu in Hd.
Qed.

Lemma decode_loop_ok (f : nat -> option (option Detection)) P ixs l :
  (forall i d, f i = Some (Some d) -> P d) -> decode_loop f ixs = Some l ->
  Forall P l /\ (length l <= length ixs)%nat.
Proof.
  intros Hf. revert l. induction ixs as [|i ixs IH]; intros l H; cbn [decode_loop] in H.
  { by simplify_eq. }
  apply bind_Some in H as (d & Hd & H). apply bind_Some in H as (ds & Hds & H).
  destruct (IH ds Hds) as [Hp Hlen]. destruct d as [d|]; simplify_eq; cbn; split; try lia; [|done].
  constructor; [by eapply Hf | done].
Qed.

Lemma detect_ok cfg cols rows ok raw l :
  detect cfg cols rows ok raw = Some (inr l) ->
  Forall (acceptable cfg cols rows raw) l /\
  (Z.of_nat (length l) <= Z.max 0 (Z.min (num_dets raw) (max_detections cfg))) /\
  (Forall (fun s => is_nan s = false) (scores_host raw) -> StronglySorted falling l).
Proof.
  unfold detect. intros H. do 2 (case_match; [done|]).
  apply bind_Some in H as ([lb r] & _ & H). case_match; [done|].
  apply bind_Some in H as (dets & Hd & H). injection H as <-.
  apply (decode_loop_ok _ (acceptable cfg cols rows raw)) in Hd as [Hp Hl];
    [|intros i d; apply decode_one_ok].
  rewrite length_seq in Hl. split_and!.
  - by rewrite sort_by_conf_perm.
  - rewrite sort_by_conf_perm. lia.
  - intros Hn. apply sort_by_conf_sorted. eapply Forall_impl; [exact Hp|].
    intros d (_ & Hs & _). by eapply Forall_forall in Hn.
Qed.

Lemma sublist_sorted {A} (R : A -> A -> Prop) (l k : list A) :
  sublist l k -> StronglySorted R k -> StronglySorted R l.
Proof.
  induction 1 as [|x l k Hlk IH|x l k Hlk IH]; intros Hs; [done | |];
    apply StronglySorted_inv in Hs as [Hs Hx]; [|by apply IH].
  constructor; [by apply IH|]. apply Forall_forall. intros y Hy.
  eapply Forall_forall in Hx; [exact Hx|]. by eapply elem_of_submseteq, sublist_submseteq.
Qed.

Lemma crops_of_ok cfg cols rows ds crops :
  crops_of cfg cols rows ds = Some crops ->
  sublist crops.*1 ds /\ Forall (fun x => crop_of cfg cols rows x.1 = Some (Some x.2)) crops /\
  (forall d, d ∈ ds -> d ∉ crops.*1 -> crop_of cfg cols rows d = Some None).
Proof.
  revert crops. induction ds as [|d ds IH]; intros crops H; cbn [crops_of] in H.
  { simplify_eq. split_and!; [done | constructor | set_solver]. }
  apply bind_Some in H as (roi & Hroi & H). apply bind_Some in H as (rest & Hr & H).
  destruct (IH rest Hr) as (Hs & Hf & Hd).
  destruct roi as [roi|]; simplify_eq; cbn; split_and!.
  - by constructor.
  - by constructor.
  - intros d' [-> | Hin]%elem_of_cons Hn; [set_solver | apply Hd; set_solver].
  - by constructor.
  - done.
  - intros d' [-> | Hin]%elem_of_cons Hn; [done | by apply Hd].
Qed.

Lemma recognize_batch_ok r ls ts :
  recognize_batch r ls = Some ts -> Forall2 (fun l t => recognize r l = Some t) ls ts.
Proof.
  revert ts. induction ls as [|l ls IH]; intros ts H; cbn [recognize_batch] in H;
    [simplify_eq; constructor|].
  apply bind_Some in H as (t & Ht & H). apply bind_Some in H as (ts' & Hts & H). simplify_eq.
  constructor; [done | by apply IH].
Qed.

(** The reading [rd] of detection [x.1] comes from its own crop [x.2]. *)
Definition read_from (r : Recognizer) (ocr : Rect -> list f32) (x : Detection * Rect)
    (rd : PlateReading) : Prop :=
  pr_box rd = d_box x.1 /\ detection_score rd = d_confidence x.1 /\
  recognize r (ocr x.2) = Some (mkCtc (pr_text rd) (ocr_score rd)).


(** A 640 x 480 frame with three candidates: a clear plate, a weak one under
    the floor, and the best one, whose box has a NaN corner. *)
Definition f_of (z : Z) : f32 := f32_of_Z z.
Definition f_div4 (x : f32) : f32 := fdiv x (f_of 4).
Definition sample_detector : DetectorConfig := mkDetector 640 640 (f_div4 f_half) 100.
Definition sample_raw : RawDetections :=
  mkRaw 3 [f_of 100; f_of 200; f_of 180; f_of 230; f_of 0; f_of 0; f_of 50; f_of 50;
           S754_nan; f_of 300; f_of 80; f_of 340]
    [f_half; f_zero; f_0_7] [0; 0; 0].
Definition sample_recognizer : Recognizer := mkRecognizer 5 3 ["7"%string; "8"%string].
Definition sample_pipeline : PipelineConfig := mkPipeline (f_div4 f_half) 8.

Definition sample_readings : list PlateReading :=
  match process sample_detector sample_recognizer sample_pipeline 640 480 true sample_raw
          (fun _ => concat sample_rows) with
  | Some (inr l) => l
  | _ => []
  end.


(** A box from 0.6 to 1.5 pixels covers two columns; its crop keeps one. *)
Example crop_loses_a_column :
  let x1 := fdiv (f_of 3) (f_of 5) in
  expand_box_with_margin (mkRect2f x1 f_zero (fsub (fdiv (f_of 3) (f_of 2)) x1) (f_of 1))
    10 10 f_zero 1 = Some (mkRect 0 0 1 1).
Proof. reflexivity. Qed.

(** A full-HD frame on the 640 x 640 canvas. *)
Example letterbox_full_hd :
  snd <$> letterbox 1920 1080 640 640 = Some (mkRect 0 140 640 360).
Proof. reflexivity. Qed.
