(* ===== verification/Preprocess.v ===== *)
(** What the networks are shown: the pixels of a frame or a crop on their way
    into a network's input tensor
    (src/server/inference/src/detail/cpu_algorithms.cpp, the first half of
    YoloPlateDetector::detect and PaddleOcrRecognizer::preprocess_).

    OpenCV is outside the repository: resampling, the conversion to floats and
    the arithmetic of whole channels are a class of pixel operations; an
    assertion of its that fails is an error of this model.  Networks takes the
    bytes of these tensors. *)

From S2P Require Import Prelude Float32 Inference.
Local Open Scope Z_scope.

(** An 8-bit image of three channels: a value for row, column and channel. *)
Record Mat := mkMat { mat_rows : Z; mat_cols : Z; mat_at : nat -> nat -> nat -> Z }.

Class OpenCv := {
  (** [cv::resize] to a width and a height, [INTER_LINEAR]. *)
  cv_resize : Mat -> Z -> Z -> nat -> nat -> nat -> Z;
  (** [convertTo(.., CV_32FC3, 1.0 / 255.0)] on one value. *)
  cv_unit : Z -> f32;
  (** [(channel - mean) / stddev] on one value. *)
  cv_normalise : f32 -> f32 -> f32 -> f32;
}.

(** The contiguous planes of a tensor, channel by channel and row by row. *)
Definition chw {A} (h w : nat) (px : nat -> nat -> nat -> A) : list A :=
  c ← seq 0 3; y ← seq 0 h; x ← seq 0 w; [px c y x].

(** The region [r] lies on a canvas of [w] x [h], as [Mat::operator()]
    asserts. *)
Definition roi_ok (r : Rect) (w h : Z) : bool :=
  (0 <=? ix r) && (0 <=? iw r) && (ix r + iw r <=? w) &&
  (0 <=? iy r) && (0 <=? ih r) && (iy r + ih r <=? h).

(** The pixel of a canvas that is [pad] outside [r] and [img] inside. *)
Definition paste (r : Rect) (pad : Z) (img : nat -> nat -> nat -> Z) (y x c : nat) : Z :=
  let yz := Z.of_nat y in let xz := Z.of_nat x in
  if (ix r <=? xz) && (xz <? ix r + iw r) && (iy r <=? yz) && (yz <? iy r + ih r)
  then img (Z.to_nat (yz - iy r)) (Z.to_nat (xz - ix r)) c else pad.

Section preprocess.
Context `{!OpenCv}.

(** [letterbox]: [None] is undefined behaviour, [inl] a failed assertion. *)
Definition letterbox_image (src : Mat) (dst_w dst_h pad_value : Z)
    : option (string + (LetterboxParams * (nat -> nat -> nat -> Z))) :=
  '(lb, r) ← letterbox (mat_cols src) (mat_rows src) dst_w dst_h;
  Some (if (iw r <=? 0) || (ih r <=? 0) then inl "cv::resize"%string
        else if negb (roi_ok r dst_w dst_h) then inl "cv::Mat::operator()"%string
        else inr (lb, paste r pad_value (cv_resize src (iw r) (ih r)))).

(** The first half of [detect]: the tensor of the detector, letterboxed, RGB,
    in [0, 1].  [type_ok] is the test for three 8-bit channels. *)
Definition detector_input (cfg : DetectorConfig) (type_ok : bool) (bgr : Mat)
    : option (string + list f32) :=
  let w := det_input_width cfg in let h := det_input_height cfg in
  if (mat_cols bgr <=? 0) || (mat_rows bgr <=? 0)
  then Some (inl "YoloPlateDetector::detect: input image is empty"%string)
  else if negb type_ok
  then Some (inl "YoloPlateDetector::detect: input must be CV_8UC3 (BGR)"%string)
  else
    canvas ← letterbox_image bgr w h 114;
    Some (match canvas with
          | inl err => inl err
          | inr (_, at_) =>
              inr (chw (Z.to_nat h) (Z.to_nat w) (fun c y x => cv_unit (at_ y x (2 - c)%nat)))
          end).

(** The configuration of [PaddleOcrRecognizer] that its input depends on. *)
Record OcrInput := mkOcrInput {
  oi_width : Z; oi_height : Z; oi_mean : f32 * f32 * f32; oi_stddev : f32 * f32 * f32;
}.
Definition channel (t : f32 * f32 * f32) (c : nat) : f32 :=
  match c with O => t.1.1 | S O => t.1.2 | _ => t.2 end.

(** The width a crop is resized to; [None] outside [int], or when the bounds of
    [std::clamp] are the wrong way round. *)
Definition resized_width (cfg : OcrInput) (cols rows : Z) : option Z :=
  let aspect := fdiv (f32_of_Z cols) (f32_of_Z rows) in
  new_w ← f_round (fmul (f32_of_Z (oi_height cfg)) aspect) ≫= to_int;
  if oi_width cfg <? 1 then None
  else Some (if new_w <? 1 then 1 else if oi_width cfg <? new_w then oi_width cfg else new_w).

(** [preprocess_]; [type_ok] is the test for three 8-bit channels. *)
Definition recogniser_input (cfg : OcrInput) (type_ok : bool) (src : Mat)
    : option (string + list f32) :=
  if (mat_cols src <=? 0) || (mat_rows src <=? 0) || negb type_ok
  then Some (inl "PaddleOcrRecognizer::preprocess: input must be CV_8UC3 BGR"%string)
  else
    new_w ← resized_width cfg (mat_cols src) (mat_rows src);
    let r := mkRect 0 0 new_w (oi_height cfg) in
    Some (if (oi_height cfg <=? 0) || (new_w <=? 0) then inl "cv::resize"%string
          else if negb (roi_ok r (oi_width cfg) (oi_height cfg)) then inl "cv::Mat::operator()"%string
          else
            let at_ := paste r 0 (cv_resize src new_w (oi_height cfg)) in
            inr (chw (Z.to_nat (oi_height cfg)) (Z.to_nat (oi_width cfg))
                   (fun c y x => cv_normalise (cv_unit (at_ y x c)) (channel (oi_mean cfg) c)
                                   (channel (oi_stddev cfg) c)))).
End preprocess.

(** ** Lemmas *)

(** Equal pieces laid end to end. *)
Lemma bind_seq_lookup {A} (f : nat -> list A) (n k a i j : nat) :
  (forall b, length (f b) = n) -> (i < k)%nat -> (j < n)%nat ->
  (seq a k ≫= f) !! (i * n + j)%nat = f (a + i)%nat !! j.
Proof.
  intros Hf. revert a i. induction k as [|k IH]; intros a i Hi Hj; [lia|]. cbn [seq].
  change ((a :: seq (S a) k) ≫= f) with (f a ++ (seq (S a) k ≫= f)).
  destruct i as [|i].
  - rewrite lookup_app_l by (rewrite Hf; lia). by rewrite Nat.add_0_r.
  - rewrite lookup_app_r by (rewrite Hf; lia). rewrite Hf.
    replace (S i * n + j - n)%nat with (i * n + j)%nat by lia.
    rewrite IH by lia. by rewrite Nat.add_succ_comm.
Qed.

Lemma length_bind_seq {A} (f : nat -> list A) (n k a : nat) :
  (forall b, length (f b) = n) -> length (seq a k ≫= f) = (k * n)%nat.
Proof.
  intros Hf. revert a. induction k as [|k IH]; intros a; [done|]. cbn [seq].
  change ((a :: seq (S a) k) ≫= f) with (f a ++ (seq (S a) k ≫= f)).
  rewrite length_app, IH, Hf. lia.
Qed.

Lemma length_row {A} (w : nat) (px : nat -> A) : length (x ← seq 0 w; [px x]) = w.
Proof. rewrite (length_bind_seq _ 1) by done. lia. Qed.

Lemma length_plane {A} (h w : nat) (px : nat -> nat -> A) :
  length (y ← seq 0 h; x ← seq 0 w; [px y x]) = (h * w)%nat.
Proof. apply length_bind_seq. intros y. apply length_row. Qed.

(** A tensor has [3 * h * w] elements, each where the network looks for it. *)
Lemma length_chw {A} h w (px : nat -> nat -> nat -> A) : length (chw h w px) = (3 * (h * w))%nat.
Proof. unfold chw. apply length_bind_seq. intros c. apply length_plane. Qed.

Lemma chw_lookup {A} h w (px : nat -> nat -> nat -> A) c y x :
  (c < 3)%nat -> (y < h)%nat -> (x < w)%nat ->
  chw h w px !! (c * (h * w) + (y * w + x))%nat = Some (px c y x).
Proof.
  intros Hc Hy Hx. unfold chw.
  rewrite (bind_seq_lookup _ (h * w)) by (done || nia || (intros b; apply length_plane)).
  rewrite (bind_seq_lookup _ w) by (done || intros b; apply length_row).
  replace x with (x * 1 + 0)%nat at 1 by lia.
  by rewrite (bind_seq_lookup _ 1) by (done || lia).
Qed.

(** The resized crop keeps within the canvas. *)
Lemma resized_width_bounds cfg cols rows w :
  resized_width cfg cols rows = Some w -> 1 <= w <= oi_width cfg.
Proof.
  intros H. unfold resized_width in H. apply bind_Some in H as (z & _ & H).
  destruct (Z.ltb_spec (oi_width cfg) 1); [done|]. injection H as <-.
  destruct (Z.ltb_spec z 1), (Z.ltb_spec (oi_width cfg) z); lia.
Qed.

(** ** Properties *)

Section properties.
Context `{!OpenCv}.

(** The recogniser sees the crop.  For a configuration with a positive input
    height, a non-empty crop whose width [resized_width] gives always makes a
    tensor: it fills the input exactly, element [(c, y, x)] of the network is
    the normalised pixel of the resized crop in its columns and of black in
    the padding on the right, and the crop has at least one column. *)
Theorem recogniser_sees_crop cfg src w
    (Hcols : 0 < mat_cols src) (Hrows : 0 < mat_rows src)
    (Hcfg : 1 <= oi_height cfg)
    (Hw : resized_width cfg (mat_cols src) (mat_rows src) = Some w) :
  exists t, recogniser_input cfg true src = Some (inr t) /\ 1 <= w <= oi_width cfg /\
    Z.of_nat (length t) = 3 * (oi_height cfg * oi_width cfg) /\
    forall c y x, (c < 3)%nat -> Z.of_nat y < oi_height cfg -> Z.of_nat x < oi_width cfg ->
      t !! (c * (Z.to_nat (oi_height cfg) * Z.to_nat (oi_width cfg)) + (y * Z.to_nat (oi_width cfg) + x))%nat =
      Some (cv_normalise
              (cv_unit (if Z.of_nat x <? w then cv_resize src w (oi_height cfg) y x c else 0))
              (channel (oi_mean cfg) c) (channel (oi_stddev cfg) c)).
Proof.
  pose proof (resized_width_bounds cfg _ _ w Hw) as Hb.
  unfold recogniser_input. rewrite Hw.
  rewrite (proj2 (Z.leb_gt _ _) Hcols), (proj2 (Z.leb_gt _ _) Hrows). cbn [orb negb mbind option_bind].
  rewrite (proj2 (Z.leb_gt (oi_height cfg) 0)), (proj2 (Z.leb_gt w 0)) by lia. cbn [orb].
  assert (roi_ok (mkRect 0 0 w (oi_height cfg)) (oi_width cfg) (oi_height cfg) = true) as ->.
  { unfold roi_ok. cbn. rewrite !andb_true_iff, !Z.leb_le. lia. }
  cbn [negb]. eexists. split; [reflexivity|]. split; [done|]. split; [rewrite length_chw; lia|].
  intros c y x Hc Hy Hx. rewrite chw_lookup by (try done; lia). do 3 f_equal.
  unfold paste. cbn [ix iy iw ih]. rewrite !Z.sub_0_r, !Nat2Z.id.
  rewrite (proj2 (Z.leb_le 0 (Z.of_nat x))), (proj2 (Z.leb_le 0 (Z.of_nat y))) by lia.
  rewrite (proj2 (Z.ltb_lt (Z.of_nat y) (0 + oi_height cfg))) by lia.
  by rewrite Z.add_0_l, !andb_true_r, ?andb_true_l.
Qed.

(** The detector sees the frame.  Whenever [detect] gets as far as the network,
    the frame has the right type, the tensor fills the input exactly, and its element [(c, y, x)] is the unit
    value of channel [2 - c] of the resized frame inside the letterbox, which
    lies on the canvas, and of the grey 114 around it. *)
Theorem detector_sees_frame cfg type_ok bgr t
    (Hin : detector_input cfg type_ok bgr = Some (inr t))
    (Hcfg : 0 <= det_input_width cfg /\ 0 <= det_input_height cfg) :
  type_ok = true /\ exists lb r, letterbox (mat_cols bgr) (mat_rows bgr) (det_input_width cfg) (det_input_height cfg)
                 = Some (lb, r) /\
    roi_ok r (det_input_width cfg) (det_input_height cfg) = true /\ 0 < iw r /\ 0 < ih r /\
    Z.of_nat (length t) = 3 * (det_input_height cfg * det_input_width cfg) /\
    forall c y x, (c < 3)%nat -> Z.of_nat y < det_input_height cfg -> Z.of_nat x < det_input_width cfg ->
      t !! (c * (Z.to_nat (det_input_height cfg) * Z.to_nat (det_input_width cfg))
            + (y * Z.to_nat (det_input_width cfg) + x))%nat =
      Some (cv_unit (paste r 114 (cv_resize bgr (iw r) (ih r)) y x (2 - c)%nat)).
Proof.
  unfold detector_input, letterbox_image in Hin.
  destruct ((mat_cols bgr <=? 0) || _); [done|]. destruct type_ok; [|done]. split; [done|]. cbn [negb] in Hin.
  destruct (letterbox _ _ _ _) as [[lb r]|]; [|done]. cbn [mbind option_bind] in Hin.
  destruct (Z.leb_spec (iw r) 0); [done|]. destruct (Z.leb_spec (ih r) 0); [done|]. cbn [orb] in Hin.
  destruct (roi_ok _ _ _) eqn:Hroi; [|done]. cbn [negb] in Hin. injection Hin as <-.
  exists lb, r. rewrite length_chw. split_and!; try done; [lia|].
  intros c y x Hc Hy Hx. by rewrite chw_lookup by (try done; lia).
Qed.
End properties.

(** ** The hypotheses can hold *)

(** Sampling by the nearest pixel; values kept, not scaled. *)
Definition nearest_cv : OpenCv := {|
  cv_resize m w h y x c :=
    mat_at m (Z.to_nat (Z.of_nat y * mat_rows m / h)) (Z.to_nat (Z.of_nat x * mat_cols m / w)) c;
  cv_unit v := f32_of_Z v;
  cv_normalise v mean sd := fdiv (fsub v mean) sd;
|}.

Definition two_pixels : Mat := mkMat 1 2 (fun _ x c => Z.of_nat (10 * x + c)).
Definition ocr_1x3 : OcrInput :=
  mkOcrInput 3 1 (f_zero, f_zero, f_zero) (f32_of_Z 1, f32_of_Z 1, f32_of_Z 1).

(** A crop of two pixels on a canvas of three: the last column is padding. *)
Example recogniser_sees_crop_witness :
  @recogniser_input nearest_cv ocr_1x3 true two_pixels =
    Some (inr (map f32_of_Z [0; 10; 0; 1; 11; 0; 2; 12; 0])) /\
  exists t, @recogniser_input nearest_cv ocr_1x3 true two_pixels = Some (inr t) /\
    Z.of_nat (length t) = 3 * (1 * 3).
Proof.
  split; [by vm_compute|].
  destruct (@recogniser_sees_crop nearest_cv ocr_1x3 two_pixels 2) as (t & Ht & _ & Hl & _);
    [done | done | cbn; lia | by vm_compute |].
  by exists t.
Defined.
