(* ===== verification/TrtEngine.v ===== *)
(** The TensorRT wrapper of the inference server (src/server/inference:
    trt_engine.hpp and .cpp): loading a plan, sizing and allocating the device
    buffers, the asynchronous run, and the life cycle of the owning object.

    TensorRT and CUDA are outside the repository.  TensorRT is the interface
    [TensorRT] with the laws [TensorRTLaws]; CUDA is a device memory of live
    allocations, streams of queued operations, and a list that says how each
    fallible call to come ends.  A call of the wrapper runs in a small monad
    over the object and the device; [UB] is a copy outside its allocation, a
    double free or an index outside a vector.  Queued operations run when the
    stream is synchronised or a buffer is freed, which waits for the device. *)

From S2P Require Import Prelude.
From stdpp Require Import pretty.
Local Open Scope Z_scope.

(** ** Types and shapes *)

Inductive DataType :=
| kFLOAT | kHALF | kINT8 | kINT32 | kBOOL | kUINT8 | kFP8 | kBF16 | kINT64 | kINT4 | kFP4 | kE8M0.

#[export] Instance DataType_eq_dec : EqDecision DataType.
Proof. solve_decision. Defined.

(** The dimensions of [nvinfer1::Dims]; a negative one is dynamic, and a
    shape without dimensions is empty. *)
Definition Dims : Type := list Z.

Definition element_size (dt : DataType) : Z :=
  match dt with
  | kFLOAT => 4 | kHALF => 2 | kBF16 => 2 | kINT64 => 8 | kINT32 => 4
  | kINT8 => 1 | kUINT8 => 1 | kBOOL => 1 | kFP8 => 1 | kINT4 => 1 | kFP4 => 1 | kE8M0 => 1
  end.

Fixpoint volume_loop (v : Z) (d : Dims) : Z :=
  match d with
  | [] => v
  | x :: d => if x <? 0 then 0 else volume_loop (u64 (v * x)) d
  end.
Definition volume (d : Dims) : Z := match d with [] => 0 | _ => volume_loop 1 d end.

Definition shape_to_string (d : Dims) : string :=
  "[" +:+ String.concat "," (map pretty d) +:+ "]".

(** The [std::any_of] test of the allocator. *)
Definition has_dynamic (d : Dims) : bool := existsb (fun x => x <? 0) d.

(** The number of bytes the wrapper reckons for a tensor. *)
Definition bytes_of (d : Dims) (elem : Z) : Z := u64 (volume d * elem).

(** ** TensorRT *)

(** The calls of the library.  A context holds the input shapes that were
    set; [kernel] is what a run computes from the bytes of the inputs. *)
Class TensorRT (Eng Ctx : Type) := {
  deserializeCudaEngine : list Z -> option Eng;
  getIOTensorNames : Eng -> list string;
  engineShape : Eng -> string -> Dims;
  getTensorDataType : Eng -> string -> DataType;
  isInput : Eng -> string -> bool;
  getProfileShape : Eng -> string -> Dims;
  createExecutionContext : Eng -> option Ctx;
  setInputShape : Ctx -> string -> Dims -> option Ctx;
  contextShape : Ctx -> string -> Dims;
  kernel : Ctx -> gmap string (list Z) -> gmap string (list Z);
}.

(** The bytes a tensor really takes: 4-bit types are packed in pairs. *)
Definition packed (dt : DataType) : bool := match dt with kINT4 | kFP4 => true | _ => false end.
Definition tensor_bytes `{TensorRT Eng Ctx} (e : Eng) (c : Ctx) (n : string) : nat :=
  let v := volume (contextShape c n) in
  Z.to_nat (if packed (getTensorDataType e n) then (v + 1) / 2
            else v * element_size (getTensorDataType e n)).

(** ** CUDA *)

(** An operation queued on a stream; the copies name a host and a device
    buffer and a number of bytes. *)
Inductive Op (Eng Ctx : Type) :=
| HostToDevice (dst src n : nat)
| Launched (e : Eng) (c : Ctx) (bound : gmap string nat)
| DeviceToHost (dst src n : nat).
Arguments HostToDevice {Eng Ctx} _ _ _.
Arguments Launched {Eng Ctx} _ _ _.
Arguments DeviceToHost {Eng Ctx} _ _ _.

(** Host and device memory, the streams, the next free id, how the calls to
    come end ([None] is success; when the list is used up they succeed), and
    what fresh device memory holds. *)
Record Gpu (Eng Ctx : Type) := mkGpu {
  host : gmap nat (list Z); device : gmap nat (list Z); streams : gmap nat (list (Op Eng Ctx));
  next_id : nat; outcomes : list (option string); garbage : nat -> Z;
}.
Arguments mkGpu {Eng Ctx} _ _ _ _ _ _.
Arguments host {Eng Ctx} _.
Arguments device {Eng Ctx} _.
Arguments streams {Eng Ctx} _.
Arguments next_id {Eng Ctx} _.
Arguments outcomes {Eng Ctx} _.
Arguments garbage {Eng Ctx} _.

(** Reading and overwriting the first bytes of an allocation. *)
Definition fetch (p n : nat) (m : gmap nat (list Z)) : option (list Z) :=
  match m !! p with
  | Some mem => if (n <=? length mem)%nat then Some (take n mem) else None
  | None => None
  end.
Definition overwrite (p : nat) (bs : list Z) (m : gmap nat (list Z)) : option (gmap nat (list Z)) :=
  match m !! p with
  | Some mem =>
      if (length bs <=? length mem)%nat then Some (<[p := bs ++ drop (length bs) mem]> m) else None
  | None => None
  end.

(** ** The wrapper object *)

Record TensorIo := mkIo {
  io_name : string; io_shape : Dims; io_dtype : DataType; io_is_input : bool; io_elem_size : Z;
}.

(** [bound] is the address each tensor was given in the context. *)
Record TrtEngine (Eng Ctx : Type) := mkTrt {
  runtime_ : bool; engine_ : option Eng; context_ : option Ctx; bound : gmap string nat;
  tensors_ : list TensorIo; name_to_index_ : gmap string nat;
  device_buffers_ : list (option nat); device_buffer_bytes_ : list Z; stream_ : option nat;
}.
Arguments mkTrt {Eng Ctx} _ _ _ _ _ _ _ _ _.
Arguments runtime_ {Eng Ctx} _.
Arguments engine_ {Eng Ctx} _.
Arguments context_ {Eng Ctx} _.
Arguments bound {Eng Ctx} _.
Arguments tensors_ {Eng Ctx} _.
Arguments name_to_index_ {Eng Ctx} _.
Arguments device_buffers_ {Eng Ctx} _.
Arguments device_buffer_bytes_ {Eng Ctx} _.
Arguments stream_ {Eng Ctx} _.

Section Model.
Context {Eng Ctx : Type} `{RT : TensorRT Eng Ctx}.
Notation Trt := (TrtEngine Eng Ctx).
Notation Dev := (Gpu Eng Ctx).

(** The default constructor, which is also what a move leaves behind. *)
Definition Trt_empty : Trt := mkTrt false None None ∅ [] ∅ [] [] None.

Definition set_device (m : gmap nat (list Z)) (g : Dev) : Dev :=
  mkGpu (host g) m (streams g) (next_id g) (outcomes g) (garbage g).
Definition set_host (m : gmap nat (list Z)) (g : Dev) : Dev :=
  mkGpu m (device g) (streams g) (next_id g) (outcomes g) (garbage g).
Definition set_streams (m : gmap nat (list (Op Eng Ctx))) (g : Dev) : Dev :=
  mkGpu (host g) (device g) m (next_id g) (outcomes g) (garbage g).
Definition set_outcomes (l : list (option string)) (g : Dev) : Dev :=
  mkGpu (host g) (device g) (streams g) (next_id g) l (garbage g).

Definition set_runtime (x : Trt) : Trt :=
  mkTrt true (engine_ x) (context_ x) (bound x) (tensors_ x) (name_to_index_ x)
    (device_buffers_ x) (device_buffer_bytes_ x) (stream_ x).
Definition set_engine (e : Eng) (x : Trt) : Trt :=
  mkTrt (runtime_ x) (Some e) (context_ x) (bound x) (tensors_ x) (name_to_index_ x)
    (device_buffers_ x) (device_buffer_bytes_ x) (stream_ x).
Definition set_context (c : Ctx) (x : Trt) : Trt :=
  mkTrt (runtime_ x) (engine_ x) (Some c) (bound x) (tensors_ x) (name_to_index_ x)
    (device_buffers_ x) (device_buffer_bytes_ x) (stream_ x).
Definition set_bound (b : gmap string nat) (x : Trt) : Trt :=
  mkTrt (runtime_ x) (engine_ x) (context_ x) b (tensors_ x) (name_to_index_ x)
    (device_buffers_ x) (device_buffer_bytes_ x) (stream_ x).
Definition set_tensors (l : list TensorIo) (ix : gmap string nat) (x : Trt) : Trt :=
  mkTrt (runtime_ x) (engine_ x) (context_ x) (bound x) l ix
    (device_buffers_ x) (device_buffer_bytes_ x) (stream_ x).
Definition set_buffers (l : list (option nat)) (n : list Z) (x : Trt) : Trt :=
  mkTrt (runtime_ x) (engine_ x) (context_ x) (bound x) (tensors_ x) (name_to_index_ x)
    l n (stream_ x).
Definition set_stream (s : nat) (x : Trt) : Trt :=
  mkTrt (runtime_ x) (engine_ x) (context_ x) (bound x) (tensors_ x) (name_to_index_ x)
    (device_buffers_ x) (device_buffer_bytes_ x) (Some s).

(** ** The monad of the wrapper's calls *)

Definition St : Type := Trt * Dev.
Definition M (A : Type) : Type := St -> Res A * St.

Definition ret {A} (a : A) : M A := fun st => (Ok a, st).
Definition throw {A} (e : string) : M A := fun st => (Err e, st).
Definition undefined {A} : M A := fun st => (UB, st).
Definition bind {A B} (m : M A) (k : A -> M B) : M B :=
  fun st => match m st with
            | (Ok a, st) => k a st
            | (Err e, st) => (Err e, st)
            | (UB, st) => (UB, st)
            end.
Definition self : M Trt := fun st => (Ok st.1, st).
Definition gpu : M Dev := fun st => (Ok st.2, st).
Definition on_self (f : Trt -> Trt) : M unit := fun st => (Ok tt, (f st.1, st.2)).
Definition on_gpu (f : Dev -> Dev) : M unit := fun st => (Ok tt, (st.1, f st.2)).
(** Using a value that must be there. *)
Definition need {A} (o : option A) : M A := match o with Some a => ret a | None => undefined end.

Local Notation "'let!' x := m 'in' k" := (bind m (fun x => k))
  (at level 200, x name, m at level 100, k at level 200).

Fixpoint for_each {A} (f : A -> M unit) (l : list A) : M unit :=
  match l with
  | [] => ret tt
  | x :: l => let! _ := f x in for_each f l
  end.

(** How the next fallible call ends. *)
Definition outcome : M (option string) :=
  fun st => match outcomes st.2 with
            | [] => (Ok None, st)
            | o :: os => (Ok o, (st.1, set_outcomes os st.2))
            end.
(** [check_cuda] of the next call. *)
Definition check_cuda (what : string) : M unit :=
  let! o := outcome in
  match o with
  | None => ret tt
  | Some e => throw (what +:+ " failed: " +:+ e)
  end.

Definition fresh : M nat :=
  fun st => (Ok (next_id st.2),
             (st.1, mkGpu (host st.2) (device st.2) (streams st.2) (S (next_id st.2))
                      (outcomes st.2) (garbage st.2))).

Definition cudaStreamCreate : M unit :=
  let! _ := check_cuda "cudaStreamCreate" in
  let! s := fresh in
  let! _ := on_gpu (fun g => set_streams (<[s := []]> (streams g)) g) in
  on_self (set_stream s).

(** [cudaMalloc] into [device_buffers_[i]], and the entry of its size. *)
Definition cudaMalloc (i : nat) (bytes : Z) : M unit :=
  let! _ := check_cuda "cudaMalloc" in
  let! p := fresh in
  let! _ := on_gpu (fun g =>
              set_device (<[p := map (garbage g) (seq 0 (Z.to_nat bytes))]> (device g)) g) in
  on_self (fun x => set_buffers (<[i := Some p]> (device_buffers_ x))
                      (<[i := bytes]> (device_buffer_bytes_ x)) x).

(** Queueing an operation on the object's stream. *)
Definition push_op (o : Op Eng Ctx) : M unit :=
  let! x := self in
  let! s := need (stream_ x) in
  let! g := gpu in
  let! ops := need (streams g !! s) in
  on_gpu (set_streams (<[s := ops ++ [o]]> (streams g))).

(** ** Running queued operations *)

(** The bytes of every input tensor. *)
Fixpoint read_inputs (e : Eng) (c : Ctx) (b : gmap string nat) (dev : gmap nat (list Z))
    (names : list string) : option (gmap string (list Z)) :=
  match names with
  | [] => Some ∅
  | n :: names =>
      m ← read_inputs e c b dev names;
      if isInput e n
      then p ← b !! n; bs ← fetch p (tensor_bytes e c n) dev; Some (<[n := bs]> m)
      else Some m
  end.

(** Storing every output tensor. *)
Fixpoint write_outputs (e : Eng) (b : gmap string nat) (outs : gmap string (list Z))
    (names : list string) (dev : gmap nat (list Z)) : option (gmap nat (list Z)) :=
  match names with
  | [] => Some dev
  | n :: names =>
      if isInput e n then write_outputs e b outs names dev
      else
        p ← b !! n; bs ← outs !! n; dev ← overwrite p bs dev;
        write_outputs e b outs names dev
  end.

Definition run_op (o : Op Eng Ctx) (g : Dev) : option Dev :=
  match o with
  | HostToDevice dst src n =>
      bs ← fetch src n (host g); d ← overwrite dst bs (device g); Some (set_device d g)
  | Launched e c b =>
      ins ← read_inputs e c b (device g) (getIOTensorNames e);
      d ← write_outputs e b (kernel c ins) (getIOTensorNames e) (device g);
      Some (set_device d g)
  | DeviceToHost dst src n =>
      bs ← fetch src n (device g); h ← overwrite dst bs (host g); Some (set_host h g)
  end.

Fixpoint run_ops (ops : list (Op Eng Ctx)) (g : Dev) : option Dev :=
  match ops with
  | [] => Some g
  | o :: ops => g ← run_op o g; run_ops ops g
  end.

(** Waiting for a stream. *)
Definition drain (s : nat) (g : Dev) : option Dev :=
  ops ← streams g !! s;
  g ← run_ops ops g;
  Some (set_streams (<[s := []]> (streams g)) g).

(** ** Loading a plan *)

(** [read_engine_blob]; the file is [None] when it does not open. *)
Definition read_engine_blob (path : string) (file : option (list Z)) (read_ok : bool)
    : string + list Z :=
  match file with
  | None => inl ("failed to open engine file: " +:+ path)
  | Some [] => inl ("engine file is empty: " +:+ path)
  | Some blob => if read_ok then inr blob else inl ("failed to read engine file: " +:+ path)
  end.

(** The descriptor of one tensor. *)
Definition describe (e : Eng) (n : string) : TensorIo :=
  mkIo n (engineShape e n) (getTensorDataType e n) (isInput e n)
    (element_size (getTensorDataType e n)).

(** [name_to_index_.emplace]: a key that is there stays. *)
Definition emplace (n : string) (i : nat) (ix : gmap string nat) : gmap string nat :=
  match ix !! n with Some _ => ix | None => <[n := i]> ix end.

(** The walk over the I/O tensors. *)
Fixpoint walk_tensors (e : Eng) (names : list string) (l : list TensorIo) (ix : gmap string nat)
    : list TensorIo * gmap string nat :=
  match names with
  | [] => (l, ix)
  | n :: names => walk_tensors e names (l ++ [describe e n]) (emplace n (length l) ix)
  end.

(** The first loop of [allocate_buffers_]. *)
Definition allocate_first (e : Eng) (i : nat) : M unit :=
  let! x := self in
  let! io := need (tensors_ x !! i) in
  let max_shape := if has_dynamic (io_shape io) && io_is_input io
                   then getProfileShape e (io_name io) else io_shape io in
  if has_dynamic (io_shape io) && negb (io_is_input io) then ret tt
  else
    let bytes := bytes_of max_shape (io_elem_size io) in
    if bytes =? 0
    then throw ("zero-byte buffer for tensor " +:+ io_name io +:+
                " (shape=" +:+ shape_to_string max_shape +:+ ")")
    else cudaMalloc i bytes.

(** Priming the context with the largest input shapes. *)
Definition prime_input (e : Eng) (io : TensorIo) : M unit :=
  if negb (io_is_input io) then ret tt
  else if negb (has_dynamic (io_shape io)) then ret tt
  else
    let! x := self in
    let! c := need (context_ x) in
    match setInputShape c (io_name io) (getProfileShape e (io_name io)) with
    | Some c => on_self (set_context c)
    | None => throw ("priming setInputShape failed for " +:+ io_name io)
    end.

(** The last loop of [allocate_buffers_]. *)
Definition allocate_second (i : nat) : M unit :=
  let! x := self in
  let! b := need (device_buffers_ x !! i) in
  match b with
  | Some _ => ret tt
  | None =>
      let! io := need (tensors_ x !! i) in
      let! c := need (context_ x) in
      let bytes := bytes_of (contextShape c (io_name io)) (io_elem_size io) in
      if bytes =? 0
      then throw ("could not resolve dynamic output shape for " +:+ io_name io)
      else cudaMalloc i bytes
  end.

Definition dynamic_output (io : TensorIo) : bool :=
  negb (io_is_input io) && has_dynamic (io_shape io).

Definition allocate_buffers_ : M unit :=
  let! x := self in
  let! e := need (engine_ x) in
  let n := length (tensors_ x) in
  let! _ := on_self (set_buffers (replicate n None) (replicate n 0)) in
  let! _ := for_each (allocate_first e) (seq 0 n) in
  if negb (existsb dynamic_output (tensors_ x)) then ret tt
  else
    let! _ := for_each (prime_input e) (tensors_ x) in
    for_each allocate_second (seq 0 n).

(** [load] once the plan is read. *)
Definition load_body (path : string) (blob : list Z) : M unit :=
  let! o := outcome in
  match o with
  | Some _ => throw "createInferRuntime returned null"
  | None =>
      let! _ := on_self set_runtime in
      match deserializeCudaEngine blob with
      | None => throw ("deserializeCudaEngine failed for: " +:+ path)
      | Some e =>
          let! _ := on_self (set_engine e) in
          match createExecutionContext e with
          | None => throw "createExecutionContext returned null"
          | Some c =>
              let! _ := on_self (set_context c) in
              let! _ := cudaStreamCreate in
              let '(l, ix) := walk_tensors e (getIOTensorNames e) [] ∅ in
              let! _ := on_self (set_tensors l ix) in
              allocate_buffers_
          end
      end
  end.

(** ** Ownership *)

(** Freeing every buffer that was allocated; freeing waits for the device. *)
Fixpoint free_all (ps : list (option nat)) (g : Dev) : option Dev :=
  match ps with
  | [] => Some g
  | None :: ps => free_all ps g
  | Some p :: ps =>
      match device g !! p with
      | Some _ => free_all ps (set_device (delete p (device g)) g)
      | None => None
      end
  end.

(** [~TrtEngine], and the tear-down of the move assignment. *)
Definition destroy (x : Trt) (g : Dev) : option Dev :=
  g ← match stream_ x with Some s => drain s g | None => Some g end;
  g ← free_all (device_buffers_ x) g;
  Some (match stream_ x with Some s => set_streams (delete s (streams g)) g | None => g end).

(** The move constructor: the new object and what is left of the other. *)
Definition move_construct (other : Trt) : Trt * Trt := (other, Trt_empty).

(** The move assignment between two objects, or of an object to itself. *)
Definition move_assign (x : Trt) (other : option Trt) (g : Dev) : option (Trt * option Trt * Dev) :=
  match other with
  | None => Some (x, None, g)
  | Some other => g ← destroy x g; Some (other, Some Trt_empty, g)
  end.

(** [TrtEngine::load]: an exception destroys the half-built object. *)
Definition load (path : string) (file : option (list Z)) (read_ok : bool) (g : Dev)
    : Res Trt * Dev :=
  match read_engine_blob path file read_ok with
  | inl err => (Err err, g)
  | inr blob =>
      match load_body path blob (Trt_empty, g) with
      | (Ok _, (x, g)) => (Ok x, g)
      | (Err e, (x, g)) =>
          match destroy x g with Some g => (Err e, g) | None => (UB, g) end
      | (UB, (_, g)) => (UB, g)
      end
  end.

(** ** Use *)

Definition buffer_index_ (name : string) : M nat :=
  let! x := self in
  match name_to_index_ x !! name with
  | Some i => ret i
  | None => throw ("unknown tensor: " +:+ name)
  end.

Definition tensor (name : string) : M TensorIo :=
  let! i := buffer_index_ name in
  let! x := self in
  need (tensors_ x !! i).

Definition device_buffer (name : string) : M nat :=
  let! i := buffer_index_ name in
  let! x := self in
  let! b := need (device_buffers_ x !! i) in
  need b.

Definition set_input_shape (name : string) (shape : Dims) : M unit :=
  let! x := self in
  let! c := need (context_ x) in
  match setInputShape c name shape with
  | Some c => on_self (set_context c)
  | None => throw ("setInputShape rejected " +:+ name +:+ " = " +:+ shape_to_string shape +:+
                   "; not in optimization profile")
  end.

Definition buffer_bytes (name : string) : M Z :=
  let! x := self in
  let! c := need (context_ x) in
  let! io := tensor name in
  ret (bytes_of (contextShape c name) (io_elem_size io)).

(** Binding one tensor's device address. *)
Definition bind_address (i : nat) : M unit :=
  let! x := self in
  let! io := need (tensors_ x !! i) in
  let! b := need (device_buffers_ x !! i) in
  let! p := need b in
  let! o := outcome in
  match o with
  | None => on_self (set_bound (<[io_name io := p]> (bound x)))
  | Some _ => throw ("setTensorAddress failed for " +:+ io_name io)
  end.

Definition size_mismatch (what name : string) (got need : Z) : string :=
  "enqueue: " +:+ what +:+ " '" +:+ name +:+ "' size mismatch (got " +:+ pretty got +:+
  ", need " +:+ pretty need +:+ ")".

(** The length of a host span. *)
Definition span_size (h : nat) : M Z :=
  let! g := gpu in
  let! bs := need (host g !! h) in
  ret (Z.of_nat (length bs)).

(** The copy of one supplied input. *)
Definition copy_in (src : string * nat) : M unit :=
  let! idx := buffer_index_ src.1 in
  let! x := self in
  let! io := need (tensors_ x !! idx) in
  if negb (io_is_input io) then throw ("enqueue: '" +:+ src.1 +:+ "' is not an input tensor")
  else
    let! want := buffer_bytes src.1 in
    let! got := span_size src.2 in
    if negb (got =? want) then throw (size_mismatch "input" src.1 got want)
    else
      let! b := need (device_buffers_ x !! idx) in
      let! p := need b in
      let! _ := check_cuda "cudaMemcpyAsync H->D" in
      push_op (HostToDevice p src.2 (Z.to_nat got)).

(** The copy of one requested output. *)
Definition copy_out (dst : string * nat) : M unit :=
  let! idx := buffer_index_ dst.1 in
  let! x := self in
  let! io := need (tensors_ x !! idx) in
  if io_is_input io then throw ("enqueue: '" +:+ dst.1 +:+ "' is an input, not an output")
  else
    let! want := buffer_bytes dst.1 in
    let! got := span_size dst.2 in
    if negb (got =? want) then throw (size_mismatch "output" dst.1 got want)
    else
      let! b := need (device_buffers_ x !! idx) in
      let! p := need b in
      let! _ := check_cuda "cudaMemcpyAsync D->H" in
      push_op (DeviceToHost dst.2 p (Z.to_nat got)).

(** [enqueueV3] with the context's shapes and addresses as they are now. *)
Definition launch : M unit :=
  let! o := outcome in
  match o with
  | Some _ => throw "enqueueV3 failed (inputs unbound or shape unset?)"
  | None =>
      let! x := self in
      let! e := need (engine_ x) in
      let! c := need (context_ x) in
      push_op (Launched e c (bound x))
  end.

(** [enqueue]; the two maps are given in the order they are traversed, with
    the host buffer each span lies over. *)
Definition enqueue (host_in host_out : list (string * nat)) : M unit :=
  let! x := self in
  let! _ := for_each bind_address (seq 0 (length (tensors_ x))) in
  let! _ := for_each copy_in host_in in
  let! _ := launch in
  for_each copy_out host_out.

(** [sync]: the stream's work is done before an error is reported. *)
Definition sync : M unit :=
  let! x := self in
  let! s := need (stream_ x) in
  let! g := gpu in
  let! g := need (drain s g) in
  let! _ := on_gpu (fun _ => g) in
  check_cuda "cudaStreamSynchronize".

(** ** A run of the object's life *)

(** What a client does with the object it holds: [CallReload] is
    [engine = TrtEngine::load(...)], [CallMove] moves it into a new object
    and destroys the old one. *)
Inductive EngineCall :=
| CallSetInputShape (name : string) (shape : Dims)
| CallEnqueue (host_in host_out : list (string * nat))
| CallSync
| CallReload (path : string) (file : option (list Z)) (read_ok : bool)
| CallMove.

(** One call, with the object and the device afterwards; an exception is
    caught by the client.  [None] is undefined. *)
Definition after (r : Res unit * St) : option St :=
  match r with (UB, _) => None | (_, st) => Some st end.

Definition engine_do (k : EngineCall) (st : St) : option St :=
  match k with
  | CallSetInputShape name shape => after (set_input_shape name shape st)
  | CallEnqueue ins outs => after (enqueue ins outs st)
  | CallSync => after (sync st)
  | CallReload path file read_ok =>
      match load path file read_ok st.2 with
      | (UB, _) => None
      | (Err _, g) => Some (st.1, g)
      | (Ok y, g) =>
          r ← move_assign st.1 (Some y) g;
          let '(x, rest, g) := r in
          g ← match rest with Some y => destroy y g | None => Some g end;
          Some (x, g)
      end
  | CallMove =>
      let '(x, rest) := move_construct st.1 in
      g ← destroy rest st.2;
      Some (x, g)
  end.

Fixpoint engine_run (ks : list EngineCall) (st : St) : option St :=
  match ks with
  | [] => Some st
  | k :: ks => st ← engine_do k st; engine_run ks st
  end.

End Model.

(** ** What TensorRT documents *)

(** A shape that stays within another, unless it is not resolved. *)
Definition within (d m : Dims) : Prop :=
  has_dynamic d = true \/ Forall2 (fun x y => 0 <= x <= y) d m.

Definition product (d : Dims) : Z := foldr Z.mul 1 d.

(** The volume limit of a tensor. *)
Definition bounded (d : Dims) : Prop := has_dynamic d = false -> product d < 2 ^ 31.

(** Contexts keep the shapes they are given; a shape is accepted only within
    the optimisation profile; outputs are largest for the largest inputs; a
    run fills the outputs. *)
Class TensorRTLaws (Eng Ctx : Type) `{TensorRT Eng Ctx} := {
  context_of : Eng -> Ctx -> Prop;
  created_context e c : createExecutionContext e = Some c -> context_of e c;
  shaped_context e c n d c' :
    context_of e c -> setInputShape c n d = Some c' ->
    context_of e c' /\ contextShape c' n = d /\
    forall m, isInput e m = true -> m <> n -> contextShape c' m = contextShape c m;
  static_shape e c n :
    context_of e c -> n ∈ getIOTensorNames e -> has_dynamic (engineShape e n) = false ->
    contextShape c n = engineShape e n;
  input_in_profile e c n :
    context_of e c -> n ∈ getIOTensorNames e -> isInput e n = true ->
    has_dynamic (engineShape e n) = true -> within (contextShape c n) (getProfileShape e n);
  output_in_maximum e c cm n :
    context_of e c -> context_of e cm ->
    (forall m, m ∈ getIOTensorNames e -> isInput e m = true ->
       has_dynamic (engineShape e m) = true -> contextShape cm m = getProfileShape e m) ->
    n ∈ getIOTensorNames e -> isInput e n = false ->
    within (contextShape c n) (contextShape cm n);
  context_volume e c n : context_of e c -> n ∈ getIOTensorNames e -> bounded (contextShape c n);
  profile_volume e n : n ∈ getIOTensorNames e -> bounded (getProfileShape e n);
  context_rank e c n :
    context_of e c -> n ∈ getIOTensorNames e -> length (contextShape c n) = length (engineShape e n);
  distinct_names e : NoDup (getIOTensorNames e);
  kernel_size e c ins n :
    context_of e c -> n ∈ getIOTensorNames e -> isInput e n = false ->
    exists bs, kernel c ins !! n = Some bs /\ length bs = tensor_bytes e c n;
}.

(** ** Sizes *)

Lemma volume_loop_product v d :
  has_dynamic d = false -> 0 <= v < 2 ^ 64 -> volume_loop v d = u64 (v * product d).
Proof.
  revert v. induction d as [|x d IH]; intros v Hd Hv; cbn [volume_loop product foldr].
  - rewrite Z.mul_1_r. symmetry. by apply u64_small.
  - cbn [has_dynamic existsb] in Hd. apply orb_false_iff in Hd as [Hx Hd]. rewrite Hx.
    rewrite IH by (done || (unfold u64; apply Z.mod_pos_bound; lia)). unfold u64, product.
    rewrite Z.mul_mod_idemp_l by lia. f_equal. lia.
Qed.

Lemma product_nonneg d : has_dynamic d = false -> 0 <= product d.
Proof.
  induction d as [|x d IH]; cbn [has_dynamic existsb product foldr]; [lia|].
  intros [Hx Hd]%orb_false_iff. specialize (IH Hd). apply Z.ltb_ge in Hx. unfold product in IH. nia.
Qed.

Lemma volume_dynamic d : has_dynamic d = true -> volume d = 0.
Proof.
  destruct d as [|x0 d0]; [done|]. unfold volume. generalize 1 as v. generalize (x0 :: d0) as d.
  induction d as [|x d IH]; intros v Hd; [done|]. cbn [has_dynamic existsb volume_loop] in *.
  destruct (x <? 0); [done|]. by apply IH.
Qed.

(** The volume of a resolved shape within the limit is exact. *)
Lemma volume_exact d :
  bounded d -> has_dynamic d = false -> volume d = match d with [] => 0 | _ => product d end.
Proof.
  intros Hb Hd. destruct d as [|x d]; [done|]. unfold volume.
  rewrite volume_loop_product by (done || lia). rewrite Z.mul_1_l. apply u64_small.
  pose proof (product_nonneg _ Hd). specialize (Hb Hd). lia.
Qed.

Lemma volume_range d : bounded d -> 0 <= volume d < 2 ^ 31.
Proof.
  intros Hb. destruct (has_dynamic d) eqn:Hd; [by rewrite volume_dynamic|].
  rewrite volume_exact by done. pose proof (product_nonneg _ Hd). specialize (Hb Hd).
  destruct d; lia.
Qed.

Lemma element_size_range dt : 1 <= element_size dt <= 8.
Proof. destruct dt; cbn; lia. Qed.

Lemma bytes_of_exact d dt : bounded d -> bytes_of d (element_size dt) = volume d * element_size dt.
Proof.
  intros Hb. apply u64_small. pose proof (volume_range d Hb). pose proof (element_size_range dt). nia.
Qed.

Lemma within_static d m : within d m -> has_dynamic d = false -> has_dynamic m = false.
Proof.
  intros [H|H] Hd; [by rewrite H in Hd|].
  induction H as [|x y d m Hxy _ IH]; [done|]. cbn [has_dynamic existsb] in *.
  apply orb_false_iff in Hd as [_ Hd]. apply orb_false_iff. split; [apply Z.ltb_ge; lia | by apply IH].
Qed.

Lemma within_product d m : Forall2 (fun x y => 0 <= x <= y) d m -> 0 <= product d <= product m.
Proof. induction 1 as [|x y d m Hxy _ IH]; cbn in *; [lia|]. unfold product in IH. nia. Qed.

Lemma within_refl d : within d d.
Proof.
  unfold within. destruct (has_dynamic d) eqn:Hd; [by left|right].
  induction d as [|x d IH]; constructor; cbn [has_dynamic existsb] in Hd;
    apply orb_false_iff in Hd as [Hx Hd]; [apply Z.ltb_ge in Hx; lia | by apply IH].
Qed.

(** A shape within another needs no more bytes. *)
Lemma within_bytes d m dt :
  within d m -> bounded d -> bounded m ->
  bytes_of d (element_size dt) <= bytes_of m (element_size dt).
Proof.
  intros Hw Hbd Hbm. rewrite !bytes_of_exact by done.
  apply Z.mul_le_mono_nonneg_r; [pose proof (element_size_range dt); lia|].
  destruct (has_dynamic d) eqn:Hd.
  { rewrite volume_dynamic by done. apply volume_range, Hbm. }
  destruct Hw as [Hw|Hw]; [by rewrite Hw in Hd|].
  assert (Hm : has_dynamic m = false) by (eapply within_static; [by right | done]).
  rewrite !volume_exact by done. pose proof (within_product _ _ Hw).
  inversion Hw; subst; [done | lia].
Qed.

Lemma tensor_bytes_le `{TensorRT Eng Ctx} (e : Eng) (c : Ctx) n :
  bounded (contextShape c n) ->
  Z.of_nat (tensor_bytes e c n) <= bytes_of (contextShape c n) (element_size (getTensorDataType e n)).
Proof.
  intros Hb. rewrite bytes_of_exact by done. pose proof (volume_range _ Hb).
  unfold tensor_bytes. set (v := volume _) in *.
  destruct (getTensorDataType e n); cbn [packed element_size];
    Z.to_euclidean_division_equations; lia.
Qed.

(** ** Reasoning about calls *)

Section Proofs.
Context {Eng Ctx : Type} `{RT : TensorRT Eng Ctx, RL : !TensorRTLaws Eng Ctx}.
Notation Trt := (TrtEngine Eng Ctx).
Notation Dev := (Gpu Eng Ctx).
Notation St := (@St Eng Ctx).
Notation M := (@M Eng Ctx).

(** [m] does nothing undefined; [Q] holds when it returns and [E] when it
    throws. *)
Definition wp {A} (m : M A) (Q : A -> St -> Prop) (E : St -> Prop) (st : St) : Prop :=
  match m st with (Ok a, st) => Q a st | (Err _, st) => E st | (UB, _) => False end.

Lemma wp_bind {A B} (m : M A) (k : A -> M B) Q E st :
  wp m (fun a => wp (k a) Q E) E st -> wp (bind m k) Q E st.
Proof. unfold wp, bind. by destruct (m st) as [[a|e|] st']. Qed.

Lemma wp_mono {A} (m : M A) (Q Q' : A -> St -> Prop) (E E' : St -> Prop) st :
  wp m Q E st -> (forall a st, Q a st -> Q' a st) -> (forall st, E st -> E' st) -> wp m Q' E' st.
Proof. unfold wp. destruct (m st) as [[a|e|] st']; auto. Qed.

Lemma wp_ret {A} (a : A) (Q : A -> St -> Prop) E st : Q a st -> wp (ret a) Q E st.
Proof. done. Qed.
Lemma wp_throw {A} e (Q : A -> St -> Prop) E st : E st -> wp (throw e) Q E st.
Proof. done. Qed.
Lemma wp_need {A} (a : A) (Q : A -> St -> Prop) E st : Q a st -> wp (need (Some a)) Q E st.
Proof. done. Qed.
Lemma wp_self (Q : Trt -> St -> Prop) E st : Q st.1 st -> wp self Q E st.
Proof. done. Qed.
Lemma wp_gpu (Q : Dev -> St -> Prop) E st : Q st.2 st -> wp gpu Q E st.
Proof. done. Qed.
Lemma wp_on_self f (Q : unit -> St -> Prop) E (st : St) : Q tt (f st.1, st.2) -> wp (on_self f) Q E st.
Proof. done. Qed.
Lemma wp_on_gpu f (Q : unit -> St -> Prop) E (st : St) : Q tt (st.1, f st.2) -> wp (on_gpu f) Q E st.
Proof. done. Qed.

(** The calls whose result is an outcome only use the list of outcomes. *)
Definition less_outcomes (st st' : St) : Prop :=
  exists os, st' = (st.1, set_outcomes os st.2).

Lemma wp_outcome (Q : option string -> St -> Prop) E st :
  (forall o os, Q o (st.1, set_outcomes os st.2)) -> wp outcome Q E st.
Proof.
  intros HQ. unfold wp, outcome. destruct (outcomes st.2) as [|o os] eqn:Ho; [|apply HQ].
  specialize (HQ None []). destruct st as [x [? ? ? ? ? ?]]. cbn in *. by subst.
Qed.

Lemma wp_check what (Q : unit -> St -> Prop) E st :
  (forall os, Q tt (st.1, set_outcomes os st.2)) -> (forall os, E (st.1, set_outcomes os st.2)) ->
  wp (check_cuda what) Q E st.
Proof.
  intros HQ HE. apply wp_bind, wp_outcome. intros [e|] os; [apply wp_throw, HE | apply wp_ret, HQ].
Qed.

Lemma wp_for_each {A} (f : A -> M unit) l (P E : St -> Prop) st :
  (forall x st, x ∈ l -> P st -> wp (f x) (fun _ => P) E st) ->
  P st -> wp (for_each f l) (fun _ => P) E st.
Proof.
  revert st. induction l as [|x l IH]; intros st Hf HP; cbn [for_each]; [by apply wp_ret|].
  apply wp_bind. eapply wp_mono; [apply Hf; [left|done] | | done].
  intros u st' HP'; cbn in HP'. apply IH; [|done]. intros y st'' Hy. apply Hf. by right.
Qed.

Lemma wp_for_seq (f : nat -> M unit) k n (P : nat -> St -> Prop) E st :
  (forall i st, (k <= i < k + n)%nat -> P i st -> wp (f i) (fun _ => P (S i)) E st) ->
  P k st -> wp (for_each f (seq k n)) (fun _ => P (k + n)%nat) E st.
Proof.
  revert k st. induction n as [|n IH]; intros k st Hf HP; cbn [for_each seq].
  { rewrite Nat.add_0_r. by apply wp_ret. }
  apply wp_bind. eapply wp_mono; [apply Hf; [lia|done] | | done].
  intros u st' HP'; cbn in HP'. replace (k + S n)%nat with (S k + n)%nat by lia. apply IH; [|done].
  intros i st'' Hi. apply Hf. lia.
Qed.

(** ** Memory *)

(** An allocation with room for [n] bytes. *)
Definition room (m : gmap nat (list Z)) (p n : nat) : Prop :=
  exists mem, m !! p = Some mem /\ (n <= length mem)%nat.

Lemma fetch_room m p n : room m p n -> exists bs, fetch p n m = Some bs /\ length bs = n.
Proof.
  intros (mem & Hm & Hn). unfold fetch. rewrite Hm. destruct (Nat.leb_spec n (length mem)); [|lia].
  eexists. split; [done|]. rewrite length_take. lia.
Qed.

Lemma overwrite_room m p bs :
  room m p (length bs) ->
  exists mem, m !! p = Some mem /\ length (bs ++ drop (length bs) mem) = length mem /\
    overwrite p bs m = Some (<[p := bs ++ drop (length bs) mem]> m).
Proof.
  intros (mem & Hm & Hn). unfold overwrite. rewrite Hm.
  destruct (Nat.leb_spec (length bs) (length mem)); [|lia]. exists mem. split; [done|].
  split; [|done]. rewrite length_app, length_drop. lia.
Qed.

(** The same allocations with the same sizes, equal outside [ps]. *)
Definition same_shape (ps : list nat) (m m' : gmap nat (list Z)) : Prop :=
  (forall p, p ∉ ps -> m' !! p = m !! p) /\ forall p, length <$> m' !! p = length <$> m !! p.

Lemma same_shape_refl ps m : same_shape ps m m.
Proof. by split. Qed.
Lemma same_shape_trans ps m1 m2 m3 :
  same_shape ps m1 m2 -> same_shape ps m2 m3 -> same_shape ps m1 m3.
Proof.
  intros [A1 B1] [A2 B2]. split; intros p; [intros Hp|]; [by rewrite A2, A1 | by rewrite B2, B1].
Qed.

Lemma same_shape_insert ps m p mem mem' :
  m !! p = Some mem -> length mem' = length mem -> p ∈ ps -> same_shape ps m (<[p := mem']> m).
Proof.
  intros Hp Hl Hin. split; intros q; [intros Hq|].
  - by rewrite lookup_insert_ne by set_solver.
  - destruct (decide (p = q)) as [<-|]; [|by rewrite lookup_insert_ne].
    rewrite lookup_insert_eq, Hp. cbn. by rewrite Hl.
Qed.

Lemma room_shape ps m m' p n : same_shape ps m m' -> room m p n -> room m' p n.
Proof.
  intros [_ H] (mem & Hm & Hn). specialize (H p). rewrite Hm in H.
  destruct (m' !! p) as [mem'|] eqn:Hm'; [|done]. injection H as H. exists mem'. by rewrite H.
Qed.

(** ** Queued operations stay inside their buffers *)

Definition op_fits (ps : list nat) (dev hst : gmap nat (list Z)) (o : Op Eng Ctx) : Prop :=
  match o with
  | HostToDevice dst src n => dst ∈ ps /\ room dev dst n /\ room hst src n
  | Launched e c b =>
      context_of e c /\
      forall n, n ∈ getIOTensorNames e ->
        exists p, b !! n = Some p /\ p ∈ ps /\ room dev p (tensor_bytes e c n)
  | DeviceToHost dst src n => src ∈ ps /\ room dev src n /\ room hst dst n
  end.

Lemma op_fits_shape ps qs hs dev hst dev' hst' o :
  same_shape qs dev dev' -> same_shape hs hst hst' ->
  op_fits ps dev hst o -> op_fits ps dev' hst' o.
Proof.
  intros Hd Hh. destruct o as [dst src n|e c b|dst src n]; cbn.
  - intros (? & ? & ?). eauto using room_shape.
  - intros [Hc Hn]. split; [done|]. intros n Hin. destruct (Hn n Hin) as (p & ? & ? & ?).
    eauto using room_shape.
  - intros (? & ? & ?). eauto using room_shape.
Qed.

Lemma read_inputs_room e c b dev names :
  (forall n, n ∈ names -> exists p, b !! n = Some p /\ room dev p (tensor_bytes e c n)) ->
  is_Some (read_inputs e c b dev names).
Proof.
  induction names as [|n names IH]; intros Hn; cbn [read_inputs]; [by eexists|].
  destruct IH as [m ->]; [intros n' ?; apply Hn; by right|]. cbn.
  destruct (isInput e n); [|by eexists]. destruct (Hn n) as (p & -> & Hp); [left|].
  destruct (fetch_room _ _ _ Hp) as (bs & Hf & _). cbn. rewrite Hf. by eexists.
Qed.

Lemma write_outputs_room e b outs ps names dev :
  (forall n, n ∈ names -> isInput e n = false ->
     exists p bs, b !! n = Some p /\ p ∈ ps /\ outs !! n = Some bs /\ room dev p (length bs)) ->
  exists dev', write_outputs e b outs names dev = Some dev' /\ same_shape ps dev dev'.
Proof.
  revert dev. induction names as [|n names IH]; intros dev Hn; cbn [write_outputs].
  { exists dev. split; [done | apply same_shape_refl]. }
  destruct (isInput e n) eqn:Hi; [apply IH; intros n' ?; apply Hn; by right|].
  destruct (Hn n) as (p & bs & -> & Hp & -> & Hr); [left|done|]. cbn.
  destruct (overwrite_room _ _ _ Hr) as (mem & Hm & Hl & ->). cbn.
  pose proof (same_shape_insert ps dev p mem _ Hm Hl Hp) as Hs.
  destruct (IH (<[p := bs ++ drop (length bs) mem]> dev)) as (dev' & -> & Hs').
  { intros n' Hin Hi'. destruct (Hn n') as (p' & bs' & ? & ? & ? & ?); [by right|done|].
    exists p', bs'. eauto using room_shape. }
  exists dev'. split; [done|]. by eapply same_shape_trans.
Qed.

(** One operation that fits runs, and keeps every size. *)
Lemma run_op_fits ps o (g : Dev) :
  op_fits ps (device g) (host g) o ->
  exists d h hs, run_op o g = Some (set_device d (set_host h g)) /\
    same_shape ps (device g) d /\ same_shape hs (host g) h.
Proof.
  destruct g as [hst dev str nx os gb]. destruct o as [dst src n|e c b|dst src n]; cbn.
  - intros (Hps & Hd & Hh). destruct (fetch_room _ _ _ Hh) as (bs & -> & Hl). cbn.
    rewrite <- Hl in Hd. destruct (overwrite_room _ _ _ Hd) as (mem & Hm & Hlen & ->). cbn.
    exists (<[dst := bs ++ drop (length bs) mem]> dev), hst, [].
    eauto using same_shape_insert, same_shape_refl.
  - intros [Hc Hn].
    destruct (read_inputs_room e c b dev (getIOTensorNames e)) as [ins ->].
    { intros n Hin. destruct (Hn n Hin) as (p & ? & _ & ?). eauto. }
    cbn. destruct (write_outputs_room e b (kernel c ins) ps (getIOTensorNames e) dev)
      as (dev' & -> & Hs).
    { intros n Hin Hi. destruct (Hn n Hin) as (p & Hb & Hp & Hr).
      destruct (kernel_size e c ins n Hc Hin Hi) as (bs & Hk & Hl). exists p, bs. by rewrite Hl. }
    cbn. exists dev', hst, []. eauto using same_shape_refl.
  - intros (Hps & Hd & Hh). destruct (fetch_room _ _ _ Hd) as (bs & -> & Hl). cbn.
    rewrite <- Hl in Hh. destruct (overwrite_room _ _ _ Hh) as (mem & Hm & Hlen & ->). cbn.
    exists dev, (<[dst := bs ++ drop (length bs) mem]> hst), [dst].
    split; [done|]. split; [apply same_shape_refl|]. eapply same_shape_insert; eauto. by left.
Qed.

Lemma same_shape_app1 hs hs' m m' : same_shape hs m m' -> same_shape (hs ++ hs') m m'.
Proof. intros [H1 H2]. split; [|done]. intros p Hp. apply H1. set_solver. Qed.
Lemma same_shape_app2 hs hs' m m' : same_shape hs m m' -> same_shape (hs' ++ hs) m m'.
Proof. intros [H1 H2]. split; [|done]. intros p Hp. apply H1. set_solver. Qed.

Lemma run_ops_fit ps ops (g : Dev) :
  Forall (op_fits ps (device g) (host g)) ops ->
  exists d h hs, run_ops ops g = Some (set_device d (set_host h g)) /\
    same_shape ps (device g) d /\ same_shape hs (host g) h.
Proof.
  revert g. induction ops as [|o ops IH]; intros g Hf; cbn [run_ops].
  { exists (device g), (host g), []. split; [by destruct g | eauto using same_shape_refl]. }
  inversion Hf as [|? ? Ho Hops]; subst.
  destruct (run_op_fits ps o g Ho) as (d & h & hs & -> & Hd & Hh). cbn.
  destruct (IH (set_device d (set_host h g))) as (d' & h' & hs' & -> & Hd' & Hh').
  { eapply Forall_impl; [done|]. intros o' Ho'. by eapply op_fits_shape. }
  exists d', h', (hs ++ hs'). split; [by destruct g|].
  split; [by eapply same_shape_trans|]. eapply same_shape_trans; eauto using same_shape_app1, same_shape_app2.
Qed.

(** ** Ownership of device memory and streams *)

Definition owned1 (x : Trt) : list nat := omap id (device_buffers_ x).
Definition owned (xs : list Trt) : list nat := concat (map owned1 xs).
Definition owned_streams (xs : list Trt) : list nat := omap stream_ xs.

(** The work queued for one object stays inside its buffers; an object
    without a stream has none. *)
Definition tidy (g : Dev) (x : Trt) : Prop :=
  match stream_ x with
  | None => owned1 x = []
  | Some s => exists ops, streams g !! s = Some ops /\
                Forall (op_fits (owned1 x) (device g) (host g)) ops
  end.

(** The device holds what [W] held and, apart from that, exactly what the
    objects [xs] own, each its own part. *)
Record Own (W : Dev) (xs : list Trt) (g : Dev) : Prop := {
  own_nodup : NoDup (owned xs);
  own_frame p : p ∉ owned xs -> device g !! p = device W !! p;
  own_live p : p ∈ owned xs -> is_Some (device g !! p) /\ device W !! p = None;
  own_snodup : NoDup (owned_streams xs);
  own_sframe s : s ∉ owned_streams xs -> streams g !! s = streams W !! s;
  own_slive s : s ∈ owned_streams xs -> streams W !! s = None;
  own_tidy : Forall (tidy g) xs;
  own_fresh p : (next_id g <= p)%nat -> device g !! p = None /\ streams g !! p = None;
  own_host h : length <$> host g !! h = length <$> host W !! h;
}.

Lemma owned_cons x xs : owned (x :: xs) = owned1 x ++ owned xs.
Proof. done. Qed.
Lemma owned_streams_cons x xs :
  owned_streams (x :: xs) = match stream_ x with Some s => s :: owned_streams xs | None => owned_streams xs end.
Proof. done. Qed.

Lemma Own_perm W xs ys g : xs ≡ₚ ys -> Own W xs g -> Own W ys g.
Proof.
  intros Hp [N F L SN SF SL T R H].
  assert (P1 : owned xs ≡ₚ owned ys).
  { unfold owned. clear -Hp. induction Hp; cbn; [done | by f_equiv | | by etrans].
    rewrite !app_assoc. f_equiv. apply Permutation_app_comm. }
  assert (P2 : owned_streams xs ≡ₚ owned_streams ys) by (unfold owned_streams; by rewrite Hp).
  split; try done.
  - by rewrite <- P1.
  - intros p. rewrite <- P1. apply F.
  - intros p. rewrite <- P1. apply L.
  - by rewrite <- P2.
  - intros s. rewrite <- P2. apply SF.
  - intros s. rewrite <- P2. apply SL.
  - by rewrite <- Hp.
Qed.

(** Nothing of an object but its buffers and stream matters. *)
Lemma Own_same W x x' xs g :
  device_buffers_ x' = device_buffers_ x -> stream_ x' = stream_ x ->
  Own W (x :: xs) g -> Own W (x' :: xs) g.
Proof.
  intros Hb Hs [N F L SN SF SL T R H].
  assert (Ho : owned1 x' = owned1 x) by (unfold owned1; by rewrite Hb).
  assert (E1 : owned (x' :: xs) = owned (x :: xs)) by (rewrite !owned_cons; by rewrite Ho).
  assert (E2 : owned_streams (x' :: xs) = owned_streams (x :: xs))
    by (rewrite !owned_streams_cons; by rewrite Hs).
  assert (T' : Forall (tidy g) (x' :: xs)).
  { inversion T; subst. constructor; [|done]. unfold tidy in *. by rewrite Hs, Ho. }
  split; rewrite ?E1, ?E2; try done; intros ?; rewrite ?E1, ?E2; auto.
Qed.

Lemma Own_outcomes W xs g os : Own W xs g -> Own W xs (set_outcomes os g).
Proof. by intros []. Qed.

Lemma tidy_shape x g g' qs hs :
  (forall s, stream_ x = Some s -> streams g' !! s = streams g !! s) ->
  same_shape qs (device g) (device g') -> same_shape hs (host g) (host g') ->
  tidy g x -> tidy g' x.
Proof.
  intros Hs Hd Hh. unfold tidy. destruct (stream_ x) as [s|]; [|done].
  intros (ops & Hops & Hf). exists ops. rewrite Hs by done. split; [done|].
  eapply Forall_impl; [done|]. intros o Ho. by eapply op_fits_shape.
Qed.

(** Waiting for an object's stream runs its work and leaves it owned. *)
Lemma drain_own W x xs g s :
  Own W (x :: xs) g -> stream_ x = Some s ->
  exists g', drain s g = Some g' /\ Own W (x :: xs) g' /\
    same_shape (owned1 x) (device g) (device g') /\ next_id g' = next_id g.
Proof.
  intros O Hs. destruct O as [N F L SN SF SL T R H]. inversion T as [|? ? Tx Txs]; subst.
  pose proof Tx as Tx'. unfold tidy in Tx'. rewrite Hs in Tx'. destruct Tx' as (ops & Hops & Hf).
  destruct (run_ops_fit _ _ _ Hf) as (d & h & hs & Hrun & Hd & Hh).
  unfold drain. rewrite Hops. cbn. rewrite Hrun. cbn. eexists. split; [done|].
  assert (HO : forall p, p ∉ owned (x :: xs) -> p ∉ owned1 x)
    by (intros p; rewrite owned_cons; set_solver).
  assert (HS : s ∈ owned_streams (x :: xs)) by (rewrite owned_streams_cons, Hs; left).
  split; [|by split]. split; cbn; try done.
  - intros p Hp. rewrite (proj1 Hd) by auto. by apply F.
  - intros p Hp. destruct (L p Hp) as [[mem Hm] HW]. split; [|done].
    pose proof (proj2 Hd p) as Hl. rewrite Hm in Hl. by destruct (d !! p); [eexists|].
  - intros t Ht. rewrite lookup_insert_ne by (intros <-; done). by apply SF.
  - constructor.
    + unfold tidy. rewrite Hs. exists []. cbn. by rewrite lookup_insert_eq.
    + apply Forall_forall. intros y Hy. rewrite Forall_forall in Txs.
      eapply (tidy_shape y g); [| done | done | by apply Txs]. intros t Ht. cbn.
      apply lookup_insert_ne. intros <-. rewrite owned_streams_cons, Hs in SN.
      apply NoDup_cons in SN as [SN _]. apply SN, list_elem_of_omap. by exists y.
  - intros p Hp. destruct (R p Hp) as [R1 R2]. split.
    + pose proof (proj2 Hd p) as Hl. rewrite R1 in Hl. by destruct (d !! p).
    + rewrite lookup_insert_ne; [done|]. intros <-. by rewrite Hops in R2.
  - intros q. rewrite <- H. apply Hh.
Qed.

(** Freeing buffers that are live and distinct. *)
Lemma free_all_spec ps (g : Dev) :
  NoDup (omap id ps) -> (forall p, p ∈ omap id ps -> is_Some (device g !! p)) ->
  exists d, free_all ps g = Some (set_device d g) /\
    forall p, d !! p = if decide (p ∈ omap id ps) then None else device g !! p.
Proof.
  revert g. induction ps as [|[p|] ps IH]; intros g Hn Hl; cbn [free_all omap list_omap id] in *.
  - exists (device g). split; [by destruct g|]. intros p. by rewrite decide_False by set_solver.
  - apply NoDup_cons in Hn as [Hp Hn]. destruct (Hl p) as [mem ->]; [left|].
    destruct (IH (set_device (delete p (device g)) g) Hn) as (d & Hd & Hspec).
    { intros q Hq. cbn. rewrite lookup_delete_ne by (intros <-; done). apply Hl. by right. }
    exists d. split; [by rewrite Hd|]. intros q. rewrite Hspec. cbn.
    destruct (decide (q = p)) as [->|Hne].
    + rewrite lookup_delete_eq. rewrite (decide_True (P := p ∈ p :: _)) by left. by destruct (decide _).
    + rewrite lookup_delete_ne by done. destruct (decide (q ∈ omap id ps)).
      * by rewrite decide_True by (by right).
      * by rewrite decide_False by set_solver.
  - apply IH; done.
Qed.

Lemma Own_cons_nodup W x xs g :
  Own W (x :: xs) g -> NoDup (owned1 x) /\ NoDup (owned xs) /\ (forall p, p ∈ owned1 x -> p ∉ owned xs).
Proof. intros [N _ _ _ _ _ _ _ _]. rewrite owned_cons in N. apply NoDup_app in N. naive_solver. Qed.

(** Dropping an object that owns nothing. *)
Lemma Own_drop W x xs g : owned1 x = [] -> stream_ x = None -> Own W (x :: xs) g <-> Own W xs g.
Proof.
  intros Ho Hs.
  assert (E1 : owned (x :: xs) = owned xs) by (rewrite owned_cons; by rewrite Ho).
  assert (E2 : owned_streams (x :: xs) = owned_streams xs) by (rewrite owned_streams_cons; by rewrite Hs).
  split; intros [N F L SN SF SL T R H]; rewrite ?E1, ?E2 in *.
  - inversion T; subst. split; try done.
  - split; rewrite ?E1, ?E2; try done. constructor; [|done]. unfold tidy. by rewrite Hs.
Qed.

(** The work of [~TrtEngine] after the wait. *)
Lemma release_own W x xs (g : Dev) s d :
  Own W (x :: xs) g -> stream_ x = Some s ->
  (forall p, d !! p = if decide (p ∈ owned1 x) then None else device g !! p) ->
  Own W xs (set_streams (delete s (streams g)) (set_device d g)).
Proof.
  intros O Hs Hd. pose proof (Own_cons_nodup _ _ _ _ O) as (_ & N2 & Nx).
  destruct O as [_ F L SN SF SL T R H]. rewrite owned_streams_cons, Hs in *.
  apply NoDup_cons in SN as [Hnew SN]. inversion T as [|? ? _ Txs]; subst.
  split; cbn; try done.
  - intros p Hp. rewrite Hd. destruct (decide _) as [Hx|Hx].
    + symmetry. apply L. rewrite owned_cons. set_solver.
    + apply F. rewrite owned_cons. set_solver.
  - intros p Hp. rewrite Hd, decide_False by (intros Hx; by apply (Nx p)).
    apply L. rewrite owned_cons. set_solver.
  - intros t Ht. destruct (decide (t = s)) as [->|Hne].
    + rewrite lookup_delete_eq. symmetry. apply SL. by left.
    + rewrite lookup_delete_ne by done. apply SF. set_solver.
  - intros t Ht. apply SL. by right.
  - apply Forall_forall. intros y Hy. rewrite Forall_forall in Txs. specialize (Txs y Hy).
    unfold tidy in *. destruct (stream_ y) as [t|] eqn:Ht; [|done].
    assert (t ∈ owned_streams xs) by (apply list_elem_of_omap; by exists y).
    destruct Txs as (ops & Hops & Hf). exists ops. cbn.
    rewrite lookup_delete_ne by (intros ->; done). split; [done|].
    assert (Hrm : forall p n, p ∈ owned1 y -> room (device g) p n -> room d p n).
    { intros p n Hp (mem & Hm & ?). exists mem. split; [|done]. rewrite Hd, decide_False; [done|].
      intros Hx. apply (Nx p Hx). unfold owned. apply list_elem_of_In, in_concat.
      exists (owned1 y). split; [|by apply list_elem_of_In]. apply in_map. by apply list_elem_of_In. }
    eapply Forall_impl; [done|]. intros [dst src n|e c b|dst src n]; cbn.
    + intros (? & ? & ?). auto.
    + intros [? Hn]. split; [done|]. intros n Hin. destruct (Hn n Hin) as (p & ? & ? & ?). eauto.
    + intros (? & ? & ?). auto.
  - intros p Hp. destruct (R p Hp) as [R1 R2]. split.
    + rewrite Hd. by destruct (decide _).
    + apply lookup_delete_None. by right.
Qed.

Lemma free_nothing ps (g : Dev) : omap id ps = [] -> free_all ps g = Some g.
Proof. induction ps as [|[p|] ps IH]; [done|done|]. apply IH. Qed.

(** Destroying an object gives back what it owns and nothing else. *)
Lemma destroy_own W x xs g :
  Own W (x :: xs) g ->
  exists g', destroy x g = Some g' /\ Own W xs g' /\
    forall p, p ∉ owned1 x -> device g' !! p = device g !! p.
Proof.
  intros O. unfold destroy. destruct (stream_ x) as [s|] eqn:Hs; cbn.
  - destruct (drain_own _ _ _ _ _ O Hs) as (g1 & -> & O1 & Hd & _). cbn.
    pose proof (Own_cons_nodup _ _ _ _ O1) as (N1 & _ & _).
    destruct (free_all_spec (device_buffers_ x) g1 N1) as (d & -> & Hspec).
    { intros p Hp. apply (own_live _ _ _ O1). rewrite owned_cons. apply elem_of_app. by left. }
    cbn. eexists. split; [done|]. split; [by eapply release_own|].
    intros p Hp. cbn. rewrite Hspec, decide_False by done. by apply Hd.
  - assert (Ho : owned1 x = []).
    { pose proof (own_tidy _ _ _ O) as T. inversion T as [|? ? Tx _]; subst.
      unfold tidy in Tx. by rewrite Hs in Tx. }
    rewrite free_nothing by done. cbn. exists g. split; [done|].
    split; [by apply (Own_drop W x xs g Ho Hs) | done].
Qed.

(** Queueing an operation that fits. *)
Lemma push_own W x xs g s ops o :
  Own W (x :: xs) g -> stream_ x = Some s -> streams g !! s = Some ops ->
  op_fits (owned1 x) (device g) (host g) o ->
  Own W (x :: xs) (set_streams (<[s := ops ++ [o]]> (streams g)) g).
Proof.
  intros [N F L SN SF SL T R H] Hs Hops Ho.
  assert (Hin : s ∈ owned_streams (x :: xs)) by (rewrite owned_streams_cons, Hs; left).
  inversion T as [|? ? Tx Txs]; subst.
  split; cbn; try done.
  - intros t Ht. rewrite lookup_insert_ne by (intros <-; done). by apply SF.
  - constructor.
    + unfold tidy in *. rewrite Hs in *. destruct Tx as (ops' & Hops' & Hf).
      rewrite Hops in Hops'. injection Hops' as <-. exists (ops ++ [o]). cbn.
      rewrite lookup_insert_eq. split; [done|]. apply Forall_app. auto.
    + apply Forall_forall. intros y Hy. rewrite Forall_forall in Txs.
      eapply (tidy_shape y g _ [] []); [|apply same_shape_refl..|by apply Txs].
      intros t Ht. cbn. apply lookup_insert_ne. intros <-. rewrite owned_streams_cons, Hs in SN.
      apply NoDup_cons in SN as [SN _]. apply SN, list_elem_of_omap. by exists y.
  - intros p Hp. destruct (R p Hp) as [R1 R2]. split; [done|].
    rewrite lookup_insert_ne; [done|]. intros <-. by rewrite Hops in R2.
Qed.

Lemma omap_insert_perm (l : list (option nat)) i p :
  l !! i = Some None -> omap id (<[i := Some p]> l) ≡ₚ p :: omap id l.
Proof.
  revert i. induction l as [|o l IH]; intros [|i] H; cbn in *; [done|done|by injection H as ->|].
  destruct o as [q|]; cbn; [|by apply IH]. rewrite IH by done. apply Permutation_swap.
Qed.

Definition with_fresh (d : gmap nat (list Z)) (t : gmap nat (list (Op Eng Ctx))) (g : Dev) : Dev :=
  mkGpu (host g) d t (S (next_id g)) (outcomes g) (garbage g).

Lemma owned_fresh W xs g p : Own W xs g -> (next_id g <= p)%nat -> p ∉ owned xs.
Proof.
  intros O Hp Hin. destruct (own_live _ _ _ O p Hin) as [[mem Hm] _].
  by rewrite (proj1 (own_fresh _ _ _ O p Hp)) in Hm.
Qed.

Lemma owned_streams_fresh W xs g s : Own W xs g -> (next_id g <= s)%nat -> s ∉ owned_streams xs.
Proof.
  intros O Hs (y & Hy & Hsy)%list_elem_of_omap.
  pose proof (own_tidy _ _ _ O) as T. rewrite Forall_forall in T. specialize (T y Hy).
  unfold tidy in T. rewrite Hsy in T. destruct T as (ops & Hops & _).
  by rewrite (proj2 (own_fresh _ _ _ O s Hs)) in Hops.
Qed.

(** More memory keeps the queued work inside its buffers. *)
Lemma tidy_extend y (g g' : Dev) :
  device g ⊆ device g' -> streams g ⊆ streams g' -> host g' = host g -> tidy g y -> tidy g' y.
Proof.
  intros Hd Hs Hh. unfold tidy. destruct (stream_ y) as [s|]; [|done].
  intros (ops & Hops & Hf). exists ops. split; [by eapply lookup_weaken|]. rewrite Hh.
  assert (Hr : forall p n, room (device g) p n -> room (device g') p n).
  { intros p n (mem & Hm & ?). exists mem. split; [by eapply lookup_weaken | done]. }
  eapply Forall_impl; [done|]. intros [dst src n|e c b|dst src n]; cbn.
  - intros (? & ? & ?). auto.
  - intros [? Hn]. split; [done|]. intros n Hin. destruct (Hn n Hin) as (p & ? & ? & ?). eauto.
  - intros (? & ? & ?). auto.
Qed.

(** A fresh buffer stored in an empty entry is owned. *)
Lemma malloc_own W x xs (g : Dev) s i mem n :
  Own W (x :: xs) g -> stream_ x = Some s -> device_buffers_ x !! i = Some None ->
  Own W (set_buffers (<[i := Some (next_id g)]> (device_buffers_ x)) n x :: xs)
    (with_fresh (<[next_id g := mem]> (device g)) (streams g) g).
Proof.
  intros O Hs Hi. set (p := next_id g). set (x' := set_buffers _ n x).
  pose proof (owned_fresh _ _ _ p O (Nat.le_refl _)) as Hfr.
  destruct (own_fresh _ _ _ O p (Nat.le_refl _)) as [Hp0 _].
  assert (P1 : owned1 x' ≡ₚ p :: owned1 x) by (by apply omap_insert_perm).
  assert (P : owned (x' :: xs) ≡ₚ p :: owned (x :: xs)) by (rewrite !owned_cons; by rewrite P1).
  assert (E2 : owned_streams (x' :: xs) = owned_streams (x :: xs)) by done.
  destruct O as [N F L SN SF SL T R H].
  assert (Hsub : device g ⊆ <[p := mem]> (device g)) by (by apply insert_subseteq).
  split; cbn [device host streams next_id with_fresh]; rewrite ?E2; try done.
  - rewrite P. by apply NoDup_cons.
  - intros q. rewrite P. intros Hq. rewrite lookup_insert_ne by set_solver. apply F. set_solver.
  - intros q. rewrite P. intros [->|Hq]%elem_of_cons.
    + rewrite lookup_insert_eq. split; [by eexists|]. by rewrite <- F.
    + rewrite lookup_insert_ne by (intros <-; done). by apply L.
  - inversion T as [|? ? Tx Txs]; subst. constructor.
    + pose proof (tidy_extend x g (with_fresh (<[p := mem]> (device g)) (streams g) g)
                    Hsub (reflexivity _) eq_refl Tx) as Tx'.
      unfold tidy in *. cbn [x' set_buffers stream_] in *. rewrite Hs in *.
      destruct Tx' as (ops & Hops & Hf). exists ops. split; [done|].
      eapply Forall_impl; [done|].
      assert (Hi1 : forall q, q ∈ owned1 x -> q ∈ owned1 x') by (intros q; rewrite P1; by right).
      intros [dst src k|e c b|dst src k]; cbn; [naive_solver| |naive_solver].
      intros [? Hn]. split; [done|]. intros k Hin. destruct (Hn k Hin) as (q & ? & ? & ?). eauto.
    + eapply Forall_impl; [done|]. intros y. by apply tidy_extend.
  - intros q Hq. destruct (R q) as [R1 R2]; [lia|]. split; [|done].
    rewrite lookup_insert_ne by lia. done.
Qed.

Lemma stream_own W x xs (g : Dev) :
  Own W (x :: xs) g -> stream_ x = None ->
  Own W (set_stream (next_id g) x :: xs)
    (with_fresh (device g) (<[next_id g := []]> (streams g)) g).
Proof.
  intros O Hs. set (s := next_id g).
  pose proof (owned_streams_fresh _ _ _ s O (Nat.le_refl _)) as Hfr.
  destruct (own_fresh _ _ _ O s (Nat.le_refl _)) as [_ Hs0].
  assert (E1 : owned (set_stream s x :: xs) = owned (x :: xs)) by done.
  destruct O as [N F L SN SF SL T R H].
  assert (E2 : owned_streams (set_stream s x :: xs) = s :: owned_streams (x :: xs))
    by (rewrite !owned_streams_cons; by rewrite Hs).
  assert (Hsub : streams g ⊆ <[s := []]> (streams g)) by (by apply insert_subseteq).
  split; cbn [device host streams next_id with_fresh]; rewrite ?E1, ?E2; try done.
  - by apply NoDup_cons.
  - intros t. intros Ht. rewrite lookup_insert_ne by set_solver. apply SF. set_solver.
  - intros t. intros [->|Ht]%elem_of_cons; [by rewrite <- SF | by apply SL].
  - inversion T as [|? ? Tx Txs]; subst. constructor.
    + unfold tidy. cbn. exists []. by rewrite lookup_insert_eq.
    + eapply Forall_impl; [done|]. intros y. by apply tidy_extend.
  - intros q Hq. destruct (R q) as [R1 R2]; [lia|]. split; [done|]. by rewrite lookup_insert_ne by lia.
Qed.

(** The frame rule: what holds over a device that [xs] own a part of. *)
Lemma Own_frame_rule W xs ys g0 g : Own W xs g0 -> Own g0 ys g -> Own W (ys ++ xs) g.
Proof.
  intros O1 O2. pose proof O1 as [N F L SN SF SL T R H]. pose proof O2 as [N' F' L' SN' SF' SL' T' R' H'].
  assert (E1 : owned (ys ++ xs) = owned ys ++ owned xs)
    by (unfold owned; by rewrite map_app, concat_app).
  assert (E2 : owned_streams (ys ++ xs) = owned_streams ys ++ owned_streams xs)
    by (unfold owned_streams; by rewrite omap_app).
  assert (D1 : forall p, p ∈ owned ys -> p ∉ owned xs).
  { intros p Hp Hx. destruct (L p Hx) as [[m Hm] _]. by rewrite (proj2 (L' p Hp)) in Hm. }
  assert (D2 : forall s, s ∈ owned_streams ys -> s ∉ owned_streams xs).
  { intros s Hs (y & Hy & Hsy)%list_elem_of_omap. rewrite Forall_forall in T. specialize (T y Hy).
    unfold tidy in T. rewrite Hsy in T. destruct T as (ops & Hops & _). by rewrite (SL' s Hs) in Hops. }
  split; rewrite ?E1, ?E2.
  - apply NoDup_app. eauto.
  - intros p Hp. rewrite F' by set_solver. apply F. set_solver.
  - intros p [Hp|Hp]%elem_of_app.
    + destruct (L' p Hp) as [? H0]. split; [done|]. rewrite <- F by auto. done.
    + rewrite F' by (intros ?; by eapply D1). by apply L.
  - apply NoDup_app. eauto.
  - intros s Hs. rewrite SF' by set_solver. apply SF. set_solver.
  - intros s [Hs|Hs]%elem_of_app; [|by apply SL]. rewrite <- SF by auto. by apply SL'.
  - apply Forall_app. split; [done|]. apply Forall_forall. intros y Hy.
    rewrite Forall_forall in T. specialize (T y Hy). unfold tidy in *.
    destruct (stream_ y) as [s|] eqn:Hs; [|done]. destruct T as (ops & Hops & Hf). exists ops.
    split. { rewrite SF'; [done|]. intros Hin. apply (D2 s Hin), list_elem_of_omap. by exists y. }
    assert (Hdev : forall p n, p ∈ owned1 y -> room (device g0) p n -> room (device g) p n).
    { intros p n Hp (mem & Hm & ?). exists mem. split; [|done]. rewrite F'; [done|].
      intros Hin. by rewrite (proj2 (L' p Hin)) in Hm. }
    assert (Hhst : forall p n, room (host g0) p n -> room (host g) p n).
    { intros p n (mem & Hm & ?). specialize (H' p). rewrite Hm in H'.
      destruct (host g !! p) as [mem'|] eqn:Hm'; [|done]. injection H' as H'. exists mem'.
      rewrite H'. done. }
    eapply Forall_impl; [done|]. intros [dst src n|e c b|dst src n]; cbn.
    + intros (? & ? & ?). auto.
    + intros [? Hn]. split; [done|]. intros n Hin. destruct (Hn n Hin) as (p & ? & ? & ?). eauto.
    + intros (? & ? & ?). auto.
  - done.
  - intros h. by rewrite H', H.
Qed.

(** ** Loading *)

(** A buffer large enough for a tensor under every shape the engine takes. *)
Definition capacity (dev : gmap nat (list Z)) (e : Eng) (n : string) (p : nat) : Prop :=
  exists mem, dev !! p = Some mem /\
    forall c, context_of e c ->
      bytes_of (contextShape c n) (element_size (getTensorDataType e n)) <= Z.of_nat (length mem).

(** The parts of a loaded object that no later call changes but the context. *)
Record Wired (x : Trt) (e : Eng) (c : Ctx) : Prop := {
  wi_engine : engine_ x = Some e;
  wi_context : context_ x = Some c;
  wi_of : context_of e c;
  wi_tensors : tensors_ x = map (describe e) (getIOTensorNames e);
  wi_index n i : name_to_index_ x !! n = Some i -> getIOTensorNames e !! i = Some n;
  wi_known n : n ∈ getIOTensorNames e -> is_Some (name_to_index_ x !! n);
  wi_stream : is_Some (stream_ x);
}.

(** Every entry has its buffer, except those that [todo] names. *)
Definition Filled (todo : nat -> string -> Prop) (x : Trt) (dev : gmap nat (list Z)) (e : Eng) : Prop :=
  forall i n, getIOTensorNames e !! i = Some n ->
    (device_buffers_ x !! i = Some None /\ todo i n) \/
    exists p, device_buffers_ x !! i = Some (Some p) /\ capacity dev e n p.

Definition Ready (x : Trt) (g : Dev) (e : Eng) (c : Ctx) : Prop :=
  Wired x e c /\ Filled (fun _ _ => False) x (device g) e.

Lemma capacity_weaken dev dev' e n p : dev ⊆ dev' -> capacity dev e n p -> capacity dev' e n p.
Proof. intros Hs (mem & Hm & Hc). exists mem. split; [by eapply lookup_weaken | done]. Qed.

Lemma wp_for_prefix {A} (f : A -> M unit) l (P : list A -> St -> Prop) E st :
  (forall l1 x st, l1 ++ [x] `prefix_of` l -> P l1 st -> wp (f x) (fun _ => P (l1 ++ [x])) E st) ->
  P [] st -> wp (for_each f l) (fun _ => P l) E st.
Proof.
  intros Hf HP.
  cut (forall l2 l1 st, l1 ++ l2 = l -> P l1 st -> wp (for_each f l2) (fun _ => P l) E st).
  { intros H. by apply (H l []). }
  clear HP st. induction l2 as [|x l2 IH]; intros l1 st <- HP; cbn [for_each].
  { rewrite app_nil_r in *. by apply wp_ret. }
  apply wp_bind. eapply wp_mono; [apply Hf; [|done] | | done].
  { exists l2. by rewrite <- app_assoc. }
  intros u st' HP'; cbn in HP'. apply (IH (l1 ++ [x])); [by rewrite <- app_assoc | done].
Qed.

Lemma wp_malloc i bytes (Q : unit -> St -> Prop) E (x : Trt) (g : Dev) :
  (forall os, E (x, set_outcomes os g)) ->
  (forall os mem, length mem = Z.to_nat bytes ->
     Q tt (set_buffers (<[i := Some (next_id g)]> (device_buffers_ x))
             (<[i := bytes]> (device_buffer_bytes_ x)) x,
           with_fresh (<[next_id g := mem]> (device g)) (streams g) (set_outcomes os g))) ->
  wp (cudaMalloc i bytes) Q E (x, g).
Proof.
  intros HE HQ. apply wp_bind, wp_check; [|done]. intros os. unfold wp. cbn.
  apply (HQ os (map (garbage g) (seq 0 (Z.to_nat bytes)))). by rewrite length_map, length_seq.
Qed.

(** Storing a large enough buffer in an empty entry. *)
Lemma Filled_malloc todo todo' x (g : Dev) e i n mem k :
  (length (device_buffers_ x) = length (getIOTensorNames e))%nat ->
  device g !! next_id g = None -> getIOTensorNames e !! i = Some n ->
  (forall c, context_of e c ->
     bytes_of (contextShape c n) (element_size (getTensorDataType e n)) <= Z.of_nat (length mem)) ->
  (forall j m, j <> i -> todo j m -> todo' j m) ->
  Filled todo x (device g) e ->
  Filled todo' (set_buffers (<[i := Some (next_id g)]> (device_buffers_ x)) k x)
    (<[next_id g := mem]> (device g)) e.
Proof.
  intros Hlen Hfr Hi Hcap Htodo HF j m Hj. cbn [set_buffers device_buffers_].
  destruct (decide (j = i)) as [->|Hne].
  - right. exists (next_id g). rewrite Hi in Hj. injection Hj as <-. split.
    + apply list_lookup_insert_eq. rewrite Hlen. by eapply lookup_lt_Some.
    + exists mem. by rewrite lookup_insert_eq.
  - rewrite list_lookup_insert_ne by done. destruct (HF j m Hj) as [[? ?]|(p & Hp & Hc)].
    + left. eauto.
    + right. exists p. split; [done|]. eapply capacity_weaken; [|done]. by apply insert_subseteq.
Qed.

Lemma bytes_of_nonneg d k : 0 <= bytes_of d k.
Proof. unfold bytes_of, u64. apply Z.mod_pos_bound. lia. Qed.

(** The sizes of the first loop suffice. *)
Lemma first_size e c n :
  context_of e c -> n ∈ getIOTensorNames e ->
  has_dynamic (engineShape e n) && negb (isInput e n) = false ->
  bytes_of (contextShape c n) (element_size (getTensorDataType e n)) <=
  bytes_of (if has_dynamic (engineShape e n) && isInput e n then getProfileShape e n
            else engineShape e n) (element_size (getTensorDataType e n)).
Proof.
  intros Hc Hn Hd. destruct (has_dynamic (engineShape e n)) eqn:Hdyn; cbn in *.
  - apply negb_false_iff in Hd. rewrite Hd. apply within_bytes.
    + by apply input_in_profile.
    + by eapply context_volume.
    + by apply profile_volume.
  - rewrite (static_shape e c n) by done. lia.
Qed.

Lemma walk_spec e names pre ix :
  (forall n i, ix !! n = Some i -> pre !! i = Some n) ->
  (forall n, n ∈ pre -> is_Some (ix !! n)) ->
  let r := walk_tensors e names (map (describe e) pre) ix in
  r.1 = map (describe e) (pre ++ names) /\
  (forall n i, r.2 !! n = Some i -> (pre ++ names) !! i = Some n) /\
  (forall n, n ∈ pre ++ names -> is_Some (r.2 !! n)).
Proof.
  revert pre ix. induction names as [|n names IH]; intros pre ix Hs Hk; cbn [walk_tensors].
  { rewrite app_nil_r. auto. }
  replace (map (describe e) pre ++ [describe e n]) with (map (describe e) (pre ++ [n]))
    by (by rewrite map_app).
  rewrite length_map. rewrite (app_assoc pre [n] names : pre ++ n :: names = _).
  apply IH; unfold emplace; destruct (ix !! n) as [j|] eqn:Hn.
  - intros m i Hm. apply lookup_app_l_Some. by apply Hs.
  - intros m i. destruct (decide (m = n)) as [->|Hne].
    + rewrite lookup_insert_eq. intros [= <-]. by rewrite lookup_app_r, Nat.sub_diag by done.
    + rewrite lookup_insert_ne by done. intros Hm. apply lookup_app_l_Some. by apply Hs.
  - intros m [Hm|Hm]%elem_of_app; [by apply Hk|]. apply list_elem_of_singleton in Hm as ->. by eexists.
  - intros m Hm. destruct (decide (m = n)) as [->|Hne]; [rewrite lookup_insert_eq; by eexists|].
    rewrite lookup_insert_ne by done. apply Hk. apply elem_of_app in Hm as [?|Hm]; [done|].
    by apply list_elem_of_singleton in Hm.
Qed.

(** The state between two steps of the allocation. *)
Record Building (W : Dev) (e : Eng) (todo : nat -> string -> Prop) (st : St) : Prop := {
  bl_wired : exists c, Wired st.1 e c;
  bl_length : length (device_buffers_ st.1) = length (getIOTensorNames e);
  bl_filled : Filled todo st.1 (device st.2) e;
  bl_own : Own W [st.1] st.2;
}.

Definition Broken (W : Dev) (st : St) : Prop := Own W [st.1] st.2.

Lemma Building_malloc W e (todo todo' : nat -> string -> Prop) i n bytes st :
  Building W e todo st -> getIOTensorNames e !! i = Some n -> device_buffers_ st.1 !! i = Some None ->
  0 <= bytes ->
  (forall c, context_of e c ->
     bytes_of (contextShape c n) (element_size (getTensorDataType e n)) <= bytes) ->
  (forall j m, j <> i -> todo j m -> todo' j m) ->
  wp (cudaMalloc i bytes)
    (fun _ st' => Building W e todo' st' /\
       forall j, j <> i -> device_buffers_ st'.1 !! j = device_buffers_ st.1 !! j)
    (Broken W) st.
Proof.
  destruct st as [x g]. intros [[c Hw] Hl HF O] Hi Hnone Hb Hcap Htodo. cbn [fst snd] in *.
  destruct (wi_stream _ _ _ Hw) as [s Hs].
  apply wp_malloc.
  - intros os. by apply Own_outcomes.
  - intros os mem Hm. split.
    + split; cbn [fst snd].
      * exists c. destruct Hw. by split.
      * cbn. by rewrite length_insert.
      * eapply Filled_malloc; try done.
        -- by apply (own_fresh _ _ _ O).
        -- intros c' Hc'. rewrite Hm, Z2Nat.id by done. by apply Hcap.
      * apply (malloc_own W x [] (set_outcomes os g) s i mem _ (Own_outcomes _ _ _ _ O) Hs Hnone).
    + intros j Hj. cbn. by rewrite list_lookup_insert_ne.
Qed.

(** Entries from [i] on are still empty. *)
Definition untouched (i : nat) (st : St) : Prop :=
  forall j, (i <= j < length (device_buffers_ st.1))%nat -> device_buffers_ st.1 !! j = Some None.

Definition dyn_out (e : Eng) (n : string) : Prop :=
  isInput e n = false /\ has_dynamic (engineShape e n) = true.

Lemma allocate_first_ok W e i st :
  (i < length (getIOTensorNames e))%nat ->
  Building W e (fun j n => (i <= j)%nat \/ dyn_out e n) st -> untouched i st ->
  wp (allocate_first e i)
    (fun _ st' => Building W e (fun j n => (S i <= j)%nat \/ dyn_out e n) st' /\ untouched (S i) st')
    (Broken W) st.
Proof.
  intros Hi B U. destruct (lookup_lt_is_Some_2 _ _ Hi) as [n Hn].
  pose proof B as [[c Hw] Hl HF O]. unfold allocate_first.
  apply wp_bind, wp_self, wp_bind.
  rewrite (wi_tensors _ _ _ Hw), list_lookup_fmap, Hn. cbn [fmap option_fmap option_map].
  apply wp_need. cbn [describe io_shape io_is_input io_name io_elem_size].
  assert (Hin : n ∈ getIOTensorNames e) by (by eapply list_elem_of_lookup_2).
  destruct (has_dynamic (engineShape e n) && negb (isInput e n)) eqn:Hd.
  - apply wp_ret. apply andb_prop in Hd as [Hd1 Hd2%negb_true_iff]. split.
    + split; [by exists c | done | | done]. intros j m Hj.
      destruct (HF j m Hj) as [[Hnone [Hle|Hdo]]|Hp]; [|by left; auto|by right].
      left. split; [done|]. destruct (decide (j = i)) as [->|]; [|left; lia].
      right. rewrite Hn in Hj. injection Hj as <-. done.
    + intros j Hj. apply U. lia.
  - pose proof (bytes_of_nonneg (if has_dynamic (engineShape e n) && isInput e n
        then getProfileShape e n else engineShape e n) (element_size (getTensorDataType e n))) as Hpos.
    destruct (_ =? 0) eqn:Hz; [by apply wp_throw|].
    eapply wp_mono;
      [apply (Building_malloc W e _ (fun j n => (S i <= j)%nat \/ dyn_out e n) i n _ st B Hn) | | done].
    + apply U. rewrite Hl. lia.
    + done.
    + intros c' Hc'. by apply first_size.
    + intros j m Hj [?|?]; [left; lia | by right].
    + intros u st' [B' Hsame]. split; [done|]. intros j Hj.
      rewrite (bl_length _ _ _ _ B') in Hj. rewrite Hsame by lia. apply U. rewrite Hl. lia.
Qed.

(** Dynamic inputs of a list of tensors hold the largest shape. *)
Definition primed (e : Eng) (ios : list TensorIo) (c : Ctx) : Prop :=
  forall io, io ∈ ios -> io_is_input io = true -> has_dynamic (io_shape io) = true ->
    contextShape c (io_name io) = getProfileShape e (io_name io).

Lemma prime_input_ok W e todo l1 io st :
  (exists n, io = describe e n) -> (forall io, io ∈ l1 -> exists n, io = describe e n) ->
  Building W e todo st /\ (forall c, context_ st.1 = Some c -> primed e l1 c) ->
  wp (prime_input e io)
    (fun _ st' => Building W e todo st' /\ forall c, context_ st'.1 = Some c -> primed e (l1 ++ [io]) c)
    (Broken W) st.
Proof.
  intros [n ->] Hl1 [B Hp]. pose proof B as [[c Hw] Hl HF O]. unfold prime_input.
  cbn [describe io_shape io_is_input io_name].
  assert (Hskip : (isInput e n = false \/ has_dynamic (engineShape e n) = false) ->
    Building W e todo st /\ forall c, context_ st.1 = Some c -> primed e (l1 ++ [describe e n]) c).
  { intros Hno. split; [done|]. intros c' Hc' io [Hio|Hio]%elem_of_app Hi Hd; [by eapply Hp|].
    apply list_elem_of_singleton in Hio as ->. cbn [describe io_shape io_is_input] in *.
    destruct Hno; congruence. }
  destruct (isInput e n) eqn:Hi; cbn [negb]; [|apply wp_ret; auto].
  destruct (has_dynamic (engineShape e n)) eqn:Hd; cbn [negb]; [|apply wp_ret; auto].
  apply wp_bind, wp_self, wp_bind. rewrite (wi_context _ _ _ Hw). apply wp_need.
  destruct (setInputShape c n (getProfileShape e n)) as [c'|] eqn:Hc'; [|by apply wp_throw].
  destruct (shaped_context e c n _ c' (wi_of _ _ _ Hw) Hc') as (Hof & Hsh & Hoth).
  apply wp_on_self. split.
  - split; cbn [fst snd]; try done.
    + exists c'. destruct Hw. by split.
    + by eapply Own_same; [| |done].
  - cbn. intros c'' [= <-] io [Hio|Hio]%elem_of_app Hi' Hd'.
    + destruct (decide (io_name io = n)) as [->|Hne]; [done|].
      destruct (Hl1 io Hio) as [m ->]. cbn in *.
      rewrite Hoth by done. by apply (Hp c (wi_context _ _ _ Hw) (describe e m)).
    + by apply list_elem_of_singleton in Hio as ->.
Qed.

Definition all_primed (e : Eng) (st : St) : Prop :=
  forall c, context_ st.1 = Some c -> primed e (map (describe e) (getIOTensorNames e)) c.

Lemma wp_keep_context i bytes c (Q : unit -> St -> Prop) E st :
  context_ st.1 = Some c -> wp (cudaMalloc i bytes) Q E st ->
  wp (cudaMalloc i bytes) (fun u st' => Q u st' /\ context_ st'.1 = Some c) E st.
Proof.
  destruct st as [x g]. intros Hc H.
  assert (Hk : wp (cudaMalloc i bytes) (fun _ st' => context_ st'.1 = Some c) (fun _ => True) (x, g))
    by (by apply wp_malloc).
  unfold wp in *. by destruct (cudaMalloc i bytes (x, g)) as [[u|err|] st'].
Qed.

Lemma allocate_second_ok W e i st :
  (i < length (getIOTensorNames e))%nat ->
  Building W e (fun j n => (i <= j)%nat /\ dyn_out e n) st -> all_primed e st ->
  wp (allocate_second i)
    (fun _ st' => Building W e (fun j n => (S i <= j)%nat /\ dyn_out e n) st' /\ all_primed e st')
    (Broken W) st.
Proof.
  intros Hi B P. destruct (lookup_lt_is_Some_2 _ _ Hi) as [n Hn].
  pose proof B as [[c Hw] Hl HF O]. unfold allocate_second. apply wp_bind, wp_self, wp_bind.
  assert (Hin : n ∈ getIOTensorNames e) by (by eapply list_elem_of_lookup_2).
  destruct (HF i n Hn) as [[Hnone [_ Hdo]]|(p & Hp & _)].
  - rewrite Hnone. apply wp_need, wp_bind.
    rewrite (wi_tensors _ _ _ Hw), list_lookup_fmap, Hn. cbn [fmap option_fmap option_map].
    apply wp_need, wp_bind. rewrite (wi_context _ _ _ Hw). apply wp_need.
    cbn [describe io_name io_elem_size].
    pose proof (bytes_of_nonneg (contextShape c n) (element_size (getTensorDataType e n))) as Hpos.
    destruct (_ =? 0); [by apply wp_throw|].
    eapply wp_mono;
      [eapply (wp_keep_context i _ c); [apply (wi_context _ _ _ Hw)|];
       apply (Building_malloc W e _ (fun j n => (S i <= j)%nat /\ dyn_out e n) i n _ st B Hn);
         [done|done| |intros j m Hj [? ?]; split; [lia|done]] | | done].
    + intros c' Hc'. apply within_bytes.
      * apply (output_in_maximum e c' c n Hc' (wi_of _ _ _ Hw)); [|done|apply Hdo].
        intros m Hm Hmi Hmd. apply (P c (wi_context _ _ _ Hw) (describe e m)); [|done|done].
        by apply list_elem_of_fmap_2.
      * by eapply context_volume.
      * eapply context_volume; [apply Hw | done].
    + intros u st' [[B' _] Hc']. split; [done|]. intros c'' Hc''. rewrite Hc' in Hc''.
      injection Hc'' as <-. apply P. apply Hw.
  - rewrite Hp. apply wp_need, wp_ret. split; [|done]. split; [by exists c|done| |done].
    intros j m Hj. destruct (HF j m Hj) as [[Hnone [Hle Hdo]]|Hq]; [|by right].
    left. split; [done|]. split; [|done]. destruct (decide (j = i)) as [->|]; [|lia]. congruence.
Qed.

Lemma Building_ready W e todo st :
  (forall i n, getIOTensorNames e !! i = Some n -> todo i n -> False) ->
  Building W e todo st -> exists c, Ready st.1 st.2 e c.
Proof.
  intros Ht [[c Hw] Hl HF O]. exists c. split; [done|]. intros i n Hn.
  destruct (HF i n Hn) as [[_ H]|Hp]; [exfalso; by eapply Ht | by right].
Qed.

Definition Loaded (W : Dev) (st : St) : Prop :=
  Own W [st.1] st.2 /\ exists e c, Ready st.1 st.2 e c.

Lemma allocate_ok W e c x g :
  Wired x e c -> device_buffers_ x = [] -> Own W [x] g ->
  wp allocate_buffers_ (fun _ => Loaded W) (Broken W) (x, g).
Proof.
  intros Hw Hnil O. unfold allocate_buffers_.
  apply wp_bind, wp_self, wp_bind. cbn [fst]. rewrite (wi_engine _ _ _ Hw). apply wp_need.
  apply wp_bind, wp_on_self, wp_bind. cbn [fst snd].
  rewrite (wi_tensors _ _ _ Hw), length_map.
  set (N := length (getIOTensorNames e)).
  set (x1 := set_buffers (replicate N None) (replicate N 0) x).
  assert (B0 : Building W e (fun j n => (0 <= j)%nat \/ dyn_out e n) (x1, g) /\ untouched 0 (x1, g)).
  { split; [split|].
    - exists c. destruct Hw. by split.
    - cbn. by rewrite length_replicate.
    - intros i n Hi. left. split; [|left; lia]. apply lookup_replicate_2. by eapply lookup_lt_Some.
    - assert (Ho1 : owned1 x1 = [] /\ owned1 x = []).
      { unfold owned1. rewrite Hnil. split; [|done]. cbn. clear. by induction N. }
      assert (Ho : owned [x1] = owned [x]) by (rewrite !owned_cons; by rewrite (proj1 Ho1), (proj2 Ho1)).
      destruct O as [NN F L SN SF SL T R H].
      assert (T' : Forall (tidy g) [x1]).
      { constructor; [|done]. inversion T as [|? ? Tx _]; subst. unfold tidy in *.
        cbn [x1 set_buffers stream_]. destruct (stream_ x); [|apply Ho1].
        by rewrite (proj1 Ho1), <- (proj2 Ho1). }
      split; cbn [fst snd]; rewrite ?Ho; try done.
    - intros j Hj. cbn in *. rewrite length_replicate in Hj. apply lookup_replicate_2. lia. }
  eapply wp_mono; [eapply (wp_for_seq _ 0 N (fun i st =>
      Building W e (fun j n => (i <= j)%nat \/ dyn_out e n) st /\ untouched i st)); [|done]| |done].
  { intros i st Hi [B U]. apply allocate_first_ok; [subst N; lia | done | done]. }
  intros u st [B _]. cbn [Nat.add] in B.
  assert (B1 : Building W e (fun _ => dyn_out e) st).
  { destruct B as [Hw' Hl HF O']. split; try done. intros i n Hn.
    destruct (HF i n Hn) as [[? [Hle|?]]|?]; [|by left|by right].
    apply lookup_lt_Some in Hn. fold N in Hn. lia. }
  destruct (existsb dynamic_output _) eqn:Hex; cbn [negb].
  - apply wp_bind.
    eapply wp_mono; [eapply (wp_for_prefix _ _ (fun l1 st => Building W e (fun _ => dyn_out e) st /\
        forall c, context_ st.1 = Some c -> primed e l1 c)) | | done].
    + intros l1 io st' [l2 Hpre] HP.
      assert (Hall : forall io', io' ∈ l1 ++ [io] -> exists n, io' = describe e n).
      { intros io' Hio. assert (Hm : io' ∈ map (describe e) (getIOTensorNames e))
          by (rewrite Hpre; apply elem_of_app; by left).
        apply list_elem_of_fmap in Hm as (n & -> & _). by eexists. }
      apply prime_input_ok; [|intros io' Hio|done]; apply Hall, elem_of_app; [right; by left | by left].
    + split; [done|]. intros c' _ io Hio. by apply not_elem_of_nil in Hio.
    + intros u' st' [B2 P2].
      eapply wp_mono; [eapply (wp_for_seq _ 0 N (fun i st =>
          Building W e (fun j n => (i <= j)%nat /\ dyn_out e n) st /\ all_primed e st))| |done].
      * intros i st'' Hi [B' P']. apply allocate_second_ok; [subst N; lia | done | done].
      * split; [|done]. destruct B2 as [Hw' Hl HF O']. split; try done. intros i n Hn.
        destruct (HF i n Hn) as [[? ?]|?]; [left; split; [done|split; [lia|done]] | by right].
      * intros u'' st'' [B3 _]. split; [apply B3|]. exists e. eapply Building_ready; [|done].
        intros i n Hn [Hle _]. apply lookup_lt_Some in Hn. fold N in Hn. lia.
  - apply wp_ret. split; [apply B1|]. exists e. eapply Building_ready; [|done].
    intros i n Hn [Hi Hd]. assert (existsb dynamic_output (map (describe e) (getIOTensorNames e)) = true)
      as Ht; [|congruence].
    apply existsb_exists. exists (describe e n). split.
    + apply in_map, list_elem_of_In. by eapply list_elem_of_lookup_2.
    + unfold dynamic_output. cbn [describe io_is_input io_shape]. by rewrite Hi, Hd.
Qed.

Lemma load_body_ok W path blob g :
  Own W [] g -> wp (load_body path blob) (fun _ => Loaded W) (Broken W) (Trt_empty, g).
Proof.
  intros O. apply wp_bind, wp_outcome. intros o os. cbn [fst snd].
  apply (Own_outcomes _ _ _ os) in O. set (g1 := set_outcomes os g) in *. clearbody g1. clear g os.
  assert (OE : forall x : Trt, owned1 x = [] -> stream_ x = None -> Own W [x] g1)
    by (intros x ? ?; by apply Own_drop).
  destruct o as [o|]; [by apply wp_throw, OE|].
  apply wp_bind, wp_on_self. destruct (deserializeCudaEngine blob) as [e|]; [|by apply wp_throw, OE].
  apply wp_bind, wp_on_self. destruct (createExecutionContext e) as [c|] eqn:Hc; [|by apply wp_throw, OE].
  apply wp_bind, wp_on_self, wp_bind. cbn [fst snd].
  set (x := set_context c (set_engine e (set_runtime Trt_empty))).
  unfold cudaStreamCreate. apply wp_bind, wp_check; intros os; cbn [fst snd].
  2: { apply Own_outcomes. by apply OE. }
  pose proof (stream_own W x [] (set_outcomes os g1) (Own_outcomes _ _ _ os (OE x eq_refl eq_refl)) eq_refl)
    as O2.
  apply wp_bind. unfold fresh. red. cbn [fst snd]. apply wp_bind, wp_on_gpu, wp_on_self.
  destruct (walk_spec e (getIOTensorNames e) [] ∅) as (W1 & W2 & W3); [done|set_solver|].
  cbn [map app] in *. destruct (walk_tensors e (getIOTensorNames e) [] ∅) as [l ix].
  cbn [fst snd] in *. apply wp_bind, wp_on_self. cbn [fst snd]. subst l.
  eapply (allocate_ok W e c); [|done|].
  - split; cbn; try done. by apply created_context.
  - by eapply Own_same; [| |exact O2].
Qed.

(** A loaded object owns what was added to the device; a failed load leaves
    the device as it was. *)
Lemma load_ok path file read_ok g :
  Own g [] g ->
  match load path file read_ok g with
  | (Ok x, g') => Loaded g (x, g')
  | (Err _, g') => Own g [] g'
  | (UB, _) => False
  end.
Proof.
  intros O. unfold load. destruct (read_engine_blob path file read_ok) as [err|blob]; [done|].
  pose proof (load_body_ok g path blob g O) as H. unfold wp in H.
  destruct (load_body path blob (Trt_empty, g)) as [[u|err|] [x g']]; [done| |done].
  destruct (destroy_own _ _ _ _ H) as (g2 & Hg2 & O2 & _). cbn in Hg2. by rewrite Hg2.
Qed.

(** ** Using a loaded object *)

(** The object [x] over the device, with its engine and context. *)
Definition Use (W : Dev) (e : Eng) (c : Ctx) (st : St) : Prop :=
  Own W [st.1] st.2 /\ Ready st.1 st.2 e c.

Lemma Use_Loaded W e c st : Use W e c st -> Loaded W st.
Proof. intros [? ?]. split; eauto. Qed.

Lemma Use_outcomes W e c x g os : Use W e c (x, g) -> Use W e c (x, set_outcomes os g).
Proof. intros [O R]. split; [by apply Own_outcomes | done]. Qed.

Lemma Ready_buffer x g e c i n :
  Ready x g e c -> getIOTensorNames e !! i = Some n ->
  exists p, device_buffers_ x !! i = Some (Some p) /\ p ∈ owned1 x /\ capacity (device g) e n p.
Proof.
  intros [Hw HF] Hi. destruct (HF i n Hi) as [[_ []]|(p & Hp & Hc)]. exists p.
  split; [done|]. split; [|done]. apply list_elem_of_omap. exists (Some p).
  split; [by eapply list_elem_of_lookup_2 | done].
Qed.

Lemma Wired_tensor x e c i n :
  Wired x e c -> getIOTensorNames e !! i = Some n -> tensors_ x !! i = Some (describe e n).
Proof. intros Hw Hi. by rewrite (wi_tensors _ _ _ Hw), list_lookup_fmap, Hi. Qed.

Lemma capacity_room dev e c n p :
  context_of e c -> n ∈ getIOTensorNames e -> capacity dev e n p ->
  room dev p (tensor_bytes e c n) /\
  room dev p (Z.to_nat (bytes_of (contextShape c n) (element_size (getTensorDataType e n)))).
Proof.
  intros Hc Hn (mem & Hm & Hcap). specialize (Hcap c Hc).
  pose proof (tensor_bytes_le e c n (context_volume e c n Hc Hn)) as Hle.
  split; exists mem; (split; [done|]); lia.
Qed.

(** Every tensor's address in the context is a buffer that can hold it. *)
Definition Bound (e : Eng) (st : St) : Prop :=
  forall n, n ∈ getIOTensorNames e ->
    exists p, bound st.1 !! n = Some p /\ p ∈ owned1 st.1 /\ capacity (device st.2) e n p.

Lemma set_input_shape_ok W name shape st :
  Loaded W st -> wp (set_input_shape name shape) (fun _ => Loaded W) (Loaded W) st.
Proof.
  intros HL. pose proof HL as [O (e & c & Hw & HF)]. unfold set_input_shape.
  apply wp_bind, wp_self, wp_bind. rewrite (wi_context _ _ _ Hw). apply wp_need.
  destruct (setInputShape c name shape) as [c'|] eqn:Hc; [|by apply wp_throw].
  apply wp_on_self. split; cbn [fst snd]; [by eapply Own_same; [| |done]|].
  exists e, c'. split; [|done]. destruct Hw. split; try done. by eapply shaped_context.
Qed.

Lemma bind_address_ok W e c i st :
  (i < length (getIOTensorNames e))%nat -> Use W e c st ->
  (forall j n, (j < i)%nat -> getIOTensorNames e !! j = Some n ->
     exists p, bound st.1 !! n = Some p /\ p ∈ owned1 st.1 /\ capacity (device st.2) e n p) ->
  wp (bind_address i)
    (fun _ st' => Use W e c st' /\ forall j n, (j < S i)%nat -> getIOTensorNames e !! j = Some n ->
       exists p, bound st'.1 !! n = Some p /\ p ∈ owned1 st'.1 /\ capacity (device st'.2) e n p)
    (Loaded W) st.
Proof.
  destruct st as [x g]. intros Hi U HB. pose proof U as [O R]. cbn [fst snd] in *.
  destruct (lookup_lt_is_Some_2 _ _ Hi) as [n Hn].
  destruct (Ready_buffer _ _ _ _ _ _ R Hn) as (p & Hp & Hin & Hcap).
  apply wp_bind, wp_self, wp_bind. cbn [fst]. rewrite (Wired_tensor _ _ _ _ _ (proj1 R) Hn).
  apply wp_need, wp_bind. rewrite Hp. apply wp_need, wp_bind, wp_need, wp_bind, wp_outcome.
  intros [o|] os; cbn [fst snd].
  { apply wp_throw. apply (Use_Loaded W e c), Use_outcomes, U. }
  apply wp_on_self. split.
  - split; cbn [fst snd]; [eapply Own_same; [| |by apply Own_outcomes]; done|].
    destruct R as [Hw HF]. split; [|done]. destruct Hw. by split.
  - intros j m Hj Hm. cbn. destruct (decide (m = n)) as [->|Hne].
    + exists p. by rewrite lookup_insert_eq.
    + rewrite lookup_insert_ne by done. apply (HB j m); [|done].
      destruct (decide (j = i)) as [->|]; [congruence | lia].
Qed.

Lemma wp_buffer_index W e c n (Q : nat -> St -> Prop) E st :
  Use W e c st -> (forall i, getIOTensorNames e !! i = Some n -> Q i st) -> E st ->
  wp (buffer_index_ n) Q E st.
Proof.
  intros [_ [Hw _]] HQ HE. apply wp_bind, wp_self.
  destruct (name_to_index_ st.1 !! n) as [i|] eqn:Hi; [|by apply wp_throw].
  apply wp_ret, HQ. by apply (wi_index _ _ _ Hw).
Qed.

Lemma wp_buffer_bytes W e c n (Q : Z -> St -> Prop) E st :
  Use W e c st ->
  Q (bytes_of (contextShape c n) (element_size (getTensorDataType e n))) st -> E st ->
  wp (buffer_bytes n) Q E st.
Proof.
  intros U HQ HE. pose proof U as [_ [Hw _]].
  apply wp_bind, wp_self, wp_bind. rewrite (wi_context _ _ _ Hw). apply wp_need, wp_bind, wp_bind.
  eapply wp_buffer_index; [done| |done]. intros i Hi. apply wp_bind, wp_self.
  rewrite (Wired_tensor _ _ _ _ _ Hw Hi). by apply wp_need, wp_ret.
Qed.

Lemma wp_push W e c o (Q : unit -> St -> Prop) E x g :
  Use W e c (x, g) -> op_fits (owned1 x) (device g) (host g) o ->
  (forall t, Use W e c (x, set_streams t g) -> Q tt (x, set_streams t g)) ->
  wp (push_op o) Q E (x, g).
Proof.
  intros [O R] Ho HQ. cbn [fst snd] in *. destruct (wi_stream _ _ _ (proj1 R)) as [s Hs].
  assert (exists ops, streams g !! s = Some ops) as [ops Hops].
  { pose proof (own_tidy _ _ _ O) as T. inversion T as [|? ? Tx _]; subst. unfold tidy in Tx.
    rewrite Hs in Tx. naive_solver. }
  apply wp_bind, wp_self, wp_bind. cbn [fst]. rewrite Hs. apply wp_need, wp_bind, wp_gpu, wp_bind.
  cbn [snd]. rewrite Hops. apply wp_need, wp_on_gpu. apply HQ. split; [|done]. by eapply push_own.
Qed.

(** Copies of a span that lies over a host buffer. *)
Lemma wp_span_size h (Q : Z -> St -> Prop) E (x : Trt) (g : Dev) bs :
  host g !! h = Some bs -> Q (Z.of_nat (length bs)) (x, g) -> wp (span_size h) Q E (x, g).
Proof. intros Hb HQ. apply wp_bind, wp_gpu, wp_bind. cbn [snd]. rewrite Hb. by apply wp_need, wp_ret. Qed.

Lemma host_there W xs g h : Own W xs g -> is_Some (host W !! h) -> exists bs, host g !! h = Some bs.
Proof.
  intros O [bs Hb]. pose proof (own_host _ _ _ O h) as Hh. rewrite Hb in Hh.
  destruct (host g !! h) as [bs'|]; [by exists bs' | done].
Qed.

Lemma copy_in_ok W e c src st :
  is_Some (host W !! src.2) -> Use W e c st /\ Bound e st ->
  wp (copy_in src) (fun _ st' => Use W e c st' /\ Bound e st') (Loaded W) st.
Proof.
  destruct st as [x g], src as [n h]. intros Hh [U HB]. pose proof U as [O R]. cbn [fst snd] in *.
  assert (HL : Loaded W (x, g)) by (by eapply Use_Loaded).
  unfold copy_in. cbn [fst snd].
  apply wp_bind. eapply wp_buffer_index; [done| |done]. intros i Hi.
  apply wp_bind, wp_self, wp_bind. cbn [fst]. rewrite (Wired_tensor _ _ _ _ _ (proj1 R) Hi).
  apply wp_need. cbn [describe io_is_input]. destruct (isInput e n); cbn [negb]; [|by apply wp_throw].
  apply wp_bind. eapply wp_buffer_bytes; [done| |done]. apply wp_bind.
  destruct (host_there _ _ _ _ O Hh) as [bs Hbs]. eapply wp_span_size; [exact Hbs|].
  destruct (Z.eqb_spec (Z.of_nat (length bs))
    (bytes_of (contextShape c n) (element_size (getTensorDataType e n)))) as [Heq|]; cbn [negb];
    [|by apply wp_throw].
  destruct (Ready_buffer _ _ _ _ _ _ R Hi) as (p & Hp & Hin & Hcap). rewrite Hp.
  apply wp_bind, wp_need, wp_bind, wp_need, wp_bind, wp_check; intros os; cbn [fst snd];
    [|by apply (Use_Loaded W e c), Use_outcomes].
  apply (wp_push W e c); [by apply Use_outcomes| |intros t U'; done].
  cbn. split; [done|]. split; [|exists bs; split; [done|lia]]. rewrite Heq.
  apply (capacity_room _ _ _ n); [apply R|by eapply list_elem_of_lookup_2|done].
Qed.

Lemma copy_out_ok W e c dst st :
  is_Some (host W !! dst.2) -> Use W e c st ->
  wp (copy_out dst) (fun _ => Use W e c) (Loaded W) st.
Proof.
  destruct st as [x g], dst as [n h]. intros Hh U. pose proof U as [O R]. cbn [fst snd] in *.
  assert (HL : Loaded W (x, g)) by (by eapply Use_Loaded).
  unfold copy_out. cbn [fst snd].
  apply wp_bind. eapply wp_buffer_index; [done| |done]. intros i Hi.
  apply wp_bind, wp_self, wp_bind. cbn [fst]. rewrite (Wired_tensor _ _ _ _ _ (proj1 R) Hi).
  apply wp_need. cbn [describe io_is_input]. destruct (isInput e n); [by apply wp_throw|].
  apply wp_bind. eapply wp_buffer_bytes; [done| |done]. apply wp_bind.
  destruct (host_there _ _ _ _ O Hh) as [bs Hbs]. eapply wp_span_size; [exact Hbs|].
  destruct (Z.eqb_spec (Z.of_nat (length bs))
    (bytes_of (contextShape c n) (element_size (getTensorDataType e n)))) as [Heq|]; cbn [negb];
    [|by apply wp_throw].
  destruct (Ready_buffer _ _ _ _ _ _ R Hi) as (p & Hp & Hin & Hcap). rewrite Hp.
  apply wp_bind, wp_need, wp_bind, wp_need, wp_bind, wp_check; intros os; cbn [fst snd];
    [|by apply (Use_Loaded W e c), Use_outcomes].
  apply (wp_push W e c); [by apply Use_outcomes| |intros t U'; done].
  cbn. split; [done|]. split; [|exists bs; split; [done|lia]]. rewrite Heq.
  apply (capacity_room _ _ _ n); [apply R|by eapply list_elem_of_lookup_2|done].
Qed.

Lemma launch_ok W e c st :
  Use W e c st -> Bound e st -> wp launch (fun _ => Use W e c) (Loaded W) st.
Proof.
  destruct st as [x g]. intros U HB. pose proof U as [O R].
  apply wp_bind, wp_outcome. intros [o|] os; cbn [fst snd].
  { apply wp_throw. by apply (Use_Loaded W e c), Use_outcomes. }
  apply wp_bind, wp_self, wp_bind. cbn [fst snd] in *.
  rewrite (wi_engine _ _ _ (proj1 R)). apply wp_need, wp_bind.
  rewrite (wi_context _ _ _ (proj1 R)). apply wp_need.
  apply (wp_push W e c); [by apply Use_outcomes| |intros t U'; done].
  cbn. split; [apply R|]. intros n Hn. destruct (HB n Hn) as (p & Hp & Hin & Hcap).
  exists p. split; [done|]. split; [done|]. apply capacity_room; [apply R|done|done].
Qed.

Lemma enqueue_ok W ins outs st :
  Forall (fun b => is_Some (host W !! b.2)) (ins ++ outs) -> Loaded W st ->
  wp (enqueue ins outs) (fun _ => Loaded W) (Loaded W) st.
Proof.
  intros [Hi Ho]%Forall_app [O (e & c & R)]. rewrite Forall_forall in Hi, Ho.
  apply wp_bind, wp_self, wp_bind. rewrite (wi_tensors _ _ _ (proj1 R)), length_map.
  set (N := length (getIOTensorNames e)).
  eapply wp_mono; [eapply (wp_for_seq _ 0 N (fun i st => Use W e c st /\
      forall j n, (j < i)%nat -> getIOTensorNames e !! j = Some n ->
       exists p, bound st.1 !! n = Some p /\ p ∈ owned1 st.1 /\ capacity (device st.2) e n p))| |done].
  { intros i st' Hin [U HB]. apply bind_address_ok; [subst N; lia|done|done]. }
  { split; [by split | intros; lia]. }
  intros u st1 [U1 B1]. apply wp_bind.
  eapply wp_mono; [eapply (wp_for_each _ _ (fun st => Use W e c st /\ Bound e st)) | | done].
  { intros src st' Hsrc HP. apply copy_in_ok; [by apply Hi | done]. }
  { split; [done|]. intros n [j Hj]%list_elem_of_lookup. apply (B1 j); [|done].
    by apply lookup_lt_Some in Hj. }
  intros u2 st2 [U2 B2]. apply wp_bind. eapply wp_mono; [by apply (launch_ok W e c) | | done].
  intros u3 st3 U3. cbn in U3.
  eapply wp_mono; [eapply (wp_for_each _ _ (Use W e c)); [|done] | | done].
  { intros dst st' Hdst HP. apply copy_out_ok; [by apply Ho | done]. }
  intros u4 st4 U4. cbn in U4. by eapply Use_Loaded.
Qed.

Lemma Ready_shape x g g' ps e c :
  same_shape ps (device g) (device g') -> Ready x g e c -> Ready x g' e c.
Proof.
  intros [_ Hs] [Hw HF]. split; [done|]. intros i n Hi.
  destruct (HF i n Hi) as [?|(p & Hp & mem & Hm & Hcap)]; [by left|]. right. exists p. split; [done|].
  specialize (Hs p). rewrite Hm in Hs. destruct (device g' !! p) as [mem'|] eqn:Hm'; [|done].
  injection Hs as Hs. exists mem'. rewrite Hs. done.
Qed.

Lemma sync_ok W st : Loaded W st -> wp sync (fun _ => Loaded W) (Loaded W) st.
Proof.
  destruct st as [x g]. intros [O (e & c & R)]. cbn [fst snd] in *.
  destruct (wi_stream _ _ _ (proj1 R)) as [s Hs].
  destruct (drain_own _ _ _ _ _ O Hs) as (g' & Hd & O' & Hsh & _).
  apply wp_bind, wp_self, wp_bind. cbn [fst]. rewrite Hs. apply wp_need, wp_bind, wp_gpu, wp_bind.
  cbn [snd]. rewrite Hd. apply wp_need, wp_bind, wp_on_gpu. cbn [fst snd].
  assert (U : Use W e c (x, g')) by (split; [done | by eapply Ready_shape]).
  apply wp_check; intros os; cbn [fst snd]; by apply (Use_Loaded W e c), Use_outcomes.
Qed.

(** The host buffers that the spans of a call lie over. *)
Definition call_valid (W : Dev) (k : EngineCall) : Prop :=
  match k with
  | CallEnqueue ins outs => Forall (fun b => is_Some (host W !! b.2)) (ins ++ outs)
  | _ => True
  end.

Lemma after_ok (m : M unit) P st : wp m (fun _ => P) P st -> exists st', after (m st) = Some st' /\ P st'.
Proof. unfold wp, after. destruct (m st) as [[u|err|] st']; [by eauto..|done]. Qed.

(** Replacing the object: the new one is loaded beside the old, then the old
    one is torn down. *)
Lemma replace_ok W x y g g' :
  Own W [x] g -> Loaded g (y, g') ->
  exists g2, destroy x g' = Some g2 /\ Loaded W (y, g2).
Proof.
  intros Ox [Oy (e & c & Hw & HF)]. cbn [fst snd] in *.
  pose proof (Own_frame_rule _ _ _ _ _ Ox Oy) as O2. cbn [app] in O2.
  apply (Own_perm _ _ [x; y]) in O2; [|apply Permutation_swap].
  pose proof (Own_cons_nodup _ _ _ _ O2) as (_ & _ & Hdis).
  destruct (destroy_own _ _ _ _ O2) as (g2 & Hg2 & O3 & Hkeep).
  exists g2. split; [done|]. split; [done|]. exists e, c. split; [done|]. cbn [fst snd].
  intros i n Hi. destruct (Ready_buffer y g' e c i n (conj Hw HF) Hi) as (p & Hp & Hin & mem & Hm & Hc).
  right. exists p. split; [done|]. exists mem. split; [|done]. rewrite Hkeep; [done|].
  intros Hx. apply (Hdis p Hx). rewrite owned_cons. apply elem_of_app. by left.
Qed.

Lemma Own_self_frame W xs g : Own W xs g -> Own g [] g.
Proof.
  intros O. split; try done; try apply NoDup_nil_2.
  - intros p Hp. by apply not_elem_of_nil in Hp.
  - intros p Hp. by apply not_elem_of_nil in Hp.
  - apply (own_fresh _ _ _ O).
Qed.

Lemma engine_do_ok W k st :
  call_valid W k -> Loaded W st -> exists st', engine_do k st = Some st' /\ Loaded W st'.
Proof.
  destruct st as [x g]. intros Hv HL. pose proof HL as [O R]. cbn [fst snd] in *.
  destruct k as [name shape|ins outs| |path file ok|]; cbn [engine_do].
  - by apply after_ok, set_input_shape_ok.
  - by apply after_ok, enqueue_ok.
  - by apply after_ok, sync_ok.
  - cbn [snd fst]. pose proof (load_ok path file ok g (Own_self_frame _ _ _ O)) as Hl.
    destruct (load path file ok g) as [[y|err|] g']; [| |done].
    + destruct (replace_ok _ _ _ _ _ O Hl) as (g2 & Hg2 & HL2). cbn. rewrite Hg2. cbn. eauto.
    + exists (x, g'). split; [done|]. split; cbn [fst snd].
      * apply (Own_frame_rule _ _ [] _ _ O Hl).
      * destruct R as (e & c & R). exists e, c. eapply (Ready_shape x g g' []); [|done].
        assert (Heq : forall p, device g' !! p = device g !! p)
          by (intros p; apply (own_frame _ _ _ Hl), not_elem_of_nil).
        split; intros p; [intros _|]; by rewrite Heq.
  - cbn. eauto.
Qed.

Lemma engine_run_ok W ks st :
  Forall (call_valid W) ks -> Loaded W st -> exists st', engine_run ks st = Some st' /\ Loaded W st'.
Proof.
  revert st. induction ks as [|k ks IH]; intros st Hv HL; cbn [engine_run]; [by eauto|].
  inversion Hv; subst. destruct (engine_do_ok W k st) as (st1 & -> & HL1); [done|done|].
  cbn. by apply IH.
Qed.

Lemma Own_nothing W g : Own W [] g -> device g = device W /\ streams g = streams W.
Proof.
  intros O. split; apply map_eq; intros p.
  - apply (own_frame _ _ _ O), not_elem_of_nil.
  - apply (own_sframe _ _ _ O), not_elem_of_nil.
Qed.

(** ** What a run computes *)

Lemma wp_outcome_ok (Q : option string -> St -> Prop) E st :
  outcomes st.2 = [] -> Q None st -> wp outcome Q E st.
Proof. intros Ho HQ. unfold wp, outcome. by rewrite Ho. Qed.

Lemma wp_check_ok what (Q : unit -> St -> Prop) E st :
  outcomes st.2 = [] -> Q tt st -> wp (check_cuda what) Q E st.
Proof. intros Ho HQ. apply wp_bind, wp_outcome_ok; [done|]. by apply wp_ret. Qed.

(** The device buffer of a tensor. *)
Definition buffer_of (x : Trt) (n : string) : option nat :=
  i ← name_to_index_ x !! n; mjoin (device_buffers_ x !! i).

(** The bytes of the inputs that the spans of [host_in] hold. *)
Definition given (e : Eng) (c : Ctx) (hst : gmap nat (list Z)) (ins : list (string * nat))
    : gmap string (list Z) :=
  list_to_map (map (fun b => (b.1, take (tensor_bytes e c b.1) (default [] (hst !! b.2)))) ins).

(** A span of the right size over an existing host buffer. *)
Definition span_ok (e : Eng) (c : Ctx) (hst : gmap nat (list Z)) (input : bool)
    (b : string * nat) : Prop :=
  b.1 ∈ getIOTensorNames e /\ isInput e b.1 = input /\
  exists bs, hst !! b.2 = Some bs /\
    Z.of_nat (length bs) = bytes_of (contextShape c b.1) (element_size (getTensorDataType e b.1)).

Lemma Ready_index x g e c n :
  Ready x g e c -> n ∈ getIOTensorNames e ->
  exists i p, name_to_index_ x !! n = Some i /\ getIOTensorNames e !! i = Some n /\
    device_buffers_ x !! i = Some (Some p) /\ buffer_of x n = Some p /\ capacity (device g) e n p.
Proof.
  intros R Hn. destruct (wi_known _ _ _ (proj1 R) n Hn) as [i Hi].
  pose proof (wi_index _ _ _ (proj1 R) n i Hi) as Hin.
  destruct (Ready_buffer _ _ _ _ _ _ R Hin) as (p & Hp & _ & Hc).
  exists i, p. unfold buffer_of. rewrite Hi. cbn. rewrite Hp. done.
Qed.

Lemma omap_lookup_inj (l : list (option nat)) i j p :
  NoDup (omap id l) -> l !! i = Some (Some p) -> l !! j = Some (Some p) -> i = j.
Proof.
  revert i j. induction l as [|o l IH]; intros i j Hn Hi Hj; [done|].
  assert (Hin : forall k, l !! k = Some (Some p) -> p ∈ omap id l).
  { intros k Hk. apply list_elem_of_omap. exists (Some p). split; [by eapply list_elem_of_lookup_2 | done]. }
  destruct i as [|i], j as [|j]; cbn in *; [done| | |].
  - injection Hi as ->. cbn in Hn. apply NoDup_cons in Hn as [Hn _]. exfalso. eauto.
  - injection Hj as ->. cbn in Hn. apply NoDup_cons in Hn as [Hn _]. exfalso. eauto.
  - f_equal. apply IH; [|done|done]. destruct o; [by eapply NoDup_cons_1_2 | done].
Qed.

(** Different tensors have different buffers. *)
Lemma buffer_of_inj x g e c n m p :
  NoDup (owned1 x) -> Ready x g e c -> n ∈ getIOTensorNames e -> m ∈ getIOTensorNames e ->
  buffer_of x n = Some p -> buffer_of x m = Some p -> n = m.
Proof.
  intros Hnd R Hn Hm Hbn Hbm.
  destruct (Ready_index _ _ _ _ _ R Hn) as (i & p1 & _ & Hi & Hpi & Hb1 & _).
  destruct (Ready_index _ _ _ _ _ R Hm) as (j & p2 & _ & Hj & Hpj & Hb2 & _).
  assert (p1 = p) as -> by congruence. assert (p2 = p) as -> by congruence.
  pose proof (omap_lookup_inj _ _ _ _ Hnd Hpi Hpj) as ->. congruence.
Qed.

(** The queued copies. *)
Definition h2d (x : Trt) (hst : gmap nat (list Z)) (b : string * nat) : Op Eng Ctx :=
  HostToDevice (default 0%nat (buffer_of x b.1)) b.2 (length (default [] (hst !! b.2))).
Definition d2h (x : Trt) (hst : gmap nat (list Z)) (b : string * nat) : Op Eng Ctx :=
  DeviceToHost b.2 (default 0%nat (buffer_of x b.1)) (length (default [] (hst !! b.2))).

(** Without failures, a copy of a matching span is queued. *)
Lemma copy_queued (input : bool) b (x : Trt) (g : Dev) e c s ops :
  Ready x g e c -> stream_ x = Some s -> streams g !! s = Some ops -> outcomes g = [] ->
  span_ok e c (host g) input b ->
  wp (if input then copy_in b else copy_out b)
    (fun _ st => st = (x, set_streams
       (<[s := ops ++ [if input then h2d x (host g) b else d2h x (host g) b]]> (streams g)) g))
    (fun _ => False) (x, g).
Proof.
  destruct b as [n h]. intros R Hs Hops Ho (Hn & Hi & bs & Hbs & Hlen). cbn [fst snd] in *.
  destruct (Ready_index _ _ _ _ _ R Hn) as (i & p & Hix & Hin & Hp & Hbuf & _).
  pose proof (wi_context _ _ _ (proj1 R)) as Hc.
  pose proof (Wired_tensor _ _ _ _ _ (proj1 R) Hin) as Ht.
  assert (Hidx : forall (Q : nat -> St -> Prop) E, Q i (x, g) -> wp (buffer_index_ n) Q E (x, g)).
  { intros Q E HQ. apply wp_bind, wp_self. cbn [fst]. by rewrite Hix. }
  assert (Hby : forall (Q : Z -> St -> Prop) E,
    Q (bytes_of (contextShape c n) (element_size (getTensorDataType e n))) (x, g) ->
    wp (buffer_bytes n) Q E (x, g)).
  { intros Q E HQ. apply wp_bind, wp_self, wp_bind. cbn [fst]. rewrite Hc.
    apply wp_need, wp_bind, wp_bind, Hidx, wp_bind, wp_self. cbn [fst]. rewrite Ht. by apply wp_need, wp_ret. }
  assert (Hpush : forall o E, wp (push_op o) (fun _ st =>
      st = (x, set_streams (<[s := ops ++ [o]]> (streams g)) g)) E (x, g)).
  { intros o E. apply wp_bind, wp_self, wp_bind. cbn [fst]. rewrite Hs.
    apply wp_need, wp_bind, wp_gpu, wp_bind. cbn [snd]. rewrite Hops. by apply wp_need, wp_on_gpu. }
  destruct input; unfold copy_in, copy_out; cbn [fst snd];
    apply wp_bind, Hidx, wp_bind, wp_self, wp_bind; cbn [fst]; rewrite Ht; apply wp_need;
    cbn [describe io_is_input]; rewrite Hi; cbn [negb]; apply wp_bind, Hby, wp_bind;
    (eapply wp_span_size; [exact Hbs|]); rewrite <- Hlen, Z.eqb_refl; cbn [negb]; rewrite Hp;
    apply wp_bind, wp_need, wp_bind, wp_need, wp_bind, wp_check_ok; try done;
    unfold h2d, d2h; cbn [fst snd]; rewrite Hbuf, Hbs; cbn [default id]; rewrite Nat2Z.id; apply Hpush.
Qed.

Lemma copies_queued (input : bool) bs (x : Trt) (g : Dev) e c s ops :
  Ready x g e c -> stream_ x = Some s -> streams g !! s = Some ops -> outcomes g = [] ->
  Forall (span_ok e c (host g) input) bs ->
  wp (for_each (fun b => if input then copy_in b else copy_out b) bs)
    (fun _ st => st = (x, set_streams
       (<[s := ops ++ map (fun b => if input then h2d x (host g) b else d2h x (host g) b) bs]> (streams g)) g))
    (fun _ => False) (x, g).
Proof.
  intros R Hs Hops Ho. revert g ops R Hops Ho. induction bs as [|b bs IH]; intros g ops R Hops Ho Hf.
  { apply wp_ret. cbn [map]. rewrite app_nil_r, insert_id by done. by destruct g. }
  inversion Hf; subst. cbn [for_each]. apply wp_bind.
  eapply wp_mono; [by apply (copy_queued input b x g e c s ops) | | done].
  intros u st ->. eapply wp_mono; [eapply IH | | done]; try done.
  - cbn. by rewrite lookup_insert_eq.
  - intros u' st ->. cbn. f_equal. unfold set_streams. cbn. f_equal.
    rewrite insert_insert_eq, <- app_assoc. done.
Qed.

Lemma addresses_bound (x : Trt) (g : Dev) e c :
  Ready x g e c -> outcomes g = [] ->
  wp (for_each bind_address (seq 0 (length (tensors_ x))))
    (fun _ st => exists b, st = (set_bound b x, g) /\
       forall n, n ∈ getIOTensorNames e -> b !! n = buffer_of x n)
    (fun _ => False) (x, g).
Proof.
  intros R Ho. rewrite (wi_tensors _ _ _ (proj1 R)), length_map. set (N := length (getIOTensorNames e)).
  eapply wp_mono; [apply (wp_for_seq _ 0 N (fun i st => exists b, st = (set_bound b x, g) /\
      forall j n, (j < i)%nat -> getIOTensorNames e !! j = Some n -> b !! n = buffer_of x n)
      (fun _ => False)) | |done].
  - intros i st Hi (b & -> & Hb). destruct (lookup_lt_is_Some_2 (getIOTensorNames e) i) as [n Hn]; [subst N; lia|].
    destruct (Ready_index _ _ _ _ n R) as (i' & p & Hix & Hin & Hp & Hbuf & _); [by eapply list_elem_of_lookup_2|].
    pose proof (NoDup_lookup _ _ _ _ (distinct_names e) Hin Hn) as ->.
    apply wp_bind, wp_self, wp_bind. cbn [fst set_bound tensors_ device_buffers_].
    rewrite (Wired_tensor _ _ _ _ _ (proj1 R) Hn). apply wp_need, wp_bind. rewrite Hp.
    apply wp_need, wp_bind, wp_need, wp_bind, wp_outcome_ok; [done|]. apply wp_on_self.
    exists (<[n := p]> b). split; [done|]. intros j m Hj Hm. destruct (decide (m = n)) as [->|Hne].
    + by rewrite lookup_insert_eq.
    + rewrite lookup_insert_ne by done. apply (Hb j m); [|done].
      destruct (decide (j = i)) as [->|]; [congruence | lia].
  - exists (bound x). split; [by destruct x | intros; lia].
  - intros u st (b & -> & Hb). exists b. split; [done|]. intros n [j Hj]%list_elem_of_lookup.
    apply (Hb j n); [|done]. by apply lookup_lt_Some in Hj.
Qed.

(** The work that [enqueue] puts on an idle stream. *)
Lemma enqueue_queued (x : Trt) (g : Dev) e c s ins outs :
  Ready x g e c -> stream_ x = Some s -> streams g !! s = Some [] -> outcomes g = [] ->
  Forall (span_ok e c (host g) true) ins -> Forall (span_ok e c (host g) false) outs ->
  wp (enqueue ins outs)
    (fun _ st => exists b, (forall n, n ∈ getIOTensorNames e -> b !! n = buffer_of x n) /\
       st = (set_bound b x, set_streams
         (<[s := map (h2d x (host g)) ins ++ Launched e c b :: map (d2h x (host g)) outs]> (streams g)) g))
    (fun _ => False) (x, g).
Proof.
  intros R Hs Hops Ho Hin Hout. apply wp_bind, wp_self, wp_bind. cbn [fst].
  eapply wp_mono; [by apply (addresses_bound x g e c) | | done]. intros u st (b & -> & Hb).
  assert (R' : Ready (set_bound b x) g e c) by (destruct R as [Hw HF]; split; [destruct Hw; by split | done]).
  apply wp_bind. eapply wp_mono; [exact (copies_queued true ins (set_bound b x) g e c s [] R' Hs Hops Ho Hin) | | done].
  intros u2 st ->. apply wp_bind. unfold launch. apply wp_bind, wp_outcome_ok; [done|].
  apply wp_bind, wp_self, wp_bind. cbn [fst]. rewrite (wi_engine _ _ _ (proj1 R')). apply wp_need, wp_bind.
  rewrite (wi_context _ _ _ (proj1 R')). apply wp_need, wp_bind, wp_self, wp_bind. cbn [fst].
  change (stream_ (set_bound b x)) with (stream_ x). rewrite Hs.
  apply wp_need, wp_bind, wp_gpu, wp_bind. cbn [snd set_streams streams]. rewrite lookup_insert_eq.
  apply wp_need, wp_on_gpu. cbn [fst snd].
  match goal with |- wp _ _ _ (_, ?g1) =>
    pose proof (copies_queued false outs (set_bound b x) g1 e c s _ R' Hs (lookup_insert_eq _ _ _) Ho Hout)
      as Hq end.
  eapply wp_mono; [exact Hq | | done].
  intros u3 st ->. exists b. split; [done|]. f_equal. unfold set_streams. cbn. f_equal.
  rewrite !insert_insert_eq. f_equal. by rewrite <- app_assoc.
Qed.

(** ** Running the queued work *)

(** A buffer that begins with [bs]. *)
Definition starts (m : gmap nat (list Z)) (p : nat) (bs : list Z) : Prop :=
  exists mem, m !! p = Some mem /\ take (length bs) mem = bs.

Lemma overwrite_starts m p bs :
  room m p (length bs) ->
  exists m', overwrite p bs m = Some m' /\ starts m' p bs /\
    same_shape [p] m m'.
Proof.
  intros Hr. destruct (overwrite_room _ _ _ Hr) as (mem & Hm & Hl & Ho).
  eexists. split; [done|]. split.
  - eexists. rewrite lookup_insert_eq. split; [done|]. by rewrite take_app_length.
  - eapply same_shape_insert; [done|done|by left].
Qed.

Lemma starts_other ps m m' p bs : same_shape ps m m' -> p ∉ ps -> starts m p bs -> starts m' p bs.
Proof. intros [Hs _] Hp (mem & Hm & Ht). exists mem. by rewrite Hs. Qed.

Lemma starts_fetch m p bs k :
  (k <= length bs)%nat -> starts m p bs -> fetch p k m = Some (take k bs).
Proof.
  intros Hk (mem & Hm & Ht). unfold fetch. rewrite Hm.
  assert (Hl : (length bs <= length mem)%nat).
  { rewrite <- Ht, length_take. lia. }
  destruct (Nat.leb_spec k (length mem)); [|lia]. rewrite <- Ht at 1. rewrite take_take.
  by rewrite Nat.min_l by done.
Qed.

(** The copies to the device. *)
Lemma run_h2d (x : Trt) (g : Dev) (f : string -> nat) ins :
  NoDup (map f (map fst ins)) ->
  (forall b, b ∈ ins -> buffer_of x b.1 = Some (f b.1) /\
     exists bs, host g !! b.2 = Some bs /\ room (device g) (f b.1) (length bs)) ->
  exists d, run_ops (map (h2d x (host g)) ins) g = Some (set_device d g) /\
    same_shape (map f (map fst ins)) (device g) d /\
    forall b bs, b ∈ ins -> host g !! b.2 = Some bs -> starts d (f b.1) bs.
Proof.
  revert g. induction ins as [|[n h] ins IH]; intros g Hnd Hins; cbn [map run_ops].
  { exists (device g). split; [by destruct g|]. split; [apply same_shape_refl|].
    intros b bs Hb. by apply not_elem_of_nil in Hb. }
  cbn [map fst] in Hnd. apply NoDup_cons in Hnd as [Hnew Hnd].
  destruct (Hins (n, h)) as (Hbuf & bs & Hbs & Hroom); [left|]. cbn [fst snd] in *.
  assert (Hop : h2d x (host g) (n, h) = HostToDevice (f n) h (length bs))
    by (unfold h2d; cbn [fst snd]; by rewrite Hbuf, Hbs).
  rewrite Hop. cbn [run_op].
  assert (Hf : fetch h (length bs) (host g) = Some bs).
  { unfold fetch. rewrite Hbs, Nat.leb_refl, firstn_all. done. }
  rewrite Hf. cbn [mbind option_bind].
  destruct (overwrite_starts _ _ _ Hroom) as (d1 & Hd1 & Hst1 & Hsh1). rewrite Hd1. cbn [mbind option_bind].
  destruct (IH (set_device d1 g) Hnd) as (d & Hd & Hsh & Hst).
  { intros b Hb. destruct (Hins b) as (? & bs' & ? & ?); [by right|]. split; [done|].
    exists bs'. split; [done|]. by eapply room_shape. }
  cbn [set_device device host] in *. exists d.
  split; [by rewrite Hd|]. split.
  - eapply same_shape_trans; [eapply (same_shape_app1 [f n])|apply (same_shape_app2 _ [f n])]; done.
  - intros b bs' [->|Hb]%elem_of_cons Hbs'; [|by apply Hst]. cbn [fst snd] in *.
    rewrite Hbs in Hbs'. injection Hbs' as <-. by eapply starts_other.
Qed.

Lemma read_inputs_value e c b dev (v : string -> list Z) names :
  (forall n, n ∈ names -> isInput e n = true ->
     exists p, b !! n = Some p /\ fetch p (tensor_bytes e c n) dev = Some (v n)) ->
  exists m, read_inputs e c b dev names = Some m /\
    forall n, m !! n = if decide (n ∈ names /\ isInput e n = true) then Some (v n) else None.
Proof.
  induction names as [|n names IH]; intros Hn; cbn [read_inputs].
  { exists ∅. split; [done|]. intros n. rewrite decide_False; [done|]. intros [H _]. by apply not_elem_of_nil in H. }
  destruct IH as (m & -> & Hm); [intros n' ? ?; apply Hn; [by right|done]|]. cbn.
  destruct (isInput e n) eqn:Hi.
  - destruct (Hn n) as (p & -> & Hf); [left|done|]. cbn. rewrite Hf. cbn. eexists. split; [done|].
    intros n'. destruct (decide (n' = n)) as [->|Hne].
    + by rewrite lookup_insert_eq, decide_True by (split; [left|done]).
    + rewrite lookup_insert_ne, Hm by done. apply decide_ext. rewrite elem_of_cons. naive_solver.
  - exists m. split; [done|]. intros n'. rewrite Hm. apply decide_ext. rewrite elem_of_cons.
    split; [naive_solver|]. intros [[->|?] ?]; [congruence | done].
Qed.

Lemma write_outputs_value e b outs (f : string -> nat) names dev :
  NoDup (map f names) -> (forall n, n ∈ names -> b !! n = Some (f n)) ->
  (forall n, n ∈ names -> isInput e n = false ->
     exists o, outs !! n = Some o /\ room dev (f n) (length o)) ->
  exists dev', write_outputs e b outs names dev = Some dev' /\ same_shape (map f names) dev dev' /\
    forall n o, n ∈ names -> isInput e n = false -> outs !! n = Some o -> starts dev' (f n) o.
Proof.
  revert dev. induction names as [|n names IH]; intros dev Hnd Hb Ho; cbn [write_outputs map].
  { exists dev. split; [done|]. split; [apply same_shape_refl|]. intros n o Hn. by apply not_elem_of_nil in Hn. }
  cbn [map] in Hnd. apply NoDup_cons in Hnd as [Hnew Hnd].
  destruct (isInput e n) eqn:Hi.
  - destruct (IH dev Hnd) as (dev' & Hd & Hsh & Hst).
    { intros m Hm. apply Hb. by right. }
    { intros m Hm. apply Ho. by right. }
    exists dev'. split; [done|]. split; [by apply (same_shape_app2 _ [f n])|].
    intros m o [->|Hm]%elem_of_cons Him Hom; [congruence | by eapply Hst].
  - rewrite (Hb n) by left. cbn. destruct (Ho n) as (o & Hon & Hroom); [left|done|]. rewrite Hon. cbn.
    destruct (overwrite_starts _ _ _ Hroom) as (d1 & Hd1 & Hst1 & Hsh1). rewrite Hd1. cbn.
    destruct (IH d1 Hnd) as (dev' & Hd & Hsh & Hst).
    { intros m Hm. apply Hb. by right. }
    { intros m Hm Him. destruct (Ho m) as (om & ? & ?); [by right|done|]. exists om.
      split; [done|]. by eapply room_shape. }
    exists dev'. split; [done|]. split.
    + eapply same_shape_trans; [eapply (same_shape_app1 [f n])|apply (same_shape_app2 _ [f n])]; done.
    + intros m om [->|Hm]%elem_of_cons Him Hom; [|by eapply Hst].
      rewrite Hon in Hom. injection Hom as <-. by eapply starts_other.
Qed.

(** The copies back to the host. *)
Lemma run_d2h (x : Trt) hst (g : Dev) (f : string -> nat) outs :
  NoDup (map snd outs) -> (forall h, length <$> host g !! h = length <$> hst !! h) ->
  (forall b, b ∈ outs -> buffer_of x b.1 = Some (f b.1) /\
     exists bs, hst !! b.2 = Some bs /\ room (device g) (f b.1) (length bs)) ->
  exists h, run_ops (map (d2h x hst) outs) g = Some (set_host h g) /\
    same_shape (map snd outs) (host g) h /\
    forall b bs, b ∈ outs -> hst !! b.2 = Some bs -> h !! b.2 = fetch (f b.1) (length bs) (device g).
Proof.
  revert g. induction outs as [|[n h] outs IH]; intros g Hnd Hlen Hins; cbn [map run_ops].
  { exists (host g). split; [by destruct g|]. split; [apply same_shape_refl|].
    intros b bs Hb. by apply not_elem_of_nil in Hb. }
  cbn [map snd] in Hnd. apply NoDup_cons in Hnd as [Hnew Hnd].
  destruct (Hins (n, h)) as (Hbuf & bs & Hbs & Hroom); [left|]. cbn [fst snd] in *.
  assert (Hop : d2h x hst (n, h) = DeviceToHost h (f n) (length bs))
    by (unfold d2h; cbn [fst snd]; by rewrite Hbuf, Hbs).
  rewrite Hop. cbn [run_op]. destruct (fetch_room _ _ _ Hroom) as (out & Hout & Hlo).
  rewrite Hout. cbn [mbind option_bind].
  pose proof (Hlen h) as Hlh. rewrite Hbs in Hlh.
  destruct (host g !! h) as [mem|] eqn:Hmem; [|done]. injection Hlh as Hlh.
  assert (Hw : overwrite h out (host g) = Some (<[h := out]> (host g))).
  { unfold overwrite. rewrite Hmem. destruct (Nat.leb_spec (length out) (length mem)); [|lia].
    rewrite drop_ge, app_nil_r by lia. done. }
  rewrite Hw. cbn [mbind option_bind].
  assert (Hsh1 : same_shape [h] (host g) (<[h := out]> (host g)))
    by (eapply same_shape_insert; [done|lia|by left]).
  destruct (IH (set_host (<[h := out]> (host g)) g) Hnd) as (h' & Hd & Hsh & Hst).
  { intros q. cbn. rewrite <- Hlen. apply Hsh1. }
  { intros b Hb. apply Hins. by right. }
  cbn [set_host device host] in *. exists h'. split; [by rewrite Hd|]. split.
  - eapply same_shape_trans; [eapply (same_shape_app1 [h])|apply (same_shape_app2 _ [h])]; done.
  - intros b bs' [->|Hb]%elem_of_cons Hbs'; [|by apply Hst]. cbn [fst snd] in *.
    rewrite Hbs in Hbs'. injection Hbs' as <-. rewrite (proj1 Hsh) by done.
    by rewrite lookup_insert_eq.
Qed.

Lemma run_ops_app ops1 ops2 (g : Dev) : run_ops (ops1 ++ ops2) g = run_ops ops1 g ≫= run_ops ops2.
Proof.
  revert g. induction ops1 as [|o ops1 IH]; intros g; [done|]. cbn [app run_ops].
  destruct (run_op o g) as [g'|]; cbn; [apply IH | done].
Qed.

Lemma given_lookup e c hst ins n h :
  NoDup (map fst ins) -> (n, h) ∈ ins ->
  given e c hst ins !! n = Some (take (tensor_bytes e c n) (default [] (hst !! h))).
Proof.
  intros Hnd Hin. unfold given. apply elem_of_list_to_map_1.
  - by rewrite <- list_fmap_compose.
  - apply list_elem_of_fmap. by exists (n, h).
Qed.

Lemma given_none e c hst ins n : n ∉ map fst ins -> given e c hst ins !! n = None.
Proof. intros Hn. apply not_elem_of_list_to_map_1. by rewrite <- list_fmap_compose. Qed.

(** The buffers of a loaded object: known, distinct, and large enough for the
    spans of a run. *)
Definition slot (x : Trt) (n : string) : nat := default 0%nat (buffer_of x n).

Lemma slot_spec x (g : Dev) e c n :
  Ready x g e c -> n ∈ getIOTensorNames e ->
  buffer_of x n = Some (slot x n) /\ room (device g) (slot x n) (tensor_bytes e c n).
Proof.
  intros R Hn. destruct (Ready_index _ _ _ _ _ R Hn) as (i & p & _ & _ & _ & Hbuf & Hcap).
  unfold slot. rewrite Hbuf. split; [done|]. by apply capacity_room; [apply R| |].
Qed.

Lemma slot_inj x (g : Dev) e c n m :
  NoDup (owned1 x) -> Ready x g e c -> n ∈ getIOTensorNames e -> m ∈ getIOTensorNames e ->
  slot x n = slot x m -> n = m.
Proof.
  intros Hnd R Hn Hm Heq. eapply (buffer_of_inj x g e c n m (slot x n)); try done.
  - by apply (slot_spec x g e c).
  - rewrite Heq. by apply (slot_spec x g e c).
Qed.

Lemma slot_span x (g : Dev) e c input d :
  Ready x g e c -> span_ok e c (host g) input d ->
  buffer_of x d.1 = Some (slot x d.1) /\
  exists bs, host g !! d.2 = Some bs /\ room (device g) (slot x d.1) (length bs) /\
    (tensor_bytes e c d.1 <= length bs)%nat.
Proof.
  intros R (Hd & _ & bs & Hbs & Hl). split; [by apply (slot_spec x g e c)|].
  exists bs. split; [done|]. destruct (Ready_index _ _ _ _ _ R Hd) as (i & p & _ & _ & _ & Hbuf & Hcap).
  pose proof (wi_of _ _ _ (proj1 R)) as Hof. unfold slot. rewrite Hbuf. cbn [default id]. split.
  - replace (length bs) with
      (Z.to_nat (bytes_of (contextShape c d.1) (element_size (getTensorDataType e d.1)))) by lia.
    apply (capacity_room _ _ _ _ _ Hof Hd Hcap).
  - pose proof (tensor_bytes_le e c d.1 (context_volume e c d.1 Hof Hd)). lia.
Qed.

(** Once the spans are copied, the launch reads exactly what they hold. *)
Lemma read_given x (g : Dev) e c b ins d :
  Ready x g e c -> (forall n, n ∈ getIOTensorNames e -> b !! n = buffer_of x n) ->
  Forall (span_ok e c (host g) true) ins -> NoDup (map fst ins) ->
  (forall n, n ∈ getIOTensorNames e -> isInput e n = true -> n ∈ map fst ins) ->
  (forall s bs, s ∈ ins -> host g !! s.2 = Some bs -> starts d (slot x s.1) bs) ->
  read_inputs e c b d (getIOTensorNames e) = Some (given e c (host g) ins).
Proof.
  intros R Hb Hin Ni Hall Hst. rewrite Forall_forall in Hin.
  destruct (read_inputs_value e c b d (fun n => default [] (given e c (host g) ins !! n))
              (getIOTensorNames e)) as (m & Hm & Hlook).
  { intros n Hn Hi. exists (slot x n). rewrite Hb by done. split; [by apply (slot_spec x g e c)|].
    pose proof (Hall n Hn Hi) as ((n' & h) & Heq & Hnh)%list_elem_of_fmap. cbn in Heq. subst n'.
    rewrite (given_lookup _ _ _ _ _ _ Ni Hnh). cbn [default id].
    destruct (slot_span _ _ _ _ _ _ R (Hin _ Hnh)) as (_ & bs & Hbs & _ & Hle). cbn [fst snd] in *.
    rewrite Hbs. cbn [default id]. apply starts_fetch; [done|]. by apply (Hst (n, h)). }
  rewrite Hm. f_equal. apply map_eq. intros n. rewrite Hlook. destruct (decide _) as [[Hn Hi]|Hno].
  - pose proof (Hall n Hn Hi) as ((n' & h) & Heq & Hnh)%list_elem_of_fmap. cbn in Heq. subst n'.
    by rewrite (given_lookup _ _ _ _ _ _ Ni Hnh).
  - symmetry. apply given_none. intros (s & -> & Hs)%list_elem_of_fmap. apply Hno.
    destruct (Hin s Hs) as (? & ? & _). done.
Qed.

(** The queued work computes the network on the given inputs. *)
Lemma run_queued (x : Trt) (g : Dev) e c b ins outs :
  Ready x g e c -> NoDup (owned1 x) -> (forall n, n ∈ getIOTensorNames e -> b !! n = buffer_of x n) ->
  Forall (span_ok e c (host g) true) ins -> Forall (span_ok e c (host g) false) outs ->
  NoDup (map fst ins) -> NoDup (map snd outs) ->
  (forall n, n ∈ getIOTensorNames e -> isInput e n = true -> n ∈ map fst ins) ->
  exists g', run_ops (map (h2d x (host g)) ins ++ Launched e c b :: map (d2h x (host g)) outs) g = Some g' /\
    outcomes g' = outcomes g /\
    forall d, d ∈ outs -> exists o bs, kernel c (given e c (host g) ins) !! d.1 = Some o /\
      host g' !! d.2 = Some bs /\ take (length o) bs = o.
Proof.
  intros R Hown Hb Hin Hout Ni No Hall. pose proof (wi_of _ _ _ (proj1 R)) as Hof.
  destruct (run_h2d x g (slot x) ins) as (d1 & Hrun1 & Hsh1 & Hst1).
  { apply NoDup_fmap_2_strong; [|done]. rewrite Forall_forall in Hin.
    intros n m (b1 & -> & Hb1)%list_elem_of_fmap (b2 & -> & Hb2)%list_elem_of_fmap.
    eapply slot_inj; [done|done|by apply (Hin b1)|by apply (Hin b2)]. }
  { intros d Hd. rewrite Forall_forall in Hin.
    destruct (slot_span _ _ _ _ _ _ R (Hin d Hd)) as (? & bs & ? & ? & _). eauto. }
  rewrite run_ops_app, Hrun1. cbn [mbind option_bind run_ops run_op set_device device].
  rewrite (read_given x g e c b ins d1) by done. cbn [mbind option_bind].
  set (K := kernel c (given e c (host g) ins)).
  assert (HK : forall n, n ∈ getIOTensorNames e -> isInput e n = false ->
    exists o, K !! n = Some o /\ length o = tensor_bytes e c n) by (intros n; by apply kernel_size).
  destruct (write_outputs_value e b K (slot x) (getIOTensorNames e) d1) as (d2 & Hw & Hsh2 & Hst2).
  { apply NoDup_fmap_2_strong; [|apply distinct_names]. intros n m. by apply (slot_inj x g e c). }
  { intros n Hn. rewrite Hb by done. by apply (slot_spec x g e c). }
  { intros n Hn Hi. destruct (HK n Hn Hi) as (o & Ho & Hlo). exists o. split; [done|]. rewrite Hlo.
    eapply room_shape; [done|]. by apply (slot_spec x g e c). }
  rewrite Hw. cbn [mbind option_bind]. rewrite Forall_forall in Hout.
  destruct (run_d2h x (host g) (set_device d2 (set_device d1 g)) (slot x) outs No) as (h & Hrun3 & _ & Hst3).
  { done. }
  { intros d Hd. destruct (slot_span _ _ _ _ _ _ R (Hout d Hd)) as (? & bs & ? & ? & _).
    split; [done|]. exists bs. split; [done|]. eapply room_shape; [exact Hsh2|]. by eapply room_shape. }
  exists (set_host h (set_device d2 (set_device d1 g))). split; [exact Hrun3|]. split; [done|].
  intros d Hd. destruct (slot_span _ _ _ _ _ _ R (Hout d Hd)) as (_ & bs & Hbs & Hroom & Hle).
  destruct (HK d.1) as (o & Ho & Hlo); [apply (Hout d Hd)..|].
  exists o, (take (length bs) (default [] (d2 !! slot x d.1))).
  destruct (Hst2 d.1 o) as (mem & Hmem & Htake); [apply (Hout d Hd)..|done|].
  split; [done|]. cbn [set_host host]. rewrite (Hst3 d bs Hd Hbs). cbn [set_device device].
  destruct (fetch_room d2 (slot x d.1) (length bs)) as (out & Hfetch & _).
  { eapply room_shape; [exact Hsh2|]. by eapply room_shape. }
  unfold fetch in *. rewrite Hmem in *. cbn [default id]. destruct (_ <=? _)%nat; [|done].
  split; [done|]. rewrite take_take, Nat.min_l by lia. done.
Qed.

(** A run with matching spans on an idle stream, when the calls succeed: the
    requested values arrive, and the object is as usable as before. *)
Lemma run_network W (x : Trt) (g : Dev) e c s ins outs :
  Use W e c (x, g) -> stream_ x = Some s -> streams g !! s = Some [] -> outcomes g = [] ->
  Forall (span_ok e c (host g) true) ins -> Forall (span_ok e c (host g) false) outs ->
  NoDup (map fst ins) -> NoDup (map snd outs) ->
  (forall n, n ∈ getIOTensorNames e -> isInput e n = true -> n ∈ map fst ins) ->
  exists x' g', bind (enqueue ins outs) (fun _ => sync) (x, g) = (Ok tt, (x', g')) /\
    Use W e c (x', g') /\ stream_ x' = Some s /\ streams g' !! s = Some [] /\ outcomes g' = [] /\
    forall d, d ∈ outs -> exists o bs, kernel c (given e c (host g) ins) !! d.1 = Some o /\
      host g' !! d.2 = Some bs /\ take (length o) bs = o.
Proof.
  intros [O R] Hs Hidle Hcalls Hin Hout Nin Nout Hall. cbn [fst snd] in *.
  assert (Hrun : wp (bind (enqueue ins outs) (fun _ => sync)) (fun _ => Loaded W) (Loaded W) (x, g)).
  { apply wp_bind. eapply wp_mono; [apply (enqueue_ok W ins outs) | intros u st; apply sync_ok | done].
    - apply Forall_app. split; (eapply Forall_impl; [done|]); intros d (_ & _ & bs & Hbs & _);
        pose proof (own_host _ _ _ O d.2) as Hh; rewrite Hbs in Hh; by destruct (host W !! d.2).
    - split; eauto. }
  pose proof (enqueue_queued x g e c s ins outs R Hs Hidle Hcalls Hin Hout) as Hq.
  unfold wp in Hq. unfold wp, bind in Hrun. unfold bind at 1.
  destruct (enqueue ins outs (x, g)) as [[[]|err|] st]; [|done|done].
  destruct Hq as (b & Hb & ->). set (t := <[s := _]> (streams g)) in *.
  destruct (run_queued x (set_streams t g) e c b ins outs R
    (proj1 (Own_cons_nodup _ _ _ _ O)) Hb Hin Hout Nin Nout Hall) as (g' & Hops & Hoc & Hres).
  cbn [set_streams host] in Hops.
  set (g2 := set_streams (<[s := []]> (streams g')) g').
  assert (Hd : drain s (set_streams t g) = Some g2).
  { unfold drain. cbn [set_streams streams].
    rewrite (lookup_insert_eq (streams g) s _ : t !! s = Some _).
    cbn [mbind option_bind]. rewrite Hops. done. }
  assert (Hsync : wp sync (fun _ st => st = (set_bound b x, g2)) (fun _ => False)
    (set_bound b x, set_streams t g)).
  { apply wp_bind, wp_self, wp_bind. cbn [fst]. change (stream_ (set_bound b x)) with (stream_ x).
    rewrite Hs. apply wp_need, wp_bind, wp_gpu, wp_bind. cbn [snd]. rewrite Hd.
    apply wp_need, wp_bind, wp_on_gpu, wp_check_ok; [|done]. cbn. by rewrite Hoc. }
  unfold wp in Hsync. destruct (sync _) as [[[]|err|] st]; [|done|done]. subst st.
  destruct Hrun as [O2 (e' & c' & R2)]. cbn [fst snd] in *.
  assert (e' = e) as ->.
  { pose proof (wi_engine _ _ _ (proj1 R2)) as H1. pose proof (wi_engine _ _ _ (proj1 R)) as H2.
    cbn in H1. congruence. }
  assert (c' = c) as ->.
  { pose proof (wi_context _ _ _ (proj1 R2)) as H1. pose proof (wi_context _ _ _ (proj1 R)) as H2.
    cbn in H1. congruence. }
  exists (set_bound b x), g2. split; [done|]. split; [by split|]. split; [done|].
  split; [cbn; by rewrite lookup_insert_eq|]. split; [cbn; by rewrite Hoc | exact Hres].
Qed.

(** The ids a device has not handed out yet are unused. *)
Definition unused_ids (g : Dev) : Prop :=
  forall p, (next_id g <= p)%nat -> device g !! p = None /\ streams g !! p = None.

Lemma unused_own g : unused_ids g -> Own g [] g.
Proof.
  intros Hf. split; try done; try apply NoDup_nil_2; intros p Hp; by apply not_elem_of_nil in Hp.
Qed.


(** On an engine that was loaded and used in any way and whose stream is
    idle, a run with one span of the right size per input tensor, followed by
    a synchronisation, succeeds when the library calls do, and every
    requested host buffer then begins with the network's value of its tensor
    on exactly the bytes of those spans. *)
Theorem run_computes_network path file read_ok (g0 g1 g : Dev) (x0 x : Trt) ks e c ins outs
  (Hids : unused_ids g0) (Hload : load path file read_ok g0 = (Ok x0, g1))
  (Hspans : Forall (call_valid g0) ks) (Hrun : engine_run ks (x0, g1) = Some (x, g))
  (Hidle : (s ← stream_ x; streams g !! s) = Some []) (Hcalls : outcomes g = [])
  (He : engine_ x = Some e) (Hc : context_ x = Some c)
  (Hin : Forall (span_ok e c (host g) true) ins) (Hout : Forall (span_ok e c (host g) false) outs)
  (Nin : NoDup (map fst ins)) (Nout : NoDup (map snd outs))
  (Hall : forall n, n ∈ getIOTensorNames e -> isInput e n = true -> n ∈ map fst ins) :
  exists st, bind (enqueue ins outs) (fun _ => sync) (x, g) = (Ok tt, st) /\
    forall d, d ∈ outs -> exists o bs, kernel c (given e c (host g) ins) !! d.1 = Some o /\
      host st.2 !! d.2 = Some bs /\ take (length o) bs = o.
Proof.
  pose proof (load_ok path file read_ok g0 (unused_own g0 Hids)) as HL. rewrite Hload in HL.
  destruct (engine_run_ok g0 ks (x0, g1) Hspans HL) as (st & Hst & O & e' & c' & R).
  rewrite Hrun in Hst. injection Hst as <-. cbn [fst snd] in *.
  assert (e' = e) as -> by (pose proof (wi_engine _ _ _ (proj1 R)); congruence).
  assert (c' = c) as -> by (pose proof (wi_context _ _ _ (proj1 R)); congruence).
  destruct (stream_ x) as [s|] eqn:Hs; [|done]. cbn in Hidle.
  destruct (run_network g0 x g e c s ins outs) as (x' & g' & Heq & _ & _ & _ & _ & Hres); try done.
  exists (x', g'). by split.
Qed.

End Proofs.

(** ** A small network *)

(** One dynamic input of one to four bytes and one output of its length, each
    byte one more than the input's. *)
Definition toy_shape (c : option Z) : Dims := match c with Some k => [k] | None => [-1] end.
Definition toy_kernel (c : option Z) (ins : gmap string (list Z)) : gmap string (list Z) :=
  let k := Z.to_nat (volume (toy_shape c)) in
  {[ "out" := take k (map (Z.add 1) (default [] (ins !! "in")) ++ replicate k 0) ]}.

#[export] Instance toy_rt : TensorRT unit (option Z) := {|
  deserializeCudaEngine _ := Some tt;
  getIOTensorNames _ := ["in"; "out"];
  engineShape _ _ := [-1];
  getTensorDataType _ _ := kUINT8;
  isInput _ n := String.eqb n "in";
  getProfileShape _ _ := [4];
  createExecutionContext _ := Some None;
  setInputShape _ n d :=
    match d with
    | [k] => if String.eqb n "in" && (1 <=? k) && (k <=? 4) then Some (Some k) else None
    | _ => None
    end;
  contextShape c _ := toy_shape c;
  kernel := toy_kernel;
|}.

Lemma toy_volume (c : option Z) :
  match c with Some k => 1 <= k <= 4 | None => True end -> volume (toy_shape c) = default 0 c.
Proof.
  destruct c as [k|]; [|done]. intros Hk. cbn [toy_shape volume volume_loop default].
  destruct (Z.ltb_spec k 0); [lia|]. rewrite Z.mul_1_l. apply u64_small. cbn. lia.
Qed.

#[export] Instance toy_laws : TensorRTLaws unit (option Z).
Proof.
  refine {| context_of := fun _ (c : option Z) => match c with Some k => 1 <= k <= 4 | None => True end |}.
  - by intros e c [= <-].
  - intros e c n [|k [|k' d]] c' _ H; cbn in H; try done.
    destruct (String.eqb n "in") eqn:Hn; cbn in H; [|done].
    destruct (Z.leb_spec 1 k), (Z.leb_spec k 4); cbn in H; try done. injection H as <-.
    split; [done|]. split; [done|]. intros m Hm Hne. apply String.eqb_eq in Hn, Hm. congruence.
  - done.
  - intros e c n Hc _ _ _. destruct c as [k|]; [|by left]. right. constructor; [lia|done].
  - intros e c cm n Hc Hcm Hmax _ _.
    assert (Hin : "in" ∈ ["in"; "out"]) by left. specialize (Hmax "in" Hin eq_refl eq_refl). cbn in Hmax.
    destruct cm as [k'|]; [|done]. cbn in Hmax. injection Hmax as ->.
    destruct c as [k|]; [|by left]. right. constructor; [lia|done].
  - intros e c n Hc _ Hd. destruct c as [k|]; cbn in *; [lia | done].
  - intros e n _ _. cbn. lia.
  - intros e [k|] n _ _; done.
  - intros e. by apply (bool_decide_unpack _).
  - intros e c ins n Hc Hn Hi. cbn in Hi.
    apply elem_of_cons in Hn as [->|Hn]; [done|]. apply list_elem_of_singleton in Hn as ->.
    eexists. split; [apply lookup_singleton_eq|].
    rewrite length_take, length_app, length_map, length_replicate.
    unfold tensor_bytes. cbn [contextShape toy_rt getTensorDataType packed element_size].
    rewrite Z.mul_1_r. lia.
Defined.

Definition toy_gpu : Gpu unit (option Z) :=
  mkGpu {[ 10%nat := [5; 6]; 11%nat := [0; 0] ]} {[ 0%nat := [9] ]} ∅ 1 [] (fun _ => 7).
Definition toy_calls : list EngineCall :=
  [CallReload "p" None true; CallSetInputShape "in" [2]; CallMove;
   CallEnqueue [("in", 10%nat)] [("out", 11%nat)]; CallSetInputShape "in" [9]; CallSync].

Lemma toy_ids : unused_ids toy_gpu.
Proof.
  intros p Hp. cbn in *. split; [|done]. rewrite lookup_singleton_ne; [done | lia].
Qed.


Definition toy_loaded : TrtEngine unit (option Z) * Gpu unit (option Z) :=
  match load "p" (Some [1]) true toy_gpu with (Ok x, g) => (x, g) | (_, g) => (Trt_empty, g) end.
Definition toy_state : TrtEngine unit (option Z) * Gpu unit (option Z) :=
  default toy_loaded (engine_run toy_calls toy_loaded).

Lemma run_computes_network_witness :
  exists st : TrtEngine unit (option Z) * Gpu unit (option Z),
    bind (enqueue [("in", 10%nat)] [("out", 11%nat)]) (fun _ => sync)
      (toy_state.1, toy_state.2) = (Ok tt, st) /\
    forall d, d ∈ [("out", 11%nat)] ->
      exists o bs, kernel (Some 2) (given tt (Some 2) (host toy_state.2) [("in", 10%nat)]) !! d.1 = Some o /\
        host st.2 !! d.2 = Some bs /\ take (length o) bs = o.
Proof.
  assert (Hrun : engine_run toy_calls (toy_loaded.1, toy_loaded.2) = Some (toy_state.1, toy_state.2))
    by (vm_compute; reflexivity).
  refine (run_computes_network "p" (Some [1]) true toy_gpu toy_loaded.2 toy_state.2 toy_loaded.1
           toy_state.1 toy_calls tt (Some 2) [("in", 10%nat)] [("out", 11%nat)]
           toy_ids _ _ Hrun _ _ _ _ _ _ _ _ _).
  - vm_compute. reflexivity.
  - repeat constructor; by eexists.
  - vm_compute. reflexivity.
  - vm_compute. reflexivity.
  - vm_compute. reflexivity.
  - vm_compute. reflexivity.
  - repeat constructor. eexists. split; vm_compute; reflexivity.
  - constructor; [|constructor]. split; [right; left|]. split; [done|].
    eexists. split; vm_compute; reflexivity.
  - by apply (bool_decide_unpack _).
  - by apply (bool_decide_unpack _).
  - intros n [->|[->|[]%not_elem_of_nil]%elem_of_cons]%elem_of_cons Hi; [left | done].
Defined.
