(* ===== verification/Networks.v ===== *)
(** The two networks of the pipeline on their TensorRT engines
    (src/server/inference: yolo_plate_detector.cpp, paddle_ocr_recognizer.cpp):
    loading an engine and the host buffers of a detector or a recogniser, and
    one image through the engine, joined with the decoding of Inference; and
    the theorems that every image gives what the network computes from it.

    OpenCV's resampling is an argument: [pre] is the contents it leaves in the
    input buffer.  Buffers hold bytes; a float or an int is read little-endian,
    as the server's machine does. *)

From S2P Require Import Prelude Float32 Inference TrtEngine.
Local Open Scope Z_scope.

(** ** Reading numbers from bytes *)

Fixpoint words (bs : list Z) : list Z :=
  match bs with
  | b0 :: b1 :: b2 :: b3 :: bs => (b0 + 256 * b1 + 65536 * b2 + 16777216 * b3) :: words bs
  | _ => []
  end.

(** The binary32 value of a bit pattern. *)
Definition f32_of_bits (w : Z) : f32 :=
  let s := Z.testbit w 31 in
  let e := Z.land (Z.shiftr w 23) 255 in
  let m := Z.land w 8388607 in
  if e =? 255 then (if m =? 0 then S754_infinity s else S754_nan)
  else if e =? 0 then match m with Zpos p => S754_finite s p (-149) | _ => S754_zero s end
  else match m + 8388608 with Zpos p => S754_finite s p (e - 150) | _ => S754_zero s end.

Definition i32s (bs : list Z) : list Z := map i32 (words bs).
Definition f32s (bs : list Z) : list f32 := map f32_of_bits (words bs).

Section Model.
Context {Eng Ctx : Type} `{RT : TensorRT Eng Ctx}.
Notation Trt := (TrtEngine Eng Ctx).
Notation Dev := (Gpu Eng Ctx).
Notation St := (@St Eng Ctx).
Notation M := (@M Eng Ctx).

Local Notation "'let!' x := m 'in' k" := (bind m (fun x => k))
  (at level 200, x name, m at level 100, k at level 200).

(** [vec.assign(n, 0)] of [n] four-byte elements, for the buffer with id
    [h]; a negative count is beyond the vector's largest size. *)
Definition assign (h : nat) (n : Z) : M unit :=
  if n <? 0 then throw "vector::_M_fill_assign"
  else on_gpu (fun g => set_host (<[h := replicate (Z.to_nat (4 * n)) 0]> (host g)) g).

(** Filling a host buffer of the same size in place. *)
Definition fill (h : nat) (bs : list Z) : M unit :=
  let! g := gpu in
  let! old := need (host g !! h) in
  if (length bs =? length old)%nat then on_gpu (set_host (<[h := bs]> (host g))) else undefined.

Definition read_host (h : nat) : M (list Z) := let! g := gpu in need (host g !! h).

(** One image through the engine. *)
Definition run_frame (input : string * nat) (outs : list (string * nat)) (pre : list Z) : M unit :=
  let! _ := fill input.2 pre in
  let! _ := enqueue [input] outs in
  sync.

(** Building on a loaded engine: an exception destroys it, and the host
    buffers [hs] that were made. *)
Definition build {A} (path : string) (file : option (list Z)) (read_ok : bool) (hs : list nat)
    (m : M A) (g : Dev) : Res A * St :=
  match load path file read_ok g with
  | (Ok x, g) =>
      match m (x, g) with
      | (Ok a, st) => (Ok a, st)
      | (Err e, (x, g)) =>
          match destroy x g with
          | Some g => (Err e, (Trt_empty, set_host (foldr delete (host g) hs) g))
          | None => (UB, (x, g))
          end
      | (UB, st) => (UB, st)
      end
  | (Err e, g) => (Err e, (Trt_empty, g))
  | (UB, g) => (UB, (Trt_empty, g))
  end.

(** ** The detector *)

Record YoloConfig := mkYoloConfig {
  yc_engine_path : string; yc_width : Z; yc_height : Z; yc_floor : f32;
  input_name : string; num_dets_name : string; boxes_name : string;
  scores_name : string; classes_name : string;
}.

(** The host buffers of a detector. *)
Record YoloHost := mkYoloHost {
  input_chw_ : nat; num_dets_host_ : nat; boxes_host_ : nat; scores_host_ : nat; classes_host_ : nat;
}.

Record Yolo := mkYolo { yo_cfg : YoloConfig; yo_host : YoloHost; max_detections_ : Z }.

(** [load] up to the number of detections. *)
Definition yolo_resolve (cfg : YoloConfig) : M Z :=
  let! _ := set_input_shape (input_name cfg) [1; 3; yc_height cfg; yc_width cfg] in
  let! io := tensor (boxes_name cfg) in
  if (length (io_shape io) <? 3)%nat
  then throw ("YoloPlateDetector: '" +:+ boxes_name cfg +:+
              "' has fewer than 3 dims — is this an end2end NMS engine?")
  else
    let! x := self in
    let! c := need (context_ x) in
    let! d := need (contextShape c (boxes_name cfg) !! 1%nat) in
    let m := i32 d in
    if m <=? 0
    then throw ("YoloPlateDetector: could not resolve max_detections from " +:+
                boxes_name cfg +:+ " shape")
    else ret m.

Definition yolo_body (cfg : YoloConfig) (h : YoloHost) : M Yolo :=
  let! m := yolo_resolve cfg in
  let! _ := assign (input_chw_ h) (3 * yc_height cfg * yc_width cfg) in
  let! _ := assign (num_dets_host_ h) 1 in
  let! _ := assign (boxes_host_ h) (m * 4) in
  let! _ := assign (scores_host_ h) m in
  let! _ := assign (classes_host_ h) m in
  ret (mkYolo cfg h m).

Definition yolo_ids (h : YoloHost) : list nat :=
  [input_chw_ h; num_dets_host_ h; boxes_host_ h; scores_host_ h; classes_host_ h].

(** [YoloPlateDetector::load]. *)
Definition yolo_load (cfg : YoloConfig) (file : option (list Z)) (read_ok : bool) (h : YoloHost)
    (g : Dev) : Res Yolo * St :=
  build (yc_engine_path cfg) file read_ok (yolo_ids h) (yolo_body cfg h) g.

Definition yolo_input (y : Yolo) : string * nat := (input_name (yo_cfg y), input_chw_ (yo_host y)).
Definition yolo_outputs (y : Yolo) : list (string * nat) :=
  [(num_dets_name (yo_cfg y), num_dets_host_ (yo_host y));
   (boxes_name (yo_cfg y), boxes_host_ (yo_host y));
   (scores_name (yo_cfg y), scores_host_ (yo_host y));
   (classes_name (yo_cfg y), classes_host_ (yo_host y))].

Definition yolo_detector (y : Yolo) : DetectorConfig :=
  mkDetector (yc_width (yo_cfg y)) (yc_height (yo_cfg y)) (yc_floor (yo_cfg y)) (max_detections_ y).

(** What the decoding loop makes of the buffers. *)
Definition decode (y : Yolo) (cols rows : Z) (raw : RawDetections) : M (list Detection) :=
  match detect (yolo_detector y) cols rows true raw with
  | Some (inr ds) => ret ds
  | Some (inl e) => throw e
  | None => undefined
  end.

(** [YoloPlateDetector::detect] of a [cols] x [rows] image. *)
Definition yolo_detect (y : Yolo) (cols rows : Z) (type_ok : bool) (pre : list Z) : M (list Detection) :=
  if (cols <=? 0) || (rows <=? 0)
  then throw "YoloPlateDetector::detect: input image is empty"
  else if negb type_ok
  then throw "YoloPlateDetector::detect: input must be CV_8UC3 (BGR)"
  else
    let! _ := run_frame (yolo_input y) (yolo_outputs y) pre in
    let! n := read_host (num_dets_host_ (yo_host y)) in
    let! b := read_host (boxes_host_ (yo_host y)) in
    let! s := read_host (scores_host_ (yo_host y)) in
    let! k := read_host (classes_host_ (yo_host y)) in
    let! n0 := need (i32s n !! 0%nat) in
    decode y cols rows (mkRaw n0 (f32s b) (f32s s) (i32s k)).

(** ** The recogniser *)

Record OcrConfig := mkOcrConfig {
  oc_engine_path : string; oc_dictionary_path : string; oc_width : Z; oc_height : Z;
  ocr_input_name : string; ocr_output_name : string;
}.

Record Ocr := mkOcr { oc_cfg : OcrConfig; oc_in : nat; oc_out : nat; oc_recognizer : Recognizer }.

(** [static_cast<int>] of the dimensions that are read. *)
Definition int_dims (d : Dims) : Dims :=
  match d with n :: t :: c :: d => n :: i32 t :: i32 c :: d | _ => d end.

Definition ocr_body (cfg : OcrConfig) (hin hout : nat) (dict : list string) : M Ocr :=
  let! _ := set_input_shape (ocr_input_name cfg) [1; 3; oc_height cfg; oc_width cfg] in
  let! x := self in
  let! c := need (context_ x) in
  match load_recognizer (ocr_output_name cfg) dict
          (int_dims (contextShape c (ocr_output_name cfg))) with
  | inl e => throw e
  | inr r =>
      let! _ := assign hin (3 * oc_height cfg * oc_width cfg) in
      let! _ := assign hout (seq_len r * num_classes r) in
      ret (mkOcr cfg hin hout r)
  end.

(** [PaddleOcrRecognizer::load]: the dictionary is read first. *)
Definition ocr_load (cfg : OcrConfig) (dict_file : option string) (file : option (list Z))
    (read_ok : bool) (hin hout : nat) (g : Dev) : Res Ocr * St :=
  match read_dictionary (oc_dictionary_path cfg) dict_file with
  | inl e => (Err e, (Trt_empty, g))
  | inr dict => build (oc_engine_path cfg) file read_ok [hin; hout] (ocr_body cfg hin hout dict) g
  end.

(** [recognize] of a crop; [type_ok] is the test for a non-empty image of
    three 8-bit channels. *)
Definition ocr_recognize (o : Ocr) (type_ok : bool) (pre : list Z) : M CtcResult :=
  if negb type_ok then throw "PaddleOcrRecognizer::preprocess: input must be CV_8UC3 BGR"
  else
    let! _ := run_frame (ocr_input_name (oc_cfg o), oc_in o) [(ocr_output_name (oc_cfg o), oc_out o)] pre in
    let! l := read_host (oc_out o) in
    need (recognize (oc_recognizer o) (f32s l)).

(** A list of images, each after the other; exceptions are caught. *)
Fixpoint each {A B} (f : A -> M B) (l : list A) (st : St) : list (Res B) * St :=
  match l with
  | [] => ([], st)
  | a :: l =>
      let '(r, st) := f a st in
      let '(rs, st) := each f l st in
      (r :: rs, st)
  end.

End Model.

(** ** Calls that leave the stream alone *)

Section Proofs.
Context {Eng Ctx : Type} `{RT : TensorRT Eng Ctx} `{RL : !TensorRTLaws Eng Ctx}.
Notation Trt := (TrtEngine Eng Ctx).
Notation Dev := (Gpu Eng Ctx).
Notation St := (@St Eng Ctx).
Notation M := (@M Eng Ctx).

(** The call queues nothing, and fails only when the device does. *)
Definition quiet {A} (m : M A) : Prop :=
  forall st, stream_ (m st).2.1 = stream_ st.1 /\ streams (m st).2.2 = streams st.2 /\
    (outcomes st.2 = [] -> outcomes (m st).2.2 = []).

Lemma quiet_bind {A B} (m : M A) (k : A -> M B) : quiet m -> (forall a, quiet (k a)) -> quiet (bind m k).
Proof.
  intros Hm Hk st. specialize (Hm st). unfold bind. destruct (m st) as [[a|err|] st']; cbn in *; [|done|done].
  destruct (Hk a st') as (-> & -> & H3). destruct Hm as (-> & -> & ?). auto.
Qed.
Lemma quiet_ret {A} (a : A) : quiet (ret a).
Proof. by intros st. Qed.
Lemma quiet_throw {A} e : quiet (@throw Eng Ctx A e).
Proof. by intros st. Qed.
Lemma quiet_undefined {A} : quiet (@undefined Eng Ctx A).
Proof. by intros st. Qed.
Lemma quiet_need {A} (o : option A) : quiet (need o).
Proof. destruct o; by intros st. Qed.
Lemma quiet_self : quiet self.
Proof. by intros st. Qed.
Lemma quiet_gpu : quiet gpu.
Proof. by intros st. Qed.
Lemma quiet_on_self f : (forall x, stream_ (f x) = stream_ x) -> quiet (on_self f).
Proof. intros H st. by split; [apply H|]. Qed.
Lemma quiet_on_gpu f :
  (forall g, streams (f g) = streams g /\ outcomes (f g) = outcomes g) -> quiet (on_gpu f).
Proof. intros H st. destruct (H st.2) as [H1 H2]. cbn. by rewrite H1, H2. Qed.
Lemma quiet_outcome : quiet outcome.
Proof. intros st. unfold outcome. by destruct (outcomes st.2) eqn:Ho. Qed.
Lemma quiet_fresh : quiet fresh.
Proof. by intros st. Qed.
Lemma quiet_for_each {A} (f : A -> M unit) l : (forall a, quiet (f a)) -> quiet (for_each f l).
Proof.
  intros Hf. induction l as [|a l IH]; [apply quiet_ret|]. cbn [for_each]. by apply quiet_bind.
Qed.
End Proofs.

Create HintDb quiet.
#[export] Hint Resolve quiet_ret quiet_throw quiet_undefined quiet_need quiet_self quiet_gpu
  quiet_outcome quiet_fresh : quiet.

Ltac solve_quiet :=
  repeat first
    [ by auto with quiet
    | apply quiet_bind; [|intros ?] | apply quiet_on_self; [done] | apply quiet_on_gpu; [done]
    | apply quiet_for_each; intros ? | case_match ].

Section Networks.
Context {Eng Ctx : Type} `{RT : TensorRT Eng Ctx} `{RL : !TensorRTLaws Eng Ctx}.
Notation Trt := (TrtEngine Eng Ctx).
Notation Dev := (Gpu Eng Ctx).
Notation St := (@St Eng Ctx).
Notation M := (@M Eng Ctx).

Lemma quiet_cudaMalloc i n : quiet (cudaMalloc i n : M unit).
Proof. unfold cudaMalloc, check_cuda. solve_quiet. Qed.
Lemma quiet_tensor n : quiet (tensor n : M TensorIo).
Proof. unfold tensor, buffer_index_. solve_quiet. Qed.
Hint Resolve quiet_cudaMalloc quiet_tensor : quiet.
Lemma quiet_buffer_bytes n : quiet (buffer_bytes n).
Proof. unfold buffer_bytes. solve_quiet. Qed.
Lemma quiet_set_input_shape n d : quiet (set_input_shape n d).
Proof. unfold set_input_shape. solve_quiet. Qed.
Hint Resolve quiet_buffer_bytes quiet_set_input_shape : quiet.
Lemma quiet_allocate : quiet allocate_buffers_.
Proof.
  unfold allocate_buffers_, allocate_first, prime_input, allocate_second. solve_quiet.
Qed.
Hint Resolve quiet_allocate : quiet.
Lemma quiet_assign h n : quiet (assign h n : M unit).
Proof. unfold assign. solve_quiet. Qed.
Hint Resolve quiet_assign : quiet.
Lemma quiet_yolo_body cfg h : quiet (yolo_body cfg h).
Proof. unfold yolo_body, yolo_resolve. solve_quiet. Qed.
Lemma quiet_ocr_body cfg hin hout dict : quiet (ocr_body cfg hin hout dict).
Proof. unfold ocr_body. solve_quiet. Qed.

Definition idle (st : St) : Prop := (s ← stream_ st.1; streams st.2 !! s) = Some [].

Lemma quiet_idle {A} (m : M A) st : quiet m -> idle st -> idle (m st).2.
Proof. intros Hm. unfold idle. destruct (Hm st) as (-> & -> & _). done. Qed.

(** The call, when it returns, leaves an idle stream. *)
Definition settles {A} (m : M A) : Prop :=
  forall st, (outcomes st.2 = [] -> outcomes (m st).2.2 = []) /\
    match (m st).1 with Ok _ => idle (m st).2 | _ => True end.

Lemma settles_after {A B} (m : M A) (k : A -> M B) :
  quiet m -> (forall a, settles (k a)) -> settles (bind m k).
Proof.
  intros Hm Hk st. destruct (Hm st) as (_ & _ & H). unfold bind.
  destruct (m st) as [[a|err|] st']; cbn in *; [|done|done].
  destruct (Hk a st') as [H1 H2]. auto.
Qed.

Lemma settles_then {A B} (m : M A) (k : A -> M B) :
  settles m -> (forall a, quiet (k a)) -> settles (bind m k).
Proof.
  intros Hm Hk st. destruct (Hm st) as [H1 H2]. unfold bind.
  destruct (m st) as [[a|err|] st']; cbn in *; [|done|done].
  pose proof (quiet_idle (k a) st' (Hk a) H2) as H3. destruct (Hk a st') as (_ & _ & H4).
  split; [by auto|]. by destruct (k a st').1.
Qed.

Lemma settles_throw {A} e : settles (throw e : M A).
Proof. by intros st. Qed.

Lemma settles_stream : settles (cudaStreamCreate : M unit).
Proof.
  unfold cudaStreamCreate, check_cuda. intros [x g].
  unfold bind, outcome. cbn. destruct (outcomes g) as [|[o|] os] eqn:Ho; cbn; (split; [done|]); try done;
    unfold idle; cbn; by rewrite lookup_insert_eq.
Qed.

Lemma settles_load path blob : settles (load_body path blob).
Proof.
  unfold load_body. apply settles_after; [solve_quiet|]. intros [o|]; [apply settles_throw|].
  apply settles_after; [solve_quiet|]. intros _. case_match; [|apply settles_throw].
  apply settles_after; [solve_quiet|]. intros _. case_match; [|apply settles_throw].
  apply settles_after; [solve_quiet|]. intros _.
  apply settles_then; [apply settles_stream|]. intros _. solve_quiet.
Qed.

(** A loaded engine has an idle stream. *)
Lemma load_idle path file read_ok (g g' : Dev) x :
  load path file read_ok g = (Ok x, g') ->
  idle (x, g') /\ (outcomes g = [] -> outcomes g' = []).
Proof.
  unfold load. destruct (read_engine_blob path file read_ok) as [|blob]; [done|].
  destruct (settles_load path blob (Trt_empty, g)) as [H1 H2].
  destruct (load_body path blob (Trt_empty, g)) as [[u|err|] [x' g'']]; [|cbn; by destruct (destroy x' g'')|done].
  intros [= <- <-]. by split.
Qed.

(** ** Host buffers *)

(** A loaded engine beside the allocations of [W], whatever the host holds. *)
Definition beside (W : Dev) (g : Dev) : Dev := set_host (host g) W.

Lemma Own_host W W' xs (g : Dev) hst :
  device W' = device W -> streams W' = streams W -> host W' = hst ->
  (forall h n, room (host g) h n -> room hst h n) -> Own W xs g -> Own W' xs (set_host hst g).
Proof.
  intros Hd Hs Hh Hr [N F L SN SF SL T R H]. split; rewrite ?Hd, ?Hs, ?Hh; try done.
  eapply Forall_impl; [exact T|]. intros x. unfold tidy. destruct (stream_ x); [|done].
  intros (ops & Hops & Hf). exists ops. split; [done|]. eapply Forall_impl; [exact Hf|].
  intros o. destruct o; cbn; naive_solver.
Qed.

Lemma room_insert (m : gmap nat (list Z)) h bs k n :
  (forall old, m !! h = Some old -> length old = length bs) -> room m k n -> room (<[h := bs]> m) k n.
Proof.
  intros Ho (mem & Hm & Hn). destruct (decide (h = k)) as [->|].
  - exists bs. rewrite lookup_insert_eq. split; [done|]. by rewrite <- (Ho _ Hm).
  - exists mem. by rewrite lookup_insert_ne.
Qed.

(** Filling a host buffer, or making one. *)
Lemma Use_fill W e c x (g : Dev) h bs :
  (forall old, host g !! h = Some old -> length old = length bs) ->
  Use (beside W g) e c (x, g) ->
  Use (beside W (set_host (<[h := bs]> (host g)) g)) e c (x, set_host (<[h := bs]> (host g)) g).
Proof.
  intros Ho [O R]. split; [|done]. eapply Own_host; [..|exact O]; try done.
  intros k n. by apply room_insert.
Qed.

(** The frame of an engine is kept up to the sizes of the host buffers. *)
Lemma Use_beside W W' e c st :
  device W' = device W -> streams W' = streams W -> Use W e c st -> Use (beside W' st.2) e c st.
Proof.
  intros Hd Hs [O R]. split; [|done]. destruct st as [x g]. cbn [fst snd] in *.
  replace g with (set_host (host g) g) at 2 by (by destruct g).
  by eapply (Own_host W); [..|exact O].
Qed.

(** ** One image *)

(** A loaded and idle engine with a host buffer of the right size for its
    input and for the outputs that are read. *)
Record Serving (W : Dev) (e : Eng) (c : Ctx) (input : string * nat) (outs : list (string * nat))
    (st : St) : Prop := {
  sv_use : Use (beside W st.2) e c st;
  sv_idle : idle st;
  sv_calls : outcomes st.2 = [];
  sv_in : span_ok e c (host st.2) true input;
  sv_outs : Forall (span_ok e c (host st.2) false) outs;
}.

(** A network with one input, and no 4-bit tensors among those read. *)
Record Plain (e : Eng) (input : string * nat) (outs : list (string * nat)) : Prop := {
  pl_input n : n ∈ getIOTensorNames e -> isInput e n = true -> n = input.1;
  pl_unpacked : Forall (fun d => packed (getTensorDataType e d.1) = false) (input :: outs);
  pl_apart : NoDup (map snd outs);
}.

Lemma unpacked_bytes e c n :
  context_of e c -> n ∈ getIOTensorNames e -> packed (getTensorDataType e n) = false ->
  Z.of_nat (tensor_bytes e c n) = bytes_of (contextShape c n) (element_size (getTensorDataType e n)).
Proof.
  intros Hc Hn Hp. pose proof (context_volume e c n Hc Hn) as Hb. unfold tensor_bytes. rewrite Hp.
  rewrite bytes_of_exact by done. pose proof (volume_range _ Hb).
  pose proof (element_size_range (getTensorDataType e n)). nia.
Qed.

Lemma span_ok_length e c hst hst' i d :
  (forall h, length <$> hst' !! h = length <$> hst !! h) -> span_ok e c hst i d -> span_ok e c hst' i d.
Proof.
  intros Hl (Hn & Hi & bs & Hbs & Hlen). split; [done|]. split; [done|].
  specialize (Hl d.2). rewrite Hbs in Hl. destruct (hst' !! d.2) as [bs'|]; [|done].
  injection Hl as Hl. exists bs'. by rewrite Hl.
Qed.

Lemma filled_length (g : Dev) h bs old :
  host g !! h = Some old -> length bs = length old ->
  forall k, length <$> <[h := bs]> (host g) !! k = length <$> host g !! k.
Proof.
  intros Ho Hl k. destruct (decide (h = k)) as [<-|]; [|by rewrite lookup_insert_ne].
  rewrite lookup_insert_eq, Ho. cbn. by rewrite Hl.
Qed.

(** The image goes in, and every output buffer holds exactly the network's
    value of its tensor. *)
Lemma frame_runs W e c input outs st pre :
  Plain e input outs -> Serving W e c input outs st ->
  Z.of_nat (length pre) = bytes_of (contextShape c input.1) (element_size (getTensorDataType e input.1)) ->
  exists st', run_frame input outs pre st = (Ok tt, st') /\ Serving W e c input outs st' /\
    forall d, d ∈ outs ->
      exists o, kernel c {[ input.1 := pre ]} !! d.1 = Some o /\ host st'.2 !! d.2 = Some o.
Proof.
  destruct st as [x g], input as [n h]. intros [Ponly Ppack Papart] [U I C Si So] Hpre.
  cbn [fst snd] in *. inversion Ppack as [|? ? Pn Pouts]; subst. cbn [fst] in *.
  pose proof Si as (Hn & Hi & old & Hold & Hlen). cbn [fst snd] in *.
  assert (Hl : length pre = length old) by lia.
  set (g1 := set_host (<[h := pre]> (host g)) g).
  assert (Hfill : fill h pre (x, g) = (Ok tt, (x, g1))).
  { unfold fill, bind, gpu. cbn. rewrite Hold. cbn. by rewrite Hl, Nat.eqb_refl. }
  assert (Hl1 : forall k, length <$> host g1 !! k = length <$> host g !! k) by (by eapply filled_length).
  assert (U1 : Use (beside W g1) e c (x, g1)).
  { apply Use_fill; [|done]. intros o Ho. congruence. }
  assert (Hof : context_of e c) by (apply (wi_of _ _ _ (proj1 (proj2 U)))).
  unfold idle in I. destruct (stream_ x) as [s|] eqn:Hs; cbn [fst snd] in I; rewrite Hs in I; [|done].
  destruct (run_network (beside W g1) x g1 e c s [(n, h)] outs) as
    (x' & g' & Hrun & U2 & Hs' & I' & C' & Hres); try done.
  { constructor; [|done]. by eapply span_ok_length. }
  { eapply Forall_impl; [exact So|]. intros d. by apply span_ok_length. }
  { apply NoDup_singleton. }
  { intros m Hm Hmi. apply list_elem_of_singleton. by apply Ponly. }
  assert (Hl2 : forall k, length <$> host g' !! k = length <$> host g !! k).
  { intros k. rewrite <- Hl1. apply (own_host _ _ _ (proj1 U2)). }
  exists (x', g'). split.
  { unfold run_frame. unfold bind at 1. cbn [snd]. rewrite Hfill. exact Hrun. }
  split.
  - split; cbn [fst snd].
    + by apply (Use_beside (beside W g1) W e c (x', g')).
    + unfold idle. cbn. by rewrite Hs'.
    + done.
    + by eapply span_ok_length.
    + eapply Forall_impl; [exact So|]. intros d. by apply span_ok_length.
  - intros d Hd. destruct (Hres d Hd) as (o & bs & Hk & Hbs & Htake). exists o. split.
    + rewrite <- Hk. f_equal. f_equal. unfold given. cbn [map list_to_map fst snd].
      cbn [g1 set_host host]. rewrite lookup_insert_eq. cbn [default id].
      rewrite take_ge; [done|]. pose proof (unpacked_bytes e c n Hof Hn Pn). lia.
    + cbn [snd]. rewrite Hbs. f_equal. rewrite <- Htake, take_ge; [done|].
      rewrite Forall_forall in So, Pouts. destruct (So d Hd) as (Hdn & Hdi & b0 & Hb0 & Hlb).
      destruct (kernel_size e c (given e c (host g1) [(n, h)]) d.1 Hof Hdn Hdi) as (o' & Ho' & Hlo).
      rewrite Hk in Ho'. injection Ho' as <-. pose proof (unpacked_bytes e c d.1 Hof Hdn (Pouts d Hd)).
      specialize (Hl2 d.2). rewrite Hbs, Hb0 in Hl2. injection Hl2 as Hl2. lia.
Qed.

(** A list of images, when each leaves the engine as ready as it was. *)
Lemma each_serves {A B} (f : A -> M B) (F : A -> Res B) (I : St -> Prop) (P : A -> Prop) l st :
  (forall a st, P a -> I st -> exists st', f a st = (F a, st') /\ I st') ->
  Forall P l -> I st -> exists st', each f l st = (map F l, st') /\ I st'.
Proof.
  intros Hf HP. revert st. induction HP as [|a l Ha Hl IH]; intros st HI; cbn [each map]; [by eauto|].
  destruct (Hf a st Ha HI) as (st1 & -> & H1). destruct (IH st1 H1) as (st2 & -> & H2). eauto.
Qed.

(** ** Loading *)

(** What is left when a later call throws. *)
Definition Leftover (W : Dev) (st : St) : Prop := Own (beside W st.2) [st.1] st.2.

Lemma build_ok {A} path file read_ok hs (m : M A) (g : Dev) (Q : A -> St -> Prop) :
  Own g [] g ->
  (forall e c x g1, Use (beside g g1) e c (x, g1) -> (forall h, host g !! h = None -> host g1 !! h = None) ->
     wp m Q (Leftover g) (x, g1)) ->
  match build path file read_ok hs m g with
  | (Ok a, st) => Q a st
  | (Err _, (x, g')) => x = Trt_empty /\ device g' = device g /\ streams g' = streams g
  | (UB, _) => False
  end.
Proof.
  intros O Hm. unfold build. pose proof (load_ok path file read_ok g O) as HL.
  destruct (load path file read_ok g) as [[x|err|] g1]; [|by split; [|apply Own_nothing]|done].
  destruct HL as [O1 (e & c & R)].
  pose proof (Use_beside g g e c (x, g1) eq_refl eq_refl (conj O1 R)) as U.
  assert (Hw : wp m Q (Leftover g) (x, g1)).
  { apply (Hm e c); [done|]. intros h Hh. pose proof (own_host _ _ _ O1 h) as Hl. cbn [snd] in Hl.
    rewrite Hh in Hl. by destruct (host g1 !! h). }
  unfold wp in Hw. destruct (m (x, g1)) as [[a|err|] [x' g']]; [done| |done].
  destruct (destroy_own _ _ _ _ Hw) as (g2 & Hg2 & O2 & _). cbn [fst snd] in *. rewrite Hg2.
  split; [done|]. destruct (Own_nothing _ _ O2) as [H1 H2]. by split.
Qed.

Lemma build_idle {A} path file read_ok hs (m : M A) (g : Dev) :
  quiet m ->
  match build path file read_ok hs m g with
  | (Ok _, st) => idle st /\ (outcomes g = [] -> outcomes st.2 = [])
  | _ => True
  end.
Proof.
  intros Hm. unfold build. destruct (load path file read_ok g) as [[x|err|] g1] eqn:Hl; [|done|done].
  destruct (load_idle _ _ _ _ _ _ Hl) as [I C]. pose proof (quiet_idle m _ Hm I) as I'.
  destruct (Hm (x, g1)) as (_ & _ & C').
  destruct (m (x, g1)) as [[a|err|] [x' g']]; [|by destruct (destroy x' g')|done]. cbn in *. auto.
Qed.

Lemma wp_tensor W e c n (Q : TensorIo -> St -> Prop) E st :
  Use W e c st -> (n ∈ getIOTensorNames e -> Q (describe e n) st) -> E st -> wp (tensor n) Q E st.
Proof.
  intros U HQ HE. apply wp_bind. eapply wp_buffer_index; [done| |done]. intros i Hi.
  apply wp_bind, wp_self. rewrite (Wired_tensor _ _ _ _ _ (proj1 (proj2 U)) Hi). apply wp_need, HQ.
  by eapply list_elem_of_lookup_2.
Qed.

Lemma wp_assign W e c (x : Trt) (g : Dev) h n (Q : unit -> St -> Prop) :
  Use (beside W g) e c (x, g) -> host g !! h = None ->
  (let g' := set_host (<[h := replicate (Z.to_nat (4 * n)) 0]> (host g)) g in
   0 <= n -> Use (beside W g') e c (x, g') -> Q tt (x, g')) ->
  wp (assign h n) Q (Leftover W) (x, g).
Proof.
  intros U Hh HQ. unfold assign. destruct (Z.ltb_spec n 0); [apply wp_throw; apply U|].
  apply wp_on_gpu. apply HQ; [done|]. apply Use_fill; [|done]. intros old. by rewrite Hh.
Qed.

Lemma wp_set_input_shape W e c (x : Trt) (g : Dev) n d (Q : unit -> St -> Prop) :
  Use (beside W g) e c (x, g) ->
  (forall c', Use (beside W g) e c' (set_context c' x, g) -> contextShape c' n = d ->
     Q tt (set_context c' x, g)) ->
  wp (set_input_shape n d) Q (Leftover W) (x, g).
Proof.
  intros U HQ. pose proof U as [O [Hw HF]]. unfold set_input_shape. cbn [fst snd] in *.
  apply wp_bind, wp_self, wp_bind. cbn [fst]. rewrite (wi_context _ _ _ Hw). apply wp_need.
  destruct (setInputShape c n d) as [c'|] eqn:Hc; [|by apply wp_throw].
  destruct (shaped_context _ _ _ _ _ (wi_of _ _ _ Hw) Hc) as (Hc' & Hs & _).
  apply wp_on_self. cbn [fst snd]. apply HQ; [|done]. split; cbn [fst snd]; [by eapply Own_same; [| |done]|].
  split; [|done]. destruct Hw. by split.
Qed.

(** A host buffer of [n] four-byte elements. *)
Definition elements (st : St) (h : nat) (n : Z) : Prop :=
  exists bs, host st.2 !! h = Some bs /\ Z.of_nat (length bs) = 4 * n.

Lemma elements_new (st : St) h n :
  0 <= n -> host st.2 !! h = Some (replicate (Z.to_nat (4 * n)) 0) -> elements st h n.
Proof. intros Hn Hh. eexists. split; [done|]. rewrite length_replicate. lia. Qed.

(** What a detector holds once it is loaded. *)
Record YoloLoaded (W : Dev) (cfg : YoloConfig) (h : YoloHost) (e : Eng) (c : Ctx) (y : Yolo) (st : St)
    : Prop := {
  yl_use : Use (beside W st.2) e c st;
  yl_shape : contextShape c (input_name cfg) = [1; 3; yc_height cfg; yc_width cfg];
  yl_cfg : yo_cfg y = cfg;
  yl_host : yo_host y = h;
  yl_max : 0 < max_detections_ y;
  yl_input : elements st (input_chw_ h) (3 * yc_height cfg * yc_width cfg);
  yl_count : elements st (num_dets_host_ h) 1;
  yl_boxes : elements st (boxes_host_ h) (max_detections_ y * 4);
  yl_scores : elements st (scores_host_ h) (max_detections_ y);
  yl_classes : elements st (classes_host_ h) (max_detections_ y);
}.

Lemma yolo_body_ok W cfg h e c (x : Trt) (g : Dev) :
  Use (beside W g) e c (x, g) -> NoDup (yolo_ids h) -> Forall (fun i => host g !! i = None) (yolo_ids h) ->
  wp (yolo_body cfg h) (fun y st => exists c', YoloLoaded W cfg h e c' y st) (Leftover W) (x, g).
Proof.
  intros U Hnd Hnew. unfold yolo_body, yolo_resolve. apply wp_bind, wp_bind.
  eapply wp_set_input_shape; [exact U|]. clear U. intros c' U Hs. set (x' := set_context c' x) in *.
  apply wp_bind. eapply wp_tensor; [exact U| |apply U]. intros Hin. cbn [describe io_shape].
  destruct (Nat.ltb_spec (length (engineShape e (boxes_name cfg))) 3) as [|Hr]; [apply wp_throw, U|].
  apply wp_bind, wp_self, wp_bind. rewrite (wi_context _ _ _ (proj1 (proj2 U))).
  apply wp_need, wp_bind. rewrite <- (context_rank e c') in Hr by (done || apply (wi_of _ _ _ (proj1 (proj2 U)))).
  assert (exists d, contextShape c' (boxes_name cfg) !! 1%nat = Some d) as [d Hd]
    by (apply lookup_lt_is_Some_2; lia).
  rewrite Hd.
  apply wp_need. set (m := i32 d). destruct (Z.leb_spec m 0) as [|Hm]; [apply wp_throw, U|]. apply wp_ret.
  unfold yolo_ids in Hnd, Hnew. rewrite !NoDup_cons in Hnd. destruct Hnd as (N1 & N2 & N3 & N4 & _).
  rewrite !not_elem_of_cons in *. rewrite !Forall_cons in Hnew. destruct_and!.
  do 5 (apply wp_bind; eapply wp_assign; [eassumption | cbn; by simplify_map_eq|];
        intros g' ? ?; subst g'; cbn [set_host host] in *).
  apply wp_ret. exists c'. split; cbn [max_detections_ yo_cfg yo_host]; try done;
    (apply elements_new; [lia|]); cbn; by simplify_map_eq.
Qed.

(** ** The detector on its engine *)

Record Image := mkImage { im_cols : Z; im_rows : Z; im_type_ok : bool; im_pre : list Z }.

Definition yolo_image (y : Yolo) (im : Image) : M (list Detection) :=
  yolo_detect y (im_cols im) (im_rows im) (im_type_ok im) (im_pre im).

(** An end-to-end network with [m] detections at most. *)
Record End2end (cfg : YoloConfig) (e : Eng) (c : Ctx) (m : Z) : Prop := {
  en_names : Forall (fun n => n ∈ getIOTensorNames e)
    [input_name cfg; num_dets_name cfg; boxes_name cfg; scores_name cfg; classes_name cfg];
  en_input n : n ∈ getIOTensorNames e -> isInput e n = String.eqb n (input_name cfg);
  en_outputs : Forall (fun n => n <> input_name cfg)
    [num_dets_name cfg; boxes_name cfg; scores_name cfg; classes_name cfg];
  en_types : map (getTensorDataType e)
    [input_name cfg; num_dets_name cfg; boxes_name cfg; scores_name cfg; classes_name cfg] =
    [kFLOAT; kINT32; kFLOAT; kFLOAT; kINT32];
  en_shapes : map (contextShape c)
    [num_dets_name cfg; boxes_name cfg; scores_name cfg; classes_name cfg] =
    [[1; 1]; [1; m; 4]; [1; m]; [1; m]];
}.

Definition value (ks : gmap string (list Z)) (n : string) : list Z := default [] (ks !! n).

(** The network's outputs as numbers. *)
Definition decoded (cfg : YoloConfig) (ks : gmap string (list Z)) : RawDetections :=
  mkRaw (default 0 (i32s (value ks (num_dets_name cfg)) !! 0%nat))
    (f32s (value ks (boxes_name cfg))) (f32s (value ks (scores_name cfg)))
    (i32s (value ks (classes_name cfg))).

Definition result {E} (r : option (string + E)) : Res E :=
  match r with Some (inr a) => Ok a | Some (inl err) => Err err | None => UB end.

(** What [detect] has to give for an image: the decoding of what the network
    computes from exactly this image. *)
Definition detections (y : Yolo) (c : Ctx) (im : Image) : Res (list Detection) :=
  result (detect (yolo_detector y) (im_cols im) (im_rows im) (im_type_ok im)
            (decoded (yo_cfg y) (kernel c {[ input_name (yo_cfg y) := im_pre im ]}))).

Lemma static_dims d : Forall (fun x => 0 <= x) d -> has_dynamic d = false.
Proof. induction 1 as [|x d Hx _ IH]; [done|]. cbn. by rewrite (proj2 (Z.ltb_ge x 0)). Qed.

(** A span of four-byte elements over a host buffer of as many. *)
Lemma span_elements e c st i n h k d :
  context_of e c -> n ∈ getIOTensorNames e -> isInput e n = i -> element_size (getTensorDataType e n) = 4 ->
  contextShape c n = d -> d <> [] -> Forall (fun x => 0 <= x) d -> product d = k -> elements st h k ->
  span_ok e c (host st.2) i (n, h) /\
  bytes_of (contextShape c n) (element_size (getTensorDataType e n)) = 4 * k.
Proof.
  intros Hc Hn Hi Ht Hs Hd Hdyn%static_dims Hk (bs & Hbs & Hlen).
  pose proof (context_volume e c n Hc Hn) as Hb. rewrite Hs in Hb.
  assert (Heq : bytes_of (contextShape c n) (element_size (getTensorDataType e n)) = 4 * k).
  { rewrite Hs, bytes_of_exact, volume_exact, Ht by done. destruct d; [done|]. lia. }
  split; [|done]. split; [done|]. split; [done|]. exists bs. cbn [fst snd]. by rewrite Heq.
Qed.

Lemma end2end_plain cfg h e c y m :
  NoDup (yolo_ids h) -> yo_cfg y = cfg -> yo_host y = h -> End2end cfg e c m ->
  Plain e (yolo_input y) (yolo_outputs y).
Proof.
  intros Hnd Hc Hh [Hn Hi Ho Ht Hs]. unfold yolo_input, yolo_outputs. rewrite Hc, Hh. split.
  - intros n Hin Hn'. rewrite Hi in Hn' by done. by apply String.eqb_eq.
  - injection Ht as T1 T2 T3 T4 T5.
    repeat constructor; cbn [fst]; by (rewrite T1 || rewrite T2 || rewrite T3 || rewrite T4 || rewrite T5).
  - apply NoDup_cons in Hnd as [_ Hnd]. exact Hnd.
Qed.

(** A loaded detector can serve images. *)
Lemma yolo_serving W cfg h e c y st :
  0 < yc_width cfg -> 0 < yc_height cfg -> YoloLoaded W cfg h e c y st ->
  idle st -> outcomes st.2 = [] -> End2end cfg e c (max_detections_ y) ->
  Serving W e c (yolo_input y) (yolo_outputs y) st /\
  bytes_of (contextShape c (input_name cfg)) (element_size (getTensorDataType e (input_name cfg))) =
    12 * (yc_height cfg * yc_width cfg).
Proof.
  intros HW HH [U Hs Hc Hh Hm E1 E2 E3 E4 E5] I C [Hn Hi Ho Ht Hsh].
  pose proof (wi_of _ _ _ (proj1 (proj2 U))) as Hof.
  do 5 apply Forall_cons in Hn as [? Hn]. do 4 apply Forall_cons in Ho as [? Ho]. injection Ht as T1 T2 T3 T4 T5.
  injection Hsh as S2 S3 S4 S5.
  assert (Hio : forall n, n ∈ getIOTensorNames e -> n <> input_name cfg -> isInput e n = false).
  { intros n Hin Hne. rewrite Hi by done. by apply String.eqb_neq. }
  unfold yolo_input, yolo_outputs. rewrite Hc, Hh.
  destruct (span_elements e c st true (input_name cfg) (input_chw_ h)
    (3 * yc_height cfg * yc_width cfg) [1; 3; yc_height cfg; yc_width cfg]) as [Hin Hb]; try done.
  { rewrite Hi by done. by apply String.eqb_eq. }
  { by rewrite T1. }
  { repeat constructor; lia. }
  { cbn. lia. }
  split; [|rewrite Hb; lia]. split; try done.
  assert (Hout : forall n h d k, n ∈ getIOTensorNames e -> n <> input_name cfg ->
    element_size (getTensorDataType e n) = 4 -> contextShape c n = 1 :: d -> Forall (fun x => 0 <= x) d ->
    product d = k -> elements st h k -> span_ok e c (host st.2) false (n, h)).
  { intros n i d k ? ? ? ? ? <- ?. apply (span_elements e c st false n i (product d) (1 :: d)); try done;
      [by apply Hio|by constructor|]. cbn. apply Z.mul_1_l. }
  apply Forall_cons_2; [|apply Forall_cons_2; [|apply Forall_cons_2; [|apply Forall_cons_2; [|done]]]].
  - apply (Hout _ _ [1] 1); try done; [by rewrite T2 | repeat constructor; lia].
  - apply (Hout _ _ [max_detections_ y; 4] (max_detections_ y * 4));
      try done; [by rewrite T3 | repeat constructor; lia].
  - apply (Hout _ _ [max_detections_ y] (max_detections_ y)); try done;
      [by rewrite T4 | repeat constructor; lia | cbn; lia].
  - apply (Hout _ _ [max_detections_ y] (max_detections_ y)); try done;
      [by rewrite T5 | repeat constructor; lia | cbn; lia].
Qed.

Lemma words_length bs : length (words bs) = (length bs / 4)%nat.
Proof.
  assert (H : forall k bs, (length bs <= k)%nat -> length (words bs) = (length bs / 4)%nat).
  { intros k. induction k as [|k IH]; intros [|b0 [|b1 [|b2 [|b3 l]]]]; cbn [length]; intros Hk; try done; try lia.
    cbn [words length]. rewrite IH by lia.
    replace (S (S (S (S (length l))))) with (length l + 1 * 4)%nat by lia.
    rewrite Nat.div_add; lia. }
  by apply (H (length bs)).
Qed.

Lemma read_host_bind {B} h bs (k : list Z -> M B) (st : St) :
  host st.2 !! h = Some bs -> bind (read_host h) k st = k bs st.
Proof. destruct st as [x g]. intros Hh. unfold read_host, bind, gpu. cbn in *. by rewrite Hh. Qed.

(** One image on a detector that can serve. *)
Lemma yolo_image_runs W e c y st im :
  Plain e (yolo_input y) (yolo_outputs y) -> End2end (yo_cfg y) e c (max_detections_ y) ->
  bytes_of (contextShape c (input_name (yo_cfg y)))
    (element_size (getTensorDataType e (input_name (yo_cfg y)))) = Z.of_nat (length (im_pre im)) ->
  Serving W e c (yolo_input y) (yolo_outputs y) st ->
  exists st', yolo_image y im st = (detections y c im, st') /\
    Serving W e c (yolo_input y) (yolo_outputs y) st'.
Proof.
  intros HP HE Hpre HS. unfold yolo_image, yolo_detect, detections, detect.
  destruct (_ || _) eqn:Hempty; [by exists st|]. destruct (negb _) eqn:Htype; [by exists st|].
  destruct (frame_runs W e c _ _ st (im_pre im) HP HS) as (st' & Hrun & HS' & Hout); [done|].
  exists st'. split; [|done]. unfold bind at 1. rewrite Hrun. cbn [yolo_input fst] in Hout.
  set (ks := kernel c _) in *.
  destruct (Hout (num_dets_name (yo_cfg y), num_dets_host_ (yo_host y))) as (n & Kn & Rn); [by left|].
  destruct (Hout (boxes_name (yo_cfg y), boxes_host_ (yo_host y))) as (b & Kb & Rb); [by right; left|].
  destruct (Hout (scores_name (yo_cfg y), scores_host_ (yo_host y))) as (s & Ks & Rs); [by right; right; left|].
  destruct (Hout (classes_name (yo_cfg y), classes_host_ (yo_host y))) as (k & Kk & Rk);
    [by right; right; right; left|]. cbn [fst snd] in *.
  rewrite (read_host_bind _ _ _ _ Rn), (read_host_bind _ _ _ _ Rb), (read_host_bind _ _ _ _ Rs),
    (read_host_bind _ _ _ _ Rk).
  assert (Hn0 : is_Some (i32s n !! 0%nat)).
  { apply lookup_lt_is_Some_2. unfold i32s. rewrite length_map, words_length.
    destruct HE as [Hn Hi Ho Ht Hs]. pose proof (wi_of _ _ _ (proj1 (proj2 (sv_use _ _ _ _ _ _ HS)))) as Hof.
    apply Forall_cons in Hn as [_ Hn]. apply Forall_cons in Hn as [Hn _]. apply Forall_cons in Ho as [Ho _].
    destruct (kernel_size e c {[ input_name (yo_cfg y) := im_pre im ]} (num_dets_name (yo_cfg y)) Hof Hn)
      as (o & Ho' & Hlo).
    { rewrite Hi by done. by apply String.eqb_neq. }
    subst ks. rewrite Kn in Ho'. injection Ho' as <-. injection Ht as T1 T2 T3 T4 T5. injection Hs as S2 S3 S4 S5.
    rewrite Hlo. unfold tensor_bytes. rewrite S2, T2. by apply Nat.ltb_lt. }
  destruct Hn0 as [n0 Hn0]. rewrite Hn0. cbn [need]. unfold bind, ret. unfold decode.
  replace (decoded (yo_cfg y) ks) with (mkRaw n0 (f32s b) (f32s s) (i32s k)).
  2: { unfold decoded, value. rewrite Kn, Kb, Ks, Kk. cbn [default id]. by rewrite Hn0. }
  unfold detect. rewrite Hempty. cbn [negb]. unfold result.
  destruct (letterbox _ _ _ _ ≫= _) as [[err|ds]|]; done.
Qed.

(** A detector works on its engine.  Loading never does anything
    undefined, whatever the library calls return, and a load that throws
    leaves the device's allocations and streams as they were.  Once it has
    succeeded on an end-to-end network, every image of a sequence gives
    exactly the decoding of what the network computes from that image - an
    image that is refused changes nothing for the next - and destroying the
    engine afterwards gives everything back. *)
Theorem detector_detects_every_image cfg file read_ok h (g : Dev)
  (Hids : unused_ids g) (Hh : NoDup (yolo_ids h))
  (Hnew : Forall (fun i => host g !! i = None) (yolo_ids h))
  (HW : 0 < yc_width cfg) (HH : 0 < yc_height cfg) :
  match yolo_load cfg file read_ok h g with
  | (UB, _) => False
  | (Err _, (x, g')) => x = Trt_empty /\ device g' = device g /\ streams g' = streams g
  | (Ok y, st) =>
      exists e c, engine_ st.1 = Some e /\ context_ st.1 = Some c /\
        contextShape c (input_name cfg) = [1; 3; yc_height cfg; yc_width cfg] /\
        forall ims, outcomes g = [] -> End2end cfg e c (max_detections_ y) ->
          Forall (fun im => Z.of_nat (length (im_pre im)) = 12 * (yc_height cfg * yc_width cfg)) ims ->
          exists st' g', each (yolo_image y) ims st = (map (detections y c) ims, st') /\
            destroy st'.1 st'.2 = Some g' /\ device g' = device g /\ streams g' = streams g
  end.
Proof.
  pose proof (build_ok (yc_engine_path cfg) file read_ok (yolo_ids h) (yolo_body cfg h) g
    (fun y st => exists e c, YoloLoaded g cfg h e c y st) (unused_own g Hids)) as HB.
  lapply HB; clear HB; [intros HB|].
  2: { intros e c x g1 U Hk. eapply wp_mono; [eapply yolo_body_ok| |]; [exact U|done| | |done].
    - eapply Forall_impl; [exact Hnew|]. intros i. apply Hk.
    - intros y st (c' & HL). by exists e, c'. }
  pose proof (build_idle (yc_engine_path cfg) file read_ok (yolo_ids h) (yolo_body cfg h) g
    (quiet_yolo_body cfg h)) as HI.
  unfold yolo_load. destruct (build _ _ _ _ _ _) as [[y|err|] st]; [|done|done].
  destruct HB as (e & c & HL). destruct HI as [I C]. pose proof HL as [U Hs Hc Hhost _ _ _ _ _ _].
  exists e, c. split; [apply U|]. split; [apply U|]. split; [done|]. intros ims Hcalls HE Hims.
  destruct (yolo_serving g cfg h e c y st) as [HS Hb]; try done; [by apply C|].
  pose proof (end2end_plain cfg h e c y _ Hh Hc Hhost HE) as HP.
  destruct (each_serves (yolo_image y) (detections y c) (Serving g e c (yolo_input y) (yolo_outputs y))
    (fun im => Z.of_nat (length (im_pre im)) = 12 * (yc_height cfg * yc_width cfg)) ims st) as (st' & Heach & HS').
  { intros im st1 Hlen H1. apply yolo_image_runs; try done; rewrite Hc; [done|]. congruence. }
  { done. } { done. }
  destruct (destroy_own _ _ _ _ (proj1 (sv_use _ _ _ _ _ _ HS'))) as (g' & Hg' & O' & _).
  destruct (Own_nothing _ _ O') as [Hd' Hst']. by exists st', g'.
Qed.

(** ** The recogniser on its engine *)

Record OcrLoaded (W : Dev) (cfg : OcrConfig) (hin hout : nat) (dict : list string) (e : Eng) (c : Ctx)
    (o : Ocr) (st : St) : Prop := {
  ol_use : Use (beside W st.2) e c st;
  ol_shape : contextShape c (ocr_input_name cfg) = [1; 3; oc_height cfg; oc_width cfg];
  ol_parts : o = mkOcr cfg hin hout (oc_recognizer o);
  ol_recognizer : load_recognizer (ocr_output_name cfg) dict
    (int_dims (contextShape c (ocr_output_name cfg))) = inr (oc_recognizer o);
  ol_input : elements st hin (3 * oc_height cfg * oc_width cfg);
  ol_output : elements st hout (seq_len (oc_recognizer o) * num_classes (oc_recognizer o));
}.

Lemma ocr_body_ok W cfg hin hout dict e c (x : Trt) (g : Dev) :
  Use (beside W g) e c (x, g) -> hin <> hout -> host g !! hin = None -> host g !! hout = None ->
  wp (ocr_body cfg hin hout dict) (fun o st => exists c', OcrLoaded W cfg hin hout dict e c' o st)
    (Leftover W) (x, g).
Proof.
  intros U Hne Hi Ho. unfold ocr_body. apply wp_bind.
  eapply wp_set_input_shape; [exact U|]. clear U. intros c' U Hs. set (x' := set_context c' x) in *.
  apply wp_bind, wp_self, wp_bind. rewrite (wi_context _ _ _ (proj1 (proj2 U))). apply wp_need.
  destruct (load_recognizer _ _ _) as [err|r] eqn:Hr; [apply wp_throw, U|].
  do 2 (apply wp_bind; eapply wp_assign; [eassumption | cbn; by simplify_map_eq|];
        intros g' ? ?; subst g'; cbn [set_host host] in *).
  apply wp_ret. exists c'. split; cbn [oc_recognizer]; try done;
    (apply elements_new; [lia|]); cbn; by simplify_map_eq.
Qed.

Definition ocr_crop (o : Ocr) (im : Image) : M CtcResult := ocr_recognize o (im_type_ok im) (im_pre im).

Definition ocr_logits (o : Ocr) (c : Ctx) (im : Image) : list f32 :=
  f32s (value (kernel c {[ ocr_input_name (oc_cfg o) := im_pre im ]}) (ocr_output_name (oc_cfg o))).

(** What [recognize] has to give for a crop. *)
Definition crop_text (o : Ocr) (c : Ctx) (im : Image) : Res CtcResult :=
  if im_type_ok im
  then match recognize (oc_recognizer o) (ocr_logits o c im) with Some t => Ok t | None => UB end
  else Err "PaddleOcrRecognizer::preprocess: input must be CV_8UC3 BGR".

(** A network from one image to [t] rows of [k] scores. *)
Record RowNet (cfg : OcrConfig) (e : Eng) (c : Ctx) (t k : Z) : Prop := {
  rn_names : ocr_input_name cfg ∈ getIOTensorNames e /\ ocr_output_name cfg ∈ getIOTensorNames e;
  rn_input n : n ∈ getIOTensorNames e -> isInput e n = String.eqb n (ocr_input_name cfg);
  rn_output : ocr_output_name cfg <> ocr_input_name cfg;
  rn_types : getTensorDataType e (ocr_input_name cfg) = kFLOAT /\
             getTensorDataType e (ocr_output_name cfg) = kFLOAT;
  rn_shape : contextShape c (ocr_output_name cfg) = [1; t; k];
}.

(** The text of the crop is the reference decoding of the rows of its own
    logits. *)
Definition reads_own_rows (o : Ocr) (c : Ctx) (im : Image) : Prop :=
  exists rows labels, concat rows = ocr_logits o c im /\
    Z.of_nat (length rows) = seq_len (oc_recognizer o) /\ Forall2 best_cell rows labels /\
    crop_text o c im = Ok (reference_decode (dictionary (oc_recognizer o)) labels).

Lemma split_rows {A} (l : list A) t k :
  length l = (t * k)%nat -> exists rows, concat rows = l /\ length rows = t /\ Forall (fun r => length r = k) rows.
Proof.
  revert l. induction t as [|t IH]; intros l Hl.
  { exists []. split; [|done]. by destruct l. }
  destruct (IH (drop k l)) as (rows & Hc & Ht & Hk); [rewrite length_drop; lia|].
  exists (take k l :: rows). cbn [concat]. rewrite Hc, take_drop. split; [done|]. cbn. split; [lia|].
  constructor; [rewrite length_take; lia|done].
Qed.

Lemma ocr_crop_runs W e c o st im :
  Plain e (ocr_input_name (oc_cfg o), oc_in o) [(ocr_output_name (oc_cfg o), oc_out o)] ->
  0 < seq_len (oc_recognizer o) -> 0 < num_classes (oc_recognizer o) ->
  RowNet (oc_cfg o) e c (seq_len (oc_recognizer o)) (num_classes (oc_recognizer o)) ->
  bytes_of (contextShape c (ocr_input_name (oc_cfg o)))
    (element_size (getTensorDataType e (ocr_input_name (oc_cfg o)))) = Z.of_nat (length (im_pre im)) ->
  Serving W e c (ocr_input_name (oc_cfg o), oc_in o) [(ocr_output_name (oc_cfg o), oc_out o)] st ->
  exists st', ocr_crop o im st = (crop_text o c im, st') /\
    Serving W e c (ocr_input_name (oc_cfg o), oc_in o) [(ocr_output_name (oc_cfg o), oc_out o)] st' /\
    (im_type_ok im = true -> reads_own_rows o c im).
Proof.
  intros HP Ht Hk HN Hpre HS. unfold ocr_crop, ocr_recognize, reads_own_rows, crop_text.
  destruct (im_type_ok im); cbn [negb]; [|by exists st].
  destruct (frame_runs W e c _ _ st (im_pre im) HP HS) as (st' & Hrun & HS' & Hout); [done|].
  exists st'. unfold bind at 1. rewrite Hrun.
  destruct (Hout (ocr_output_name (oc_cfg o), oc_out o)) as (l & Kl & Rl); [by left|]. cbn [fst snd] in *.
  rewrite (read_host_bind _ _ _ _ Rl). unfold ocr_logits, value. rewrite Kl. cbn [default id].
  destruct HN as [[Hi Ho] Hin Hne [T1 T2] Hs].
  pose proof (wi_of _ _ _ (proj1 (proj2 (sv_use _ _ _ _ _ _ HS)))) as Hof.
  assert (Hl : length (f32s l) = (Z.to_nat (seq_len (oc_recognizer o)) * Z.to_nat (num_classes (oc_recognizer o)))%nat).
  { destruct (kernel_size e c {[ ocr_input_name (oc_cfg o) := im_pre im ]} (ocr_output_name (oc_cfg o)) Hof Ho)
      as (l' & Kl' & Hlen); [rewrite Hin by done; by apply String.eqb_neq|].
    rewrite Kl in Kl'. injection Kl' as <-.
    unfold f32s. rewrite length_map, words_length, Hlen. unfold tensor_bytes. rewrite T2. cbn [packed element_size].
    pose proof (context_volume e c _ Hof Ho) as Hb. rewrite Hs in Hb |- *.
    rewrite volume_exact; [|done|apply static_dims; repeat constructor; lia]. cbn [product foldr].
    replace (1 * (seq_len (oc_recognizer o) * (num_classes (oc_recognizer o) * 1)))
      with (seq_len (oc_recognizer o) * num_classes (oc_recognizer o)) by lia.
    rewrite <- Z2Nat.inj_mul by lia. rewrite Z2Nat.inj_mul by nia. by rewrite Nat.div_mul. }
  destruct (split_rows _ _ _ Hl) as (rows & Hc & Hlr & Hrows).
  destruct (ctc_rows_decoded (dictionary (oc_recognizer o)) rows (Z.to_nat (num_classes (oc_recognizer o))))
    as (labels & Hbest & Hdec); [lia|by intros ->; cbn in Hlr; lia|done|].
  rewrite Hc, Hlr, !Z2Nat.id in Hdec by lia. unfold recognize. rewrite Hdec. cbn [need].
  split; [done|]. split; [done|]. intros _. exists rows, labels. split; [done|]. split; [lia|by split].
Qed.

Lemma load_recognizer_positive name dict d r :
  load_recognizer name dict d = inr r ->
  0 < seq_len r /\ 0 < num_classes r /\ num_classes r = Z.of_nat (length (dictionary r)) + 1.
Proof.
  unfold load_recognizer. destruct d as [|n [|t [|k d]]]; try done.
  destruct (Z.leb_spec t 0); [done|]. destruct (Z.leb_spec k 0); [done|]. cbn [orb].
  destruct (Z.eqb_spec k (Z.of_nat (length dict) + 1)); [|done]. cbn. by intros [= <-].
Qed.

Lemma ocr_serving W cfg hin hout dict e c o st :
  0 < oc_width cfg -> 0 < oc_height cfg -> OcrLoaded W cfg hin hout dict e c o st ->
  0 < seq_len (oc_recognizer o) -> 0 < num_classes (oc_recognizer o) ->
  idle st -> outcomes st.2 = [] ->
  RowNet cfg e c (seq_len (oc_recognizer o)) (num_classes (oc_recognizer o)) ->
  Serving W e c (ocr_input_name cfg, hin) [(ocr_output_name cfg, hout)] st /\
  Plain e (ocr_input_name cfg, hin) [(ocr_output_name cfg, hout)] /\
  bytes_of (contextShape c (ocr_input_name cfg)) (element_size (getTensorDataType e (ocr_input_name cfg))) =
    12 * (oc_height cfg * oc_width cfg).
Proof.
  intros HW HH [U Hs _ _ Ei Eo] Ht Hk I C [[Hi Ho] Hin Hne [T1 T2] Hsh].
  pose proof (wi_of _ _ _ (proj1 (proj2 U))) as Hof.
  destruct (span_elements e c st true (ocr_input_name cfg) hin (3 * oc_height cfg * oc_width cfg)
    [1; 3; oc_height cfg; oc_width cfg]) as [Si Hb]; try done.
  { rewrite Hin by done. by apply String.eqb_eq. }
  { by rewrite T1. }
  { repeat constructor; lia. }
  { cbn. lia. }
  destruct (span_elements e c st false (ocr_output_name cfg) hout
    (seq_len (oc_recognizer o) * num_classes (oc_recognizer o))
    [1; seq_len (oc_recognizer o); num_classes (oc_recognizer o)]) as [So _]; try done.
  { rewrite Hin by done. by apply String.eqb_neq. }
  { by rewrite T2. }
  { repeat constructor; lia. }
  { cbn. lia. }
  split; [split; try done; by constructor|]. split; [|lia].
  split; [|by repeat constructor; cbn [fst]; rewrite ?T1, ?T2|apply NoDup_singleton].
  intros n Hn Hn'. rewrite Hin in Hn' by done. by apply String.eqb_eq.
Qed.

End Networks.

(** ** Two small networks *)

(** The detector ([true]) takes a 2 x 2 image and proposes one box: its score
    and corners are the first numbers of the image.  The recogniser takes its
    two rows of three scores from the image. *)
Definition net_names (e : bool) : list string :=
  if e then ["images"; "num_dets"; "det_boxes"; "det_scores"; "det_classes"] else ["x"; "logits"].

Definition net_shape (e : bool) (n : string) : Dims :=
  if String.eqb n "images" || String.eqb n "x" then [1; 3; 2; 2]
  else if String.eqb n "num_dets" then [1; 1]
  else if String.eqb n "det_boxes" then [1; 1; 4]
  else if String.eqb n "logits" then [1; 2; 3]
  else [1; 1].

Definition net_type (e : bool) (n : string) : DataType :=
  if String.eqb n "num_dets" || String.eqb n "det_classes" then kINT32 else kFLOAT.

Definition net_input (e : bool) : string := if e then "images" else "x".

Definition net_value (image : list Z) (n : string) : list Z :=
  if String.eqb n "num_dets" then [1; 0; 0; 0]
  else if String.eqb n "det_boxes" then drop 4 image
  else if String.eqb n "det_classes" then []
  else image.

Definition net_size (e : bool) (n : string) : nat :=
  Z.to_nat (volume (net_shape e n) * element_size (net_type e n)).

Definition net_kernel (e : bool) (ins : gmap string (list Z)) : gmap string (list Z) :=
  list_to_map (map (fun n => (n, take (net_size e n)
    (net_value (default [] (ins !! net_input e)) n ++ replicate (net_size e n) 0))) (net_names e)).

#[export] Instance net_rt : TensorRT bool bool := {|
  deserializeCudaEngine bs := match bs with [b] => Some (b =? 1) | _ => None end;
  getIOTensorNames := net_names;
  engineShape := net_shape;
  getTensorDataType := net_type;
  isInput e n := String.eqb n (net_input e);
  getProfileShape := net_shape;
  createExecutionContext e := Some e;
  setInputShape c n d :=
    if String.eqb n (net_input c) && bool_decide (d = net_shape c n) then Some c else None;
  contextShape := net_shape;
  kernel := net_kernel;
|}.

Lemma net_shape_bounds e n : has_dynamic (net_shape e n) = false /\ bounded (net_shape e n).
Proof. unfold net_shape. repeat case_match; (split; [done|]); intros _; cbn; lia. Qed.

#[export] Instance net_laws : TensorRTLaws bool bool.
Proof.
  refine {| context_of := fun e c : bool => c = e |}.
  - by intros e c [= <-].
  - intros e c n d c' -> H. cbn in H. case_match eqn:E; [|done]. injection H as <-.
    apply andb_true_iff in E as [_ E%bool_decide_eq_true]. by rewrite E.
  - by intros e c n -> _ _.
  - intros e c n _ _ _ Hd. change (has_dynamic (net_shape e n) = true) in Hd.
    pose proof (proj1 (net_shape_bounds e n)). congruence.
  - intros e c cm n -> -> _ _ _. apply within_refl.
  - intros e c n _ _. apply net_shape_bounds.
  - intros e n _. apply net_shape_bounds.
  - by intros e c n -> _.
  - intros [|]; by apply (bool_decide_unpack _).
  - intros e c ins n -> Hn _. cbn [kernel net_rt getIOTensorNames] in *.
    eexists. split.
    + apply elem_of_list_to_map_1; [rewrite map_map; cbn; rewrite map_id; destruct e;
        by apply (bool_decide_unpack _)|]. apply list_elem_of_fmap. eauto.
    + rewrite length_take, length_app, length_replicate. unfold tensor_bytes. cbn [getTensorDataType net_rt contextShape].
      replace (packed (net_type e n)) with false by (unfold net_type; by case_match). unfold net_size. lia.
Defined.

Definition net_gpu : Gpu bool bool := mkGpu ∅ ∅ ∅ 0 [] (fun _ => 7).

Lemma net_ids : unused_ids net_gpu.
Proof. by intros p _. Qed.

Definition net_yolo : YoloConfig :=
  mkYoloConfig "det.plan" 2 2 f_zero "images" "num_dets" "det_boxes" "det_scores" "det_classes".
Definition net_host : YoloHost := mkYoloHost 1 2 3 4 5.
Definition net_yolo_loaded : Yolo := mkYolo net_yolo net_host 1.
Definition net_yolo_state : TrtEngine bool bool * Gpu bool bool :=
  (yolo_load net_yolo (Some [1]) true net_host net_gpu).2.

(** 0.5 and the corners 0, 0, 1, 2. *)
Definition net_image : list Z :=
  [0; 0; 0; 63] ++ [0; 0; 0; 0; 0; 0; 0; 0; 0; 0; 128; 63; 0; 0; 0; 64] ++ replicate 28 0.
Definition net_images : list Image :=
  [mkImage 2 2 true net_image; mkImage 0 2 true net_image; mkImage 4 4 true (replicate 48 0)].

Lemma detector_detects_every_image_witness :
  yolo_load net_yolo (Some [1]) true net_host net_gpu = (Ok net_yolo_loaded, net_yolo_state) /\
  map (detections net_yolo_loaded true) net_images =
    [Ok [mkDetection (mkRect2f f_zero f_zero (f32_of_Z 1) (f32_of_Z 2)) (fdiv (f32_of_Z 1) (f32_of_Z 2)) 0];
     Err "YoloPlateDetector::detect: input image is empty"; Ok []] /\
  exists st' g', each (yolo_image net_yolo_loaded) net_images net_yolo_state =
      (map (detections net_yolo_loaded true) net_images, st') /\
    destroy st'.1 st'.2 = Some g' /\ device g' = device net_gpu /\ streams g' = streams net_gpu.
Proof.
  assert (HL : yolo_load net_yolo (Some [1]) true net_host net_gpu = (Ok net_yolo_loaded, net_yolo_state))
    by (vm_compute; reflexivity).
  split; [exact HL|]. split; [vm_compute; reflexivity|].
  assert (Hnd : NoDup (yolo_ids net_host)) by (by apply (bool_decide_unpack _)).
  assert (Hnew : Forall (fun i => host net_gpu !! i = None) (yolo_ids net_host)) by (repeat constructor).
  pose proof (detector_detects_every_image net_yolo (Some [1]) true net_host net_gpu net_ids Hnd Hnew
    ltac:(done) ltac:(done)) as H.
  rewrite HL in H. destruct H as (e & c & He & Hc & _ & H).
  assert (He' : engine_ net_yolo_state.1 = Some true) by (vm_compute; reflexivity).
  assert (Hc' : context_ net_yolo_state.1 = Some true) by (vm_compute; reflexivity).
  rewrite He' in He. injection He as <-. rewrite Hc' in Hc. injection Hc as <-.
  apply H; [reflexivity| |repeat constructor].
  split; [repeat constructor; by apply (bool_decide_unpack _) |done|repeat constructor; done|done|done].
Defined.

Definition net_ocr : OcrConfig := mkOcrConfig "ocr.plan" "dict.txt" 2 2 "x" "logits".
Definition net_dict : string := String.append "A" (String (Ascii.ascii_of_nat 10) "B").
Definition net_ocr_loaded : Ocr := mkOcr net_ocr 1 2 (mkRecognizer 2 3 ["A"; "B"]).
Definition net_ocr_state : TrtEngine bool bool * Gpu bool bool :=
  (ocr_load net_ocr (Some net_dict) (Some [0]) true 1 2 net_gpu).2.

(** Two rows: the first prefers the second symbol, the second the blank. *)
Definition net_crop : list Z :=
  [0; 0; 0; 0; 0; 0; 0; 0; 0; 0; 128; 63] ++ [0; 0; 128; 63] ++ replicate 32 0.
Definition net_crops : list Image :=
  [mkImage 2 2 true net_crop; mkImage 2 2 false net_crop].

