(* ===== verification/Json.v ===== *)
(** JSON documents, as the vision daemon (nlohmann::json) and the dashboard
    backend (jsoncpp) see them: the values, and the accessors of jsoncpp that
    the dashboard's sources call. *)

From S2P Require Import Prelude Float32.
From stdpp Require Import pretty.
Local Open Scope Z_scope.

(** A value: integers are signed or unsigned by how they were written. *)
Inductive Json :=
| JNull
| JBool (b : bool)
| JInt (z : Z)
| JUint (z : Z)
| JFloat (d : spec_float)
| JStr (s : string)
| JArr (l : list Json)
| JObj (l : list (string * Json)).

Fixpoint assoc (key : string) (l : list (string * Json)) : option Json :=
  match l with
  | [] => None
  | (k, v) :: l => if String.eqb k key then Some v else assoc key l
  end.

(** The member of an object. *)
Definition jfind (j : Json) (key : string) : option Json :=
  match j with JObj l => assoc key l | _ => None end.

Definition is_object (j : Json) : bool := match j with JObj _ => true | _ => false end.


Definition is_string (j : Json) : bool := match j with JStr _ => true | _ => false end.

Definition is_number (j : Json) : bool :=
  match j with JInt _ | JUint _ | JFloat _ => true | _ => false end.
Definition is_number_integer (j : Json) : bool :=
  match j with JInt _ | JUint _ => true | _ => false end.

(** ** nlohmann::json

    The conversions [get<T>()] of the library and its printer; [Err] is a
    thrown [type_error]. *)

Class Nlohmann := {
  get_float : Json -> Res f32;
  get_u32 : Json -> Res Z;
  get_i64 : Json -> Res Z;
  get_string : Json -> Res string;
  dump : Json -> string;
  (** An [unsigned] is an [unsigned]. *)
  get_u32_range : forall j z, get_u32 j = Ok z -> 0 <= z < 2 ^ 32;
}.

(** [value(key, default)] on an object. *)
Definition value_or {A} (get : Json -> Res A) (dflt : A) (j : Json) (key : string) : Res A :=
  match jfind j key with None => Ok dflt | Some v => get v end.

(** ** jsoncpp

    The conversions of [Json::Value]; [Err] is a thrown [Json::LogicError]. *)

Class JsonCpp := {
  asUInt : Json -> Res Z;
  asInt : Json -> Res Z;
  asInt64 : Json -> Res Z;
  asString : Json -> Res string;
  asUInt_uint : forall z, 0 <= z < 2 ^ 32 -> asUInt (JUint z) = Ok z;
  asUInt_range : forall j z, asUInt j = Ok z -> 0 <= z < 2 ^ 32;
  asString_string : forall s, asString (JStr s) = Ok s;
}.

(** [v[key]] on a constant: null where there is no such member. *)
Definition jindex (v : Json) (key : string) : Res Json :=
  match v with
  | JObj l => Ok (default JNull (assoc key l))
  | JNull => Ok JNull
  | _ => Err "in Json::Value::find(begin, end): requires objectValue or nullValue"
  end.

(** [isMember], on an object. *)
Definition is_member (v : Json) (key : string) : bool :=
  match jfind v key with Some _ => true | None => false end.

(** [v.get(key, "")]. *)
Definition get_or_empty (v : Json) (key : string) : Json := default (JStr "") (jfind v key).

(** ** Instances for integers, strings and in-range values *)

Definition i64 (z : Z) : Z := let r := u64 z in if r <? 2 ^ 63 then r else r - 2 ^ 64.

Definition plain_u32 (j : Json) : Res Z :=
  match j with JInt z | JUint z => Ok (u32 z) | _ => Err "type must be number" end.

Lemma plain_u32_range j z : plain_u32 j = Ok z -> 0 <= z < 2 ^ 32.
Proof. destruct j; cbn [plain_u32]; intros H; simplify_eq; apply u32_range. Qed.

Definition plain_nlohmann : Nlohmann := {|
  get_float j := match j with
                 | JInt z | JUint z => Ok (f32_of_Z z)
                 | JFloat d => Ok (f32_of_f64 d)
                 | _ => Err "type must be number"
                 end;
  get_u32 := plain_u32;
  get_i64 j := match j with
               | JInt z => Ok z | JUint z => Ok (i64 z) | _ => Err "type must be number" end;
  get_string j := match j with JStr s => Ok s | _ => Err "type must be string" end;
  dump _ := "?"%string;
  get_u32_range := plain_u32_range;
|}.

Definition plain_uint (j : Json) : Res Z :=
  match j with
  | JInt z | JUint z => if (0 <=? z) && (z <? 2 ^ 32) then Ok z else Err "LargestInt out of UInt range"
  | JNull => Ok 0
  | _ => Err "Value is not convertible to UInt."
  end.

Lemma plain_uint_range j z : plain_uint j = Ok z -> 0 <= z < 2 ^ 32.
Proof.
  destruct j; cbn [plain_uint]; intros H; simplify_eq; try lia;
    destruct (_ && _) eqn:E; simplify_eq; apply andb_true_iff in E; rewrite Z.leb_le, Z.ltb_lt in E; lia.
Qed.

Lemma plain_uint_uint z : 0 <= z < 2 ^ 32 -> plain_uint (JUint z) = Ok z.
Proof. intros H. cbn [plain_uint]. by rewrite (proj2 (Z.leb_le 0 z)), (proj2 (Z.ltb_lt z (2 ^ 32))) by lia. Qed.

Definition plain_string (j : Json) : Res string :=
  match j with
  | JStr s => Ok s | JNull => Ok ""%string | JInt z | JUint z => Ok (pretty z)
  | _ => Err "Type is not convertible to string"
  end.

Definition plain_jsoncpp : JsonCpp := {|
  asUInt := plain_uint;
  asInt j := match j with JInt z | JUint z => Ok z | JNull => Ok 0 | _ => Err "not an Int" end;
  asInt64 j := match j with JInt z | JUint z => Ok z | JNull => Ok 0 | _ => Err "not an Int64" end;
  asString := plain_string;
  asUInt_uint := plain_uint_uint;
  asUInt_range := plain_uint_range;
  asString_string s := eq_refl;
|}.
