(* ===== verification/Vision.v ===== *)
(** The detection ingest daemon (src/server/vision): the scenario reader and
    its paced replay, the frame builder, the submit client with its
    credentials and retries, and the loop of gate-vision.

    The JSON library (nlohmann) is outside the repository: the document tree
    is an argument, and the library's conversions are the interface
    [Nlohmann].  Clocks, files and RPC outcomes are arguments as well.  The camera
    source is in Camera. *)

From S2P Require Import Prelude Float32 ControlClient FusionEngine Grpc.
From S2P Require Import Json.
From stdpp Require Import pretty.
Local Open Scope Z_scope.
Local Open Scope gate_scope.

(** ** Observations *)

Inductive VehicleClass :=
| kUnknown | kPedestrian | kBicycle | kMotorcycle | kSedan | kSuv | kPickup | kVan | kTruck.

#[export] Instance VehicleClass_eq_dec : EqDecision VehicleClass.
Proof. solve_decision. Defined.

Record PixelBox := mkPixelBox { px : Z; py : Z; pwidth : Z; pheight : Z }.
Record OrientedBox3D := mkBox3D {
  center_x : f32; center_y : f32; center_z : f32; b_length : f32; b_width : f32; b_height : f32;
  yaw_radians : f32;
}.
Record PlateObservation := mkPlateObs {
  po_text : string; po_detection_conf : f32; po_ocr_conf : f32; po_box : PixelBox;
  po_country_hint : string; po_raw_ocr : string;
}.
Record VehicleObservation := mkVehicleObs {
  vo_class : VehicleClass; vo_confidence : f32; vo_box : OrientedBox3D;
  vo_track_id : Z; vo_point_count : Z;
}.
Record ObservationSet := mkObs {
  capture_ts : Z; obs_plates : list PlateObservation; obs_vehicles : list VehicleObservation;
}.

Definition PixelBox_zero : PixelBox := mkPixelBox 0 0 0 0.
Definition Box3D_zero : OrientedBox3D := mkBox3D f_zero f_zero f_zero f_zero f_zero f_zero f_zero.

(** ** The scenario reader *)

Record ScenarioEvent := mkScenarioEvent {
  offset : Z; ev_plates : list PlateObservation; ev_vehicles : list VehicleObservation;
}.

(** [fail]. *)
Definition fail {A} (where_ what : string) : Res A :=
  Err ("scenario: " +:+ where_ +:+ ": " +:+ what).

(** [require]. *)
Definition require (obj : Json) (key where_ : string) : Res Json :=
  match jfind obj key with
  | Some v => Ok v
  | None => fail where_ ("missing required field '" +:+ key +:+ "'")
  end.

Section reader.
Context {NL : Nlohmann}.

(** [require_confidence]. *)
Definition require_confidence (obj : Json) (key where_ : string) : Res f32 :=
  do! v := require obj key where_ in
  if negb (is_number v) then fail (where_ +:+ "." +:+ key) "must be a number"
  else
    do! f := get_float v in
    if flt f f_zero || flt f_one f
    then fail (where_ +:+ "." +:+ key) ("confidence must be in [0, 1], got " +:+ dump v)
    else Ok f.

Definition class_names : list (string * VehicleClass) :=
  [("unknown", kUnknown); ("pedestrian", kPedestrian); ("bicycle", kBicycle);
   ("motorcycle", kMotorcycle); ("sedan", kSedan); ("suv", kSuv); ("pickup", kPickup);
   ("van", kVan); ("truck", kTruck)]%string.

(** [parse_vehicle_class]: the first name that is equal. *)
Definition parse_vehicle_class (v : Json) (where_ : string) : Res VehicleClass :=
  match v with
  | JStr s =>
      match base.filter (fun p => p.1 = s) class_names with
      | (_, c) :: _ => Ok c
      | [] => fail where_ ("unknown vehicle class '" +:+ s +:+ "'")
      end
  | _ => fail where_ "must be a string"
  end.

(** [parse_plate]. *)
Definition parse_plate (p : Json) (where_ : string) : Res PlateObservation :=
  if negb (is_object p) then fail where_ "must be an object"
  else
    do! text := require p "text" where_ in
    do! s := match text with
             | JStr (String c s) => Ok (String c s)
             | _ => fail (where_ +:+ ".text") "must be a non-empty string"
             end in
    do! det := require_confidence p "detection_conf" where_ in
    do! ocr := require_confidence p "ocr_conf" where_ in
    do! box := match jfind p "box" with
               | None => Ok PixelBox_zero
               | Some b =>
                   if negb (is_object b) then fail (where_ +:+ ".box") "must be an object"
                   else
                     do! x := value_or get_u32 0 b "x" in
                     do! y := value_or get_u32 0 b "y" in
                     do! w := value_or get_u32 0 b "width" in
                     do! h := value_or get_u32 0 b "height" in
                     Ok (mkPixelBox x y w h)
               end in
    do! country := value_or get_string ""%string p "country_hint" in
    do! raw := value_or get_string ""%string p "raw_ocr" in
    Ok (mkPlateObs s det ocr box country raw).

(** [parse_vehicle]. *)
Definition parse_vehicle (v : Json) (where_ : string) : Res VehicleObservation :=
  if negb (is_object v) then fail where_ "must be an object"
  else
    do! cj := require v "class" where_ in
    do! cls := parse_vehicle_class cj (where_ +:+ ".class") in
    do! conf := require_confidence v "confidence" where_ in
    do! box := match jfind v "box" with
               | None => Ok Box3D_zero
               | Some b =>
                   if negb (is_object b) then fail (where_ +:+ ".box") "must be an object"
                   else
                     do! cx := value_or get_float f_zero b "center_x" in
                     do! cy := value_or get_float f_zero b "center_y" in
                     do! cz := value_or get_float f_zero b "center_z" in
                     do! l := value_or get_float f_zero b "length" in
                     do! w := value_or get_float f_zero b "width" in
                     do! h := value_or get_float f_zero b "height" in
                     do! yaw := value_or get_float f_zero b "yaw_radians" in
                     Ok (mkBox3D cx cy cz l w h yaw)
               end in
    do! track := value_or get_u32 0 v "track_id" in
    do! points := value_or get_u32 0 v "point_count" in
    Ok (mkVehicleObs cls conf box track points).

(** The two optional arrays of [parse_event]. *)
Definition parse_list {A} (parse : Json -> string -> Res A) (e : Json) (key where_ : string)
    : Res (list A) :=
  match jfind e key with
  | None => Ok []
  | Some (JArr l) =>
      res_map (fun i x => parse x (where_ +:+ "." +:+ key +:+ "[" +:+ pretty i +:+ "]")) 0 l
  | Some _ => fail (where_ +:+ "." +:+ key) "must be an array"
  end.

(** [parse_event]. *)
Definition parse_event (e : Json) (where_ : string) : Res ScenarioEvent :=
  if negb (is_object e) then fail where_ "must be an object"
  else
    do! off := require e "offset_ms" where_ in
    if negb (is_number_integer off) then fail (where_ +:+ ".offset_ms") "must be an integer"
    else
    do! ms := get_i64 off in
    if ms <? 0 then fail (where_ +:+ ".offset_ms") ("must be >= 0, got " +:+ dump off)
    else
    do! plates := parse_list parse_plate e "plates" where_ in
    do! vehicles := parse_list parse_vehicle e "vehicles" where_ in
    Ok (mkScenarioEvent ms plates vehicles).

(** [ScenarioSource] with its replay cursor; times in nanoseconds. *)
Record ScenarioSource := mkSource {
  events_ : list ScenarioEvent; loops_ : Z; index_ : nat; iteration_ : Z; epoch_ : option Z;
}.

(** [ScenarioSource::from_json]; [inl] is the text of a parse error. *)
Definition from_json (doc : string + Json) : Res ScenarioSource :=
  match doc with
  | inl e => fail "(document)" ("malformed JSON — " +:+ e)
  | inr root =>
      if negb (is_object root) then fail "(document)" "top level must be an object"
      else
        do! loops := match jfind root "loop" with
                     | None => Ok 1
                     | Some v =>
                         let bad := fail "loop" ("must be an integer >= 1, got " +:+ dump v) in
                         if negb (is_number_integer v) then bad
                         else
                           do! z := get_i64 v in
                           if z <? 1 then bad else Ok (u32 z)
                     end in
        do! ej := require root "events" "(document)" in
        match ej with
        | JArr (x :: l) =>
            do! events := res_map (fun i e => parse_event e ("events[" +:+ pretty i +:+ "]")) 0
                            (x :: l) in
            Ok (mkSource events loops 0 0 None)
        | _ => fail "events" "must be a non-empty array"
        end
  end.

(** [ScenarioSource::from_file]. *)
Definition from_file (parse : string -> string + Json) (path : string) (file : option string)
    : Res ScenarioSource :=
  match file with
  | None => Err ("scenario: cannot read file: " +:+ path)
  | Some text => from_json (parse text)
  end.
End reader.

(** ** Paced replay *)

Definition ns_per_ms : Z := 1000000.
Definition in_i64 (z : Z) : bool := (- 2 ^ 63 <=? z) && (z <? 2 ^ 63).

(** [ScenarioSource::next]: the time it sleeps until and the observation, or
    the end of the scenario.  [now] and [wall] are the clock's readings.
    Outside the clock's 64 bits the sum is undefined. *)
Definition next (now wall : Z) (s : ScenarioSource)
    : Res (ScenarioSource * option (Z * ObservationSet)) :=
  if loops_ s <=? iteration_ s then Ok (s, None)
  else
    let epoch := default now (epoch_ s) in
    match events_ s !! index_ s with
    | None => UB
    | Some ev =>
        if negb (in_i64 (offset ev * ns_per_ms) && in_i64 (epoch + offset ev * ns_per_ms)) then UB
        else
          let out := mkObs wall (ev_plates ev) (ev_vehicles ev) in
          let s :=
            if (S (index_ s) =? length (events_ s))%nat
            then mkSource (events_ s) (loops_ s) 0 (u32 (iteration_ s + 1)) None
            else mkSource (events_ s) (loops_ s) (S (index_ s)) (iteration_ s) (Some epoch) in
          Ok (s, Some (epoch + offset ev * ns_per_ms, out))
    end.

(** [count] calls of [next], the [j]-th of which reads [clock j]. *)
Fixpoint pulls (clock : nat -> Z * Z) (j count : nat) (s : ScenarioSource)
    : Res (ScenarioSource * list (option (Z * ObservationSet))) :=
  match count with
  | O => Ok (s, [])
  | S count =>
      do! (s, o) := next (clock j).1 (clock j).2 s in
      do! (s, os) := pulls clock (S j) count s in
      Ok (s, o :: os)
  end.

(** ** The frame builder *)

Record PlateMsg := mkPlateMsg {
  pm_base : PlateDetection; pm_box : PixelBox; pm_country_hint : string; pm_raw_ocr : string;
}.
Record VehicleMsg := mkVehicleMsg {
  vm_base : VehicleDetection; vm_box : OrientedBox3D; vm_track_id : Z; vm_point_count : Z;
}.
Record FrameMsg := mkFrameMsg {
  fm_frame_id : Z; fm_gate_id : string; fm_capture_ts : Timestamp;
  fm_plates : list PlateMsg; fm_vehicles : list VehicleMsg;
}.

(** The part of a frame the fusion engine reads. *)
Definition frame_of (m : FrameMsg) : DetectionFrame :=
  mkFrame (fm_gate_id m) (fm_frame_id m) (map pm_base (fm_plates m)) (map vm_base (fm_vehicles m)).

(** [stamp], of nanoseconds since the epoch. *)
Definition stamp_ts (tp : Z) : Timestamp :=
  mkTs (Z.quot tp 1000000000) (i32 (Z.rem tp 1000000000)).

(** [to_proto_class]. *)
Definition to_proto_class (c : VehicleClass) : Z :=
  match c with
  | kPedestrian => 1 | kBicycle => 2 | kMotorcycle => 3 | kSedan => 4 | kSuv => 5
  | kPickup => 6 | kVan => 7 | kTruck => 8 | kUnknown => 0
  end.

Record FrameBuilder := mkBuilder { fb_gate_id : string; next_frame_id_ : Z }.
Definition FrameBuilder_new (gate : string) : FrameBuilder := mkBuilder gate 1.

Definition plate_msg (p : PlateObservation) : PlateMsg :=
  mkPlateMsg (mkPlate (po_text p) (po_detection_conf p) (po_ocr_conf p)) (po_box p)
    (po_country_hint p) (po_raw_ocr p).
Definition vehicle_msg (v : VehicleObservation) : VehicleMsg :=
  mkVehicleMsg (mkVehicle (to_proto_class (vo_class v)) (vo_confidence v)) (vo_box v)
    (vo_track_id v) (vo_point_count v).

(** [FrameBuilder::build]. *)
Definition build (obs : ObservationSet) (b : FrameBuilder) : FrameMsg * FrameBuilder :=
  (mkFrameMsg (next_frame_id_ b) (fb_gate_id b) (stamp_ts (capture_ts obs))
     (map plate_msg (obs_plates obs)) (map vehicle_msg (obs_vehicles obs)),
   mkBuilder (fb_gate_id b) (u64 (next_frame_id_ b + 1))).

(** ** The submit client *)

Record ClientConfig := mkClient {
  cl_server : string; cl_gate : string; deadline_ms : Z; max_attempts : Z;
  backoff_initial_ms : Z; tls_ca_path : string; tls_cert_path : string; tls_key_path : string;
}.

Definition ClientConfig_default : ClientConfig :=
  mkClient "127.0.0.1:50051" "gate-01" 2000 3 200 "" "" "".

Inductive ChannelCredentials :=
| InsecureChannel
| SslChannel (roots : string) (identity : option (string * string)).

(** [read_pem_or_throw]. *)
Definition read_pem_or_throw (fs : string -> option string) (path role : string) : Res string :=
  match fs path with
  | None => Err ("submit_client: cannot read " +:+ role +:+ " PEM: " +:+ path)
  | Some ""%string => Err ("submit_client: empty " +:+ role +:+ " PEM: " +:+ path)
  | Some s => Ok s
  end.

(** [make_credentials]. *)
Definition make_credentials (fs : string -> option string) (cfg : ClientConfig)
    : Res ChannelCredentials :=
  let empty := String.eqb "" in
  if negb (Bool.eqb (empty (tls_cert_path cfg)) (empty (tls_key_path cfg)))
  then Err "submit_client: tls_cert_path and tls_key_path must be set together"
  else if empty (tls_ca_path cfg) then
    if negb (empty (tls_cert_path cfg))
    then Err ("submit_client: client cert configured without tls_ca_path (no server " +:+
              "verification) — refusing")
    else Ok InsecureChannel
  else
    do! roots := read_pem_or_throw fs (tls_ca_path cfg) "CA" in
    if negb (empty (tls_cert_path cfg)) then
      do! cert := read_pem_or_throw fs (tls_cert_path cfg) "client cert" in
      do! key := read_pem_or_throw fs (tls_key_path cfg) "client key" in
      Ok (SslChannel roots (Some (cert, key)))
    else Ok (SslChannel roots None).

(** The number of a status code. *)
Definition code_number (c : StatusCode) : Z :=
  match c with
  | OK => 0 | CANCELLED => 1 | UNKNOWN => 2 | INVALID_ARGUMENT => 3 | DEADLINE_EXCEEDED => 4
  | NOT_FOUND => 5 | ALREADY_EXISTS => 6 | PERMISSION_DENIED => 7 | RESOURCE_EXHAUSTED => 8
  | FAILED_PRECONDITION => 9 | ABORTED => 10 | OUT_OF_RANGE => 11 | UNIMPLEMENTED => 12
  | INTERNAL => 13 | UNAVAILABLE => 14 | DATA_LOSS => 15 | UNAUTHENTICATED => 16
  | CODE_OTHER n => n
  end.

Definition submit_error (frame_id : Z) (st : Status) : string :=
  ("submit_client: SubmitDetection failed for frame_id=" +:+ pretty frame_id +:+ ": [" +:+
   pretty (code_number (error_code st)) +:+ "] " +:+ error_message st).

(** What a submission did: the delays it slept for, one per retry. *)
Record Submitted := mkSubmitted { sleeps : list Z; outcome : string + AuthDecision }.

(** The attempts of [SubmitClient::submit] from attempt [n] on, of which
    [more] more follow; [rpc n] is how attempt [n] ends.  The doubled delay
    is undefined outside its 64 bits. *)
Fixpoint submit_loop (rpc : nat -> Status * AuthDecision) (frame_id : Z) (more n : nat)
    (backoff : Z) : Res Submitted :=
  let '(st, d) := rpc n in
  if status_ok st then Ok (mkSubmitted [] (inr d))
  else
    match more with
    | O => Ok (mkSubmitted [] (inl (submit_error frame_id st)))
    | S more =>
        if negb (bool_decide (error_code st = UNAVAILABLE))
        then Ok (mkSubmitted [] (inl (submit_error frame_id st)))
        else if negb (in_i64 (backoff * 2)) then UB
        else
          do! r := submit_loop rpc frame_id more (S n) (backoff * 2) in
          Ok (mkSubmitted (backoff :: sleeps r) (outcome r))
    end.

(** [SubmitClient::submit]. *)
Definition submit (cfg : ClientConfig) (rpc : nat -> Status * AuthDecision) (frame_id : Z)
    : Res Submitted :=
  let attempts := if max_attempts cfg =? 0 then 1 else max_attempts cfg in
  submit_loop rpc frame_id (Z.to_nat (attempts - 1)) 1 (backoff_initial_ms cfg).

(** ** gate-vision *)

(** The source check of [main]. *)
Definition one_source (scenario_path camera_uri : string) : bool :=
  negb (Bool.eqb (String.eqb scenario_path "") (String.eqb camera_uri "")).

Record Daemon := mkDaemon {
  dm_source : ScenarioSource; dm_builder : FrameBuilder; submitted : Z; authorized : Z;
  dm_frames : list FrameMsg;
}.

(** One turn of the loop: the clock readings, and how the RPCs of this
    frame end.  [dm_frames] is what has been submitted. *)
Record Turn := mkTurn {
  shutdown : bool; tu_now : Z; tu_wall : Z; tu_rpc : nat -> Status * AuthDecision;
}.

Inductive Exit := Running (d : Daemon) | Stopped (d : Daemon).

Definition daemon_turn (cfg : ClientConfig) (t : Turn) (d : Daemon) : Res Exit :=
  if shutdown t then Ok (Stopped d)
  else
    do! (src, o) := next (tu_now t) (tu_wall t) (dm_source d) in
    match o with
    | None => Ok (Stopped (mkDaemon src (dm_builder d) (submitted d) (authorized d) (dm_frames d)))
    | Some (_, obs) =>
        if bool_decide (obs_plates obs = []) && bool_decide (obs_vehicles obs = [])
        then Ok (Running (mkDaemon src (dm_builder d) (submitted d) (authorized d) (dm_frames d)))
        else
          let '(frame, b) := build obs (dm_builder d) in
          do! r := submit cfg (tu_rpc t) (fm_frame_id frame) in
          match outcome r with
          | inl err => Err err
          | inr dec =>
              Ok (Running (mkDaemon src b (u64 (submitted d + 1))
                             (if decide (verdict dec = AUTHORIZED)
                              then u64 (authorized d + 1) else authorized d)
                             (dm_frames d ++ [frame])))
          end
    end.

Fixpoint daemon_run (cfg : ClientConfig) (ts : list Turn) (d : Daemon) : Res Exit :=
  match ts with
  | [] => Ok (Running d)
  | t :: ts =>
      do! e := daemon_turn cfg t d in
      match e with Running d => daemon_run cfg ts d | Stopped d => Ok (Stopped d) end
  end.

(** ** What a parsed scenario promises *)

Definition conf_ok (f : f32) : Prop := flt f f_zero = false /\ flt f_one f = false.

Definition plate_ok (p : PlateObservation) : Prop :=
  po_text p <> ""%string /\ conf_ok (po_detection_conf p) /\ conf_ok (po_ocr_conf p) /\
  Forall (fun z => 0 <= z < 2 ^ 32)
    [px (po_box p); py (po_box p); pwidth (po_box p); pheight (po_box p)].

Definition vehicle_ok (v : VehicleObservation) : Prop :=
  conf_ok (vo_confidence v) /\ 0 <= vo_track_id v < 2 ^ 32 /\ 0 <= vo_point_count v < 2 ^ 32.

Definition event_ok (e : ScenarioEvent) : Prop :=
  0 <= offset e /\ Forall plate_ok (ev_plates e) /\ Forall vehicle_ok (ev_vehicles e).

Section reader_lemmas.
Context {NL : Nlohmann}.

Lemma value_u32_range j key z : value_or get_u32 0 j key = Ok z -> 0 <= z < 2 ^ 32.
Proof. unfold value_or. destruct (jfind j key); [apply get_u32_range | intros [= <-]; lia]. Qed.

Lemma require_confidence_ok obj key wh f :
  require_confidence obj key wh = Ok f -> conf_ok f.
Proof.
  unfold require_confidence. intros H. apply res_bind_Ok in H as (v & _ & H).
  case_match; [done|]. apply res_bind_Ok in H as (g & _ & H).
  destruct (_ || _) eqn:E; [done|]. injection H as <-. by apply orb_false_elim in E.
Qed.

Ltac step H := apply res_bind_Ok in H as (? & ? & H).

Lemma parse_plate_ok p wh o : parse_plate p wh = Ok o -> plate_ok o.
Proof.
  unfold parse_plate. intros H. case_match; [done|]. step H. step H.
  apply res_bind_Ok in H as (det & Hdet & H). apply res_bind_Ok in H as (ocr & Hocr & H).
  apply res_bind_Ok in H as (box & Hbox & H). step H. step H. injection H as <-.
  apply require_confidence_ok in Hdet. apply require_confidence_ok in Hocr.
  split_and!; cbn; [by repeat case_match; simplify_eq | done | done |].
  rewrite !Forall_cons, Forall_nil.
  case_match; [|injection Hbox as <-; cbn; lia].
  case_match; [done|]. repeat (apply res_bind_Ok in Hbox as (? & ?%value_u32_range & Hbox)).
  injection Hbox as <-. cbn. lia.
Qed.

Lemma parse_vehicle_ok v wh o : parse_vehicle v wh = Ok o -> vehicle_ok o.
Proof.
  unfold parse_vehicle. intros H. case_match; [done|]. step H. step H.
  apply res_bind_Ok in H as (conf & Hconf & H). step H.
  apply res_bind_Ok in H as (t & Ht & H). apply res_bind_Ok in H as (n & Hn & H). injection H as <-.
  repeat split; cbn; try (by eapply value_u32_range); by eapply require_confidence_ok.
Qed.

Lemma parse_list_ok {A} (parse : Json -> string -> Res A) (P : A -> Prop) e key wh l :
  (forall x w a, parse x w = Ok a -> P a) -> parse_list parse e key wh = Ok l -> Forall P l.
Proof.
  intros Hp H. unfold parse_list in H. destruct (jfind e key) as [[]|]; simplify_eq; try done.
  apply res_map_Ok in H. induction H as [|x y xs ys [j Hj] H IH]; constructor; [by eapply Hp | done].
Qed.

Lemma parse_event_ok e wh o : parse_event e wh = Ok o -> event_ok o.
Proof.
  unfold parse_event. intros H. case_match; [done|]. step H. case_match; [done|].
  apply res_bind_Ok in H as (ms & _ & H). destruct (Z.ltb_spec ms 0); [done|]. apply res_bind_Ok in H as (ps & Hps & H).
  apply res_bind_Ok in H as (vs & Hvs & H). injection H as <-. split_and!; cbn.
  - done.
  - eapply parse_list_ok, Hps. intros. by eapply parse_plate_ok.
  - eapply parse_list_ok, Hvs. intros. by eapply parse_vehicle_ok.
Qed.

End reader_lemmas.

(** ** What a replay does *)

Section replay.
Context (evs : list ScenarioEvent) (loops : nat) (clock : nat -> Z * Z).
Hypothesis evs_nonempty : (0 < length evs)%nat.
Hypothesis loops_fit : Z.of_nat loops < 2 ^ 32.
(** No due time leaves the clock's 64 bits. *)
Hypothesis in_range : forall ev j, ev ∈ evs ->
  in_i64 (offset ev * ns_per_ms) = true /\ in_i64 ((clock j).1 + offset ev * ns_per_ms) = true.

Local Notation n := (length evs).

(** The source after [j] calls: the clock is read at the first call of each
    iteration. *)
Definition source_at (j : nat) : ScenarioSource :=
  if (loops * n <=? j)%nat then mkSource evs (Z.of_nat loops) 0 (Z.of_nat loops) None
  else mkSource evs (Z.of_nat loops) (j mod n) (Z.of_nat (j / n))
         (if (j mod n =? 0)%nat then None else Some (clock (j - j mod n)).1).

(** What call [j] returns. *)
Definition due_at (j : nat) : option (Z * ObservationSet) :=
  if (loops * n <=? j)%nat then None
  else ev ← evs !! (j mod n)%nat;
       Some ((clock (j - j mod n)).1 + offset ev * ns_per_ms,
             mkObs (clock j).2 (ev_plates ev) (ev_vehicles ev)).

Lemma next_at j : next (clock j).1 (clock j).2 (source_at j) = Ok (source_at (S j), due_at j).
Proof.
  unfold source_at at 1, due_at. destruct (Nat.leb_spec (loops * n) j) as [Hge|Hlt].
  { unfold next. cbn [loops_ iteration_]. rewrite Z.leb_refl. unfold source_at.
    by rewrite (proj2 (Nat.leb_le _ _)) by lia. }
  assert (Hq : (j / n < loops)%nat) by (apply Nat.Div0.div_lt_upper_bound; lia).
  assert (Hm : (j mod n < n)%nat) by (apply Nat.mod_upper_bound; lia).
  pose proof (Nat.div_mod_eq j n) as Hdm.
  destruct (lookup_lt_is_Some_2 evs (j mod n) Hm) as [ev Hev].
  unfold next. cbn [loops_ iteration_ epoch_ events_ index_].
  rewrite (proj2 (Z.leb_gt _ _)) by lia. rewrite Hev.
  set (epoch := default _ _).
  assert (epoch = (clock (j - j mod n)).1) as ->.
  { unfold epoch. destruct (Nat.eqb_spec (j mod n) 0) as [E|E]; [|done]. cbn. do 2 f_equal. lia. }
  destruct (in_range ev (j - j mod n)) as [-> ->]; [by eapply list_elem_of_lookup_2|].
  cbn [andb negb mbind option_bind]. do 2 f_equal.
  unfold source_at. destruct (Nat.eqb_spec (S (j mod n)) n) as [E|E].
  - assert (HS : S j = (n * S (j / n))%nat) by lia.
    rewrite (u32_small (_ + 1)) by lia.
    destruct (Nat.leb_spec (loops * n) (S j)) as [Hge'|Hlt'].
    + f_equal. assert (S (j / n) = loops) by nia. lia.
    + assert (S j mod n = 0)%nat as -> by (rewrite HS, Nat.mul_comm; apply Nat.Div0.mod_mul).
      assert (S j / n = S (j / n))%nat as -> by (rewrite HS, Nat.mul_comm; apply Nat.div_mul; lia).
      rewrite Nat.eqb_refl. f_equal. lia.
  - destruct (Nat.leb_spec (loops * n) (S j)) as [Hge'|Hlt']; [nia|].
    assert (S j mod n = S (j mod n))%nat as ->
      by (symmetry; apply (Nat.mod_unique (S j) n (j / n)); lia).
    assert (S j / n = j / n)%nat as ->
      by (symmetry; apply (Nat.div_unique (S j) n (j / n) (S (j mod n))); lia).
    reflexivity.
Qed.

Lemma pulls_at j count :
  pulls clock j count (source_at j) = Ok (source_at (j + count), map due_at (seq j count)).
Proof.
  revert j. induction count as [|count IH]; intros j; cbn [pulls seq map].
  { by rewrite Nat.add_0_r. }
  rewrite next_at. cbn [res_bind]. rewrite IH. cbn [res_bind].
  by replace (S j + count)%nat with (j + S count)%nat by lia.
Qed.

(** A replay ends, and is exact.  With its loop count and no due time
    outside the clock's range, the [j]-th call returns the [j mod n]-th
    event, due its offset after the first call of its iteration, for exactly
    [loops] times [n] calls; every later call reports the end. *)
Theorem replay_is_exact count :
  pulls clock 0 count (mkSource evs (Z.of_nat loops) 0 0 None)
  = Ok (source_at count, map due_at (seq 0 count)) /\
  (forall j, (loops * n <= j)%nat -> due_at j = None) /\
  (forall j, (j < loops * n)%nat -> exists ev, evs !! (j mod n)%nat = Some ev /\
     due_at j = Some ((clock (j - j mod n)).1 + offset ev * ns_per_ms,
                      mkObs (clock j).2 (ev_plates ev) (ev_vehicles ev))).
Proof.
  split_and!.
  - pose proof (pulls_at 0 count) as Hp. cbn [Nat.add] in Hp. rewrite <- Hp. f_equal.
    unfold source_at.
    destruct (Nat.leb_spec (loops * n) 0) as [H|H].
    + assert (loops = 0%nat) as -> by nia. done.
    + by rewrite Nat.Div0.mod_0_l, Nat.Div0.div_0_l.
  - intros j Hj. unfold due_at. by rewrite (proj2 (Nat.leb_le _ _)).
  - intros j Hj. unfold due_at. rewrite (proj2 (Nat.leb_gt _ _)) by done.
    destruct (lookup_lt_is_Some_2 evs (j mod n)) as [ev Hev]; [apply Nat.mod_upper_bound; lia|].
    exists ev. by rewrite Hev.
Qed.
End replay.

(** ** What the client promises *)

(** The delays of [k] retries. *)
Definition doubling (b : Z) (k : nat) : list Z := map (fun i => b * 2 ^ Z.of_nat i) (seq 0 k).

Lemma doubling_S b k : b :: doubling (b * 2) k = doubling b (S k).
Proof.
  unfold doubling. cbn [seq map]. f_equal; [lia|]. rewrite <- seq_shift, map_map.
  apply map_ext. intros i. rewrite Nat2Z.inj_succ, Z.pow_succ_r by lia. lia.
Qed.

Lemma submit_loop_spec rpc id more n b :
  0 <= b -> b * 2 ^ Z.of_nat more < 2 ^ 63 ->
  exists k r, submit_loop rpc id more n b = Ok r /\ (k <= more)%nat /\ sleeps r = doubling b k /\
    (forall i, (i < k)%nat -> error_code (rpc (n + i)%nat).1 = UNAVAILABLE) /\
    let st := (rpc (n + k)%nat).1 in
    if status_ok st then outcome r = inr (rpc (n + k)%nat).2
    else outcome r = inl (submit_error id st) /\ (k = more \/ error_code st <> UNAVAILABLE).
Proof.
  revert n b. induction more as [|more IH]; intros n b Hb Hfit; cbn [submit_loop];
    destruct (rpc n) as [st d] eqn:Hrpc.
  - exists 0%nat. destruct (status_ok st) eqn:Hok; eexists; (split; [reflexivity|]);
      rewrite Nat.add_0_r, Hrpc; cbn [fst snd]; rewrite Hok; split_and!; try done; lia.
  - destruct (status_ok st) eqn:Hok.
    { exists 0%nat. eexists. split; [reflexivity|]. rewrite Nat.add_0_r, Hrpc. cbn [fst snd].
      rewrite Hok. split_and!; try done; lia. }
    case_bool_decide as Hun; cbn [negb].
    + rewrite Nat2Z.inj_succ, Z.pow_succ_r in Hfit by lia.
      assert (0 < 2 ^ Z.of_nat more) by (apply Z.pow_pos_nonneg; lia).
      assert (in_i64 (b * 2) = true) as ->.
      { unfold in_i64. apply andb_true_iff. rewrite Z.leb_le, Z.ltb_lt. nia. }
      cbn [negb]. destruct (IH (S n) (b * 2)) as (k & r & Hr & Hk & Hs & Hall & Hlast); [lia | nia|].
      exists (S k). rewrite Hr. cbn [res_bind]. eexists. split; [reflexivity|]. cbn [sleeps outcome].
      replace (n + S k)%nat with (S n + k)%nat by lia. split_and!.
      * lia.
      * rewrite Hs. apply doubling_S.
      * intros [|i] Hi; [by rewrite Nat.add_0_r, Hrpc|].
        replace (n + S i)%nat with (S n + i)%nat by lia. apply Hall. lia.
      * revert Hlast. cbv zeta. destruct (status_ok (rpc (S n + k)%nat).1); [done|]. intros [-> Hlast]. split; [done|].
        destruct Hlast as [-> | ?]; [by left | by right].
    + exists 0%nat. eexists. split; [reflexivity|]. rewrite Nat.add_0_r, Hrpc. cbn [fst snd].
      rewrite Hok. split_and!; try done; try lia. by right.
Qed.

(** A submission is retried within bounds.  It makes at least one attempt
    and at most the configured number; it retries only after UNAVAILABLE,
    each time after twice the previous delay; it returns the first decision
    it gets, and otherwise throws the last status, which no retry could have
    helped. *)
Theorem submit_retries_unavailable_only cfg rpc id
    (Hmax : 0 <= max_attempts cfg < 2 ^ 32) (Hb : 0 <= backoff_initial_ms cfg)
    (Hfit : backoff_initial_ms cfg * 2 ^ max_attempts cfg < 2 ^ 63) :
  exists (k : nat) r, submit cfg rpc id = Ok r /\
    Z.of_nat k < Z.max 1 (max_attempts cfg) /\ sleeps r = doubling (backoff_initial_ms cfg) k /\
    (forall i, (i < k)%nat -> error_code (rpc (1 + i)%nat).1 = UNAVAILABLE) /\
    let st := (rpc (1 + k)%nat).1 in
    if status_ok st then outcome r = inr (rpc (1 + k)%nat).2
    else outcome r = inl (submit_error id st) /\
         (Z.of_nat k = Z.max 1 (max_attempts cfg) - 1 \/ error_code st <> UNAVAILABLE).
Proof.
  unfold submit. set (more := Z.to_nat _).
  assert (Hmore : Z.of_nat more = Z.max 1 (max_attempts cfg) - 1).
  { unfold more. destruct (Z.eqb_spec (max_attempts cfg) 0); lia. }
  assert (Hle : 2 ^ Z.of_nat more <= 2 ^ max_attempts cfg) by (apply Z.pow_le_mono_r; lia).
  destruct (submit_loop_spec rpc id more 1 (backoff_initial_ms cfg)) as (k & r & Hr & Hk & Hs & Hall & Hl);
    [done | nia|].
  exists k, r. split_and!; try done; [lia|]. revert Hl. cbv zeta.
  destruct (status_ok _); [done|]. intros [-> [-> | ?]]; split; auto.
Qed.

Lemma read_pem_ok fs path role s :
  read_pem_or_throw fs path role = Ok s -> fs path = Some s /\ s <> ""%string.
Proof. unfold read_pem_or_throw. destruct (fs path) as [[|]|]; naive_solver. Qed.

(** The channel is never weaker than configured.  A plaintext channel
    means that no TLS path is configured at all; otherwise the server is
    verified against the configured CA, and a configured client identity is
    presented; anything unreadable, empty or half configured throws. *)
Theorem channel_matches_config fs cfg c (H : make_credentials fs cfg = Ok c) :
  match c with
  | InsecureChannel =>
      tls_ca_path cfg = ""%string /\ tls_cert_path cfg = ""%string /\ tls_key_path cfg = ""%string
  | SslChannel roots identity =>
      fs (tls_ca_path cfg) = Some roots /\ roots <> ""%string /\
      match identity with
      | None => tls_cert_path cfg = ""%string /\ tls_key_path cfg = ""%string
      | Some (cert, key) =>
          fs (tls_cert_path cfg) = Some cert /\ fs (tls_key_path cfg) = Some key /\
          cert <> ""%string /\ key <> ""%string
      end
  end.
Proof.
  unfold make_credentials in H.
  destruct (String.eqb_spec "" (tls_cert_path cfg)) as [Ec|Ec],
           (String.eqb_spec "" (tls_key_path cfg)) as [Ek|Ek]; cbn [Bool.eqb negb] in H; try done;
    destruct (String.eqb_spec "" (tls_ca_path cfg)) as [Ea|Ea]; try done.
  - by injection H as <-.
  - apply res_bind_Ok in H as (roots & Hr%read_pem_ok & H). injection H as <-. naive_solver.
  - apply res_bind_Ok in H as (roots & Hr%read_pem_ok & H).
    apply res_bind_Ok in H as (cert & Hc%read_pem_ok & H).
    apply res_bind_Ok in H as (key & Hk%read_pem_ok & H). injection H as <-. naive_solver.
Qed.

(** ** The daemon on a whole scenario *)

Definition worth_sending (e : ScenarioEvent) : Prop := ev_plates e <> [] \/ ev_vehicles e <> [].
#[export] Instance worth_sending_dec e : Decision (worth_sending e).
Proof. unfold worth_sending. apply _. Defined.

(** What a frame carries, its id and time apart. *)
Definition contents (m : FrameMsg) : string * list PlateMsg * list VehicleMsg :=
  (fm_gate_id m, fm_plates m, fm_vehicles m).
Definition event_contents (gate : string) (e : ScenarioEvent) : string * list PlateMsg * list VehicleMsg :=
  (gate, map plate_msg (ev_plates e), map vehicle_msg (ev_vehicles e)).

Lemma submit_first_try cfg rpc id :
  error_code (rpc 1%nat).1 = OK -> submit cfg rpc id = Ok (mkSubmitted [] (inr (rpc 1%nat).2)).
Proof.
  intros Hok. unfold submit. destruct (rpc 1%nat) as [st d] eqn:E. cbn [fst snd] in *.
  destruct (Z.to_nat _); cbn [submit_loop]; rewrite E; unfold status_ok;
    by rewrite bool_decide_true.
Qed.

(** Frame ids count up from 1, and the builder stands after the last. *)
Record Sent (gate : string) (evs : list ScenarioEvent) (d : Daemon) : Prop := {
  sent_ids : map fm_frame_id (dm_frames d) = map (fun i => Z.of_nat (S i)) (seq 0 (length (dm_frames d)));
  sent_contents : map contents (dm_frames d) = map (event_contents gate) (base.filter worth_sending evs);
  sent_builder : dm_builder d = mkBuilder gate (Z.of_nat (S (length (dm_frames d))));
  sent_count : submitted d = Z.of_nat (length (dm_frames d));
}.

Lemma Sent_length gate evs d : Sent gate evs d -> (length (dm_frames d) <= length evs)%nat.
Proof.
  intros [_ Hc _ _]. apply (f_equal length) in Hc. rewrite !length_map in Hc. rewrite Hc.
  apply length_filter.
Qed.

Section daemon.
Context (cfg : ClientConfig) (gate : string) (rpc : nat -> nat -> Status * AuthDecision).
Context (evs : list ScenarioEvent) (loops : nat) (clock : nat -> Z * Z).
Hypothesis evs_nonempty : (0 < length evs)%nat.
Hypothesis loops_fit : Z.of_nat loops < 2 ^ 32.
Hypothesis in_range : forall ev j, ev ∈ evs ->
  in_i64 (offset ev * ns_per_ms) = true /\ in_i64 ((clock j).1 + offset ev * ns_per_ms) = true.
Hypothesis few_frames : Z.of_nat (loops * length evs) < 2 ^ 64 - 1.
Hypothesis server_answers : forall j, error_code (rpc j 1%nat).1 = OK.

Local Notation n := (length evs).
Local Notation source_at := (source_at evs loops clock).

Definition turn_at (j : nat) : Turn := mkTurn false (clock j).1 (clock j).2 (rpc j).

Lemma daemon_turn_at j ev done d :
  (j < loops * n)%nat -> evs !! (j mod n)%nat = Some ev -> (length done <= j)%nat ->
  dm_source d = source_at j -> Sent gate done d ->
  exists d', daemon_turn cfg (turn_at j) d = Ok (Running d') /\
    dm_source d' = source_at (S j) /\ Sent gate (done ++ [ev]) d'.
Proof.
  intros Hj Hev Hlen Hsrc Hs. pose proof (Sent_length _ _ _ Hs) as Hfl.
  destruct Hs as [Hids Hcont Hb Hcount]. unfold daemon_turn, turn_at.
  cbn [shutdown tu_now tu_wall tu_rpc]. rewrite Hsrc, (next_at evs loops clock) by done.
  cbn [res_bind]. unfold due_at. rewrite (proj2 (Nat.leb_gt _ _)) by done. rewrite Hev.
  cbn [mbind option_bind obs_plates obs_vehicles].
  assert (Hw : bool_decide (ev_plates ev = []) && bool_decide (ev_vehicles ev = [])
               = negb (bool_decide (worth_sending ev))).
  { unfold worth_sending. repeat case_bool_decide; naive_solver. }
  rewrite Hw. clear Hw. case_bool_decide as Hsend; cbn [negb].
  - unfold build. rewrite Hb. cbn [fb_gate_id next_frame_id_ capture_ts obs_plates obs_vehicles
      fm_frame_id]. rewrite submit_first_try by apply server_answers. cbn [res_bind outcome].
    eexists. split; [reflexivity|]. split; [done|].
    split; cbn [dm_frames dm_builder submitted]; rewrite ?map_app, ?length_app.
    + rewrite Hids. cbn [length map]. rewrite Nat.add_1_r, seq_S, map_app. done.
    + rewrite Hcont, filter_app, map_app. f_equal. rewrite filter_cons, filter_nil.
      by rewrite decide_True.
    + cbn [length]. rewrite u64_small by lia. f_equal. lia.
    + cbn [length]. rewrite u64_small by lia. lia.
  - eexists. split; [reflexivity|]. split; [done|]. split; try done. cbn [dm_frames].
    rewrite Hcont, filter_app, filter_cons, filter_nil, decide_False by done. by rewrite app_nil_r.
Qed.

(** The events of the first [j] calls. *)
Definition played (j : nat) : list ScenarioEvent := omap (fun i => evs !! (i mod n)%nat) (seq 0 j).

Lemma played_S j ev : evs !! (j mod n)%nat = Some ev -> played (S j) = played j ++ [ev].
Proof. intros H. unfold played. rewrite seq_S, omap_app. cbn. by rewrite H. Qed.

Lemma length_played j : (length (played j) <= j)%nat.
Proof.
  unfold played. rewrite <- (length_seq j 0) at 2. generalize (seq 0 j). intros l.
  induction l as [|i l IH]; [done|]. cbn. case_match; cbn; lia.
Qed.

Lemma played_all k : (k <= loops)%nat -> played (k * n) = concat (replicate k evs).
Proof.
  induction k as [|k IH]; intros Hk; [done|].
  replace (S k * n)%nat with (k * n + n)%nat by lia. rewrite replicate_S_end, concat_app.
  cbn [concat]. rewrite app_nil_r, <- IH by lia.
  unfold played. rewrite seq_app, omap_app. f_equal. cbn [Nat.add].
  assert (Hgen : forall m, (m <= n)%nat ->
    omap (fun i => evs !! (i mod n)%nat) (seq (k * n) m) = take m evs).
  { induction m as [|m IHm]; intros Hm; [done|].
    rewrite seq_S, omap_app, IHm by lia.
    destruct (lookup_lt_is_Some_2 evs m) as [ev Hev]; [lia|].
    rewrite (take_S_r evs m ev Hev). f_equal. cbn.
    assert (((k * n + m) mod n)%nat = m) as ->
      by (symmetry; apply (Nat.mod_unique _ n k); lia).
    by rewrite Hev. }
  by rewrite Hgen, firstn_all by done.
Qed.

Lemma daemon_run_to j m d :
  (j + m = loops * n)%nat -> dm_source d = source_at j -> Sent gate (played j) d ->
  exists d', daemon_run cfg (map turn_at (seq j (S m))) d = Ok (Stopped d') /\
    Sent gate (played (loops * n)) d'.
Proof.
  revert j d. induction m as [|m IH]; intros j d Hj Hsrc Hs.
  - assert (j = loops * n)%nat as -> by lia. cbn [seq map daemon_run].
    unfold daemon_turn, turn_at. cbn [shutdown tu_now tu_wall]. rewrite Hsrc, next_at by done.
    cbn [res_bind]. unfold due_at. rewrite (proj2 (Nat.leb_le _ _)) by done. cbn [res_bind].
    eexists. split; [reflexivity|]. by destruct Hs.
  - destruct (lookup_lt_is_Some_2 evs (j mod n)) as [ev Hev]; [apply Nat.mod_upper_bound; lia|].
    destruct (daemon_turn_at j ev (played j) d) as (d1 & Ht & Hsrc1 & Hs1); try done;
      [lia | apply length_played|].
    change (seq j (S (S m))) with (j :: seq (S j) (S m)). cbn [map daemon_run].
    rewrite Ht. cbn [res_bind]. apply IH; [lia | done|]. by rewrite (played_S j ev Hev).
Qed.

End daemon.

(** ** A sample scenario *)

Definition sample_plate_json : Json :=
  JObj [("text", JStr "KDA123A"); ("detection_conf", JFloat f_half); ("ocr_conf", JUint 1)]%string.
Definition sample_doc (loop : Z) : Json :=
  JObj [("loop", JUint loop);
        ("events", JArr [JObj [("offset_ms", JUint 0); ("plates", JArr [sample_plate_json])];
                         JObj [("offset_ms", JUint 1500)]])]%string.
#[local] Existing Instance plain_nlohmann.
Definition sample_source (loop : Z) : ScenarioSource :=
  match from_json (inr (sample_doc loop)) with Ok s => s | _ => mkSource [] 0 0 0 None end.


(** A loop count of 2^32 is accepted and plays nothing. *)
Example loop_count_truncated :
  loops_ (sample_source 4294967296) = 0 /\
  next 0 0 (sample_source 4294967296) = Ok (sample_source 4294967296, None).
Proof. vm_compute. done. Qed.

Definition sample_events : list ScenarioEvent := events_ (sample_source 2).
Definition sample_clock (j : nat) : Z * Z := (Z.of_nat j, 1000 + Z.of_nat j).

Lemma sample_in_range ev j :
  ev ∈ sample_events -> Z.of_nat j <= 1000 ->
  in_i64 (offset ev * ns_per_ms) = true /\
  in_i64 (Z.of_nat j + offset ev * ns_per_ms) = true.
Proof.
  intros Hev Hj. assert (Ho : offset ev = 0 \/ offset ev = 1500).
  { assert (Hf : Forall (fun e => offset e = 0 \/ offset e = 1500) sample_events)
      by (vm_compute; repeat constructor; auto).
    by eapply Forall_forall in Hf. }
  unfold in_i64, ns_per_ms. rewrite !andb_true_iff, !Z.leb_le, !Z.ltb_lt. lia.
Qed.

Definition still_clock (j : nat) : Z * Z := (7, 1000 + Z.of_nat j).

Lemma still_in_range ev j :
  ev ∈ sample_events ->
  in_i64 (offset ev * ns_per_ms) = true /\
  in_i64 ((still_clock j).1 + offset ev * ns_per_ms) = true.
Proof. intros Hev. apply (sample_in_range ev 7 Hev). lia. Qed.

Lemma replay_is_exact_witness :
  pulls still_clock 0 6 (sample_source 2) =
    Ok (source_at sample_events 2 still_clock 6,
        map (due_at sample_events 2 still_clock) (seq 0 6)) /\
  map (option_map fst) (map (due_at sample_events 2 still_clock) (seq 0 6))
    = [Some 7; Some 1500000007; Some 7; Some 1500000007; None; None].
Proof.
  split; [|vm_compute; reflexivity].
  refine (proj1 (replay_is_exact sample_events 2 still_clock _ _ _ 6)).
  - vm_compute. lia.
  - lia.
  - exact still_in_range.
Defined.

Definition flaky (n : nat) : Status * AuthDecision :=
  ((if (n <? 3)%nat then mkStatus UNAVAILABLE "down" else Status_OK), sample_decision).

Lemma submit_retries_unavailable_only_witness :
  exists r, submit ClientConfig_default flaky 9 = Ok r /\ sleeps r = [200; 400] /\
    outcome r = inr sample_decision.
Proof.
  destruct (submit_retries_unavailable_only ClientConfig_default flaky 9) as (k & r & Hr & _).
  - vm_compute. split; [discriminate | reflexivity].
  - vm_compute. discriminate.
  - vm_compute. reflexivity.
  - exists r. split; [exact Hr|]. vm_compute in Hr. injection Hr as <-. split; reflexivity.
Defined.

Lemma channel_matches_config_witness :
  make_credentials (fun p => Some (p +:+ "-pem")%string)
    (mkClient "s" "g" 1 1 1 "ca" "cert" "key")
  = Ok (SslChannel "ca-pem" (Some ("cert-pem", "key-pem")%string)) /\ "ca-pem"%string <> ""%string.
Proof.
  assert (H : make_credentials (fun p => Some (p +:+ "-pem")%string)
      (mkClient "s" "g" 1 1 1 "ca" "cert" "key")
    = Ok (SslChannel "ca-pem" (Some ("cert-pem", "key-pem")%string))) by (vm_compute; reflexivity).
  split; [exact H|].
  exact (proj1 (proj2 (channel_matches_config (fun p => Some (p +:+ "-pem")%string)
    (mkClient "s" "g" 1 1 1 "ca" "cert" "key") _ H))).
Defined.

