(* ===== verification/DashboardJson.v ===== *)
(** The presentation mapping of the dashboard backend
    (src/dashboard/backend/src/json_mapping.cpp): messages to JSON, and the
    allowlist entries and command kinds that come back from the browser.

    The enum names are those of gate_service.proto.  The jsoncpp accessors
    are the interface [JsonCpp] of Json.v. *)

From S2P Require Import Prelude Float32 ControlClient AllowlistStore FusionEngine.
From S2P Require Import EventBroadcaster Json.
From stdpp Require Import pretty.
Local Open Scope string_scope.
Local Open Scope list_scope.
Local Open Scope Z_scope.
Local Open Scope gate_scope.

(** ** Enum names *)

(** The generated [..._Name] functions: empty where the number has no name. *)
Definition GateState_Name (s : WireState) : string :=
  match s with
  | GATE_STATE_UNKNOWN => "GATE_STATE_UNKNOWN" | GATE_STATE_CLOSED => "GATE_STATE_CLOSED"
  | GATE_STATE_OPENING => "GATE_STATE_OPENING" | GATE_STATE_OPEN => "GATE_STATE_OPEN"
  | GATE_STATE_CLOSING => "GATE_STATE_CLOSING" | GATE_STATE_FAULT => "GATE_STATE_FAULT"
  | GATE_STATE_LOCKDOWN => "GATE_STATE_LOCKDOWN"
  end.
Definition GateState_number (s : WireState) : Z :=
  match s with
  | GATE_STATE_UNKNOWN => 0 | GATE_STATE_CLOSED => 1 | GATE_STATE_OPENING => 2
  | GATE_STATE_OPEN => 3 | GATE_STATE_CLOSING => 4 | GATE_STATE_FAULT => 5
  | GATE_STATE_LOCKDOWN => 6
  end.

Definition AuthVerdict_Name (v : AuthVerdict) : string :=
  match v with
  | VERDICT_UNSPECIFIED => "AUTH_VERDICT_UNSPECIFIED" | AUTHORIZED => "AUTH_VERDICT_AUTHORIZED"
  | DENIED => "AUTH_VERDICT_DENIED" | LOW_CONFIDENCE => "AUTH_VERDICT_LOW_CONFIDENCE"
  | MANUAL_REVIEW => "AUTH_VERDICT_MANUAL_REVIEW"
  end.
Definition AuthVerdict_number (v : AuthVerdict) : Z :=
  match v with
  | VERDICT_UNSPECIFIED => 0 | AUTHORIZED => 1 | DENIED => 2 | LOW_CONFIDENCE => 3
  | MANUAL_REVIEW => 4
  end.

Definition DenyReason_Name (r : DenyReason) : string :=
  match r with
  | DENY_NONE => "DENY_REASON_NONE" | BLOCKLISTED => "DENY_REASON_BLOCKLISTED"
  | NOT_ON_ALLOWLIST => "DENY_REASON_NOT_ON_ALLOWLIST"
  | OUTSIDE_WINDOW => "DENY_REASON_OUTSIDE_WINDOW" | FORCE_CLOSE => "DENY_REASON_FORCE_CLOSE"
  | LOW_ALPR_CONF => "DENY_REASON_LOW_ALPR_CONF" | LOW_LIDAR_CONF => "DENY_REASON_LOW_LIDAR_CONF"
  | CLASS_MISMATCH => "DENY_REASON_CLASS_MISMATCH" | NO_PLATE_FOUND => "DENY_REASON_NO_PLATE_FOUND"
  | DUPLICATE_ENTRY => "DENY_REASON_DUPLICATE_ENTRY"
  end.
Definition DenyReason_number (r : DenyReason) : Z :=
  match r with
  | DENY_NONE => 0 | BLOCKLISTED => 1 | NOT_ON_ALLOWLIST => 2 | OUTSIDE_WINDOW => 3
  | FORCE_CLOSE => 4 | LOW_ALPR_CONF => 5 | LOW_LIDAR_CONF => 6 | CLASS_MISMATCH => 7
  | NO_PLATE_FOUND => 8 | DUPLICATE_ENTRY => 9
  end.

(** Names by number, as an association list. *)
Fixpoint name_of (l : list (Z * string)) (n : Z) : string :=
  match l with [] => "" | (k, s) :: l => if k =? n then s else name_of l n end.
Fixpoint number_of (l : list (Z * string)) (s : string) : option Z :=
  match l with [] => None | (k, t) :: l => if String.eqb t s then Some k else number_of l s end.

Definition vehicle_classes : list (Z * string) :=
  [(0, "VEHICLE_CLASS_UNKNOWN"); (1, "VEHICLE_CLASS_PEDESTRIAN"); (2, "VEHICLE_CLASS_BICYCLE");
   (3, "VEHICLE_CLASS_MOTORCYCLE"); (4, "VEHICLE_CLASS_SEDAN"); (5, "VEHICLE_CLASS_SUV");
   (6, "VEHICLE_CLASS_PICKUP"); (7, "VEHICLE_CLASS_VAN"); (8, "VEHICLE_CLASS_TRUCK")].
Definition fault_severities : list (Z * string) :=
  [(0, "FAULT_SEVERITY_UNSPECIFIED"); (1, "FAULT_SEVERITY_INFO"); (2, "FAULT_SEVERITY_WARN");
   (3, "FAULT_SEVERITY_ERROR"); (4, "FAULT_SEVERITY_CRITICAL")].
Definition ota_phases : list (Z * string) :=
  [(0, "OTA_PHASE_UNKNOWN"); (1, "OTA_PHASE_DOWNLOADING"); (2, "OTA_PHASE_VERIFYING");
   (3, "OTA_PHASE_INSTALLING"); (4, "OTA_PHASE_REBOOTING"); (5, "OTA_PHASE_COMPLETE");
   (6, "OTA_PHASE_FAILED"); (7, "OTA_PHASE_ROLLED_BACK")].

(** The kinds that have a name. *)
Definition command_kinds : list (CommandKind * string) :=
  [(COMMAND_KIND_UNSPECIFIED, "COMMAND_KIND_UNSPECIFIED");
   (COMMAND_KIND_OPEN_GATE, "COMMAND_KIND_OPEN_GATE");
   (COMMAND_KIND_CLOSE_GATE, "COMMAND_KIND_CLOSE_GATE");
   (COMMAND_KIND_PULSE_RELAY, "COMMAND_KIND_PULSE_RELAY");
   (COMMAND_KIND_LATCH_OPEN, "COMMAND_KIND_LATCH_OPEN");
   (COMMAND_KIND_LATCH_CLOSE, "COMMAND_KIND_LATCH_CLOSE");
   (COMMAND_KIND_RELEASE_LATCH, "COMMAND_KIND_RELEASE_LATCH");
   (COMMAND_KIND_REBOOT, "COMMAND_KIND_REBOOT");
   (COMMAND_KIND_BEGIN_OTA, "COMMAND_KIND_BEGIN_OTA");
   (COMMAND_KIND_LED_PATTERN, "COMMAND_KIND_LED_PATTERN")].

#[export] Instance CommandKind_eq_dec : EqDecision CommandKind.
Proof. solve_decision. Defined.

Fixpoint kind_name (l : list (CommandKind * string)) (k : CommandKind) : string :=
  match l with [] => "" | (k', s) :: l => if decide (k' = k) then s else kind_name l k end.
Fixpoint kind_parse (l : list (CommandKind * string)) (s : string) : option CommandKind :=
  match l with [] => None | (k, t) :: l => if String.eqb t s then Some k else kind_parse l s end.

Definition CommandKind_Name : CommandKind -> string := kind_name command_kinds.
Definition CommandKind_Parse : string -> option CommandKind := kind_parse command_kinds.
Definition VehicleClass_Name : Z -> string := name_of vehicle_classes.
Definition VehicleClass_Parse : string -> option Z := number_of vehicle_classes.
Definition FaultSeverity_Name : Z -> string := name_of fault_severities.
Definition OtaPhase_Name : Z -> string := name_of ota_phases.

Definition CommandKind_number (k : CommandKind) : Z :=
  match k with
  | COMMAND_KIND_UNSPECIFIED => 0 | COMMAND_KIND_OPEN_GATE => 1 | COMMAND_KIND_CLOSE_GATE => 2
  | COMMAND_KIND_PULSE_RELAY => 3 | COMMAND_KIND_LATCH_OPEN => 4 | COMMAND_KIND_LATCH_CLOSE => 5
  | COMMAND_KIND_RELEASE_LATCH => 6 | COMMAND_KIND_REBOOT => 7 | COMMAND_KIND_BEGIN_OTA => 8
  | COMMAND_KIND_LED_PATTERN => 9 | COMMAND_KIND_OTHER n => n
  end.

(** [short_name]. *)
Definition short_name (full prefix : string) (raw : Z) : string :=
  if String.eqb full "" then pretty raw
  else if string_prefixb prefix full then string_drop (String.length prefix) full else full.

(** ** Timestamps *)

(** [gmtime_r]: the civil date of a day number counted from 1970-01-01. *)
Definition civil_from_days (days : Z) : Z * Z * Z :=
  let z := days + 719468 in
  let era := z / 146097 in
  let doe := z mod 146097 in
  let yoe := (doe - doe / 1460 + doe / 36524 - doe / 146096) / 365 in
  let doy := doe - (365 * yoe + yoe / 4 - yoe / 100) in
  let mp := (5 * doy + 2) / 153 in
  let d := doy - (153 * mp + 2) / 5 + 1 in
  let m := if mp <? 10 then mp + 3 else mp - 9 in
  (yoe + era * 400 + (if m <=? 2 then 1 else 0), m, d).

Definition pad2 (n : Z) : string := if n <? 10 then "0" +:+ pretty n else pretty n.

(** [printf("%03d")]. *)
Definition pad3d (n : Z) : string :=
  if n <? 0 then "-" +:+ (if - n <? 10 then "0" +:+ pretty (- n) else pretty (- n)) else pad3 n.

(** [iso8601_utc]; outside the years of an [int] the calendar is left zero. *)
Definition iso8601_utc (seconds nanos : Z) : string :=
  let '(y, m, d) := civil_from_days (seconds / 86400) in
  let tod := seconds mod 86400 in
  let date :=
    if (- 2 ^ 31 <=? y - 1900) && (y - 1900 <? 2 ^ 31)
    then pretty y +:+ "-" +:+ pad2 m +:+ "-" +:+ pad2 d +:+ "T" +:+ pad2 (tod / 3600) +:+ ":" +:+
         pad2 (tod mod 3600 / 60) +:+ ":" +:+ pad2 (tod mod 60)
    else "1900-01-00T00:00:00" in
  date +:+ "." +:+ pad3d (Z.quot nanos 1000000) +:+ "Z".

(** [to_json(Timestamp)], for times whose count of milliseconds fits 64
    bits. *)
Definition timestamp_json (ts : Timestamp) : Json :=
  JObj [("ts", JStr (iso8601_utc (ts_seconds ts) (ts_nanos ts)));
        ("tsMs", JInt (ts_seconds ts * 1000 + Z.quot (ts_nanos ts) 1000000))].

Definition seconds_json (s : Z) : Json := timestamp_json (mkTs s 0).

(** A member that is only written when the message has the field. *)
Definition optional {A} (key : string) (f : A -> Json) (o : option A) : list (string * Json) :=
  match o with Some a => [(key, f a)] | None => [] end.

(** ** Messages to JSON *)

(** [gate_state_name] and [verdict_name]. *)
Definition gate_state_name (s : WireState) : string :=
  short_name (GateState_Name s) "GATE_STATE_" (GateState_number s).
Definition verdict_name (v : AuthVerdict) : string :=
  short_name (AuthVerdict_Name v) "AUTH_VERDICT_" (AuthVerdict_number v).
Definition class_name (c : Z) : string := short_name (VehicleClass_Name c) "VEHICLE_CLASS_" c.

Definition jfloat (f : f32) : Json := JFloat (f64_of_f32 f).

Definition telemetry_json (m : TelemetryMsg) : Json :=
  let t := tm_base m in
  JObj ([("gateId", JStr (t_gate_id t))] ++ optional "sent" timestamp_json (t_sent_ts t) ++
        [("state", JStr (gate_state_name (t_gate_state t))); ("limitOpen", JBool (t_limit_open t));
         ("limitClosed", JBool (t_limit_closed t)); ("beamClear", JBool (t_safety_beam_clear t));
         ("uptimeSec", JUint (t_uptime_sec t)); ("rssiDbm", JInt (tm_rssi_dbm m));
         ("freeHeapBytes", JUint (t_free_heap_bytes t)); ("minFreeHeap", JUint (t_min_free_heap t));
         ("supplyVoltage", jfloat (tm_supply_voltage_v m)); ("coreTempC", jfloat (tm_core_temp_c m));
         ("fwVersion", JStr (t_firmware_version t)); ("seq", JUint (t_seq t))]).

Definition decision_json (d : AuthDecision) : Json :=
  JObj [("decisionId", JStr (decision_id d)); ("decided", seconds_json (decision_ts d));
        ("gateId", JStr (ad_gate_id d)); ("verdict", JStr (verdict_name (verdict d)));
        ("denyReason", JStr (short_name (DenyReason_Name (deny_reason d)) "DENY_REASON_"
                               (DenyReason_number (deny_reason d))));
        ("matchedPlate", JStr (matched_plate d)); ("matchedClass", JStr (class_name (matched_class d)));
        ("confidence", jfloat (combined_conf d)); ("reason", JStr (reason_text d));
        ("frameId", JUint (ad_frame_id d)); ("actor", JStr (ad_actor d))].

Definition fault_json (f : FaultEvent) : Json :=
  JObj ([("faultId", JStr (fault_id f))] ++ optional "occurred" timestamp_json (occurred_ts f) ++
        [("gateId", JStr (fe_gate_id f));
         ("severity", JStr (short_name (FaultSeverity_Name (severity f)) "FAULT_SEVERITY_" (severity f)));
         ("code", JStr (fault_code f)); ("description", JStr (fault_description f));
         ("context", JObj (map (fun p => (p.1, JStr p.2)) (map_to_list (fault_context f))))]).

Definition ota_json (p : OtaProgress) : Json :=
  JObj [("commandId", JStr (op_command_id p)); ("bytesReceived", JUint (bytes_received p));
        ("bytesTotal", JUint (bytes_total p));
        ("phase", JStr (short_name (OtaPhase_Name (ota_phase p)) "OTA_PHASE_" (ota_phase p)))].

Definition command_json (m : GateCommandMsg) : Json :=
  let c := cm_base m in
  JObj ([("commandId", JStr (command_id c))] ++ optional "issued" timestamp_json (cm_issued_ts m) ++
        [("gateId", JStr (cm_gate_id m));
         ("kind", JStr (short_name (CommandKind_Name (cmd_kind c)) "COMMAND_KIND_"
                          (CommandKind_number (cmd_kind c))));
         ("actor", JStr (cmd_actor c))]).

Definition ack_json (a : CommandAck) : Json :=
  JObj ([("commandId", JStr (ack_command_id a))] ++
        optional "received" timestamp_json (ack_received_ts a) ++
        optional "completedAt" timestamp_json (ack_completed_ts a) ++
        [("completed", JBool (ack_completed a)); ("success", JBool (ack_success a));
         ("error", JStr (ack_error_text a));
         ("stateAfter", JStr (gate_state_name (ack_state_after a)))]).

Definition window_json (w : TimeWindow) : Json :=
  JObj [("startMinute", JUint (start_minute_of_day w)); ("endMinute", JUint (end_minute_of_day w));
        ("daysMask", JUint (days_of_week_mask w))].

(** [to_json(Allowlistentry)]. *)
Definition entry_json (e : Allowlistentry) : Json :=
  JObj ([("plate", JStr (plate_text e));
         ("allowedClasses", JArr (map (fun c => JStr (class_name c)) (allowed_classes e)));
         ("timeWindows", JArr (map window_json (time_windows e)));
         ("ownerName", JStr (owner_name e)); ("ownerUnit", JStr (owner_unit e))] ++
        optional "validFrom" seconds_json (valid_from e) ++
        optional "validUntil" seconds_json (valid_until e) ++
        [("notes", JStr (notes e)); ("addedBy", JStr (added_by e))] ++
        optional "added" seconds_json (added_ts e)).

Definition page_json (p : Page) : Json :=
  JObj [("entries", JArr (map entry_json (entries p))); ("nextPageToken", JStr (next_token p))].

Definition stats_json (s : UpsertStats) : Json :=
  JObj [("inserted", JUint (inserted s)); ("updated", JUint (updated s))].

(** [to_json(DashboardEvent)]. *)
Definition event_json (ev : DashboardEvent) : Json :=
  JObj ([("eventId", JUint (event_id ev))] ++ optional "event" timestamp_json (event_ts ev) ++
        match payload ev with
        | kDecision d => [("type", JStr "decision"); ("decision", decision_json d)]
        | kTelemetry t => [("type", JStr "telemetry"); ("telemetry", telemetry_json t)]
        | kFault f => [("type", JStr "fault"); ("fault", fault_json f)]
        | kOta p => [("type", JStr "ota"); ("ota", ota_json p)]
        | kCommand c => [("type", JStr "command"); ("command", command_json c)]
        | kAck a => [("type", JStr "ack"); ("ack", ack_json a)]
        | PAYLOAD_NOT_SET => [("type", JStr "unknown")]
        end).

(** ** JSON to messages *)

Section from_json.
Context {JC : JsonCpp}.

(** What a reader of a request finds: [inl] is a false return with its
    error text. *)
Fixpoint classes_from_json (l : list Json) : string + list Z :=
  match l with
  | [] => inr []
  | JStr s :: l =>
      match VehicleClass_Parse ("VEHICLE_CLASS_" +:+ s) with
      | Some c => match classes_from_json l with inr cs => inr (c :: cs) | inl e => inl e end
      | None => inl "unknown vehicle class in 'allowedClasses'"
      end
  | _ :: _ => inl "unknown vehicle class in 'allowedClasses'"
  end.

Fixpoint windows_from_json (l : list Json) : Res (string + list TimeWindow) :=
  match l with
  | [] => Ok (inr [])
  | wv :: l =>
      do! sj := jindex wv "startMinute" in
      do! start := asUInt sj in
      do! ej := jindex wv "endMinute" in
      do! end_ := asUInt ej in
      if (1439 <? start) || (1439 <? end_)
      then Ok (inl "time window minutes must be 0..1439")
      else
        do! mj := jindex wv "daysMask" in
        do! mask := asUInt mj in
        do! rest := windows_from_json l in
        Ok (match rest with
            | inr ws => inr (mkWindow start end_ (Z.land mask 127) :: ws)
            | inl e => inl e
            end)
  end.

(** A [validFromMs] or [validUntilMs] member. *)
Definition ms_member (v : Json) (key : string) : Res (option Z) :=
  match jfind v key with
  | None => Ok None
  | Some j => do! ms := asInt64 j in Ok (Some (Z.quot ms 1000))
  end.

(** [allowlist_entry_from_json]. *)
Definition allowlist_entry_from_json (v : Json) : Res (string + Allowlistentry) :=
  let no_plate := Ok (inl "entry requires a non-empty string 'plate'") in
  if negb (is_object v) then no_plate
  else
    match jfind v "plate" with
    | Some (JStr (String c s)) =>
        do! classes :=
          match jfind v "allowedClasses" with
          | None => Ok (inr [])
          | Some (JArr l) => Ok (classes_from_json l)
          | Some _ => Ok (inl "'allowedClasses' must be an array of class names")
          end in
        match classes with
        | inl e => Ok (inl e)
        | inr cs =>
            do! windows :=
              match jfind v "timeWindows" with
              | None => Ok (inr [])
              | Some (JArr l) => windows_from_json l
              | Some _ => Ok (inl "'timeWindows' must be an array")
              end in
            match windows with
            | inl e => Ok (inl e)
            | inr ws =>
                do! owner := asString (get_or_empty v "ownerName") in
                do! unit_ := asString (get_or_empty v "ownerUnit") in
                do! note := asString (get_or_empty v "notes") in
                do! from := ms_member v "validFromMs" in
                do! until := ms_member v "validUntilMs" in
                Ok (inr (mkEntry (String c s) owner unit_ cs from until ws note "" None))
            end
        end
    | _ => no_plate
    end.
End from_json.

(** [command_kind_from_string]. *)
Definition command_kind_from_string (s : string) : option CommandKind :=
  match CommandKind_Parse ("COMMAND_KIND_" +:+ s) with
  | Some COMMAND_KIND_UNSPECIFIED | None => None
  | Some k => Some k
  end.

(** ** Examples *)

Example iso_epoch : iso8601_utc 0 0 = "1970-01-01T00:00:00.000Z".
Proof. vm_compute. reflexivity. Qed.

Example iso_leap_day : iso8601_utc 1709251199 987654321 = "2024-02-29T23:59:59.987Z".
Proof. vm_compute. reflexivity. Qed.

Example iso_before_epoch : iso8601_utc (-1) 0 = "1969-12-31T23:59:59.000Z".
Proof. vm_compute. reflexivity. Qed.

(** ** Round trips *)

Lemma sapp_inj (p a b : string) : p +:+ a = p +:+ b -> a = b.
Proof.
  induction p as [|c p IH]; [done|].
  change (String c (p +:+ a) = String c (p +:+ b) -> a = b). intros [= H]. by apply IH.
Qed.

(** The names of the command kinds are read back, and nothing else is. *)
Definition kind_text (k : CommandKind) : string :=
  short_name (CommandKind_Name k) "COMMAND_KIND_" (CommandKind_number k).

Definition nameable (k : CommandKind) : bool :=
  match k with COMMAND_KIND_UNSPECIFIED | COMMAND_KIND_OTHER _ => false | _ => true end.

Lemma kind_parse_name k :
  nameable k = true -> CommandKind_Name k = "COMMAND_KIND_" +:+ kind_text k /\
  CommandKind_Parse (CommandKind_Name k) = Some k.
Proof. by destruct k. Qed.

Lemma kind_parse_some l s k :
  kind_parse l s = Some k -> (k, s) ∈ l.
Proof.
  induction l as [|[k' t] l IH]; intros H; cbn [kind_parse] in H; [done|].
  destruct (String.eqb_spec t s); simplify_eq; set_solver.
Qed.

(** The texts the command endpoint accepts. *)
Lemma command_kind_texts s k :
  command_kind_from_string s = Some k <-> nameable k = true /\ s = kind_text k.
Proof.
  unfold command_kind_from_string. split.
  - intros H. destruct (CommandKind_Parse _) as [k'|] eqn:E; [|done].
    assert (k' = k) as -> by (destruct k'; by simplify_eq).
    apply kind_parse_some in E.
    assert (Hn : nameable k = true).
    { unfold command_kinds in E. repeat (apply elem_of_cons in E as [E|E]; [by simplify_eq|]).
      by apply elem_of_nil in E. }
    split; [done|]. destruct (kind_parse_name k Hn) as [Hk _].
    apply (sapp_inj "COMMAND_KIND_"). rewrite <- Hk. unfold command_kinds in E.
    repeat (apply elem_of_cons in E as [E|E]; [by simplify_eq|]). by apply elem_of_nil in E.
  - intros [Hn ->]. destruct (kind_parse_name k Hn) as [<- ->]. by destruct k.
Qed.

(** Command names are exact.  The text of a command kind in an event is
    read back as that kind by the command endpoint; a text the endpoint
    accepts is the name of exactly one kind, and never the unspecified
    one. *)
Theorem command_kind_round_trip s k :
  command_kind_from_string s = Some k <-> nameable k = true /\ s = kind_text k.
Proof. exact (command_kind_texts s k). Qed.

Section round_trip.
Context {JC : JsonCpp}.

Lemma class_name_parse c : 0 <= c <= 8 -> VehicleClass_Parse ("VEHICLE_CLASS_" +:+ class_name c) = Some c.
Proof.
  intros H. assert (c = 0 \/ c = 1 \/ c = 2 \/ c = 3 \/ c = 4 \/ c = 5 \/ c = 6 \/ c = 7 \/ c = 8)
    as Hc by lia. by repeat destruct Hc as [-> | Hc]; [..|subst].
Qed.

Lemma classes_round_trip cs :
  Forall (fun c => 0 <= c <= 8) cs ->
  classes_from_json (map (fun c => JStr (class_name c)) cs) = inr cs.
Proof.
  induction 1 as [|c cs Hc Hcs IH]; [done|]. cbn [map classes_from_json].
  by rewrite class_name_parse, IH.
Qed.

Definition window_ok (w : TimeWindow) : Prop :=
  0 <= start_minute_of_day w <= 1439 /\ 0 <= end_minute_of_day w <= 1439 /\
  0 <= days_of_week_mask w < 128.

Lemma windows_round_trip ws :
  Forall window_ok ws -> windows_from_json (map window_json ws) = Ok (inr ws).
Proof.
  induction 1 as [|[st en mask] ws (Hs & He & Hm) Hws IH]; [done|].
  cbn [start_minute_of_day end_minute_of_day days_of_week_mask] in *.
  cbn [map windows_from_json].
  change (jindex _ "startMinute") with (Ok (JUint st)).
  change (jindex _ "endMinute") with (Ok (JUint en)).
  change (jindex _ "daysMask") with (Ok (JUint mask)).
  cbn [res_bind]. rewrite !asUInt_uint by lia. cbn [res_bind].
  destruct (Z.ltb_spec 1439 st); [lia|]. destruct (Z.ltb_spec 1439 en); [lia|]. cbn [orb].
  rewrite IH. cbn [res_bind].
  change 127 with (Z.ones 7). rewrite Z.land_ones by lia. by rewrite Z.mod_small.
Qed.

(** What survives an edit in the browser.  Posting back an entry as it
    was listed restores its plate, owner, unit, classes, time windows and
    notes; its validity interval and its author do not come back. *)
Theorem allowlist_json_round_trip e
    (Hp : plate_text e <> "") (Hc : Forall (fun c => 0 <= c <= 8) (allowed_classes e))
    (Hw : Forall window_ok (time_windows e)) :
  allowlist_entry_from_json (entry_json e) =
    Ok (inr (mkEntry (plate_text e) (owner_name e) (owner_unit e) (allowed_classes e)
               None None (time_windows e) (notes e) "" None)).
Proof.
  destruct e as [plate owner unit_ cs from until ws note by_ ts]. cbn [plate_text owner_name
    owner_unit allowed_classes time_windows notes valid_from valid_until added_by added_ts] in *.
  destruct plate as [|c plate]; [done|].
  unfold allowlist_entry_from_json, get_or_empty, ms_member.
  destruct from, until, ts; cbn; rewrite classes_round_trip by done; cbn [res_bind];
    rewrite windows_round_trip by done; cbn [res_bind]; by rewrite !asString_string.
Qed.
End round_trip.

Lemma allowlist_json_round_trip_witness :
  exists e, @allowlist_entry_from_json plain_jsoncpp (entry_json sample_entry) = Ok (inr e) /\
    valid_from sample_entry <> None /\ valid_from e = None.
Proof.
  eexists. split; [apply (@allowlist_json_round_trip plain_jsoncpp sample_entry)|].
  - discriminate.
  - repeat constructor; vm_compute; discriminate.
  - repeat constructor; vm_compute; discriminate.
  - split; [discriminate | reflexivity].
Defined.
