(* ===== verification/Http.v ===== *)
(** The HTTP vocabulary of the dashboard backend: requests and responses of
    Drogon as the controllers see them, the shared helpers of
    src/dashboard/backend/src/controllers/grpc_http.hpp, and the C text
    conversions the backend's sources call ([std::stoul], [sscanf] with
    [%2x]). *)

From S2P Require Import Prelude Ota ControlClient Grpc Json.
From Stdlib Require Import Ascii.
From stdpp Require Import pretty.
Local Open Scope Z_scope.

(** ** Requests and responses *)

(** A request, reduced to what a handler reads: the [authorization] header
    and the query parameters (empty where absent), and the body when it is
    JSON. *)
Record HttpRequest := mkReq {
  rq_authorization : string; rq_params : list (string * string); rq_json : option Json;
}.

Fixpoint getParameter (l : list (string * string)) (key : string) : string :=
  match l with
  | [] => ""%string
  | (k, v) :: l => if String.eqb k key then v else getParameter l key
  end.

Record HttpResponse := mkResp { rs_status : Z; rs_body : Json }.

(** [newHttpJsonResponse]. *)
Definition newHttpJsonResponse (j : Json) : HttpResponse := mkResp 200 j.

(** [json_error]. *)
Definition json_error (status : Z) (message : string) : HttpResponse :=
  mkResp status (JObj [("error"%string, JStr message)]).

(** [http_status]. *)
Definition http_status (c : StatusCode) : Z :=
  match c with
  | OK => 200
  | INVALID_ARGUMENT => 400
  | NOT_FOUND => 404
  | ALREADY_EXISTS => 409
  | PERMISSION_DENIED | UNAUTHENTICATED => 403
  | DEADLINE_EXCEEDED => 504
  | UNAVAILABLE => 503
  | UNIMPLEMENTED => 501
  | _ => 502
  end.

Lemma http_status_ok c : http_status c = 200 <-> c = OK.
Proof. destruct c; cbn; split; congruence. Qed.

(** ** C text conversions *)

(** [isspace] in the C locale. *)
Definition is_space (c : Ascii.ascii) : bool :=
  (code c =? 32) || ((9 <=? code c) && (code c <=? 13)).

Fixpoint skip_space (s : string) : string :=
  match s with
  | String c r => if is_space c then skip_space r else s
  | EmptyString => EmptyString
  end.

Definition is_digit (c : Ascii.ascii) : bool :=
  (code "0"%char <=? code c) && (code c <=? code "9"%char).

(** A sign, if the text starts with one: true is a minus. *)
Definition take_sign (s : string) : bool * string :=
  match s with
  | String c r =>
      if Ascii.eqb c "-"%char then (true, r) else if Ascii.eqb c "+"%char then (false, r)
      else (false, s)
  | EmptyString => (false, s)
  end.

(** [std::stoul], base 10, with a 64-bit [unsigned long]: [strtoul] negates
    modulo the width; no digits and a value that does not fit throw. *)
Definition stoul (s : string) : Res Z :=
  let '(neg, t) := take_sign (skip_space s) in
  match t with
  | String c _ =>
      if is_digit c
      then
        let v := atoi_digits 0 t in
        if v <? 2 ^ 64 then Ok (if neg then u64 (- v) else v) else Err "stoul: out of range"
      else Err "stoul: no conversion"
  | EmptyString => Err "stoul: no conversion"
  end.

(** [sscanf(s, "%2x", &v)] of glibc: white space does not count towards the
    width, a sign and a [0x] prefix do; [None] is a result other than 1. *)
Definition scan_2x (s : string) : option Z :=
  match skip_space s with
  | EmptyString => None
  | String c r =>
      if Ascii.eqb c "-"%char || Ascii.eqb c "+"%char
      then
        match r with
        | String d _ =>
            if hex_nibble d <? 0 then None
            else Some (if Ascii.eqb c "-"%char then u32 (- hex_nibble d) else hex_nibble d)
        | EmptyString => None
        end
      else if hex_nibble c <? 0 then None
      else
        match r with
        | String d _ =>
            if hex_nibble d <? 0 then Some (hex_nibble c)
            else Some (hex_nibble c * 16 + hex_nibble d)
        | EmptyString => Some (hex_nibble c)
        end
  end.

(** The decimal text of a number is read back. *)

Lemma pretty_N_char_digit x :
  (x < 10)%N -> is_digit (pretty_N_char x) = true /\ code (pretty_N_char x) = 48 + Z.of_N x.
Proof.
  intros H. replace x with (N.of_nat (N.to_nat x)) by lia.
  assert (Hn : (N.to_nat x < 10)%nat) by lia. revert Hn. generalize (N.to_nat x). clear.
  intros n Hn. do 10 (destruct n as [|n]; [done|]). lia.
Qed.

Lemma atoi_digits_pretty x s : atoi_digits 0 (pretty_N_go x s) = atoi_digits (Z.of_N x) s.
Proof.
  revert s. induction (N.lt_wf_0 x) as [x _ IH]; intros s.
  destruct (decide (x = 0%N)) as [->|Hx]; [by rewrite pretty_N_go_0|].
  rewrite pretty_N_go_step by lia. rewrite IH by (apply N.div_lt; lia).
  cbn [atoi_digits].
  destruct (pretty_N_char_digit (x mod 10)) as [Hd Hc]; [by apply N.mod_lt|].
  unfold is_digit in Hd. rewrite Hd, Hc. f_equal.
  rewrite N2Z.inj_div, N2Z.inj_mod. change (Z.of_N 10) with 10. change (code "0") with 48.
  pose proof (Z.div_mod (Z.of_N x) 10 ltac:(lia)). lia.
Qed.

Fixpoint all_digits (s : string) : bool :=
  match s with String c s => is_digit c && all_digits s | EmptyString => true end.

Lemma pretty_go_all_digits x s : all_digits s = true -> all_digits (pretty_N_go x s) = true.
Proof.
  revert s. induction (N.lt_wf_0 x) as [x _ IH]; intros s Hs.
  destruct (decide (x = 0%N)) as [->|Hx]; [by rewrite pretty_N_go_0|].
  rewrite pretty_N_go_step by lia. apply IH; [apply N.div_lt; lia|]. cbn [all_digits].
  by destruct (pretty_N_char_digit (x mod 10)) as [-> _]; [apply N.mod_lt|].
Qed.

Lemma pretty_digits n : 0 <= n ->
  all_digits (pretty n) = true /\ atoi_digits 0 (pretty n) = n /\ pretty n <> ""%string.
Proof.
  intros Hn. destruct n as [|p|p]; [done| |lia].
  change (pretty (Zpos p)) with (pretty (Npos p)). unfold pretty, pretty_N.
  rewrite decide_False by done. split; [by apply pretty_go_all_digits|].
  assert (Hv : atoi_digits 0 (pretty_N_go (Npos p) "") = Zpos p) by by rewrite atoi_digits_pretty.
  split; [done|]. intros E. by rewrite E in Hv.
Qed.

Lemma stoul_pretty n : 0 <= n < 2 ^ 64 -> stoul (pretty n) = Ok n.
Proof.
  intros [H0 H]. destruct (pretty_digits n H0) as (Hd & Hv & Hne). unfold stoul.
  destruct (pretty n) as [|c s]; [done|]. cbn [all_digits] in Hd.
  apply andb_true_iff in Hd as [Hc Hs].
  assert (Hsp : is_space c = false /\ Ascii.eqb c "-" = false /\ Ascii.eqb c "+" = false)
    by (clear - Hc; destruct c as [[] [] [] [] [] [] [] []]; done).
  destruct Hsp as (Hsp & Hm & Hp).
  cbn [skip_space]. rewrite Hsp. cbn [take_sign]. rewrite Hm, Hp, Hc, Hv.
  destruct (Z.ltb_spec n (2 ^ 64)); [done|lia].
Qed.

(** Two lowercase digits are scanned as their byte. *)
Lemma scan_2x_digits b s :
  0 <= b < 256 -> scan_2x (String (hex_digit (b / 16)) (String (hex_digit (b mod 16)) s)) = Some b.
Proof.
  intros Hb.
  assert (Hq : 0 <= b / 16 < 16) by (split; [apply Z.div_pos|apply Z.div_lt_upper_bound]; lia).
  assert (Hr : 0 <= b mod 16 < 16) by (apply Z.mod_pos_bound; lia).
  assert (Hdig : forall k, 0 <= k < 16 -> hex_nibble (hex_digit k) = k /\
    is_space (hex_digit k) = false /\ Ascii.eqb (hex_digit k) "-" = false /\
    Ascii.eqb (hex_digit k) "+" = false).
  { intros k Hk%nibble_cases.
    repeat (apply elem_of_cons in Hk as [-> | Hk]; [done|]). by apply elem_of_nil in Hk. }
  destruct (Hdig _ Hq) as (H1 & H2 & H3 & H4). destruct (Hdig _ Hr) as (H5 & _).
  unfold scan_2x. cbn [skip_space]. rewrite H2, H3, H4, H1, H5. cbn [orb].
  destruct (Z.ltb_spec (b / 16) 0); [lia|]. destruct (Z.ltb_spec (b mod 16) 0); [lia|].
  f_equal. pose proof (Z.div_mod b 16 ltac:(lia)). lia.
Qed.

Example scan_sloppy : scan_2x " -1" = Some (2 ^ 32 - 1) /\ scan_2x "0x" = Some 0 /\ scan_2x "g0" = None.
Proof. by vm_compute. Qed.

Example stoul_negative : stoul "-1" = Ok (2 ^ 64 - 1) /\ stoul "12ab" = Ok 12.
Proof. by vm_compute. Qed.
