(* ===== verification/Camera.v ===== *)
(** The camera source of the detection daemon
    (src/server/vision/src/camera_source.cpp): opening, pacing, the retry
    budget of the capture and the conversion of the pipeline's readings
    (Inference.v) into observations (Vision.v).

    The capture, the engine loading and the networks are arguments: whether
    each grab succeeds, and what the tensors of the grabbed frame hold. *)

From S2P Require Import Prelude Float32 ControlClient AllowlistStore FusionEngine Http Grpc.
From S2P Require Import Inference Vision.
Local Open Scope Z_scope.
Local Open Scope gate_scope.

(** [static_cast<std::uint32_t>(std::max(0.0f, v))] for a rounded [v]: NaN
    and negative values give 0, what does not fit is undefined. *)
Definition to_u32 (round : f32 -> option Z) (v : f32) : Res Z :=
  if is_nan v then Ok 0
  else
    match round v with
    | Some z => if Z.max 0 z <? 2 ^ 32 then Ok (Z.max 0 z) else UB
    | None => if flt v f_zero then Ok 0 else UB
    end.

(** [to_pixel_box]. *)
Definition to_pixel_box (r : Rect2f) : Res PixelBox :=
  do! x := to_u32 f_floor (rx r) in
  do! y := to_u32 f_floor (ry r) in
  do! w := to_u32 f_ceil (rw r) in
  do! h := to_u32 f_ceil (rh r) in
  Ok (mkPixelBox x y w h).

(** [CameraSource::Config]. *)
Record CameraConfig := mkCameraConfig {
  cam_uri : string; cam_detector : DetectorConfig; cam_recognizer : Recognizer;
  cam_pipeline : PipelineConfig; frame_interval_ms : Z; read_retries : Z; max_frames : Z;
}.

(** The members; [next_due] is in nanoseconds of the steady clock, 0 before
    the first frame. *)
Record CameraSource := mkCamera { cam_cfg : CameraConfig; frames_emitted : Z; next_due : Z }.

(** [CameraSource::open]: [opens] is the capture by index or by URI, [load]
    an exception of the engine loader. *)
Definition camera_open (opens : Z + string -> bool) (load : option string) (cfg : CameraConfig)
    : Res CameraSource :=
  if String.eqb (cam_uri cfg) "" then Err "camera_source: uri is required"
  else
    do! opened :=
      (if all_digits (cam_uri cfg)
       then
         let n := atoi_digits 0 (cam_uri cfg) in
         if n <? 2 ^ 31 then Ok (opens (inl n)) else Err "stoi: out of range"
       else Ok (opens (inr (cam_uri cfg)))) in
    if negb opened then Err ("camera_source: cannot open capture: " +:+ cam_uri cfg)
    else match load with
         | Some e => Err e
         | None => Ok (mkCamera cfg 0 0)
         end.

(** The grab loop: [n] more failures are allowed; the frame is the number of
    the grab that succeeded.  ([read_retries] below the largest [uint32].) *)
Fixpoint grab_loop (grab : nat -> bool) (n i : nat) : option nat :=
  if grab i then Some i
  else match n with O => None | S n => grab_loop grab n (S i) end.

(** The frame a grab delivers, as the pipeline sees it. *)
Record Capture := mkCapture {
  fr_cols : Z; fr_rows : Z; fr_type_ok : bool; fr_raw : RawDetections; fr_ocr : Rect -> list f32;
}.

(** One reading: empty texts are skipped. *)
Fixpoint to_observations (rs : list PlateReading) : Res (list PlateObservation) :=
  match rs with
  | [] => Ok []
  | r :: rs =>
      if String.eqb (pr_text r) "" then to_observations rs
      else
        do! box := to_pixel_box (pr_box r) in
        do! rest := to_observations rs in
        Ok (mkPlateObs (pr_text r) (detection_score r) (ocr_score r) box "" "" :: rest)
  end.

(** [CameraSource::next]: the time it sleeps until, if it does, and the
    observations. *)
Definition camera_next (now wall : Z) (grab : nat -> bool) (frame : nat -> Capture) (s : CameraSource)
    : Res (CameraSource * option (option Z * ObservationSet)) :=
  let cfg := cam_cfg s in
  if negb (max_frames cfg =? 0) && (max_frames cfg <=? frames_emitted s) then Ok (s, None)
  else
    let due := if next_due s =? 0 then now else next_due s in
    let sleep := if now <? due then Some due else None in
    let s := mkCamera cfg (frames_emitted s) (due + frame_interval_ms cfg * 10 ^ 6) in
    match grab_loop grab (Z.to_nat (read_retries cfg)) 0 with
    | None => Ok (s, None)
    | Some i =>
        let f := frame i in
        match process (cam_detector cfg) (cam_recognizer cfg) (cam_pipeline cfg) (fr_cols f)
                (fr_rows f) (fr_type_ok f) (fr_raw f) (fr_ocr f) with
        | None => UB
        | Some (inl e) => Err e
        | Some (inr readings) =>
            do! plates := to_observations readings in
            Ok (mkCamera cfg (u64 (frames_emitted s + 1)) (next_due s),
                Some (sleep, mkObs wall plates []))
        end
    end.

(** ** Lemmas *)

Lemma to_u32_range round v z : to_u32 round v = Ok z -> 0 <= z < 2 ^ 32.
Proof.
  unfold to_u32. destruct (is_nan v); [intros [= <-]; lia|].
  destruct (round v) as [k|]; [|destruct (flt v f_zero); [intros [= <-]; lia|done]].
  destruct (Z.ltb_spec (Z.max 0 k) (2 ^ 32)); [intros [= <-]; lia|done].
Qed.

Lemma grab_loop_spec grab n i k :
  grab_loop grab n i = Some k <->
  (i <= k <= i + n)%nat /\ grab k = true /\ forall j, (i <= j < k)%nat -> grab j = false.
Proof.
  revert i. induction n as [|n IH]; intros i; cbn [grab_loop]; destruct (grab i) eqn:E.
  - split; [intros [= <-]; split_and!; [lia|lia|done|intros; lia]|].
    intros (H & Hk & Hj). f_equal. lia.
  - split; [done|]. intros (H & Hk & Hj). assert (k = i) as -> by lia. congruence.
  - split; [intros [= <-]; split_and!; [lia|lia|done|intros; lia]|].
    intros (H & Hk & Hj). destruct (decide (k = i)) as [->|]; [done|].
    rewrite Hj in E by lia. done.
  - rewrite IH. split; intros (H & Hk & Hj); split_and!; try lia; try done.
    + intros j Hj0. destruct (decide (j = i)) as [->|]; [done|]. apply Hj. lia.
    + destruct (decide (k = i)) as [->|]; [congruence|lia].
    + intros j Hj0. apply Hj. lia.
Qed.

Lemma grab_loop_none grab n i :
  grab_loop grab n i = None -> forall j, (i <= j <= i + n)%nat -> grab j = false.
Proof.
  revert i. induction n as [|n IH]; intros i; cbn [grab_loop]; destruct (grab i) eqn:E; try done;
    intros H j Hj; destruct (decide (j = i)) as [->|]; try done; [lia|]. apply (IH (S i)); [done|lia].
Qed.

(** The reading an observation was made of. *)
Definition observed (r : PlateReading) (p : PlateObservation) : Prop :=
  po_text p = pr_text r /\ po_text p <> ""%string /\ po_detection_conf p = detection_score r /\
  po_ocr_conf p = ocr_score r /\ to_pixel_box (pr_box r) = Ok (po_box p).

Lemma to_observations_ok rs ps :
  to_observations rs = Ok ps ->
  Forall2 observed (base.filter (fun r => pr_text r <> ""%string) rs) ps.
Proof.
  revert ps. induction rs as [|r rs IH]; intros ps H; cbn [to_observations] in H;
    [injection H as <-; constructor|].
  rewrite filter_cons. destruct (String.eqb_spec (pr_text r) "") as [E|E].
  - rewrite decide_False by (intros Hn; done). by apply IH.
  - rewrite decide_True by done. apply res_bind_Ok in H as (box & Hb & H).
    apply res_bind_Ok in H as (rest & Hr & H). injection H as <-.
    constructor; [by split_and!|by apply IH].
Qed.

(** The camera reports what it read.  A call that delivers observations
    used the first grab that succeeded within the retry budget and carries,
    in the pipeline's order, exactly the readings with a text, their scores
    unchanged and their boxes in 32-bit pixels; the schedule advances by one
    interval from the previous due time, and a frame limit is never
    exceeded.  A call that delivers nothing has reached the limit or used up
    its retries. *)
Theorem camera_reports_readings now wall grab frame s s' o
    (Hx : camera_next now wall grab frame s = Ok (s', o))
    (Hn : 0 <= frames_emitted s < 2 ^ 64 - 1) (Hr : 0 <= read_retries (cam_cfg s) < 2 ^ 32 - 1) :
  match o with
  | Some (sleep, obs) =>
      (exists i readings, (Z.of_nat i <= read_retries (cam_cfg s)) /\ grab i = true /\
         (forall j, (j < i)%nat -> grab j = false) /\
         process (cam_detector (cam_cfg s)) (cam_recognizer (cam_cfg s)) (cam_pipeline (cam_cfg s))
           (fr_cols (frame i)) (fr_rows (frame i)) (fr_type_ok (frame i)) (fr_raw (frame i))
           (fr_ocr (frame i)) = Some (inr readings) /\
         Forall2 observed (base.filter (fun r => pr_text r <> ""%string) readings) (obs_plates obs)) /\
      obs_vehicles obs = [] /\ capture_ts obs = wall /\
      frames_emitted s' = frames_emitted s + 1 /\
      (max_frames (cam_cfg s) <> 0 -> frames_emitted s' <= max_frames (cam_cfg s)) /\
      next_due s' = (if next_due s =? 0 then now else next_due s)
                    + frame_interval_ms (cam_cfg s) * 10 ^ 6 /\
      (forall t, sleep = Some t -> t = next_due s /\ now < t)
  | None =>
      frames_emitted s' = frames_emitted s /\
      ((max_frames (cam_cfg s) <> 0 /\ max_frames (cam_cfg s) <= frames_emitted s) \/
       (forall i, Z.of_nat i <= read_retries (cam_cfg s) -> grab i = false))
  end.
Proof.
  unfold camera_next in Hx.
  destruct (negb (max_frames (cam_cfg s) =? 0) && (max_frames (cam_cfg s) <=? frames_emitted s)) eqn:Hlim.
  { injection Hx as <- <-. split; [done|]. left. apply andb_true_iff in Hlim as [H1 H2].
    apply negb_true_iff, Z.eqb_neq in H1. apply Z.leb_le in H2. done. }
  destruct (grab_loop grab (Z.to_nat (read_retries (cam_cfg s))) 0) as [i|] eqn:Hg.
  - apply grab_loop_spec in Hg as (Hi & Hgi & Hgj).
    destruct (process _ _ _ _ _ _ _ _) as [[e|readings]|] eqn:Hp; [done| |done].
    apply res_bind_Ok in Hx as (plates & Hpl & Hx). injection Hx as <- <-.
    cbn [frames_emitted next_due obs_vehicles obs_plates capture_ts]. rewrite u64_small by lia.
    split_and!; try done.
    + exists i, readings. split_and!; [lia|done|intros j Hj; apply Hgj; lia|done|by apply to_observations_ok].
    + intros H0. apply andb_false_iff in Hlim as [Hlim|Hlim].
      * apply negb_false_iff, Z.eqb_eq in Hlim. done.
      * apply Z.leb_gt in Hlim. lia.
    + intros t. destruct (Z.eqb_spec (next_due s) 0).
      * by rewrite Z.ltb_irrefl.
      * destruct (Z.ltb_spec now (next_due s)); [|done]. intros [= <-]. done.
  - injection Hx as <- <-. split; [done|]. right. intros i Hi.
    apply (grab_loop_none _ _ _ Hg). lia.
Qed.

(** ** The daemon on a camera *)

Record CameraDaemon := mkCamDaemon {
  cd_source : CameraSource; cd_builder : FrameBuilder; cd_frames : list FrameMsg;
}.

(** One turn of the loop of gate-vision: true where the loop goes on. *)
Definition camera_turn (cfg : ClientConfig) (shutdown : bool) (now wall : Z) (grab : nat -> bool)
    (frame : nat -> Capture) (rpc : nat -> Status * AuthDecision) (d : CameraDaemon)
    : Res (CameraDaemon * bool) :=
  if shutdown then Ok (d, false)
  else
    do! (src, o) := camera_next now wall grab frame (cd_source d) in
    match o with
    | None => Ok (mkCamDaemon src (cd_builder d) (cd_frames d), false)
    | Some (_, obs) =>
        if bool_decide (obs_plates obs = []) && bool_decide (obs_vehicles obs = [])
        then Ok (mkCamDaemon src (cd_builder d) (cd_frames d), true)
        else
          let '(frame, b) := build obs (cd_builder d) in
          do! r := submit cfg rpc (fm_frame_id frame) in
          match outcome r with
          | inl err => Err err
          | inr _ => Ok (mkCamDaemon src b (cd_frames d ++ [frame]), true)
          end
    end.

(** What [main] returns when the loop has ended: 1 for an exception. *)
Definition exit_status (r : Res (CameraDaemon * bool)) : option Z :=
  match r with
  | Ok (_, false) => Some 0
  | Err _ => Some 1
  | _ => None
  end.

(** A camera that goes dark makes the daemon exit with 0, so that a
    supervisor that restarts on failure does not restart it. *)
Theorem dead_camera_exits_cleanly cfg now wall frame rpc d :
  exit_status (camera_turn cfg false now wall (fun _ => false) frame rpc d) = Some 0.
Proof.
  unfold camera_turn. cbn [camera_next]. unfold camera_next. destruct (_ && _); [done|].
  assert (Hg : forall n i, grab_loop (fun _ => false) n i = None) by (induction n; intros; done || apply IHn).
  by rewrite Hg.
Qed.

(** The best possible reading of an allowed plate, with no LiDAR: below the
    threshold of the default configuration. *)
Definition perfect_frame : DetectionFrame :=
  frame_of (build (mkObs 0 [mkPlateObs "KDA123A" f_one f_one PixelBox_zero "" ""] [])
              (FrameBuilder_new "g")).1.

Example plate_alone_is_never_enough :
  option_map verdict
    (match decide_at plain_engine sample_store "id" (mkRequest perfect_frame "s" false "auto") 200
             wednesday with inr d => Some d | inl _ => None end) = Some LOW_CONFIDENCE.
Proof. vm_compute. reflexivity. Qed.

Definition sample_camera : CameraSource :=
  mkCamera (mkCameraConfig "0" sample_detector sample_recognizer sample_pipeline 200 25 0) 0 0.
Definition sample_capture : Capture :=
  mkCapture 640 480 true sample_raw (fun _ => concat sample_rows).

Lemma camera_reports_readings_witness :
  exists s' obs, camera_next 5000 7 (fun i => (i =? 3)%nat) (fun _ => sample_capture) sample_camera
      = Ok (s', Some (None, obs)) /\
    map po_text (obs_plates obs) = ["778"; "778"]%string /\ next_due s' = 200005000.
Proof.
  destruct (camera_next 5000 7 (fun i => (i =? 3)%nat) (fun _ => sample_capture) sample_camera)
    as [[s' [[sl obs]|]]| |] eqn:E; [|vm_compute in E; discriminate..].
  pose proof (camera_reports_readings 5000 7 (fun i => (i =? 3)%nat) (fun _ => sample_capture)
    sample_camera s' _ E) as H.
  destruct H as (_ & _ & _ & _ & _ & Hd & _); [cbn; lia | cbn; lia |].
  exists s', obs. vm_compute in E. injection E as <- <- <-.
  split; [reflexivity|]. split; [reflexivity|]. exact Hd.
Defined.
