(* ===== verification/DashboardAuth.v ===== *)
(** Admin authentication of the dashboard backend
    (src/dashboard/backend/src/auth.cpp and the controllers
    auth_controller.cpp and auth_filter.cpp).

    PBKDF2 and the JWT library are the interface [AuthCrypto].  Times are
    nanoseconds of the system clock. *)

From S2P Require Import Prelude Ota ControlClient Grpc Json Http.
From stdpp Require Import pretty.
Local Open Scope string_scope.
Local Open Scope list_scope.
Local Open Scope Z_scope.
Local Open Scope gate_scope.

(** ** The libraries *)

(** The registered claims of a token; an absent one is [None]. *)
Record Claims := mkClaims {
  cl_issuer : option string; cl_subject : option string; cl_issued_at : Z; cl_expires_at : Z;
}.

(** [PKCS5_PBKDF2_HMAC] with SHA-256 and a 32-byte key fails with [None];
    [jwt_verify secret issuer now token] decodes a token and verifies its
    HS256 signature, its issuer and its times, [None] for an exception.  The
    laws: a key has its length, an accepted token has the issuer, a token
    signed with the secret is accepted exactly from its issue to its
    expiry, which are whole seconds. *)
Class AuthCrypto := {
  PKCS5_PBKDF2_HMAC : string -> list Z -> Z -> option (list Z);
  jwt_sign : string -> Claims -> string;
  jwt_verify : string -> string -> Z -> string -> option Claims;
  pbkdf2_key : forall p salt it k,
    PKCS5_PBKDF2_HMAC p salt it = Some k -> length k = 32%nat /\ Forall is_byte k;
  jwt_verify_issuer : forall secret issuer now t c,
    jwt_verify secret issuer now t = Some c -> cl_issuer c = Some issuer;
  jwt_sign_valid : forall secret issuer now c,
    cl_issuer c = Some issuer ->
    cl_issued_at c * 10 ^ 9 <= now <= cl_expires_at c * 10 ^ 9 ->
    jwt_verify secret issuer now (jwt_sign secret c) = Some c;
  jwt_sign_expired : forall secret issuer now c,
    cl_expires_at c * 10 ^ 9 < now -> jwt_verify secret issuer now (jwt_sign secret c) = None;
}.

(** ** AuthService *)

Definition kIssuer : string := "gate-dashboard".
Definition kSaltBytes : nat := 16.
Definition kKeyBytes : nat := 32.

(** [to_hex]. *)
Fixpoint to_hex (data : list Z) : string :=
  match data with
  | [] => ""
  | b :: data => String (hex_digit (b / 16)) (String (hex_digit (b mod 16)) (to_hex data))
  end.

(** The loop of [from_hex]: byte [i] is scanned from the text at [2 * i]. *)
Fixpoint from_hex_loop (n : nat) (s : string) : option (list Z) :=
  match n with
  | O => Some []
  | S n =>
      byte ← scan_2x s;
      out ← from_hex_loop n (string_drop 2 s);
      Some (u8 byte :: out)
  end.

Definition from_hex (hex : string) : option (list Z) :=
  if String.eqb hex "" || negb (String.length hex mod 2 =? 0)%nat then None
  else from_hex_loop (String.length hex / 2) hex.

(** The text before and after the first [c]. *)
Fixpoint split_at (c : Ascii.ascii) (s : string) : option (string * string) :=
  match s with
  | EmptyString => None
  | String d s =>
      if Ascii.eqb c d then Some ("", s)
      else match split_at c s with Some (a, b) => Some (String d a, b) | None => None end
  end.
Definition dollar : Ascii.ascii := Ascii.ascii_of_nat 36.

(** [AuthService::Config]; the constructor replaces an empty secret. *)
Record AuthConfig := mkAuth {
  admin_user : string; password_hash : string; jwt_secret : string; token_ttl_min : Z;
}.

Definition enabled (a : AuthConfig) : bool := negb (String.eqb (password_hash a) "").

Section auth.
Context {AC : AuthCrypto}.

(** [pbkdf2]: the key stays zero where the library fails. *)
Definition pbkdf2 (password : string) (salt : list Z) (iterations : Z) : list Z :=
  default (replicate kKeyBytes 0) (PKCS5_PBKDF2_HMAC password salt (i32 iterations)).

(** [random_secret] and [AuthService::AuthService]; [rand] is what
    [RAND_bytes] delivers. *)
Definition random_secret (rand : option (list Z)) : Res string :=
  match rand with
  | Some buf => Ok (to_hex buf)
  | None => Err "RAND_bytes failed — no entropy for the JWT secret"
  end.

Definition AuthService_new (rand : option (list Z)) (cfg : AuthConfig) : Res AuthConfig :=
  if String.eqb (jwt_secret cfg) ""
  then
    do! secret := random_secret rand in
    Ok (mkAuth (admin_user cfg) (password_hash cfg) secret (token_ttl_min cfg))
  else Ok cfg.

(** [hash_password]. *)
Definition hash_password (rand : option (list Z)) (password : string) (iterations : Z)
    : Res string :=
  match rand with
  | None => Err "RAND_bytes failed — no entropy for the password salt"
  | Some salt =>
      let key := pbkdf2 password salt iterations in
      Ok ("pbkdf2-sha256$" +:+ (pretty iterations +:+ String dollar
            (to_hex salt +:+ String dollar (to_hex key))))
  end.

(** [verify_password]. *)
Definition verify_password (password stored : string) : bool :=
  match split_at dollar stored with
  | None => false
  | Some (scheme, r) =>
      match split_at dollar r with
      | None => false
      | Some (it, r) =>
          match split_at dollar r with
          | None => false
          | Some (salt_hex, hash_hex) =>
              if negb (String.eqb scheme "pbkdf2-sha256") then false
              else
                match stoul it with
                | Ok parsed =>
                    if (parsed =? 0) || (10000000 <? parsed) then false
                    else
                      match from_hex salt_hex, from_hex hash_hex with
                      | Some salt, Some expected =>
                          if negb (length expected =? kKeyBytes)%nat then false
                          else bool_decide (pbkdf2 password salt (u32 parsed) = expected)
                      | _, _ => false
                      end
                | _ => false
                end
          end
      end
  end.

(** [check_credentials]. *)
Definition check_credentials (a : AuthConfig) (user password : string) : bool :=
  if negb (enabled a) || negb (String.eqb user (admin_user a)) then false
  else verify_password password (password_hash a).

(** [issue_token]: the expiry is computed in 64-bit nanoseconds. *)
Definition issue_token (a : AuthConfig) (now : Z) (user : string) : Res string :=
  let ttl := token_ttl_min a * 60 * 10 ^ 9 in
  if (ttl <? 2 ^ 63) && (now + ttl <? 2 ^ 63)
  then Ok (jwt_sign (jwt_secret a)
             (mkClaims (Some kIssuer) (Some user) (Z.quot now (10 ^ 9))
                (Z.quot (now + ttl) (10 ^ 9))))
  else UB.

(** [verify_token]: the subject of an accepted token. *)
Definition verify_token (a : AuthConfig) (now : Z) (token : string) : option string :=
  decoded ← jwt_verify (jwt_secret a) kIssuer now token;
  cl_subject decoded.

(** ** The filter and the login endpoint *)

Definition kBearer : string := "Bearer ".

(** [AuthFilter::doFilter]: a rejection, or the user attribute to go on
    with. *)
Definition doFilter (a : option AuthConfig) (now : Z) (req : HttpRequest)
    : HttpResponse + option string :=
  let reject := inl (json_error 401 "authentication required") in
  match a with
  | None => inr None
  | Some a =>
      if negb (enabled a) then inr None
      else
        let header := rq_authorization req in
        if string_prefixb kBearer header
        then
          match verify_token a now (string_drop (String.length kBearer) header) with
          | Some subject => inr (Some subject)
          | None => reject
          end
        else reject
  end.

(** [AuthController::login]. *)
Definition login (a : option AuthConfig) (now : Z) (req : HttpRequest) : Res HttpResponse :=
  let unconfigured := Ok (json_error 503 "admin auth is not configured on this backend") in
  let bad := Ok (json_error 400 "body requires string 'username' and 'password'") in
  match a with
  | None => unconfigured
  | Some a =>
      if negb (enabled a) then unconfigured
      else
        match rq_json req with
        | None => bad
        | Some body =>
            do! u := jindex body "username" in
            match u with
            | JStr user =>
                do! p := jindex body "password" in
                match p with
                | JStr password =>
                    if negb (check_credentials a user password)
                    then Ok (json_error 401 "invalid credentials")
                    else
                      do! token := issue_token a now user in
                      Ok (newHttpJsonResponse
                            (JObj [("token", JStr token); ("user", JStr user);
                                   ("expiresInMin", JUint (token_ttl_min a))]))
                | _ => bad
                end
            | _ => bad
            end
        end
  end.

(** ** Lemmas *)

Lemma to_hex_length bs : String.length (to_hex bs) = (2 * length bs)%nat.
Proof. induction bs as [|b bs IH]; [done|]. cbn [to_hex String.length length]. rewrite IH. lia. Qed.

Lemma from_hex_loop_to_hex bs :
  Forall is_byte bs -> from_hex_loop (length bs) (to_hex bs) = Some bs.
Proof.
  induction 1 as [|b bs Hb Hbs IH]; [done|]. unfold is_byte in Hb.
  cbn [length from_hex_loop to_hex]. rewrite scan_2x_digits by lia. cbn [string_drop].
  cbn. rewrite IH. cbn. by rewrite u8_small by lia.
Qed.

Lemma from_hex_to_hex bs : bs <> [] -> Forall is_byte bs -> from_hex (to_hex bs) = Some bs.
Proof.
  intros Hne Hbs. unfold from_hex. rewrite to_hex_length.
  destruct bs as [|b bs]; [done|]. cbn [to_hex String.eqb orb].
  rewrite (Nat.mul_comm 2), Nat.Div0.mod_mul, Nat.div_mul by done. cbn [Nat.eqb negb].
  by apply (from_hex_loop_to_hex (b :: bs)).
Qed.

Fixpoint char_free (c : Ascii.ascii) (s : string) : bool :=
  match s with String d s => negb (Ascii.eqb c d) && char_free c s | EmptyString => true end.

Lemma split_at_app c a b : char_free c a = true -> split_at c (a +:+ String c b) = Some (a, b).
Proof.
  induction a as [|d a IH]; intros H.
  - change ((if Ascii.eqb c c then Some ("", b) else
      match split_at c b with Some (x, y) => Some (String c x, y) | None => None end)
      = Some ("", b)). by rewrite Ascii.eqb_refl.
  - cbn [char_free] in H. apply andb_true_iff in H as [Hd Ha]. apply negb_true_iff in Hd.
    change (String d a +:+ String c b) with (String d (a +:+ String c b)).
    cbn [split_at]. by rewrite Hd, IH.
Qed.

Lemma digits_no_dollar s : all_digits s = true -> char_free dollar s = true.
Proof.
  induction s as [|c s IH]; [done|]. cbn [all_digits char_free]. intros [Hc Hs]%andb_true_iff.
  rewrite IH by done. clear - Hc. by destruct c as [[] [] [] [] [] [] [] []].
Qed.

Lemma hex_no_dollar bs : Forall is_byte bs -> char_free dollar (to_hex bs) = true.
Proof.
  assert (Hdig : forall k, 0 <= k < 16 -> Ascii.eqb dollar (hex_digit k) = false).
  { intros k Hk%nibble_cases.
    repeat (apply elem_of_cons in Hk as [-> | Hk]; [done|]). by apply elem_of_nil in Hk. }
  induction 1 as [|b bs Hb _ IH]; [done|]. unfold is_byte in Hb. cbn [to_hex char_free].
  rewrite IH, !Hdig; [done| |].
  - apply Z.mod_pos_bound. lia.
  - split; [apply Z.div_pos|apply Z.div_lt_upper_bound]; lia.
Qed.

Lemma pbkdf2_length p salt it : length (pbkdf2 p salt it) = kKeyBytes /\
  Forall is_byte (pbkdf2 p salt it).
Proof.
  unfold pbkdf2. destruct (PKCS5_PBKDF2_HMAC _ _ _) as [k|] eqn:E; cbn [default from_option].
  - exact (pbkdf2_key _ _ _ _ E).
  - split; [done|]. by apply Forall_replicate.
Qed.

(** C37: The stored credential is exact.  What [hash_password] writes is
    read back field by field by [verify_password]: a password is accepted
    exactly when its derived key is that of the hashed password, and never
    when the iteration count is 0 or above ten million. *)
Theorem password_check_exact salt pw it stored pw'
    (Hsalt : length salt = kSaltBytes) (Hb : Forall is_byte salt) (Hit : 0 <= it < 2 ^ 32)
    (Hh : hash_password (Some salt) pw it = Ok stored) :
  verify_password pw' stored = true <->
  1 <= it <= 10000000 /\ pbkdf2 pw' salt it = pbkdf2 pw salt it.
Proof.
  cbn [hash_password] in Hh. injection Hh as <-.
  destruct (pbkdf2_length pw salt it) as [Hl Hk]. destruct (pretty_digits it) as (Hd & _); [lia|].
  assert (Hs : salt <> []) by (by intros ->).
  assert (Hk0 : pbkdf2 pw salt it <> []) by (intros E; by rewrite E in Hl).
  unfold verify_password.
  change ("pbkdf2-sha256$" +:+ ?r) with ("pbkdf2-sha256" +:+ String dollar r).
  rewrite split_at_app by done. rewrite split_at_app by by apply digits_no_dollar.
  rewrite split_at_app by by apply hex_no_dollar. cbn [String.eqb Ascii.eqb Bool.eqb negb].
  rewrite stoul_pretty by lia. rewrite !from_hex_to_hex, Hl by done. cbn [Nat.eqb kKeyBytes negb].
  rewrite u32_small by done.
  destruct (Z.eqb_spec it 0); [cbn; split; [done|lia]|].
  destruct (Z.ltb_spec 10000000 it); [cbn; split; [done|lia]|]. cbn [orb].
  rewrite bool_decide_eq_true. split; [intros H1; split; [lia|done]|by intros [_ H1]].
Qed.

(** C38: A session lasts as configured.  The token of a successful login
    names the admin user, is let through by the filter from the moment of
    the login until its expiry, and no later than the configured number of
    minutes. *)
Theorem login_session_lifetime a t0 req resp
    (Ht : 0 <= t0) (Httl : 0 <= token_ttl_min a)
    (Hlogin : login (Some a) t0 req = Ok resp) (Hok : rs_status resp = 200) :
  exists token, jfind (rs_body resp) "token" = Some (JStr token) /\
    forall t params body,
      let r := mkReq (kBearer +:+ token) params body in
      (t0 <= t <= (t0 + token_ttl_min a * 60 * 10 ^ 9) / 10 ^ 9 * 10 ^ 9 ->
       doFilter (Some a) t r = inr (Some (admin_user a))) /\
      (t0 + token_ttl_min a * 60 * 10 ^ 9 < t ->
       doFilter (Some a) t r = inl (json_error 401 "authentication required")).
Proof.
  unfold login in Hlogin.
  destruct (enabled a) eqn:He; cbn [negb] in Hlogin; [|by simplify_eq].
  destruct (rq_json req) as [body|]; [|by simplify_eq].
  apply res_bind_Ok in Hlogin as (u & _ & Hlogin). destruct u as [| | | | |user| |]; try by simplify_eq.
  apply res_bind_Ok in Hlogin as (p & _ & Hlogin). destruct p as [| | | | |pw| |]; try by simplify_eq.
  destruct (check_credentials a user pw) eqn:Hc; cbn [negb] in Hlogin; [|by simplify_eq].
  apply res_bind_Ok in Hlogin as (token & Htok & Hlogin). simplify_eq.
  assert (user = admin_user a) as ->.
  { unfold check_credentials in Hc. destruct (String.eqb_spec user (admin_user a)); [done|].
    by rewrite orb_true_r in Hc. }
  exists token. split; [done|]. unfold issue_token in Htok.
  destruct (_ && _); simplify_eq. intros t params body0 r.
  set (ttl := token_ttl_min a * 60 * 10 ^ 9) in *.
  assert (0 <= ttl) by lia.
  assert (Hf : doFilter (Some a) t r =
    match verify_token a t (jwt_sign (jwt_secret a)
      (mkClaims (Some kIssuer) (Some (admin_user a)) (Z.quot t0 (10 ^ 9)) (Z.quot (t0 + ttl) (10 ^ 9))))
    with Some subject => inr (Some subject)
       | None => inl (json_error 401 "authentication required") end).
  { unfold doFilter. by rewrite He. }
  rewrite Hf. unfold verify_token. rewrite !Z.quot_div_nonneg by lia. split; intros Hrange.
  - rewrite jwt_sign_valid; [done|done|]. cbn [cl_issued_at cl_expires_at].
    pose proof (Z.mul_div_le t0 (10 ^ 9) ltac:(lia)). lia.
  - rewrite jwt_sign_expired; [done|]. cbn [cl_expires_at].
    pose proof (Z.mul_div_le (t0 + ttl) (10 ^ 9) ltac:(lia)). lia.
Qed.
End auth.

(** ** An instance *)

(** Keys from the length of the password, tokens in the clear. *)
Definition toy_key (p : string) : list Z := replicate 32 (u8 (Z.of_nat (String.length p))).

Definition toy_code (secret : string) (c : Claims) : positive :=
  encode (secret, cl_issuer c, cl_subject c, cl_issued_at c, cl_expires_at c).
Definition toy_sign (secret : string) (c : Claims) : string := pretty (Zpos (toy_code secret c)).
Definition toy_decode (t : string)
    : option (string * option string * option string * Z * Z) :=
  decode (Z.to_pos (atoi_digits 0 t)).

Definition toy_verify (secret issuer : string) (now : Z) (t : string) : option Claims :=
  '(s, iss, sub, iat, exp) ← toy_decode t;
  if decide (s = secret /\ iss = Some issuer /\ iat * 10 ^ 9 <= now <= exp * 10 ^ 9)
  then Some (mkClaims iss sub iat exp) else None.

Lemma toy_decode_sign secret c :
  toy_decode (toy_sign secret c) =
  Some (secret, cl_issuer c, cl_subject c, cl_issued_at c, cl_expires_at c).
Proof.
  unfold toy_decode, toy_sign. destruct (pretty_digits (Zpos (toy_code secret c))) as (_ & -> & _);
    [lia|]. cbn [Z.to_pos]. unfold toy_code. by rewrite decode_encode.
Qed.

Lemma toy_key_bytes p k : Some (toy_key p) = Some k -> length k = 32%nat /\ Forall is_byte k.
Proof.
  intros [= <-]. split; [apply length_replicate|]. apply Forall_replicate.
  exact (u8_range (Z.of_nat (String.length p))).
Qed.

Lemma toy_verify_issuer secret issuer now t c :
  toy_verify secret issuer now t = Some c -> cl_issuer c = Some issuer.
Proof.
  unfold toy_verify. destruct (toy_decode t) as [[[[[s iss] sub] iat] exp]|]; [|done]. cbn.
  case_decide as H; [|done]. intros [= <-]. cbn. tauto.
Qed.

Lemma toy_sign_valid secret issuer now c :
  cl_issuer c = Some issuer -> cl_issued_at c * 10 ^ 9 <= now <= cl_expires_at c * 10 ^ 9 ->
  toy_verify secret issuer now (toy_sign secret c) = Some c.
Proof.
  intros Hi Ht. unfold toy_verify. rewrite toy_decode_sign. cbn [mbind option_bind].
  rewrite decide_True by done. by destruct c.
Qed.

Lemma toy_sign_expired secret issuer now c :
  cl_expires_at c * 10 ^ 9 < now -> toy_verify secret issuer now (toy_sign secret c) = None.
Proof.
  intros Ht. unfold toy_verify. rewrite toy_decode_sign. cbn [mbind option_bind].
  rewrite decide_False; [done|]. intros (_ & _ & H). lia.
Qed.

Definition toy_crypto : AuthCrypto := {|
  PKCS5_PBKDF2_HMAC p _ _ := Some (toy_key p);
  jwt_sign := toy_sign;
  jwt_verify := toy_verify;
  pbkdf2_key p _ _ k := toy_key_bytes p k;
  jwt_verify_issuer := toy_verify_issuer;
  jwt_sign_valid := toy_sign_valid;
  jwt_sign_expired := toy_sign_expired;
|}.

Definition toy_hash : string :=
  match @hash_password toy_crypto (Some (replicate 16 171)) "s3cret" 210000 with
  | Ok s => s | _ => "" end.
Definition toy_auth : AuthConfig := mkAuth "admin" toy_hash "key" 480.
Definition toy_login : HttpRequest :=
  mkReq "" [] (Some (JObj [("username", JStr "admin"); ("password", JStr "s3cret")])).

Lemma password_check_exact_witness :
  @verify_password toy_crypto "s3cret" toy_hash = true /\
  (@verify_password toy_crypto "other" toy_hash = true ->
   @pbkdf2 toy_crypto "other" (replicate 16 171) 210000 =
   @pbkdf2 toy_crypto "s3cret" (replicate 16 171) 210000).
Proof.
  assert (Hb : Forall is_byte (replicate 16 171)) by (apply Forall_replicate; unfold is_byte; lia).
  split.
  - apply (@password_check_exact toy_crypto (replicate 16 171) "s3cret" 210000 toy_hash "s3cret");
      [done | done | lia | vm_compute; reflexivity |]. split; [lia | done].
  - intros H. apply (@password_check_exact toy_crypto (replicate 16 171) "s3cret" 210000 toy_hash
      "other") in H; [exact (proj2 H) | done | done | lia | vm_compute; reflexivity].
Defined.

Lemma toy_login_ok :
  exists resp, @login toy_crypto (Some toy_auth) 1700000000000000000 toy_login = Ok resp /\
    rs_status resp = 200.
Proof. eexists. split; [vm_compute; reflexivity | reflexivity]. Qed.

Lemma login_session_lifetime_witness :
  exists resp token, @login toy_crypto (Some toy_auth) 1700000000000000000 toy_login = Ok resp /\
    jfind (rs_body resp) "token" = Some (JStr token) /\
    @doFilter toy_crypto (Some toy_auth) 1700000100000000000 (mkReq (kBearer +:+ token) [] None) =
      inr (Some "admin").
Proof.
  destruct toy_login_ok as (resp & E & Hs).
  destruct (@login_session_lifetime toy_crypto toy_auth 1700000000000000000 toy_login resp)
    as (token & Ht & Hf); [lia | cbn; lia | exact E | exact Hs |].
  exists resp, token. split; [exact E|]. split; [exact Ht|].
  apply (Hf 1700000100000000000 [] None). cbn [token_ttl_min toy_auth]. split; [lia|]. vm_compute. discriminate.
Defined.

(** Sloppy hexadecimal is accepted: a sign and white space scan as bytes. *)
Example from_hex_sloppy : from_hex " f-1" = Some [15; 255] /\ from_hex "zz" = None.
Proof. by vm_compute. Qed.
