(* ===== verification/DashboardCache.v ===== *)
(** The live half of the dashboard backend: the event cache
    (src/dashboard/backend/src/event_cache.cpp), the consumer of the event
    stream (event_stream.cpp), the WebSocket feed
    (controllers/events_ws_controller.cpp) and the status endpoint
    (controllers/status_controller.cpp).

    [ws_exec] runs one lock section of the cache, so a list of labels is one
    interleaving of the stream thread with the WebSocket handlers; [es_exec]
    runs one piece of the stream thread or of [stop()]. *)

From S2P Require Import Prelude Float32 ControlClient AllowlistStore FusionEngine.
From S2P Require Import EventBroadcaster Json DashboardJson Http.
Local Open Scope string_scope.
Local Open Scope list_scope.
Local Open Scope Z_scope.

(** [Json::writeString] without indentation. *)
Class JsonWriter := compact : Json -> string.

(** ** The cache *)

(** A WebSocket connection: what was sent to it, and the sink id the
    handler left in its context. *)
Record WsConn := mkWs {
  ws_connected : bool; ws_sent : list string; ws_context : option Z;
}.

(** [EventCache]; a sink is the connection it forwards to.  [sinks_] is in
    the order of its ids. *)
Record EventCache := mkCache {
  ec_ring_capacity : nat;
  ec_ring : list string;
  ec_gates : gmap string Json;
  ec_sinks : list (Z * nat);
  ec_next_sink_id : Z;
  ec_last_event_id : Z;
}.

Definition EventCache_new (cap : nat) : EventCache := mkCache cap [] ∅ [] 1 0.

Section cache.
Context {JW : JsonWriter}.

Definition frame_of (ev : DashboardEvent) : string := compact (event_json ev).

(** [while (ring_.size() > ring_capacity_) ring_.pop_front()]. *)
Fixpoint shrink (cap : nat) (r : list string) : list string :=
  match r with
  | [] => []
  | _ :: r' => if (cap <? length r)%nat then shrink cap r' else r
  end.

(** What is remembered of a gate. *)
Definition gate_entry (mapped : Json) : Json :=
  JObj ([("telemetry", default JNull (jfind mapped "telemetry"))] ++
        match jfind mapped "event" with Some e => [("lastEvent", e)] | None => [] end).

(** The sink of [handleNewConnection]. *)
Definition ws_send (frame : string) (c : WsConn) : WsConn :=
  if ws_connected c then mkWs true (ws_sent c ++ [frame]) (ws_context c) else c.

(** [EventCache::ingest]. *)
Definition ingest (ev : DashboardEvent) (c : EventCache) (conns : list WsConn)
    : EventCache * list WsConn :=
  let mapped := event_json ev in
  let frame := compact mapped in
  let last := if ec_last_event_id c <? event_id ev then event_id ev else ec_last_event_id c in
  let ring := shrink (ec_ring_capacity c) (ec_ring c ++ [frame]) in
  let gates :=
    match payload ev with
    | kTelemetry t => <[t_gate_id (tm_base t) := gate_entry mapped]> (ec_gates c)
    | _ => ec_gates c
    end in
  (mkCache (ec_ring_capacity c) ring gates (ec_sinks c) (ec_next_sink_id c) last,
   foldl (fun cs p => alter (ws_send frame) p.2 cs) conns (ec_sinks c)).

(** [EventCache::add_sink]: [sinks_[id] = sink] on a map ordered by id. *)
Fixpoint sink_insert (id : Z) (conn : nat) (l : list (Z * nat)) : list (Z * nat) :=
  match l with
  | [] => [(id, conn)]
  | (k, v) :: l' =>
      if id <? k then (id, conn) :: l
      else if id =? k then (id, conn) :: l' else (k, v) :: sink_insert id conn l'
  end.

Definition add_sink (conn : nat) (c : EventCache) : EventCache * Z :=
  let id := ec_next_sink_id c in
  (mkCache (ec_ring_capacity c) (ec_ring c) (ec_gates c) (sink_insert id conn (ec_sinks c))
     (u64 (id + 1)) (ec_last_event_id c), id).

(** [EventCache::remove_sink]. *)
Definition remove_sink (id : Z) (c : EventCache) : EventCache :=
  mkCache (ec_ring_capacity c) (ec_ring c) (ec_gates c)
    (base.filter (fun p => p.1 <> id) (ec_sinks c)) (ec_next_sink_id c) (ec_last_event_id c).

(** [recent_frames]. *)
Definition recent_frames (c : EventCache) : list string := ec_ring c.

(** [status_snapshot]. *)
Definition status_snapshot (c : EventCache) : Json :=
  JObj [("gates", JObj (map_to_list (ec_gates c))); ("lastEventId", JUint (ec_last_event_id c))].

(** [StatusController::asyncHandleHttpRequest]; [stream] is the cache and
    whether the stream is connected, [upstream] the state of the channel. *)
Definition status_request (stream : option (EventCache * bool)) (upstream : bool) : HttpResponse :=
  newHttpJsonResponse
    (JObj (match stream with
           | Some (c, connected) =>
               [("gates", JObj (map_to_list (ec_gates c)));
                ("lastEventId", JUint (ec_last_event_id c)); ("streamConnected", JBool connected)]
           | None =>
               [("gates", JObj []); ("lastEventId", JInt 0); ("streamConnected", JBool false)]
           end ++ [("upstream", JBool upstream)])).

(** ** The WebSocket feed *)

Record Feed := mkFeed { fd_cache : EventCache; fd_conns : list WsConn }.
Definition Feed_new (cap : nat) : Feed := mkFeed (EventCache_new cap) [].

Inductive WsLabel :=
| WIngest (ev : DashboardEvent)
| WReplay
| WAttach (i : nat)
| WMessage (i : nat) (text : bool) (message : string)
| WGone (i : nat)
| WClosed (i : nat).

(** [handleNewConnection] up to its loop: connection [length conns] is new,
    the ring is copied and sent. *)
Definition ws_replay (f : Feed) : Feed :=
  mkFeed (fd_cache f) (fd_conns f ++ [mkWs true (recent_frames (fd_cache f)) None]).

(** The rest of [handleNewConnection]: the sink and the context. *)
Definition ws_attach (i : nat) (f : Feed) : Feed :=
  let '(c, id) := add_sink i (fd_cache f) in
  mkFeed c (alter (fun x => mkWs (ws_connected x) (ws_sent x) (Some id)) i (fd_conns f)).

(** [handleNewMessage]. *)
Definition ws_message (text : bool) (message : string) (x : WsConn) : WsConn :=
  if text && String.eqb message "ping" then ws_send "pong" x else x.

(** [handleConnectionClosed]. *)
Definition ws_closed (x : WsConn) (c : EventCache) : EventCache :=
  match ws_context x with Some id => remove_sink id c | None => c end.

Definition ws_exec (l : WsLabel) (f : Feed) : option Feed :=
  match l with
  | WIngest ev =>
      let '(c, conns) := ingest ev (fd_cache f) (fd_conns f) in Some (mkFeed c conns)
  | WReplay => Some (ws_replay f)
  | WAttach i =>
      x ← fd_conns f !! i;
      guard (ws_context x = None) ;; Some (ws_attach i f)
  | WMessage i text message =>
      x ← fd_conns f !! i;
      Some (mkFeed (fd_cache f) (<[i := ws_message text message x]> (fd_conns f)))
  | WGone i =>
      x ← fd_conns f !! i;
      Some (mkFeed (fd_cache f) (<[i := mkWs false (ws_sent x) (ws_context x)]> (fd_conns f)))
  | WClosed i =>
      x ← fd_conns f !! i;
      Some (mkFeed (ws_closed x (fd_cache f))
              (<[i := mkWs false (ws_sent x) (ws_context x)]> (fd_conns f)))
  end.

Fixpoint ws_run (ls : list WsLabel) (f : Feed) : option Feed :=
  match ls with
  | [] => Some f
  | l :: ls => f' ← ws_exec l f; ws_run ls f'
  end.
End cache.

(** ** What the feed promises *)

(** The feed in the abstract: the history of events, and for every
    connection what it was shown and whether it is being fed. *)
Inductive Stage := Waiting | Live | Dead.
Record View := mkView { vw_frames : list string; vw_stage : Stage }.
Record Promise := mkPromise { pr_hist : list DashboardEvent; pr_views : list View }.

Section promise.
Context {JW : JsonWriter} (cap : nat).

Definition show (frame : string) (v : View) : View :=
  match vw_stage v with Live => mkView (vw_frames v ++ [frame]) Live | _ => v end.

Definition pong (text : bool) (message : string) (v : View) : View :=
  match vw_stage v with
  | Dead => v
  | st => if text && String.eqb message "ping" then mkView (vw_frames v ++ ["pong"]) st else v
  end.

Definition promise_step (p : Promise) (l : WsLabel) : Promise :=
  match l with
  | WIngest ev => mkPromise (pr_hist p ++ [ev]) (map (show (frame_of ev)) (pr_views p))
  | WReplay =>
      mkPromise (pr_hist p)
        (pr_views p ++ [mkView (last_n cap (map frame_of (pr_hist p))) Waiting])
  | WAttach i =>
      mkPromise (pr_hist p)
        (alter (fun v => mkView (vw_frames v)
                           (match vw_stage v with Waiting => Live | st => st end)) i (pr_views p))
  | WMessage i text message => mkPromise (pr_hist p) (alter (pong text message) i (pr_views p))
  | WGone i | WClosed i =>
      mkPromise (pr_hist p) (alter (fun v => mkView (vw_frames v) Dead) i (pr_views p))
  end.

Definition promise_of (ls : list WsLabel) : Promise := foldl promise_step (mkPromise [] []) ls.

(** The newest telemetry of a gate, as the status endpoint shows it. *)
Definition telemetry_of (g : string) (ev : DashboardEvent) : option Json :=
  match payload ev with
  | kTelemetry t =>
      if decide (t_gate_id (tm_base t) = g)
      then Some (JObj ([("telemetry", telemetry_json t)] ++
                       optional "lastEvent" timestamp_json (event_ts ev)))
      else None
  | _ => None
  end.

Definition highest_id (hist : list DashboardEvent) : Z := foldl Z.max 0 (map event_id hist).

(** ** Refinement *)

Lemma shrink_last_n n r : shrink n r = last_n n r.
Proof.
  induction r as [|x r IH]; [done|]. cbn [shrink]. unfold last_n in *.
  destruct (Nat.ltb_spec n (length (x :: r))) as [Hlt|Hge].
  - rewrite IH. cbn [length] in *.
    replace (S (length r) - n)%nat with (S (length r - n)) by lia. done.
  - by replace (length (x :: r) - n)%nat with 0%nat by lia.
Qed.

Lemma gate_entry_telemetry ev t :
  payload ev = kTelemetry t ->
  Some (gate_entry (event_json ev)) = telemetry_of (t_gate_id (tm_base t)) ev.
Proof.
  intros Hp. unfold telemetry_of, gate_entry, event_json. rewrite Hp, decide_True by done.
  by destruct (event_ts ev).
Qed.

Lemma fan_out frame (l : list (Z * nat)) (conns : list WsConn) i :
  NoDup l.*2 ->
  foldl (fun cs p => alter (ws_send frame) p.2 cs) conns l !! i =
  if decide (i ∈ l.*2) then ws_send frame <$> conns !! i else conns !! i.
Proof.
  revert conns. induction l as [|[id k] l IH]; intros conns Hnd; [done|]. cbn [foldl].
  apply NoDup_cons in Hnd as [Hk Hnd]. rewrite IH by done. cbn [fmap list_fmap snd].
  destruct (decide (i = k)) as [->|Hik].
  - rewrite decide_False by done. rewrite decide_True by set_solver. apply list_lookup_alter_eq.
  - rewrite list_lookup_alter_ne by done. by repeat case_decide; set_solver.
Qed.

Lemma fan_out_length frame (l : list (Z * nat)) (conns : list WsConn) :
  length (foldl (fun cs p => alter (ws_send frame) p.2 cs) conns l) = length conns.
Proof.
  revert conns. induction l as [|p l IH]; intros conns; [done|]. cbn [foldl].
  rewrite IH. apply length_alter.
Qed.

Lemma sink_insert_last id conn l :
  Forall (fun p => p.1 < id) l -> sink_insert id conn l = l ++ [(id, conn)].
Proof.
  induction 1 as [|[k v] l Hk _ IH]; [done|]. cbn in Hk. cbn [sink_insert app].
  destruct (Z.ltb_spec id k); [lia|]. destruct (Z.eqb_spec id k); [lia|]. by rewrite IH.
Qed.

(** One connection agrees with its view. *)
Definition agrees (sinks : list (Z * nat)) (i : nat) (x : WsConn) (v : View) : Prop :=
  ws_sent x = vw_frames v /\
  vw_stage v = (if ws_connected x then match ws_context x with None => Waiting | _ => Live end
                else Dead) /\
  (forall id, ws_connected x = true -> ws_context x = Some id -> (id, i) ∈ sinks).

(** The sink ids in the connections' contexts: handed out, and once each. *)
Definition fresh_ctx (next : Z) (cs : list (option Z)) : Prop :=
  (forall i id, cs !! i = Some (Some id) -> id < next) /\
  (forall i j id, cs !! i = Some (Some id) -> cs !! j = Some (Some id) -> i = j).

Record Sim (n : nat) (f : Feed) (p : Promise) : Prop := {
  sim_cap : ec_ring_capacity (fd_cache f) = cap;
  sim_ring : ec_ring (fd_cache f) = last_n cap (map frame_of (pr_hist p));
  sim_last : ec_last_event_id (fd_cache f) = highest_id (pr_hist p);
  sim_gates : forall g, ec_gates (fd_cache f) !! g = last (omap (telemetry_of g) (pr_hist p));
  sim_len : length (fd_conns f) = length (pr_views p);
  sim_views : forall i x v, fd_conns f !! i = Some x -> pr_views p !! i = Some v ->
    agrees (ec_sinks (fd_cache f)) i x v;
  sim_nodup : NoDup (ec_sinks (fd_cache f)).*2;
  sim_fresh : fresh_ctx (ec_next_sink_id (fd_cache f)) (map ws_context (fd_conns f));
  sim_ctx : forall id i, (id, i) ∈ ec_sinks (fd_cache f) ->
    exists x, fd_conns f !! i = Some x /\ ws_context x = Some id;
  sim_next : ec_next_sink_id (fd_cache f) <= 1 + Z.of_nat n;
  sim_next0 : 1 <= ec_next_sink_id (fd_cache f);
}.

Lemma Sim_new : Sim 0 (Feed_new cap) (mkPromise [] []).
Proof.
  split; cbn; try done; try lia; try by constructor.
  intros id i H. by apply elem_of_nil in H.
Qed.

Lemma ring_step n (l : list string) x : last_n n (last_n n l ++ [x]) = last_n n (l ++ [x]).
Proof.
  destruct n; [|apply last_n_snoc_idemp; lia]. unfold last_n. rewrite !Nat.sub_0_r.
  by rewrite !drop_all.
Qed.

Lemma ctx_alter g i (l : list WsConn) :
  (forall x, ws_context (g x) = ws_context x) ->
  map ws_context (alter g i l) = map ws_context l.
Proof.
  intros Hg. revert i. induction l as [|x l IH]; intros [|i]; cbn; [done..| |].
  - by rewrite Hg.
  - f_equal. apply IH.
Qed.

Lemma ctx_fan_out frame (l : list (Z * nat)) (conns : list WsConn) :
  map ws_context (foldl (fun cs p => alter (ws_send frame) p.2 cs) conns l) = map ws_context conns.
Proof.
  revert conns. induction l as [|p l IH]; intros conns; [done|]. cbn [foldl].
  rewrite IH. apply ctx_alter. intros x. unfold ws_send. by destruct (ws_connected x).
Qed.

Lemma ctx_insert i x y (l : list WsConn) :
  l !! i = Some x -> ws_context y = ws_context x -> map ws_context (<[i := y]> l) = map ws_context l.
Proof.
  intros Hi Hc. change (ws_context <$> <[i := y]> l = ws_context <$> l). rewrite list_fmap_insert, Hc.
  apply list_insert_id. by rewrite list_lookup_fmap, Hi.
Qed.

Lemma ctx_lookup (l : list WsConn) i x :
  l !! i = Some x -> map ws_context l !! i = Some (ws_context x).
Proof. intros Hi. change ((ws_context <$> l) !! i = Some (ws_context x)). by rewrite list_lookup_fmap, Hi. Qed.

Lemma fresh_ctx_snoc next cs : fresh_ctx next cs -> fresh_ctx next (cs ++ [None]).
Proof.
  assert (Hold : forall (i : nat) (id : Z), (cs ++ [None]) !! i = Some (Some id) -> cs !! i = Some (Some id)).
  { intros i id [H|[_ H]]%lookup_app_Some; [done|]. by destruct (i - length cs)%nat. }
  intros [H1 H2]. split; [eauto|]. intros i j id Hi Hj. eauto.
Qed.

Lemma fresh_ctx_add next cs i :
  fresh_ctx next cs -> fresh_ctx (next + 1) (<[i := Some next]> cs).
Proof.
  intros [H1 H2]. split.
  - intros j id Hj. apply list_lookup_insert_Some in Hj as [(-> & [= <-] & _)|[_ Hj]]; [lia|].
    specialize (H1 j id Hj). lia.
  - intros j k id Hj Hk.
    apply list_lookup_insert_Some in Hj as [(-> & [= <-] & _)|[Hj' Hj]];
      apply list_lookup_insert_Some in Hk as [(-> & Hk & _)|[Hk' Hk]]; [done| | |eauto].
    + apply H1 in Hk. lia.
    + injection Hk as <-. apply H1 in Hj. lia.
Qed.

Lemma Sim_ingest n f p ev f' :
  Sim n f p -> ws_exec (WIngest ev) f = Some f' -> Sim (S n) f' (promise_step p (WIngest ev)).
Proof.
  intros H Hx. cbn in Hx. injection Hx as <-.
  destruct H as [Hcap Hring Hlast Hgates Hlen Hviews Hnd Hfr Hctx Hnext Hnext0].
  split; cbn [fd_cache fd_conns ec_ring_capacity ec_ring ec_last_event_id ec_gates ec_sinks
    ec_next_sink_id promise_step pr_hist pr_views]; try done; try lia.
  - rewrite shrink_last_n, Hring, Hcap, ring_step. by rewrite map_app.
  - unfold highest_id. rewrite map_app, foldl_app. cbn [map foldl]. fold (highest_id (pr_hist p)).
    rewrite Hlast. destruct (Z.ltb_spec (highest_id (pr_hist p)) (event_id ev)); lia.
  - intros g. rewrite omap_app. cbn [omap list_omap].
    destruct (payload ev) as [|t| | | | |] eqn:Hp;
      try (unfold telemetry_of at 2; rewrite Hp, app_nil_r; apply Hgates).
    destruct (decide (t_gate_id (tm_base t) = g)) as [<-|Hne].
    + rewrite lookup_insert_eq, <- (gate_entry_telemetry ev t Hp). by rewrite last_snoc.
    + rewrite lookup_insert_ne by done. unfold telemetry_of at 2.
      rewrite Hp, decide_False, app_nil_r by done. apply Hgates.
  - by rewrite fan_out_length, length_map.
  - intros i x v Hi Hv. rewrite fan_out in Hi by done. rewrite list_lookup_fmap in Hv.
    destruct (pr_views p !! i) as [v0|] eqn:Hv0; [|done]. injection Hv as <-.
    assert (exists x0, fd_conns f !! i = Some x0) as [x0 Hx0].
    { apply lookup_lt_is_Some. rewrite Hlen. by eapply lookup_lt_Some. }
    destruct (Hviews i x0 v0 Hx0 Hv0) as (Hs & Hst & Hin). rewrite Hx0 in Hi.
    destruct (decide (i ∈ (ec_sinks (fd_cache f)).*2)) as [Hi2|Hi2]; injection Hi as <-.
    + apply list_elem_of_fmap in Hi2 as ([id k] & Hk & Hel). cbn in Hk. subst k.
      destruct (Hctx id i Hel) as (y & Hy & Hc). simplify_eq.
      unfold agrees, ws_send, show. rewrite Hst, Hc. destruct (ws_connected x0) eqn:Ec; cbn.
      * rewrite Hs. split_and!; [done|done|]. intros id' _ [= <-]. done.
      * rewrite Ec, Hst. split_and!; done.
    + replace (show (frame_of ev) v0) with v0; [by apply Hviews|]. unfold show. rewrite Hst.
      destruct (ws_connected x0) eqn:Ec; [|done]. destruct (ws_context x0) as [id|] eqn:Hc; [|done].
      destruct Hi2. apply list_elem_of_fmap. exists (id, i). split; [done|]. by apply Hin.
  - by rewrite ctx_fan_out.
  - intros id i Hin. destruct (Hctx id i Hin) as (x & Hx & Hc).
    rewrite fan_out by done. rewrite Hx. cbn. unfold ws_send.
    by destruct (decide _); [destruct (ws_connected x)|]; eexists.
Qed.

Lemma Sim_replay n f p f' :
  Sim n f p -> ws_exec WReplay f = Some f' -> Sim (S n) f' (promise_step p WReplay).
Proof.
  intros H Hx. cbn in Hx. injection Hx as <-.
  destruct H as [Hcap Hring Hlast Hgates Hlen Hviews Hnd Hfr Hctx Hnext Hnext0].
  split; cbn [fd_cache fd_conns ws_replay promise_step pr_hist pr_views]; try done; try lia.
  - rewrite !length_app. cbn. lia.
  - intros i x v Hi Hv. apply lookup_app_Some in Hi as [Hi|[Hge Hi]].
    + rewrite lookup_app_l in Hv by (rewrite <- Hlen; by eapply lookup_lt_Some). eauto.
    + rewrite lookup_app_r in Hv by lia. rewrite <- Hlen in Hv.
      destruct (i - length (fd_conns f))%nat; [|done]. cbn in Hi, Hv. simplify_eq.
      unfold agrees, recent_frames. by rewrite Hring.
  - rewrite map_app. by apply fresh_ctx_snoc.
  - intros id i Hin. destruct (Hctx id i Hin) as (x & Hx & Hc).
    exists x. split; [by apply lookup_app_l_Some|done].
Qed.

(** A label that only rewrites connection [i]. *)
Lemma Sim_rewrite n f p i x (g : WsConn -> WsConn) (h : View -> View) :
  Sim n f p -> fd_conns f !! i = Some x -> ws_context (g x) = ws_context x ->
  (forall v, agrees (ec_sinks (fd_cache f)) i x v -> agrees (ec_sinks (fd_cache f)) i (g x) (h v)) ->
  Sim (S n) (mkFeed (fd_cache f) (<[i := g x]> (fd_conns f)))
    (mkPromise (pr_hist p) (alter h i (pr_views p))).
Proof.
  intros H Hi Hg Hag.
  destruct H as [Hcap Hring Hlast Hgates Hlen Hviews Hnd Hfr Hctx Hnext Hnext0].
  assert (Hlt := lookup_lt_Some _ _ _ Hi).
  split; cbn [fd_cache fd_conns pr_hist pr_views]; try done; try lia.
  - by rewrite length_insert, length_alter.
  - intros j y v Hj Hv. destruct (decide (i = j)) as [<-|Hne].
    + rewrite list_lookup_insert_eq in Hj by done. injection Hj as <-.
      rewrite list_lookup_alter_eq in Hv. destruct (pr_views p !! i) as [v0|] eqn:Hv0; [|done].
      injection Hv as <-. eauto.
    + rewrite list_lookup_insert_ne in Hj by done. rewrite list_lookup_alter_ne in Hv by done. eauto.
  - by rewrite (ctx_insert i x).
  - intros id j Hin. destruct (Hctx id j Hin) as (y & Hy & Hc).
    destruct (decide (i = j)) as [<-|Hne].
    + rewrite list_lookup_insert_eq by done. exists (g x). split; [done|]. simplify_eq. congruence.
    + rewrite list_lookup_insert_ne by done. eauto.
Qed.

Lemma Sim_attach n f p i f' :
  Z.of_nat n < 2 ^ 64 - 2 ->
  Sim n f p -> ws_exec (WAttach i) f = Some f' -> Sim (S n) f' (promise_step p (WAttach i)).
Proof.
  intros Hn H Hx. cbn [ws_exec] in Hx.
  destruct (fd_conns f !! i) as [x|] eqn:Hi; [|done]. cbn in Hx.
  case_guard as Hc; [|done]. injection Hx as <-.
  destruct H as [Hcap Hring Hlast Hgates Hlen Hviews Hnd Hfr Hctx Hnext Hnext0].
  assert (Hlt := lookup_lt_Some _ _ _ Hi).
  assert (Hfresh : i ∉ (ec_sinks (fd_cache f)).*2).
  { intros Hin. apply list_elem_of_fmap in Hin as ([id k] & Hk & Hin). cbn in Hk. subst k.
    destruct (Hctx id i Hin) as (y & Hy & Hcy). simplify_eq. }
  assert (Hsi : sink_insert (ec_next_sink_id (fd_cache f)) i (ec_sinks (fd_cache f)) =
    ec_sinks (fd_cache f) ++ [(ec_next_sink_id (fd_cache f), i)]).
  { apply sink_insert_last. apply Forall_forall. intros [id k] Hin. cbn.
    destruct (Hctx id k Hin) as (y & Hy & Hcy). apply (proj1 Hfr k).
    by rewrite (ctx_lookup _ _ _ Hy), Hcy. }
  split; cbn [fd_cache fd_conns ws_attach add_sink ec_ring_capacity ec_ring ec_last_event_id ec_gates
    ec_sinks ec_next_sink_id promise_step pr_hist pr_views]; rewrite ?Hsi; try done.
  - by rewrite !length_alter.
  - intros j y v Hj Hv. destruct (decide (i = j)) as [<-|Hne].
    + rewrite list_lookup_alter_eq, Hi in Hj. injection Hj as <-.
      rewrite list_lookup_alter_eq in Hv. destruct (pr_views p !! i) as [v0|] eqn:Hv0; [|done].
      injection Hv as <-. destruct (Hviews i x v0 Hi Hv0) as (Hs & Hst & _).
      unfold agrees. cbn [ws_sent ws_connected ws_context vw_frames vw_stage]. rewrite Hst, Hc.
      split_and!; [done | by destruct (ws_connected x) |].
      intros id _ [= <-]. set_solver.
    + rewrite list_lookup_alter_ne in Hj by done. rewrite list_lookup_alter_ne in Hv by done.
      destruct (Hviews j y v Hj Hv) as (Hs & Hst & Hin). split_and!; [done|done|].
      intros id H1 H2. apply elem_of_app. left. by apply Hin.
  - rewrite fmap_app. apply NoDup_app. split_and!; [done| |apply NoDup_singleton]. set_solver.
  - rewrite u64_small by lia.
    replace (map ws_context _) with (<[i := Some (ec_next_sink_id (fd_cache f))]>
      (map ws_context (fd_conns f))); [by apply fresh_ctx_add|].
    apply list_eq. intros j. change (map ws_context ?l !! j) with ((ws_context <$> l) !! j).
    rewrite list_lookup_fmap. destruct (decide (i = j)) as [<-|Hne].
    + rewrite list_lookup_insert_eq by (by rewrite length_map). by rewrite list_lookup_alter_eq, Hi.
    + rewrite list_lookup_insert_ne, list_lookup_alter_ne by done.
      change (map ws_context (fd_conns f)) with (ws_context <$> fd_conns f).
      by rewrite list_lookup_fmap.
  - intros id j Hin. apply elem_of_app in Hin as [Hin|Hin].
    + destruct (Hctx id j Hin) as (y & Hy & Hcy).
      destruct (decide (i = j)) as [<-|Hne]; [by simplify_eq|].
      rewrite list_lookup_alter_ne by done. eauto.
    + apply list_elem_of_singleton in Hin. simplify_eq.
      rewrite list_lookup_alter_eq, Hi. by eexists.
  - rewrite u64_small by lia. lia.
  - rewrite u64_small by lia. lia.
Qed.

Lemma Sim_remove n f p id :
  Sim n f p -> (forall i x, fd_conns f !! i = Some x -> ws_context x = Some id -> ws_connected x = false) ->
  Sim n (mkFeed (remove_sink id (fd_cache f)) (fd_conns f)) p.
Proof.
  intros H Hdead.
  destruct H as [Hcap Hring Hlast Hgates Hlen Hviews Hnd Hfr Hctx Hnext Hnext0].
  split; cbn [fd_cache fd_conns remove_sink ec_ring_capacity ec_ring ec_last_event_id ec_gates
    ec_sinks ec_next_sink_id]; try done.
  - intros i x v Hi Hv. destruct (Hviews i x v Hi Hv) as (Hs & Hst & Hin). split_and!; [done..|].
    intros id' H1 H2. apply list_elem_of_filter. split; [|by apply Hin]. cbn. intros ->.
    by rewrite (Hdead i x Hi H2) in H1.
  - eapply sublist_NoDup; [exact Hnd|]. apply fmap_sublist, sublist_filter.
  - intros id' i Hin. apply list_elem_of_filter in Hin as [_ Hin]. by apply Hctx.
Qed.

Lemma agrees_message sinks i text m x v :
  agrees sinks i x v -> agrees sinks i (ws_message text m x) (pong text m v).
Proof.
  intros (Hs & Hst & Hin). unfold agrees, ws_message, pong, ws_send. rewrite Hst.
  destruct (ws_connected x) eqn:Ec.
  - destruct (ws_context x) eqn:Hc; destruct (text && _); cbn; rewrite ?Ec, ?Hc, ?Hs; by split_and!.
  - destruct (text && _); cbn; rewrite ?Ec, ?Hs, ?Hst; by split_and!.
Qed.

Lemma agrees_dead sinks i x v :
  agrees sinks i x v ->
  agrees sinks i (mkWs false (ws_sent x) (ws_context x)) (mkView (vw_frames v) Dead).
Proof. by intros (Hs & _ & _). Qed.

Lemma Sim_step n f p l f' :
  Z.of_nat n < 2 ^ 64 - 2 -> Sim n f p -> ws_exec l f = Some f' -> Sim (S n) f' (promise_step p l).
Proof.
  intros Hn H Hx. destruct l as [ev| |i|i text m|i|i].
  - by eapply Sim_ingest.
  - by eapply Sim_replay.
  - by eapply Sim_attach.
  - cbn [ws_exec] in Hx. destruct (fd_conns f !! i) as [x|] eqn:Hi; [|done]. injection Hx as <-.
    apply (Sim_rewrite n f p i x (ws_message text m) (pong text m)); [done|done| |].
    + unfold ws_message, ws_send. by destruct (text && _), (ws_connected x).
    + intros v. apply agrees_message.
  - cbn [ws_exec] in Hx. destruct (fd_conns f !! i) as [x|] eqn:Hi; [|done]. injection Hx as <-.
    apply (Sim_rewrite n f p i x (fun x => mkWs false (ws_sent x) (ws_context x))
      (fun v => mkView (vw_frames v) Dead)); [done|done|done|]. intros v. apply agrees_dead.
  - cbn [ws_exec] in Hx. destruct (fd_conns f !! i) as [x|] eqn:Hi; [|done]. injection Hx as <-.
    assert (H' : Sim (S n) (mkFeed (fd_cache f) (<[i := mkWs false (ws_sent x) (ws_context x)]>
      (fd_conns f))) (promise_step p (WClosed i))).
    { apply (Sim_rewrite n f p i x (fun x => mkWs false (ws_sent x) (ws_context x))
        (fun v => mkView (vw_frames v) Dead)); [done|done|done|]. intros v. apply agrees_dead. }
    unfold ws_closed. destruct (ws_context x) as [id|] eqn:Hc; [|done].
    apply (Sim_remove _ _ _ id) in H'; [done|]. cbn [fd_conns].
    assert (Hlt := lookup_lt_Some _ _ _ Hi).
    intros j y Hj Hcy. destruct (decide (i = j)) as [<-|Hne].
    + rewrite list_lookup_insert_eq in Hj by done. by injection Hj as <-.
    + rewrite list_lookup_insert_ne in Hj by done.
      destruct Hne. apply (proj2 (sim_fresh _ _ _ H) i j id); rewrite (ctx_lookup _ _ _) by done;
        congruence.
Qed.

Lemma Sim_run ls : forall n f p f',
  Z.of_nat (n + length ls) < 2 ^ 64 - 1 -> Sim n f p -> ws_run ls f = Some f' ->
  Sim (n + length ls) f' (foldl promise_step p ls).
Proof.
  induction ls as [|l ls IH]; intros n f p f' Hn H Hx; cbn [ws_run length foldl] in *.
  - injection Hx as <-. by rewrite Nat.add_0_r.
  - destruct (ws_exec l f) as [f1|] eqn:E; [|done]. cbn in Hx.
    rewrite <- Nat.add_succ_comm. apply (IH (S n) f1); [lia| |done]. by apply (Sim_step n f); [lia|..].
Qed.

(** C18: The cache is the history.  Under every interleaving of ingested
    events with WebSocket connections that come, ping and go, the ring holds
    the newest frames of the history, the status endpoint knows the newest
    telemetry of every gate and the highest id, and each browser was sent
    what the abstract feed shows it: the ring at its replay, then, once
    attached, every event in order until it left. *)
Theorem cache_refines_history ls f
    (Hrun : ws_run ls (Feed_new cap) = Some f) (Hn : Z.of_nat (length ls) < 2 ^ 64 - 1) :
  let p := promise_of ls in
  recent_frames (fd_cache f) = last_n cap (map frame_of (pr_hist p)) /\
  ec_last_event_id (fd_cache f) = highest_id (pr_hist p) /\
  (forall g, ec_gates (fd_cache f) !! g = last (omap (telemetry_of g) (pr_hist p))) /\
  map ws_sent (fd_conns f) = map vw_frames (pr_views p).
Proof.
  intros p. assert (H : Sim (length ls) f p) by (by apply (Sim_run ls 0 (Feed_new cap)); [|apply Sim_new|]).
  split_and!; [apply H..|]. apply list_eq. intros i.
  change (map ?g ?l !! i) with ((g <$> l) !! i). rewrite !list_lookup_fmap.
  pose proof (sim_len _ _ _ H) as Hl. pose proof (sim_views _ _ _ H i) as Hv.
  destruct (fd_conns f !! i) as [x|] eqn:Ex, (pr_views p !! i) as [v|] eqn:Ev; cbn; [|exfalso..|done].
  - f_equal. by apply (Hv x v).
  - apply lookup_lt_Some in Ex. apply lookup_ge_None in Ev. lia.
  - apply lookup_lt_Some in Ev. apply lookup_ge_None in Ex. lia.
Qed.
End promise.

(** A browser that attaches in two steps misses the event in between. *)
Definition toy_writer : JsonWriter := fun j =>
  match jfind j "eventId" with Some (JUint z) => pretty.pretty z | _ => "?" end.
Definition fault_no (id : Z) : DashboardEvent :=
  mkEvent id None (kFault (mkFault "" None "g" 0 "" "" ∅)).
Definition toy_feed : list WsLabel :=
  [WIngest (fault_no 1); WIngest (fault_no 2); WIngest (fault_no 3); WReplay; WIngest (fault_no 4);
   WAttach 0; WIngest (fault_no 5); WMessage 0 true "ping"; WClosed 0; WIngest (fault_no 6)].

Lemma cache_refines_history_witness :
  exists f, @ws_run toy_writer toy_feed (Feed_new 2) = Some f /\
    recent_frames (fd_cache f) = ["5"; "6"] /\ ec_last_event_id (fd_cache f) = 6 /\
    map ws_sent (fd_conns f) = [["2"; "3"; "5"; "pong"]].
Proof.
  destruct (@ws_run toy_writer toy_feed (Feed_new 2)) as [f|] eqn:E; [|vm_compute in E; discriminate].
  destruct (@cache_refines_history toy_writer 2 toy_feed f E) as (Hr & Hl & _ & Hs); [vm_compute; reflexivity|].
  exists f. rewrite Hr, Hl, Hs. split_and!; [reflexivity | vm_compute; reflexivity..].
Defined.

(** ** The stream consumer *)

Record EsConfig := mkEsConfig { reconnect_min_ms : Z; reconnect_max_ms : Z }.
Definition EsConfig_default : EsConfig := mkEsConfig 1000 30000.

(** The subscription of [EventStream::run]. *)
Definition resume_sub (site : string) (c : EventCache) : DashboardSubscription :=
  mkFilter site [] true true true true (ec_last_event_id c).

(** Where the stream thread is between two steps, and how far [stop()] has
    come. *)
Inductive Pc := AtTop | AtRegister | AtRead | AtFinish | AtClear | AtWait | Exited.
Inductive Stopper := SIdle | SFlagged | SCancelled.

#[export] Instance Pc_eq_dec : EqDecision Pc.
Proof. solve_decision. Defined.
#[export] Instance Stopper_eq_dec : EqDecision Stopper.
Proof. solve_decision. Defined.

(** [EventStream], the locals of [run], and the call in progress:
    [es_cancelled] says that its context was cancelled, [es_ended] that the
    server ended it. *)
Record EventStream := mkEs {
  es_joinable : bool; es_stop : bool; es_stopper : Stopper; es_pc : Pc;
  es_active_ctx : bool; es_cancelled : bool; es_ended : bool;
  es_sub : DashboardSubscription; es_backoff_ms : Z; es_connected : bool; es_feed : Feed;
}.

Definition EventStream_new (cap : nat) : EventStream :=
  mkEs false false SIdle Exited false false false (mkFilter "" [] false false false false 0)
    0 false (Feed_new cap).

Inductive EsLabel :=
| EStart | ETop | ERegister | ERead (r : option DashboardEvent) | EFinish | EClear | EWake
| EServerEnds | ESetStop | ECancel | EJoin.

(** Case analysis of one piece that has run. *)
Ltac es_step Hx :=
  repeat match type of Hx with
  | (if ?b then _ else _) = Some _ => destruct b eqn:?
  | match ?b with _ => _ end = Some _ => destruct b eqn:?
  end; simplify_eq/=.

Section stream.
Context {JW : JsonWriter} (cfg : EsConfig) (site : string).

(** [backoff_ms * 2 > max ? max : backoff_ms * 2] on 32 bits. *)
Definition es_next_backoff (b : Z) : Z :=
  if reconnect_max_ms cfg <? u32 (b * 2) then reconnect_max_ms cfg else u32 (b * 2).

Definition es_at (pc : Pc) (e : EventStream) : EventStream :=
  mkEs (es_joinable e) (es_stop e) (es_stopper e) pc (es_active_ctx e) (es_cancelled e) (es_ended e)
    (es_sub e) (es_backoff_ms e) (es_connected e) (es_feed e).

(** [start()]: [run] begins with the smallest backoff. *)
Definition es_start (e : EventStream) : EventStream :=
  if es_joinable e then e
  else mkEs true false (es_stopper e) AtTop (es_active_ctx e) (es_cancelled e) (es_ended e)
         (es_sub e) (reconnect_min_ms cfg) (es_connected e) (es_feed e).

(** The loop condition, and the subscription with a new context. *)
Definition es_top (e : EventStream) : EventStream :=
  if es_stop e then es_at Exited e
  else mkEs (es_joinable e) (es_stop e) (es_stopper e) AtRegister (es_active_ctx e) false false
         (resume_sub site (fd_cache (es_feed e))) (es_backoff_ms e) (es_connected e) (es_feed e).

Definition es_register (e : EventStream) : EventStream :=
  mkEs (es_joinable e) (es_stop e) (es_stopper e) AtRead true (es_cancelled e) (es_ended e)
    (es_sub e) (es_backoff_ms e) (es_connected e) (es_feed e).

(** The end of the read loop. *)
Definition es_read_end (e : EventStream) : EventStream :=
  mkEs (es_joinable e) (es_stop e) (es_stopper e) AtFinish (es_active_ctx e) (es_cancelled e)
    (es_ended e) (es_sub e) (es_backoff_ms e) false (es_feed e).

(** One turn of the read loop: a failed read means that the call is over. *)
Definition es_read (r : option DashboardEvent) (e : EventStream) : option EventStream :=
  if es_stop e then Some (es_read_end e)
  else
    match r with
    | Some ev =>
        let '(c, conns) := ingest ev (fd_cache (es_feed e)) (fd_conns (es_feed e)) in
        Some (mkEs (es_joinable e) (es_stop e) (es_stopper e) AtRead (es_active_ctx e)
                (es_cancelled e) (es_ended e) (es_sub e) (reconnect_min_ms cfg) true
                (mkFeed c conns))
    | None => if es_cancelled e || es_ended e then Some (es_read_end e) else None
    end.

(** After [Finish]: the context is forgotten and the flag looked at. *)
Definition es_clear (e : EventStream) : EventStream :=
  mkEs (es_joinable e) (es_stop e) (es_stopper e) (if es_stop e then Exited else AtWait) false
    (es_cancelled e) (es_ended e) (es_sub e) (es_backoff_ms e) (es_connected e) (es_feed e).

(** The wait is over, by its time or by a notification. *)
Definition es_wake (e : EventStream) : EventStream :=
  mkEs (es_joinable e) (es_stop e) (es_stopper e) AtTop (es_active_ctx e) (es_cancelled e)
    (es_ended e) (es_sub e) (es_next_backoff (es_backoff_ms e)) (es_connected e) (es_feed e).

(** The pieces of [stop()]. *)
Definition es_set_stop (e : EventStream) : EventStream :=
  if negb (es_joinable e) then e
  else mkEs true true SFlagged (es_pc e) (es_active_ctx e) (es_cancelled e) (es_ended e)
         (es_sub e) (es_backoff_ms e) (es_connected e) (es_feed e).
Definition es_cancel (e : EventStream) : EventStream :=
  mkEs (es_joinable e) (es_stop e) SCancelled (es_pc e) (es_active_ctx e)
    (es_cancelled e || es_active_ctx e) (es_ended e) (es_sub e) (es_backoff_ms e) (es_connected e)
    (es_feed e).
Definition es_join (e : EventStream) : EventStream :=
  mkEs false (es_stop e) SIdle (es_pc e) (es_active_ctx e) (es_cancelled e) (es_ended e)
    (es_sub e) (es_backoff_ms e) (es_connected e) (es_feed e).
Definition es_server_ends (e : EventStream) : EventStream :=
  mkEs (es_joinable e) (es_stop e) (es_stopper e) (es_pc e) (es_active_ctx e) (es_cancelled e)
    true (es_sub e) (es_backoff_ms e) (es_connected e) (es_feed e).

(** One piece of the thread, of [start()], of [stop()] or of the server;
    [None] where it cannot run: [Finish] blocks until the call is over, and
    [join] until the thread has exited. *)
Definition es_exec (l : EsLabel) (e : EventStream) : option EventStream :=
  match l with
  | EStart => guard (es_stopper e = SIdle) ;; Some (es_start e)
  | ETop => guard (es_pc e = AtTop) ;; Some (es_top e)
  | ERegister => guard (es_pc e = AtRegister) ;; Some (es_register e)
  | ERead r => guard (es_pc e = AtRead) ;; es_read r e
  | EFinish =>
      guard (es_pc e = AtFinish /\ es_cancelled e || es_ended e = true) ;; Some (es_at AtClear e)
  | EClear => guard (es_pc e = AtClear) ;; Some (es_clear e)
  | EWake => guard (es_pc e = AtWait) ;; Some (es_wake e)
  | EServerEnds => guard (es_pc e = AtRead \/ es_pc e = AtFinish) ;; Some (es_server_ends e)
  | ESetStop => guard (es_stopper e = SIdle) ;; Some (es_set_stop e)
  | ECancel => guard (es_stopper e = SFlagged) ;; Some (es_cancel e)
  | EJoin => guard (es_stopper e = SCancelled /\ es_pc e = Exited) ;; Some (es_join e)
  end.

Fixpoint es_run (ls : list EsLabel) (e : EventStream) : option EventStream :=
  match ls with
  | [] => Some e
  | l :: ls => e' ← es_exec l e; es_run ls e'
  end.

(** *** Stopping *)

Definition in_call (pc : Pc) : bool :=
  match pc with AtRead | AtFinish | AtClear => true | _ => false end.

Record EsInv (e : EventStream) : Prop := {
  esi_active : es_active_ctx e = in_call (es_pc e);
  esi_fresh : es_pc e = AtRegister -> es_cancelled e = false /\ es_ended e = false;
  esi_flag : es_stopper e <> SIdle -> es_stop e = true /\ es_joinable e = true;
  esi_idle : es_joinable e = false -> es_pc e = Exited;
}.

Lemma EsInv_exec l e e' : EsInv e -> es_exec l e = Some e' -> EsInv e'.
Proof.
  intros [Ha Hf Hs Hi] Hx.
  destruct e as [joinable stop stopper pc active cancelled ended sub backoff connected feed].
  cbn in *. subst active.
  assert (Hs' : stopper = SIdle \/ stop = true /\ joinable = true) by (destruct stopper; naive_solver).
  assert (Hi' : joinable = true \/ pc = Exited) by (destruct joinable; naive_solver).
  assert (Hf' : pc <> AtRegister \/ cancelled = false /\ ended = false)
    by (destruct pc; naive_solver). clear Hs Hi Hf.
  destruct l as [| | |r| | | | | | |]; cbn in Hx; case_guard as Hg; try done; simplify_eq/=;
    unfold es_start, es_top, es_read, es_set_stop in *; cbn in *.
  all: try (destruct r; es_step Hx). all: try (destruct Hg; simplify_eq/=).
  all: try (destruct joinable; simplify_eq/=). all: try (destruct stop; simplify_eq/=).
  all: split; cbn; try done; try naive_solver.
  all: intros ->; destruct Hf' as [Hf'|[-> ->]]; done.
Qed.

Lemma EsInv_run ls : forall e e', EsInv e -> es_run ls e = Some e' -> EsInv e'.
Proof.
  induction ls as [|l ls IH]; intros e e' H Hx; cbn in Hx; [by simplify_eq|].
  destruct (es_exec l e) as [e1|] eqn:E; [|done]. by eapply IH; [eapply EsInv_exec|].
Qed.

(** [stop()] looked for a context to cancel before the thread had
    registered one, or the thread has one that nobody ends. *)
Definition missed (e : EventStream) : bool :=
  match es_pc e with
  | AtRegister | AtRead | AtFinish => negb (es_cancelled e || es_ended e)
  | _ => false
  end.

Lemma missed_exec l e e' :
  es_stopper e = SCancelled -> missed e = true -> l <> EServerEnds -> es_stop e = true ->
  es_exec l e = Some e' -> es_stopper e' = SCancelled /\ missed e' = true /\ es_stop e' = true.
Proof.
  destruct e as [joinable stop stopper pc active cancelled ended sub backoff connected feed].
  unfold missed. cbn. intros -> Hm Hl -> Hx.
  destruct l as [| | |r| | | | | | |]; cbn in Hx; case_guard as Hg; try done;
    destruct pc; simplify_eq/=; try done.
  all: destruct Hg as [Hg1 Hg2]; try done; rewrite Hg2 in Hm; done.
Qed.

Lemma missed_run ls : forall e e',
  es_stopper e = SCancelled -> missed e = true -> es_stop e = true -> EServerEnds ∉ ls ->
  es_run ls e = Some e' -> missed e' = true.
Proof.
  induction ls as [|l ls IH]; intros e e' Hs Hm Hst Hl Hx; cbn in Hx; [by simplify_eq|].
  destruct (es_exec l e) as [e1|] eqn:E; [|done].
  apply missed_exec in E as (Hs1 & Hm1 & Hst1); [|done|done|set_solver|done].
  apply (IH e1 e'); try done. set_solver.
Qed.

(** C39: When [stop()] returns.  After [stop()] has cancelled, the stream
    thread exits within three more steps of its own and the join returns,
    except when the cancellation came before the thread had registered its
    context: then it never exits unless the server ends the stream. *)
Theorem stop_returns cap ls e (Hrun : es_run ls (EventStream_new cap) = Some e)
    (Hst : es_stopper e = SCancelled) :
  (missed e = false -> exists ls' e', (length ls' <= 3)%nat /\ EServerEnds ∉ ls' /\
     es_run (ls' ++ [EJoin]) e = Some e' /\ es_joinable e' = false) /\
  (missed e = true -> forall ls' e', EServerEnds ∉ ls' -> es_run ls' e = Some e' ->
     es_pc e' <> Exited).
Proof.
  assert (Hi : EsInv e) by (by eapply EsInv_run; [|exact Hrun]; split).
  destruct (esi_flag e Hi) as [Hstop Hj]; [by rewrite Hst|]. split.
  - intros Hm. destruct Hi as [Ha Hf _ _].
    destruct e as [joinable stop stopper pc active cancelled ended sub backoff connected feed].
    unfold missed in Hm. cbn in *. subst.
    assert (Hend : forall ls', EServerEnds ∉ ls' <-> existsb (fun l =>
      match l with EServerEnds => true | _ => false end) ls' = false).
    { intros ls'. induction ls' as [|l ls' IH]; [set_solver|].
      rewrite not_elem_of_cons, IH. cbn. rewrite orb_false_iff. destruct l; naive_solver. }
    destruct pc; cbn in Hm; try apply negb_false_iff in Hm.
    + exists [ETop]. eexists. split_and!; [cbn; lia|by apply Hend|reflexivity|done].
    + destruct (Hf eq_refl) as [-> ->]. done.
    + exists [ERead None; EFinish; EClear].
      destruct cancelled, ended; try done; eexists; (split_and!; [cbn; lia|by apply Hend|reflexivity|done]).
    + exists [EFinish; EClear].
      destruct cancelled, ended; try done; eexists; (split_and!; [cbn; lia|by apply Hend|reflexivity|done]).
    + exists [EClear]. eexists. split_and!; [cbn; lia|by apply Hend|reflexivity|done].
    + exists [EWake; ETop]. eexists. split_and!; [cbn; lia|by apply Hend|reflexivity|done].
    + exists []. eexists. split_and!; [cbn; lia|by apply Hend|reflexivity|done].
  - intros Hm ls' e' Hl Hx Hpc. assert (Hm' := missed_run ls' e e' Hst Hm Hstop Hl Hx).
    unfold missed in Hm'. by rewrite Hpc in Hm'.
Qed.
End stream.

Definition stop_in_window : list EsLabel := [EStart; ETop; ESetStop; ECancel; ERegister; ERead None].

Lemma stop_returns_witness :
  exists e, @es_run toy_writer EsConfig_default "s" stop_in_window (EventStream_new 4) = Some e /\
    missed e = true /\
    (forall ls' e', EServerEnds ∉ ls' ->
       @es_run toy_writer EsConfig_default "s" ls' e = Some e' -> es_pc e' <> Exited).
Proof.
  eexists. split; [reflexivity|]. split; [reflexivity|].
  apply (@stop_returns toy_writer EsConfig_default "s" 4 stop_in_window); reflexivity.
Defined.

(** ** Resuming *)

Section resume.
Context {JW : JsonWriter} (site : string).

Definition whole_site : DashboardSubscription := mkFilter site [] true true true true 0.

(** The cache after a first connection that delivered [hist]. *)
Definition cache_after (cap : nat) (hist : list DashboardEvent) : EventCache :=
  (foldl (fun s ev => ingest ev s.1 s.2) (EventCache_new cap, []) hist).1.

Lemma cache_after_last cap hist : ec_last_event_id (cache_after cap hist) = highest_id hist.
Proof.
  unfold cache_after, highest_id.
  change 0 with (ec_last_event_id (EventCache_new cap, [] : list WsConn).1).
  generalize (EventCache_new cap, [] : list WsConn).
  induction hist as [|ev hist IH]; intros s; [done|]. cbn [foldl map]. rewrite IH. f_equal.
  cbn. destruct (Z.ltb_spec (ec_last_event_id s.1) (event_id ev)); lia.
Qed.

Lemma wanted_since n l : wanted (mkFilter site [] true true true true n) l = wanted whole_site l.
Proof. done. Qed.

Lemma wanted_app f a b : wanted f (a ++ b) = wanted f a ++ wanted f b.
Proof. unfold wanted. by rewrite filter_app, map_app. Qed.

Lemma wanted_none f l : (forall v, v ∈ l -> matches f v = false) -> wanted f l = [].
Proof.
  induction l as [|v l IH]; intros H; [done|]. unfold wanted. rewrite filter_cons.
  rewrite decide_False by (rewrite H by set_solver; done). apply IH. set_solver.
Qed.

Lemma highest_id_bound hist m : 0 <= m -> Forall (fun e => event_id e <= m) hist -> highest_id hist <= m.
Proof.
  unfold highest_id. revert m. generalize 0. induction hist as [|e hist IH]; intros a m Ha H; [done|].
  apply Forall_cons in H as [He H]. cbn [map foldl]. apply IH; [lia|done].
Qed.

Lemma foldl_max_ge l a : a <= foldl Z.max a l.
Proof.
  revert a. induction l as [|x l IH]; intros a; cbn; [lia|]. specialize (IH (Z.max a x)). lia.
Qed.

Lemma highest_id_nonneg hist : 0 <= highest_id hist.
Proof. apply foldl_max_ge. Qed.

Lemma highest_id_ge hist e : e ∈ hist -> event_id e <= highest_id hist.
Proof.
  unfold highest_id. generalize 0.
  induction hist as [|x hist IH]; intros a He; [by apply elem_of_nil in He|].
  apply elem_of_cons in He as [->|He]; cbn [map foldl]; [|by apply IH].
  pose proof (foldl_max_ge (map event_id hist) (Z.max a (event_id x))). lia.
Qed.

(** Between the highest id seen and the position reached nothing matches. *)
Lemma nothing_between w n :
  Inv w -> Z.of_nat (length (log (hub w))) < 2 ^ 64 - 1 -> (n <= length (log (hub w)))%nat ->
  let since := highest_id (wanted whole_site (take n (log (hub w)))) in
  since <= Z.of_nat n /\
  wanted whole_site (drop (Z.to_nat since) (log (hub w))) =
  wanted whole_site (drop n (log (hub w))).
Proof.
  intros Hw Hlen Hn since.
  assert (Hid : forall k v, log (hub w) !! k = Some v -> event_id (env_event v) = 1 + Z.of_nat k).
  { intros k v Hk. rewrite (inv_ids w Hw k v Hk). apply u64_small.
    apply lookup_lt_Some in Hk. lia. }
  assert (Hs : since <= Z.of_nat n).
  { apply highest_id_bound; [lia|]. apply Forall_forall. intros e He.
    unfold wanted in He. apply list_elem_of_fmap in He as (v & -> & Hv).
    apply list_elem_of_filter in Hv as [_ Hv]. apply list_elem_of_lookup in Hv as [k Hk].
    apply lookup_take_Some in Hk as [Hk Hkn]. rewrite (Hid k v Hk). lia. }
  pose proof (highest_id_nonneg (wanted whole_site (take n (log (hub w))))) as H0. fold since in H0.
  split; [done|].
  assert (Hsplit : drop (Z.to_nat since) (log (hub w)) =
    drop (Z.to_nat since) (take n (log (hub w))) ++ drop n (log (hub w))).
  { rewrite <- (take_drop n (log (hub w))) at 1. apply drop_app_le. rewrite length_take. lia. }
  rewrite Hsplit, wanted_app.
  rewrite wanted_none; [done|]. intros v Hv. apply not_true_iff_false. intros Hm.
  apply list_elem_of_lookup in Hv as [k Hk]. rewrite lookup_drop in Hk.
  assert (event_id (env_event v) <= since).
  { apply highest_id_ge. unfold wanted. apply list_elem_of_fmap. exists v. split; [done|].
    apply list_elem_of_filter. split; [done|]. by eapply list_elem_of_lookup_2. }
  apply lookup_take_Some in Hk as [Hk _]. rewrite (Hid _ v Hk) in H. lia.
Qed.

End resume.

Definition two_faults : list Label :=
  [LPublish 0 "s" "g" fault_event; LPublishLock 0 100; LReturn 0;
   LPublish 0 "s" "g" fault_event; LPublishLock 0 200; LReturn 0].
Definition two_fault_world : World :=
  default (World_new 8 8) (exec_all two_faults (World_new 8 8)).


(** After a restart the ids begin again at 1: a dashboard that had seen
    event 5 asks for what comes after it, and the event published before it
    reconnects is not replayed. *)
Example server_restart_leaves_a_gap :
  option_map (fun w => map (fun s => map event_id (sub_queue s))
      (heap (subscribe_locked
         (resume_sub "s" (@cache_after toy_writer 4 [fault_no 5])) (hub w))))
    (exec_all [LPublish 0 "s" "g" fault_event; LPublishLock 0 100; LReturn 0] (World_new 8 8))
  = Some [[]].
Proof. vm_compute. reflexivity. Qed.

(** The retry delay never leaves its bounds. *)
Lemma es_backoff_bounds (JW : JsonWriter) cfg site cap ls e :
  0 <= reconnect_min_ms cfg <= reconnect_max_ms cfg -> reconnect_max_ms cfg < 2 ^ 31 ->
  es_run cfg site ls (EventStream_new cap) = Some e ->
  es_joinable e = true -> reconnect_min_ms cfg <= es_backoff_ms e <= reconnect_max_ms cfg.
Proof.
  intros Hc Hmax.
  set (P := fun e => es_joinable e = true -> reconnect_min_ms cfg <= es_backoff_ms e <= reconnect_max_ms cfg).
  assert (Hstep : forall l a b, P a -> es_exec cfg site l a = Some b -> P b).
  { intros l a b Ha Hx.
    destruct a as [joinable stop stopper pc active cancelled ended sub backoff connected feed].
    unfold P in *. cbn in *. destruct l as [| | |r| | | | | | |]; cbn in Hx; case_guard; try done;
      unfold es_start, es_top, es_read, es_set_stop in *; cbn in *.
    all: try (destruct r; es_step Hx). all: try (destruct joinable, stop; simplify_eq/=).
    all: simplify_eq/=; intros; try done; try (by apply Ha); try lia.
    all: specialize (Ha eq_refl); unfold es_next_backoff; rewrite u32_small by lia;
      destruct (Z.ltb_spec (reconnect_max_ms cfg) (backoff * 2)); lia. }
  assert (H0 : P (EventStream_new cap)) by done. revert H0. generalize (EventStream_new cap).
  induction ls as [|l ls IH]; intros a Ha Hx; cbn in Hx; [by simplify_eq|].
  destruct (es_exec cfg site l a) as [b|] eqn:E; [|done]. apply (IH b); [by eapply Hstep|done].
Qed.
