(* ===== verification/Feedback.v ===== *)
(** The way back: the acknowledgement of an opening, from the limit switch
    through the client of the firmware (ControlClient), the server's control
    and dashboard streams (RpcServices) and the dashboard's cache
    (DashboardCache) to the browsers of the operators.

    The HTTP/2 and gRPC libraries between the firmware and the server are
    outside the repository: what they are given and what they must deliver is
    the frame on the wire and its payload; the server's protobuf parser is a
    parameter. *)

From S2P Require Import Prelude StateMachine Platform Drivers GateController.
From S2P Require Import CommandTracker GrpcFraming Ota ControlClient Firmware.
From S2P Require Import AllowlistStore FusionEngine EventBroadcaster Grpc RpcServices EndToEnd.
From S2P Require Import Json DashboardJson Http DashboardCache.
Local Open Scope Z_scope.

(** ** The firmware sends *)

Section firmware.
Context {Q : Type} `{!RtosQueue (list Z) Q} `{!RtosQueueLaws (list Z) Q}.
Context (pb_encode : nat -> Envelope -> option (list Z)).

(** A connected client with nothing left to send. *)
Definition idle_link (s : ControlClient.Session) (c : Client Q) : Prop :=
  connected_ c = true /\ has_current s = false /\ queue_items (out_queue_ c) = [] /\
  (0 < queue_depth (out_queue_ c))%nat.

(** One envelope on an idle link: when nghttp2 has taken everything, the wire
    holds its frame. *)
Lemma envelope_on_wire e p s (c : Client Q) ops s' c' :
  idle_link s c -> pb_encode 507 e = Some p -> Z.of_nat (length p) < 2 ^ 32 ->
  foldl tx_step (s, (send_envelope pb_encode e c).1) ops = (s', c') ->
  unsent s' = [] -> queue_items (out_queue_ c') = [] ->
  wire s' = wire s ++ frame p.
Proof.
  intros (Hc & Hcur & Hq & Hd) He Hl Hops Hu Hq'.
  destruct (send_all_queue pb_encode [e] [p] c Hc) as [_ Hi];
    [rewrite Hq; cbn; lia | by repeat constructor|].
  cbn [send_all] in Hi. destruct (send_envelope pb_encode e c) as [c1 ok]. cbn [fst] in *.
  pose proof (tx_outbound ops (s, c1)) as Hout. rewrite Hops in Hout.
  unfold outbound in Hout. cbn [fst snd] in Hout. rewrite Hu, Hq', Hi, Hq in Hout.
  assert (unsent s = []) as Hs by (unfold unsent; by rewrite Hcur).
  rewrite Hs in Hout. cbn in Hout. by rewrite !app_nil_r in Hout.
Qed.
End firmware.

(** ** The server publishes and forwards *)

(** The live loop of dashboard stream [j] is at work. *)
Definition watching (r : Rpc) (j : nat) (y : DashSession) (s : Sub) : Prop :=
  dashes r !! j = Some y /\ ds_drained y = true /\ ds_open y = true /\
  heap (hub (bus r)) !! ds_sub y = Some s.

Lemma Subscribe_turn_next w y s e q :
  ds_drained y = true -> heap (hub w) !! ds_sub y = Some s -> sub_queue s = e :: q ->
  exists w1 s1, heap (hub w1) !! ds_sub y = Some s1 /\ sub_queue s1 = q /\
    Subscribe_turn false true w y = (w1, mkDash (ds_sub y) true true (ds_wire y ++ [e])).
Proof.
  destruct y as [i d o wire]. cbn. intros -> Hh Hq. unfold Subscribe_turn. cbn [ds_sub].
  rewrite Hh. unfold next. rewrite Hq. set (s1 := mkSub q _ _ _ _ _ _ _ _ _).
  exists (on_sub (fun _ => s1) i w), s1. split_and!; [|done|done].
  unfold on_sub, with_heap. cbn [hub heap]. by rewrite list_lookup_alter_eq, Hh.
Qed.

(** Given its turns, the stream writes its queue in order. *)
Lemma watcher_drains j r y s :
  watching r j y s ->
  exists r' y', rpc_run (replicate (length (sub_queue s)) (RSubscribeTurn j false true)) r = Some r' /\
    dashes r' !! j = Some y' /\ ds_wire y' = ds_wire y ++ sub_queue s.
Proof.
  remember (sub_queue s) as q eqn:Hq. revert r y s Hq.
  induction q as [|e q IH]; intros r y s Hq (Hj & Hd & Ho & Hh).
  { exists r, y. cbn. by rewrite app_nil_r. }
  destruct (Subscribe_turn_next (bus r) y s e q Hd Hh (eq_sym Hq)) as (w1 & s1 & Hs1 & Hq1 & Ht).
  cbn [length replicate rpc_run rpc_exec]. rewrite Hj.
  destruct y as [i d o wire]. cbn in Hd, Ho. subst d o. rewrite Ht. cbn [mbind option_bind].
  set (y1 := mkDash _ _ _ _).
  destruct (IH (set_dash j y1 (set_bus w1 r)) y1 s1 (eq_sym Hq1)) as (r' & y' & Hr & Hy & Hw).
  { split_and!; try done. cbn [set_dash dashes]. apply lookup_insert_eq. }
  exists r', y'. split; [exact Hr|]. split; [done|]. rewrite Hw. cbn. by rewrite <- app_assoc.
Qed.

(** The subscription of a dashboard of the server's site. *)
Lemma site_hears_acks r f0 n a gate v s :
  sub_filter s = mkFilter (default_site_id_ (srv r)) [] true true true true n ->
  pub_event (PubAck f0 gate a) v -> f0 = default_site_id_ (srv r) -> matches (sub_filter s) v = true.
Proof.
  intros -> (Hs & _ & Hp) ->. unfold matches, filter_matches. cbn in Hs, Hp |- *.
  rewrite Hs, Hp, String.eqb_refl, andb_false_r. done.
Qed.

(** An acknowledgement that a gate's stream delivers is published, and is the
    last thing the dashboard is sent once its stream has caught up. *)
Lemma ack_forwarded r k i gate wr wire a now j y s n :
  Inv (bus r) -> stopped (hub (bus r)) = false ->
  sessions r !! k = Some (mkSession gate (Some i) wr false wire) ->
  watching r j y s -> sub_closed s = false ->
  sub_filter s = mkFilter (default_site_id_ (srv r)) [] true true true true n ->
  exists turns r' y' v,
    rpc_run (RControlRead k (CAck a) now :: replicate turns (RSubscribeTurn j false true)) r = Some r' /\
    dashes r' !! j = Some y' /\ last (ds_wire y') = Some (env_event v) /\
    payload (env_event v) = kAck a /\ env_gate_id v = gate.
Proof.
  intros Hinv Hup Hk (Hj & Hd & Ho & Hh) Hc Hf.
  destruct (run_pub_offers now (PubAck (default_site_id_ (srv r)) gate a) (bus r) Hinv Hup)
    as (id & w & v & E & _ & Hv & _ & _ & Hoff).
  assert (Hm : matches (sub_filter s) v = true) by (by eapply site_hears_acks).
  destruct (offer_queue v s Hc Hm) as [q Hq].
  destruct (watcher_drains j (set_bus w r) y (offer v s)) as (r' & y' & Hr & Hy & Hw).
  { split_and!; try done. by apply Hoff. }
  exists (length (sub_queue (offer v s))), r', y', v. split.
  { cbn [rpc_run rpc_exec]. rewrite Hk. cbn [Control_dispatch run_pubs]. rewrite E. exact Hr. }
  destruct Hv as (_ & Hg & Hp). split_and!; [done | | done | done].
  rewrite Hw, Hq, app_assoc. by rewrite last_snoc.
Qed.

(** ** The browsers are told *)

Section browsers.
Context {JW : JsonWriter} (cap : nat).

(** A browser that is attached to the feed is sent every event taken in. *)
Lemma attached_browser_is_told ls f i x id ev :
  ws_run ls (Feed_new cap) = Some f -> Z.of_nat (length ls) < 2 ^ 64 - 1 ->
  fd_conns f !! i = Some x -> ws_connected x = true -> ws_context x = Some id ->
  exists f' x', ws_exec (WIngest ev) f = Some f' /\ fd_conns f' !! i = Some x' /\
    ws_sent x' = ws_sent x ++ [frame_of ev].
Proof.
  intros Hrun Hn Hx Hc Hid.
  pose proof (Sim_run cap ls 0 (Feed_new cap) (mkPromise [] []) f Hn (Sim_new cap) Hrun) as H.
  destruct (lookup_lt_is_Some_2 (pr_views (foldl (promise_step cap) (mkPromise [] []) ls)) i) as [v Hv].
  { rewrite <- (sim_len _ _ _ _ H). by eapply lookup_lt_Some. }
  destruct (sim_views _ _ _ _ H i x v Hx Hv) as (_ & _ & Hin).
  specialize (Hin id Hc Hid).
  cbn [ws_exec]. unfold ingest. eexists _, _. split; [reflexivity|]. cbn [fd_conns].
  rewrite fan_out by apply H.
  rewrite decide_True by (apply list_elem_of_fmap; by exists (id, i)).
  rewrite Hx. split; [reflexivity|]. unfold ws_send. by rewrite Hc.
Qed.
End browsers.

(** ** The operator hears of it *)

Section properties.
Context {Q QG T : Type} `{!RtosQueue (list Z) Q} `{!RtosQueueLaws (list Z) Q}
        `{!RtosQueue Event QG} `{!RtosQueueLaws Event QG} `{!EspTimer T} `{!EspTimerLaws T}.
Context (pb_encode : nat -> Envelope -> option (list Z)) (pb_parse : list Z -> option Envelope)
        {JW : JsonWriter}.

(** C3: The operator hears that the barrier is open.  When an opening gate
    reaches its limit while its connected client waits for that, the motor
    stops, and the frame that nghttp2 takes from the client carries the
    completion under the command's id.  When any reachable running server
    reads that message from the gate's stream, then every dashboard stream of
    the site ends, once it has caught up, with an event that holds the
    acknowledgement for this gate; and when the dashboard takes the event in,
    every browser attached to it is sent its frame. *)
Theorem acknowledgement_reaches_operator cfg (g : GateController QG T) l id (c : Client Q) ss n
    rc pc f0 c0 site sls r k i gate wr cwire j y s m now cap wls fd b x sid
    (Hfw : gc_reachable cfg g) (Hrun : phase g = Running) (Hopening : state_ (gc_sm g) = Opening)
    (Hlimit : queue_items (gc_queue g) = LimitOpenHit :: l)
    (Hwait : awaits_open id c) (Hlink : idle_link ss c)
    (Hpb : forall e p, pb_encode 507 e = Some p -> (length p <= 507)%nat /\ pb_parse p = Some e)
    (Henc : is_Some (pb_encode 507 (success_ack n id GATE_STATE_OPEN)))
    (Hrc : (0 < rc)%nat) (Hserver : rpc_run sls (Rpc_new rc pc f0 c0 site) = Some r)
    (Hup : stopped (hub (bus r)) = false)
    (Hk : sessions r !! k = Some (mkSession gate (Some i) wr false cwire))
    (Hwatch : watching r j y s) (Hsub : sub_closed s = false)
    (Hfilter : sub_filter s = mkFilter (default_site_id_ (srv r)) [] true true true true m)
    (Hws : ws_run wls (Feed_new cap) = Some fd) (Hwls : Z.of_nat (length wls) < 2 ^ 64 - 1)
    (Hb : fd_conns fd !! b = Some x) (Hconn : ws_connected x = true) (Hsink : ws_context x = Some sid) :
  exists g' p a,
    pump g = Some g' /\ gate_at Open MotorOff g' /\
    success_ack n id GATE_STATE_OPEN = EnvAck a /\ pb_parse p = Some (EnvAck a) /\
    (forall ops s' c', foldl tx_step (ss, forward pb_encode n g g' c) ops = (s', c') ->
       unsent s' = [] -> queue_items (out_queue_ c') = [] -> wire s' = wire ss ++ frame p) /\
    exists turns r' y' ev fd' x',
      rpc_run (RControlRead k (CAck a) now :: replicate turns (RSubscribeTurn j false true)) r = Some r' /\
      dashes r' !! j = Some y' /\ last (ds_wire y') = Some (env_event ev) /\
      payload (env_event ev) = kAck a /\ env_gate_id ev = gate /\
      ws_exec (WIngest (env_event ev)) fd = Some fd' /\ fd_conns fd' !! b = Some x' /\
      ws_sent x' = ws_sent x ++ [frame_of (env_event ev)].
Proof.
  destruct (limit_reported pb_encode n id g l c (gc_reachable_inv _ _ Hfw) Hrun Hopening Hlimit Hwait)
    as (g' & c1 & Hp & Hg & Hfwd & Hc1 & Hq1 & _).
  destruct Henc as [p Hp']. destruct (Hpb _ _ Hp') as [Hlen Hparse].
  eexists g', p, _. split; [done|]. split; [done|]. split; [reflexivity|]. split; [exact Hparse|]. split.
  { intros ops s' c' Hops. rewrite Hfwd in Hops. destruct Hlink as (L1 & L2 & L3 & L4).
    eapply (envelope_on_wire pb_encode _ _ _ _ _ _ _); [|exact Hp' | lia | exact Hops].
    split_and!; congruence. }
  pose proof (Streams_run _ _ _ (Streams_new rc pc f0 c0 site Hrc) Hserver) as [Hinv _ _ _].
  match goal with |- context [RControlRead _ (CAck ?a) _] =>
    destruct (ack_forwarded r k i gate wr cwire a now j y s m Hinv Hup Hk Hwatch Hsub Hfilter)
      as (turns & r' & y' & ev & H1 & H2 & H3 & H4 & H5) end.
  destruct (attached_browser_is_told cap wls fd b x sid (env_event ev) Hws Hwls Hb Hconn Hsink)
    as (fd' & x' & H6 & H7 & H8).
  by exists turns, r', y', ev, fd', x'.
Qed.
End properties.

(** ** A witness *)

(** A codec of one acknowledgement. *)
Definition ack_encode (cap : nat) (e : Envelope) : option (list Z) :=
  match e with
  | EnvAck (mkAck id None None true true err GATE_STATE_OPEN) =>
      if String.eqb id "c1" && String.eqb err "" then Some [9] else None
  | _ => None
  end.
Definition ack_parse (p : list Z) : option Envelope :=
  if bool_decide (p = [9]) then Some (success_ack t0 "c1" GATE_STATE_OPEN) else None.

Lemma ack_codec e p : ack_encode 507 e = Some p -> (length p <= 507)%nat /\ ack_parse p = Some e.
Proof.
  destruct e as [|cmd|[id [] [] [] [] err []]| |]; try discriminate. cbn.
  destruct (String.eqb_spec id "c1") as [->|]; [|discriminate].
  destruct (String.eqb_spec err "") as [->|]; [|discriminate].
  intros [= <-]. split; [cbn; lia | reflexivity].
Qed.

(** The gate at its open limit, the client that waits, the server with the
    gate's stream and a dashboard, and a browser. *)
Definition arriving_gate : Gate :=
  simulate GateConfig_default 1 0 0 (boot_ops ++ [OpCommandOpen; OpPump] ++ travel).
Definition waiting_client : Client (ListQueue (list Z)) :=
  set_tracker (mkTracker "c1" Open 9000 true) up_client.
Definition site_filter : DashboardSubscription := mkFilter "s" [] true true true true 0.
Definition watched_ls : list RpcLabel := connect 0 ++ [RSubscribe 7 site_filter; RSubscribeDrain 7 []].
Definition watched : Rpc := default sample_rpc (rpc_run watched_ls sample_rpc).
Definition watched_dash : DashSession := default (mkDash 0 false false []) (dashes watched !! 7%nat).
Definition watched_sub : Sub :=
  default (Sub_new (everything 0) 0 0) (heap (hub (bus watched)) !! ds_sub watched_dash).
Definition browser_ls : list WsLabel := [WReplay; WAttach 0].
Definition browser_feed : Feed := mkFeed (add_sink 0 (EventCache_new 4)).1 [mkWs true [] (Some 1)].

Lemma acknowledgement_reaches_operator_witness :
  exists g' turns r' ev x',
    pump arriving_gate = Some g' /\ gate_at Open MotorOff g' /\
    rpc_run (RControlRead 0 (CAck (mkAck "c1" None None true true "" GATE_STATE_OPEN)) 400
               :: replicate turns (RSubscribeTurn 7 false true)) watched = Some r' /\
    payload (env_event ev) = kAck (mkAck "c1" None None true true "" GATE_STATE_OPEN) /\
    ws_sent x' = [@frame_of toy_writer (env_event ev)].
Proof.
  destruct (@acknowledgement_reaches_operator _ _ _ _ _ _ _ _ _ ack_encode ack_parse toy_writer
    GateConfig_default arriving_gate [] "c1" waiting_client (Session_new 1) t0
    4%nat 4%nat plain_engine sample_conn "s" watched_ls watched 0%nat 0%nat "g" true [] 7%nat watched_dash watched_sub
    0 400 4%nat browser_ls browser_feed 0%nat (mkWs true [] (Some 1)) 1)
    as (g' & p & a & Hp & Hg & Ha & _ & _ & turns & r' & y' & ev & fd' & x' & Hr & _ & _ & Hev & _ & _ & _ & Hs).
  - apply simulate_reachable.
  - vm_compute; reflexivity.
  - vm_compute; reflexivity.
  - vm_compute; reflexivity.
  - by exists 9000.
  - split_and!; [reflexivity..|]. cbn. unfold kOutQueueDepth. apply Nat.lt_0_succ.
  - exact ack_codec.
  - by exists [9].
  - apply Nat.lt_0_succ.
  - vm_compute; reflexivity.
  - vm_compute; reflexivity.
  - vm_compute; reflexivity.
  - unfold watching. split_and!; vm_compute; reflexivity.
  - vm_compute; reflexivity.
  - vm_compute; reflexivity.
  - vm_compute; reflexivity.
  - vm_compute; reflexivity.
  - reflexivity.
  - reflexivity.
  - reflexivity.
  - assert (a = mkAck "c1" None None true true "" GATE_STATE_OPEN) as -> by (by injection Ha as <-).
    exists g', turns, r', ev, x'. exact (conj Hp (conj Hg (conj Hr (conj Hev Hs)))).
Defined.
