(* ===== verification/DashboardApi.v ===== *)
(** The REST surface of the dashboard backend over the server: the gRPC
    bridge (src/dashboard/backend/src/grpc_bridge.cpp) and the controllers
    gates_controller.cpp, allowlist_controller.cpp and health_controller.cpp
    behind the filter of DashboardAuth.v.

    A call of the bridge runs the handler of RpcServices.v unless the
    transport loses it; its publications are returned for the server's
    threads to make. *)

From S2P Require Import Prelude Float32 ControlClient AllowlistStore FusionEngine.
From S2P Require Import EventBroadcaster Grpc RpcServices Json DashboardJson Http DashboardAuth.
Local Open Scope string_scope.
Local Open Scope list_scope.
Local Open Scope Z_scope.
Local Open Scope gate_scope.

(** ** The bridge *)

(** [GrpcBridge::Config]. *)
Record BridgeConfig := mkBridge {
  bc_server : string; bc_site_id : string; bc_actor : string;
  bc_tls_ca : string; bc_tls_cert : string; bc_tls_key : string;
}.
Definition BridgeConfig_default : BridgeConfig :=
  mkBridge "127.0.0.1:50051" "site-01" "dashboard" "" "" "".

Inductive BridgeCredentials :=
| BridgeInsecure
| BridgeSsl (roots cert key : string).

(** [read_pem] and [make_channel_credentials]. *)
Definition bridge_read_pem (fs : string -> option string) (path : string) : string :=
  default "" (fs path).
Definition make_channel_credentials (fs : string -> option string) (c : BridgeConfig)
    : BridgeCredentials :=
  if String.eqb (bc_tls_ca c) "" then BridgeInsecure
  else
    let roots := bridge_read_pem fs (bc_tls_ca c) in
    if negb (String.eqb (bc_tls_cert c) "")
    then BridgeSsl roots (bridge_read_pem fs (bc_tls_cert c)) (bridge_read_pem fs (bc_tls_key c))
    else BridgeSsl roots "" "".

(** How the transport treats one call: it never arrives, it runs, or it runs
    and the reply is lost (the deadline of two seconds). *)
Inductive Net :=
| Lost (st : Status)
| Delivered
| ReplyLost (st : Status).

Definition net_sound (n : Net) : Prop :=
  match n with Lost st | ReplyLost st => error_code st <> OK | Delivered => True end.

(** A synchronous call: the status, and the response message, which stays
    empty where the call did not fill it.  A handler that throws is answered
    with UNKNOWN. *)
Definition upstream {R} (n : Net) (handler : Server -> Front R) (s : Server)
    : Server * list Pub * (Status * option R) :=
  match n with
  | Lost st => (s, [], (st, None))
  | Delivered =>
      let '(s, pubs, r) := handler s in
      (s, pubs,
       match r with
       | Replied st resp => (st, resp)
       | Threw _ => (mkStatus UNKNOWN "Unexpected error in RPC handling", None)
       end)
  | ReplyLost st => let '(s, pubs, _) := handler s in (s, pubs, (st, None))
  end.

(** [GrpcBridge::issue_command]. *)
Definition issue_command (c : BridgeConfig) (n : Net) (env : CallEnv) (cmd : GateCommandMsg)
    (s : Server) : Server * list Pub * (Status * option CommandAck) :=
  let b := cm_base cmd in
  let actor := if String.eqb (cmd_actor b) "" then bc_actor c else cmd_actor b in
  upstream n
    (IssueCommand env
       (mkCommandMsg (mkCommand (command_id b) (cmd_kind b) (cmd_led_pattern b) actor)
          (cm_issued_ts cmd) (cm_gate_id cmd) (cm_duration cmd) (cm_relay_index cmd)
          (cm_signature cmd))) s.

(** [GrpcBridge::list_allowlist]; [db] is an exception of the store. *)
Definition list_allowlist (c : BridgeConfig) (n : Net) (db : option string) (page_size : Z)
    (token : string) (s : Server) : Server * list Pub * (Status * option Page) :=
  upstream n (ListAllowlist db (bc_site_id c) page_size token) s.

(** The defaults [GrpcBridge::upsert_allowlist] stamps on an entry. *)
Definition stamp_entry (c : BridgeConfig) (now : Z) (e : Allowlistentry) : Allowlistentry :=
  mkEntry (plate_text e) (owner_name e) (owner_unit e) (allowed_classes e) (valid_from e)
    (valid_until e) (time_windows e) (notes e)
    (if String.eqb (added_by e) "" then bc_actor c else added_by e)
    (Some (default now (added_ts e))).

(** [GrpcBridge::upsert_allowlist] on a request with no site of its own. *)
Definition upsert_allowlist (c : BridgeConfig) (n : Net) (env : CallEnv) (now : Z)
    (es : list Allowlistentry) (s : Server) : Server * list Pub * (Status * option UpsertStats) :=
  upstream n (UpsertAllowlist env (bc_site_id c) (map (stamp_entry c now) es)) s.

(** [GrpcBridge::delete_allowlist]. *)
Definition delete_allowlist (c : BridgeConfig) (n : Net) (env : CallEnv) (plate : string)
    (s : Server) : Server * list Pub * (Status * option UpsertStats) :=
  upstream n (DeleteAllowlist env (bc_site_id c) [plate]) s.

(** ** The controllers *)

(** What a request meets outside the process. *)
Record HttpEnv := mkHttpEnv {
  he_clock_ns : Z; he_now : Z; he_net : Net; he_call : CallEnv; he_db : option string;
  he_ready : bool;
}.

(** What a handler leaves: the server, its publications, the response; an
    exception is raised before the upstream call. *)
Definition Handled : Type := Res (Server * list Pub * HttpResponse).

(** The end of a handler: the response of a call, or its error. *)
Definition reply_with {R} (to_json : R -> Json) (dflt : R)
    (call : Server * list Pub * (Status * option R)) : Handled :=
  let '(s, pubs, (st, resp)) := call in
  Ok (s, pubs,
      if status_ok st then newHttpJsonResponse (to_json (default dflt resp))
      else json_error (http_status (error_code st)) (error_message st)).

Definition no_bridge (s : Server) : Handled :=
  Ok (s, [], json_error 503 "gRPC bridge not initialised").
Definition bad_request (s : Server) (m : string) : Handled := Ok (s, [], json_error 400 m).

Definition empty_ack : CommandAck := mkAck "" None None false false "" GATE_STATE_UNKNOWN.

Section controllers.
Context {JC : JsonCpp}.

(** [GatesController::command]. *)
Definition gates_command (b : option BridgeConfig) (env : HttpEnv) (req : HttpRequest)
    (gate_id : string) (s : Server) : Handled :=
  match b with
  | None => no_bridge s
  | Some c =>
      match rq_json req with
      | None => bad_request s "body requires a string 'kind'"
      | Some body =>
          do! k := jindex body "kind" in
          match k with
          | JStr text =>
              match command_kind_from_string text with
              | None => bad_request s ("unknown command kind: " +:+ text)
              | Some kind =>
                  do! led :=
                    (if decide (kind = COMMAND_KIND_LED_PATTERN)
                     then do! j := jindex body "ledPattern" in asInt j
                     else Ok 0) in
                  reply_with (fun a => JObj [("ack", ack_json a)]) empty_ack
                    (issue_command c (he_net env) (he_call env)
                       (mkCommandMsg (mkCommand "" kind led "") None gate_id None 0 "") s)
              end
          | _ => bad_request s "body requires a string 'kind'"
          end
      end
  end.

(** [AllowlistController::list]. *)
Definition allowlist_list (b : option BridgeConfig) (env : HttpEnv) (req : HttpRequest)
    (s : Server) : Handled :=
  match b with
  | None => no_bridge s
  | Some c =>
      let ps := getParameter (rq_params req) "pageSize" in
      do! page_size := (if String.eqb ps "" then Ok 100 else do! n := stoul ps in Ok (u32 n)) in
      reply_with page_json (mkPage [] "")
        (list_allowlist c (he_net env) (he_db env) page_size
           (getParameter (rq_params req) "pageToken") s)
  end.

(** The entries of a batch; the first refusal ends it. *)
Fixpoint entries_from_json (l : list Json) : Res (string + list Allowlistentry) :=
  match l with
  | [] => Ok (inr [])
  | j :: l =>
      do! r := allowlist_entry_from_json j in
      match r with
      | inl e => Ok (inl e)
      | inr e =>
          do! rest := entries_from_json l in
          Ok (match rest with inr es => inr (e :: es) | inl m => inl m end)
      end
  end.

(** [isMember] throws on a value that is neither null nor an object. *)
Definition isMember (v : Json) (key : string) : Res bool :=
  match v with
  | JObj _ | JNull => Ok (is_member v key)
  | _ => Err "in Json::Value::find(begin, end): requires objectValue or nullValue"
  end.

(** The entries of an upsert body: a batch or a single entry. *)
Definition upsert_entries (body : Json) : Res (string + list Allowlistentry) :=
  do! batch := isMember body "entries" in
  if (batch : bool)
  then
    do! es := jindex body "entries" in
    match es with
    | JArr (_ :: _ as l) => entries_from_json l
    | _ => Ok (inl "'entries' must be a non-empty array")
    end
  else
    do! r := allowlist_entry_from_json body in
    Ok (match r with inl e => inl e | inr e => inr [e] end).

(** [AllowlistController::upsert]. *)
Definition allowlist_upsert (b : option BridgeConfig) (env : HttpEnv) (req : HttpRequest)
    (s : Server) : Handled :=
  match b with
  | None => no_bridge s
  | Some c =>
      match rq_json req with
      | None => bad_request s "body must be JSON"
      | Some body =>
          do! parsed := upsert_entries body in
          match parsed with
          | inl e => bad_request s e
          | inr es =>
              reply_with stats_json (mkStats 0 0)
                (upsert_allowlist c (he_net env) (he_call env) (he_now env) es s)
          end
      end
  end.

(** [AllowlistController::remove]. *)
Definition allowlist_remove (b : option BridgeConfig) (env : HttpEnv) (plate : string)
    (s : Server) : Handled :=
  match b with
  | None => no_bridge s
  | Some c =>
      if String.eqb plate "" then bad_request s "plate path segment is required"
      else reply_with stats_json (mkStats 0 0)
             (delete_allowlist c (he_net env) (he_call env) plate s)
  end.

(** [HealthController::asyncHandleHttpRequest]. *)
Definition health_request (b : option BridgeConfig) (ready : bool) : HttpResponse :=
  newHttpJsonResponse
    (JObj [("status", JStr "ok");
           ("upstream", JBool (match b with Some _ => ready | None => false end));
           ("upstreamAddr", JStr (match b with Some c => bc_server c | None => "" end));
           ("siteId", JStr (match b with Some c => bc_site_id c | None => "" end))]).

(** ** Routing *)

(** The registered routes; [RStatus] answers from the event cache and does
    not touch the server. *)
Inductive Route :=
| RHealth | RStatus (snapshot : HttpResponse) | RLogin
| RCommand (gate_id : string) | RList | RUpsert | RDelete (plate : string).

(** The routes registered with the filter. *)
Definition filtered (r : Route) : bool :=
  match r with RCommand _ | RList | RUpsert | RDelete _ => true | _ => false end.

Context {AC : AuthCrypto}.

Definition serve (a : option AuthConfig) (b : option BridgeConfig) (env : HttpEnv) (r : Route)
    (req : HttpRequest) (s : Server) : Handled :=
  match r with
  | RHealth => Ok (s, [], health_request b (he_ready env))
  | RStatus snapshot => Ok (s, [], snapshot)
  | RLogin => do! resp := login a (he_clock_ns env) req in Ok (s, [], resp)
  | RCommand gate_id => gates_command b env req gate_id s
  | RList => allowlist_list b env req s
  | RUpsert => allowlist_upsert b env req s
  | RDelete plate => allowlist_remove b env plate s
  end.

Definition http_exec (a : option AuthConfig) (b : option BridgeConfig) (env : HttpEnv) (r : Route)
    (req : HttpRequest) (s : Server) : Handled :=
  if filtered r
  then
    match doFilter a (he_clock_ns env) req with
    | inl rejection => Ok (s, [], rejection)
    | inr _ => serve a b env r req s
    end
  else serve a b env r req s.

(** ** Lemmas *)

Lemma prefix_split p t : string_prefixb p t = true -> t = p +:+ string_drop (String.length p) t.
Proof.
  revert t. induction p as [|c p IH]; intros t H; [by destruct t|].
  destruct t as [|d t]; [done|]. cbn [string_prefixb] in H. apply andb_true_iff in H as [Hc H].
  apply Ascii.eqb_eq in Hc as ->. cbn [String.length string_drop].
  change (String d p +:+ ?r) with (String d (p +:+ r)). f_equal. by apply IH.
Qed.

Lemma doFilter_accepts a now req user :
  enabled a = true -> doFilter (Some a) now req = inr user ->
  exists token subject, rq_authorization req = kBearer +:+ token /\
    verify_token a now token = Some subject /\ user = Some subject.
Proof.
  intros He H. unfold doFilter in H. rewrite He in H. cbn [negb] in H.
  destruct (string_prefixb kBearer (rq_authorization req)) eqn:Hp; [|done].
  destruct (verify_token a now _) as [subject|] eqn:Hv; [|done]. injection H as <-.
  exists (string_drop (String.length kBearer) (rq_authorization req)), subject.
  split; [by apply prefix_split|done].
Qed.

Lemma doFilter_rejects a now req resp :
  doFilter (Some a) now req = inl resp -> resp = json_error 401 "authentication required".
Proof.
  unfold doFilter. destruct (enabled a); cbn [negb]; [|done].
  destruct (string_prefixb _ _); [|congruence]. destruct (verify_token _ _ _); congruence.
Qed.

(** An effect, or an answer of a guarded route other than the 401, takes an
    accepted token. *)
Lemma effect_needs_token a b env r req s s' pubs resp :
  enabled a = true -> http_exec (Some a) b env r req s = Ok (s', pubs, resp) ->
  s' <> s \/ pubs <> [] \/ filtered r = true /\ rs_status resp <> 401 ->
  exists token subject, rq_authorization req = kBearer +:+ token /\
    verify_token a (he_clock_ns env) token = Some subject.
Proof.
  intros He Hx Heff. unfold http_exec in Hx. destruct (filtered r) eqn:Hf.
  - destruct (doFilter (Some a) (he_clock_ns env) req) as [rej|user] eqn:Hd.
    + apply doFilter_rejects in Hd as ->. simplify_eq. cbn in Heff. naive_solver.
    + destruct (doFilter_accepts a _ req user He Hd) as (token & subject & H1 & H2 & _). eauto.
  - exfalso. destruct r; try done; cbn [serve] in Hx.
    + simplify_eq. naive_solver.
    + simplify_eq. naive_solver.
    + apply res_bind_Ok in Hx as (resp' & _ & Hx). simplify_eq. naive_solver.
Qed.

(** The admin surface is closed.  With authentication on, a request has
    an effect on the server, or is answered by a guarded route with
    anything but the 401, only when it carries a bearer token the service
    accepts at that moment. *)
Theorem admin_surface_is_closed a b env r req s s' pubs resp
    (He : enabled a = true) (Hx : http_exec (Some a) b env r req s = Ok (s', pubs, resp))
    (Heff : s' <> s \/ pubs <> [] \/ filtered r = true /\ rs_status resp <> 401) :
  exists token subject, rq_authorization req = kBearer +:+ token /\
    verify_token a (he_clock_ns env) token = Some subject.
Proof. exact (effect_needs_token a b env r req s s' pubs resp He Hx Heff). Qed.

(** *** Replies *)

Lemma reply_status {R} (to_json : R -> Json) dflt call s pubs resp :
  reply_with to_json dflt call = Ok (s, pubs, resp) ->
  exists st r, call = (s, pubs, (st, r)) /\ (rs_status resp = 200 <-> error_code st = OK).
Proof.
  destruct call as [[s0 pubs0] [st r]]. cbn. intros [= <- <- <-]. exists st, r. split; [done|].
  unfold status_ok. destruct (bool_decide (error_code st = OK)) eqn:E.
  - apply bool_decide_eq_true in E. done.
  - apply bool_decide_eq_false in E. cbn. rewrite http_status_ok. done.
Qed.

Lemma bad_request_no s m s' pubs resp :
  bad_request s m = Ok (s', pubs, resp) -> s' = s /\ pubs = [] /\ rs_status resp = 400.
Proof. by intros [= <- <- <-]. Qed.

(** What [IssueCommand] does for a named kind and gate. *)
Lemma IssueCommand_accepts env req s :
  cm_gate_id req <> "" -> nameable (cmd_kind (cm_base req)) = true ->
  exists s' cmd ack,
    IssueCommand env req s =
      (s', [PubCommand (default_site_id_ s) cmd; PubAck (default_site_id_ s) (cm_gate_id req) ack],
       answer ack) /\
    cm_gate_id cmd = cm_gate_id req /\ cmd_kind (cm_base cmd) = cmd_kind (cm_base req) /\
    cmd_actor (cm_base cmd) = cmd_actor (cm_base req) /\
    ack_command_id ack = command_id (cm_base cmd) /\
    s' = with_fusion (match cmd_kind (cm_base req) with
                      | COMMAND_KIND_LATCH_OPEN => set_override (cm_gate_id req) kForceOpen (fusion_ s)
                      | COMMAND_KIND_LATCH_CLOSE => set_override (cm_gate_id req) kForceClose (fusion_ s)
                      | COMMAND_KIND_RELEASE_LATCH => set_override (cm_gate_id req) kNone (fusion_ s)
                      | _ => fusion_ s
                      end) s.
Proof.
  intros Hg Hk. unfold IssueCommand. destruct (String.eqb_spec (cm_gate_id req) ""); [done|].
  destruct (cmd_kind (cm_base req)); try done; do 3 eexists; (split; [reflexivity|]);
    by cbn.
Qed.

(** A call that reports success was delivered; one that does not, and whose
    reply was not lost, ran no handler to success. *)
Lemma upstream_ok {R} n (h : Server -> Front R) s s' pubs st r :
  net_sound n -> upstream n h s = (s', pubs, (st, r)) -> error_code st = OK ->
  exists st' r', h s = (s', pubs, Replied st' r') /\ st' = st /\ r' = r.
Proof.
  intros Hn Hx Hok. destruct n as [st0| |st0]; cbn in Hn, Hx.
  - simplify_eq.
  - destruct (h s) as [[s0 p0] [what|st0 r0]]; simplify_eq/=; eauto.
  - destruct (h s) as [[s0 p0] r0]. simplify_eq.
Qed.

Lemma command_front env c kind led gate s :
  nameable kind = true ->
  let req := mkCommandMsg (mkCommand "" kind led (bc_actor c)) None gate None 0 "" in
  (gate = "" /\ IssueCommand env req s = (s, [], refuse INVALID_ARGUMENT "gate_id is required")) \/
  (gate <> "" /\ exists s' cmd ack,
    IssueCommand env req s =
      (s', [PubCommand (default_site_id_ s) cmd; PubAck (default_site_id_ s) gate ack], answer ack) /\
    cm_gate_id cmd = gate /\ cmd_kind (cm_base cmd) = kind /\ cmd_actor (cm_base cmd) = bc_actor c /\
    ack_command_id ack = command_id (cm_base cmd) /\
    s' = with_fusion (match kind with
                      | COMMAND_KIND_LATCH_OPEN => set_override gate kForceOpen (fusion_ s)
                      | COMMAND_KIND_LATCH_CLOSE => set_override gate kForceClose (fusion_ s)
                      | COMMAND_KIND_RELEASE_LATCH => set_override gate kNone (fusion_ s)
                      | _ => fusion_ s
                      end) s).
Proof.
  intros Hk req. destruct (decide (gate = "")) as [->|Hg]; [by left|right]. split; [done|].
  exact (IssueCommand_accepts env req s Hg Hk).
Qed.

(** The outcome of a command request once its body is understood. *)
Definition accepted_command (c : BridgeConfig) (gate : string) (body : Json) (s s' : Server)
    (pubs : list Pub) : Prop :=
  exists kind cmd ack,
    jindex body "kind" = Ok (JStr (kind_text kind)) /\ nameable kind = true /\ gate <> "" /\
    pubs = [PubCommand (default_site_id_ s) cmd; PubAck (default_site_id_ s) gate ack] /\
    cm_gate_id cmd = gate /\ cmd_kind (cm_base cmd) = kind /\
    cmd_actor (cm_base cmd) = bc_actor c /\ ack_command_id ack = command_id (cm_base cmd) /\
    override_for (fusion_ s') gate =
      match kind with
      | COMMAND_KIND_LATCH_OPEN => kForceOpen
      | COMMAND_KIND_LATCH_CLOSE => kForceClose
      | COMMAND_KIND_RELEASE_LATCH => kNone
      | _ => override_for (fusion_ s) gate
      end.


Lemma issue_command_outcome c env kind led gate s s' pubs st r :
  nameable kind = true -> net_sound (he_net env) ->
  issue_command c (he_net env) (he_call env)
    (mkCommandMsg (mkCommand "" kind led "") None gate None 0 "") s = (s', pubs, (st, r)) ->
  (error_code st = OK -> gate <> "" /\ exists cmd ack,
    pubs = [PubCommand (default_site_id_ s) cmd; PubAck (default_site_id_ s) gate ack] /\
    cm_gate_id cmd = gate /\ cmd_kind (cm_base cmd) = kind /\
    cmd_actor (cm_base cmd) = bc_actor c /\ ack_command_id ack = command_id (cm_base cmd) /\
    override_for (fusion_ s') gate =
      match kind with
      | COMMAND_KIND_LATCH_OPEN => kForceOpen
      | COMMAND_KIND_LATCH_CLOSE => kForceClose
      | COMMAND_KIND_RELEASE_LATCH => kNone
      | _ => override_for (fusion_ s) gate
      end) /\
  (error_code st <> OK -> (forall st0, he_net env <> ReplyLost st0) -> s' = s /\ pubs = []).
Proof.
  intros Hk Hn Hx. unfold issue_command in Hx. cbn in Hx.
  pose proof (command_front (he_call env) c kind led gate s Hk) as Hfront. cbv zeta in Hfront. split.
  - intros Hok. destruct (upstream_ok _ _ _ _ _ _ _ Hn Hx Hok) as (st' & r' & Hh & -> & ->).
    destruct Hfront as [[-> Hf]|(Hg & s1 & cmd & ack & Hf & H1 & H2 & H3 & H4 & H5)];
      rewrite Hf in Hh; [injection Hh as _ _ <- _; by cbn in Hok|].
    split; [done|]. injection Hh as <- <- _ _. exists cmd, ack. split_and!; try done.
    rewrite H5. cbn [with_fusion fusion_]. destruct kind; try done; rewrite override_set;
      by rewrite decide_True.
  - intros Hno Hl. destruct (he_net env) as [st0| |st0]; cbn in Hx; [by simplify_eq| |by destruct (Hl st0)].
    destruct Hfront as [[-> Hf]|(Hg & s1 & cmd & ack & Hf & _)]; rewrite Hf in Hx; cbn in Hx;
      injection Hx as <- <- <- _; [done|by destruct Hno].
Qed.


(** C30: What was posted is what is looked up.  When the allowlist endpoint
    answers 200, the body was understood, and looking up any plate of the
    site in the store finds the last posted entry for it, stamped with the
    bridge's actor and the time, or what was there before. *)
Theorem posted_entries_are_found a c env req s s' pubs resp plate
    (Hreads : forall n, read_outcome (ce_outcomes (he_call env)) n <> Aborted)
    (Hc : working (store_ s) = None) (Hn : net_sound (he_net env))
    (Hx : http_exec a (Some c) env RUpsert req s = Ok (s', pubs, resp))
    (Hok : rs_status resp = 200) :
  exists body es, rq_json req = Some body /\ upsert_entries body = Ok (inr es) /\
    lookup read_all (bc_site_id c) plate (view (store_ s')) =
      match last_for (bc_site_id c) (bc_site_id c, normalize_plate plate)
              (map (stamp_entry c (he_now env)) es) with
      | Some e => inr (Some (stored e))
      | None => lookup read_all (bc_site_id c) plate (view (store_ s))
      end.
Proof.
  unfold http_exec in Hx. cbn [filtered] in Hx.
  destruct (doFilter a (he_clock_ns env) req) as [rej|user] eqn:Hd.
  { destruct a as [a|]; [|by unfold doFilter in Hd]. apply doFilter_rejects in Hd as ->. by simplify_eq. }
  cbn [serve allowlist_upsert] in Hx.
  destruct (rq_json req) as [body|] eqn:Hb; [|by apply bad_request_no in Hx as (_ & _ & Hs); rewrite Hs in Hok].
  apply res_bind_Ok in Hx as ([e|es] & Hp & Hx);
    [by apply bad_request_no in Hx as (_ & _ & Hs); rewrite Hs in Hok|].
  apply reply_status in Hx as (st & r & Hcall & Hst). rewrite Hst in Hok.
  unfold upsert_allowlist in Hcall.
  destruct (upstream_ok _ _ _ _ _ _ _ Hn Hcall Hok) as (st' & r' & Hh & -> & ->).
  exists body, es. split_and!; [done..|]. unfold UpsertAllowlist in Hh.
  destruct (String.eqb_spec (bc_site_id c) "") as [E|E];
    [injection Hh as _ _ <- _; by cbn in Hok|].
  destruct (upsert _ _ _ _) as [c1 [what|stats]] eqn:Hup; injection Hh as <- _ Hst' _;
    [subst st; by cbn in Hok|].
  cbn [with_store store_]. by destruct (lookup_after_upsert _ _ _ _ _ _ (bc_site_id c) plate Hreads Hc Hup).
Qed.
End controllers.

(** ** Instances of the theorems *)

Definition toy_bridge : BridgeConfig := mkBridge "127.0.0.1:50051" "s" "dashboard" "" "" "".
Definition toy_env : HttpEnv := mkHttpEnv (50 * 10 ^ 9) 50 Delivered sample_env None true.
Definition toy_token : string := toy_sign "key" (mkClaims (Some kIssuer) (Some "admin") 0 100).
Definition toy_request (body : Json) : HttpRequest :=
  mkReq (kBearer +:+ toy_token) [] (Some body).
Definition latch_body : Json := JObj [("kind", JStr "LATCH_CLOSE")].
Definition entry_body : Json :=
  JObj [("plate", JStr "KBX 001Z"); ("ownerName", JStr "Bo"); ("allowedClasses", JArr [JStr "SUV"])].

Definition toy_http (a : option AuthConfig) : Route -> HttpRequest -> Server -> Handled :=
  @http_exec plain_jsoncpp toy_crypto a (Some toy_bridge) toy_env.

Lemma toy_command_runs :
  exists s' pubs resp,
    toy_http (Some toy_auth) (RCommand "g") (toy_request latch_body) (srv sample_rpc)
      = Ok (s', pubs, resp) /\ rs_status resp = 200 /\ length pubs = 2%nat.
Proof. do 3 eexists. split; [vm_compute; reflexivity|]. split; reflexivity. Qed.

Lemma toy_upsert_runs :
  exists s' pubs resp,
    toy_http None RUpsert (toy_request entry_body) (srv sample_rpc) = Ok (s', pubs, resp) /\
    rs_status resp = 200.
Proof. do 3 eexists. split; [vm_compute; reflexivity|]. reflexivity. Qed.

Lemma admin_surface_is_closed_witness :
  exists token subject, rq_authorization (toy_request latch_body) = kBearer +:+ token /\
    @verify_token toy_crypto toy_auth (50 * 10 ^ 9) token = Some subject.
Proof.
  destruct toy_command_runs as (s' & pubs & resp & Hx & _ & Hl).
  apply (@admin_surface_is_closed plain_jsoncpp toy_crypto toy_auth (Some toy_bridge) toy_env
    (RCommand "g") (toy_request latch_body) (srv sample_rpc) s' pubs resp).
  - vm_compute. reflexivity.
  - exact Hx.
  - right. left. intros ->. discriminate Hl.
Defined.


Lemma posted_entries_are_found_witness :
  exists s' e, lookup read_all "s" "kbx-001z" (view (store_ s')) = inr (Some e) /\
    owner_name e = "Bo" /\ added_by e = "dashboard" /\ added_ts e = Some 50.
Proof.
  destruct toy_upsert_runs as (s' & pubs & resp & Hx & Hok).
  destruct (@posted_entries_are_found plain_jsoncpp toy_crypto None toy_bridge toy_env
    (toy_request entry_body) (srv sample_rpc) s' pubs resp "kbx-001z")
    as (body & es & Hb & He & Hl); [discriminate | vm_compute; reflexivity | exact I | exact Hx | exact Hok |].
  injection Hb as <-. vm_compute in He. injection He as <-.
  exists s'. eexists. split; [etransitivity; [exact Hl | vm_compute; reflexivity]|]. split_and!; reflexivity.
Defined.

(** An unreadable CA bundle leaves the bridge with empty root certificates,
    which makes gRPC fall back to its default roots. *)
Example unreadable_ca_is_silent :
  make_channel_credentials (fun _ => None) (mkBridge "a" "s" "d" "/etc/gate/ca.pem" "" "")
  = BridgeSsl "" "" "".
Proof. reflexivity. Qed.

(** A page size that is not a number throws out of the handler. *)
Example bad_page_size_throws :
  toy_http None RList (mkReq "" [("pageSize", "many")] None) (srv sample_rpc)
  = Err "stoul: no conversion".
Proof. vm_compute. reflexivity. Qed.
