(* ===== verification/SimClient.v ===== *)
(** The simulator's client (src/simulation/src/sim_client.cpp and main.cpp):
    one session of the virtual gate on the server's Control stream, the
    operator console and the reconnect loop.

    The reader thread, the session loop and the console work on one gate
    under its mutex; [sim_exec] runs one piece of one of them, where a state
    reading and the write that carries it are one piece.  Every write is
    recorded with its outcome. *)

From S2P Require Import Prelude Float32 StateMachine Platform Drivers GateController CommandTracker.
From S2P Require Import ControlClient VirtualGate AllowlistStore FusionEngine EventBroadcaster.
From S2P Require Import Grpc RpcServices.
Local Open Scope Z_scope.

(** [SimClient::Config]. *)
Record SimConfig := mkSimConfig {
  sim_server : string; sim_gate_id : string; sim_fw_version : string; sim_telemetry_period_ms : Z;
  sim_tick_ms : Z; sim_tls_ca : string; sim_tls_cert : string; sim_tls_key : string;
}.
Definition SimConfig_default : SimConfig :=
  mkSimConfig "127.0.0.1:50051" "gate-sim-01" "sim-0.1.0" 1000 50 "" "" "".

(** [to_wire]. *)
Definition to_wire (s : State) : WireState :=
  match s with
  | Closed => GATE_STATE_CLOSED
  | Opening => GATE_STATE_OPENING
  | Open => GATE_STATE_OPEN
  | Closing => GATE_STATE_CLOSING
  | Faulted => GATE_STATE_FAULT
  | _ => GATE_STATE_UNKNOWN
  end.

Definition gate_wire (v : VirtualGate) : WireState := to_wire (state_ (machine_ v)).

(** The two acks. *)
Definition ack_received_msg (now : Timestamp) (id : string) (st : WireState) : CommandAck :=
  mkAck id (Some now) None false false "" st.
Definition ack_completed_msg (now : Timestamp) (id : string) (success : bool) (error : string)
    (st : WireState) : CommandAck :=
  mkAck id None (Some now) true success (if success then ""%string else error) st.

(** [read_pem] and the credentials of a session. *)
Definition sim_read_pem (fs : string -> option string) (path : string) : string :=
  default ""%string (fs path).
Inductive SimCredentials := SimInsecure | SimSsl (roots cert key : string).
Definition sim_credentials (fs : string -> option string) (c : SimConfig) : SimCredentials :=
  if String.eqb (sim_tls_ca c) "" then SimInsecure
  else if negb (String.eqb (sim_tls_cert c) "")
  then SimSsl (sim_read_pem fs (sim_tls_ca c)) (sim_read_pem fs (sim_tls_cert c))
         (sim_read_pem fs (sim_tls_key c))
  else SimSsl (sim_read_pem fs (sim_tls_ca c)) "" "".

(** ** A session *)

(** Where the session loop is: before [advance], after it, writing the
    drained acks, or out of the loop. *)
Inductive LoopPc := LSleep | LAdvanced | LWriting (hand : list Ack) | LLeft.

(** [sim_reading] is the command the reader has acknowledged and not yet
    carried out; [sim_read] and [sim_done] are the commands so far. *)
Record SimSession := mkSim {
  sim_gate : VirtualGate;
  sim_seq : Z;
  sim_since_ms : Z;
  sim_stream_open : bool;
  sim_reading : option GateCommand;
  sim_loop : LoopPc;
  sim_wire : list (ControlPayload * bool);
  sim_read : list GateCommand;
  sim_done : list GateCommand;
}.

Definition SimSession_new (c : SimConfig) (seq : Z) (v : VirtualGate) : SimSession :=
  mkSim v seq (sim_telemetry_period_ms c) true None LSleep [] [] [].

Definition with_gate (f : VirtualGate -> VirtualGate) (s : SimSession) : SimSession :=
  mkSim (f (sim_gate s)) (sim_seq s) (sim_since_ms s) (sim_stream_open s) (sim_reading s)
    (sim_loop s) (sim_wire s) (sim_read s) (sim_done s).
Definition with_write (p : ControlPayload) (ok : bool) (s : SimSession) : SimSession :=
  mkSim (sim_gate s) (sim_seq s) (sim_since_ms s) (sim_stream_open s) (sim_reading s)
    (sim_loop s) (sim_wire s ++ [(p, ok)]) (sim_read s) (sim_done s).
Definition with_loop (l : LoopPc) (s : SimSession) : SimSession :=
  mkSim (sim_gate s) (sim_seq s) (sim_since_ms s) (sim_stream_open s) (sim_reading s)
    l (sim_wire s) (sim_read s) (sim_done s).

(** The reader's turn up to the received ack. *)
Definition reader_ack (now : Timestamp) (ok : bool) (cmd : GateCommand) (s : SimSession)
    : SimSession :=
  let s := with_write (CAck (ack_received_msg now (command_id cmd) (gate_wire (sim_gate s)))) ok s in
  mkSim (sim_gate s) (sim_seq s) (sim_since_ms s) (sim_stream_open s) (Some cmd)
    (sim_loop s) (sim_wire s) (sim_read s ++ [cmd]) (sim_done s).

(** The reader's switch over the command's kind. *)
Definition reader_dispatch (now : Timestamp) (ok : bool) (cmd : GateCommand) (s : SimSession)
    : SimSession :=
  let id := command_id cmd in
  let complete success error s :=
    with_write (CAck (ack_completed_msg now id success error (gate_wire (sim_gate s)))) ok s in
  let s :=
    match cmd_kind cmd with
    | COMMAND_KIND_OPEN_GATE => with_gate (issue id CmdOpen) s
    | COMMAND_KIND_CLOSE_GATE => with_gate (issue id CmdClose) s
    | COMMAND_KIND_LED_PATTERN => complete true ""%string s
    | COMMAND_KIND_REBOOT => complete true ""%string (with_gate reboot s)
    | COMMAND_KIND_BEGIN_OTA => complete false "simulator has no flash to update"%string s
    | _ => complete false "unsupported on the simulated residential profile"%string s
    end in
  mkSim (sim_gate s) (sim_seq s) (sim_since_ms s) (sim_stream_open s) None
    (sim_loop s) (sim_wire s) (sim_read s) (sim_done s ++ [cmd]).

(** The telemetry of the session loop. *)
Definition telemetry_msg (c : SimConfig) (now : Timestamp) (uptime : Z) (s : SimSession)
    : TelemetryMsg :=
  let v := sim_gate s in
  mkTelemetryMsg
    (mkTelemetry (sim_gate_id c) (Some now) (gate_wire v) (vg_limit_open v) (vg_limit_closed v)
       (beam_clear v) (u32 uptime) 0 0 (sim_fw_version c) (sim_seq s)) 0 f_zero f_zero "".

(** The end of a loop turn: telemetry when its period has passed; a failed
    write leaves the loop. *)
Definition loop_telemetry (c : SimConfig) (now : Timestamp) (uptime : Z) (ok : bool)
    (s : SimSession) : SimSession :=
  let since := u64 (sim_since_ms s + sim_tick_ms c) in
  if sim_telemetry_period_ms c <=? since
  then
    let p := CTelemetry (telemetry_msg c now uptime s) in
    mkSim (sim_gate s) (u64 (sim_seq s + 1)) 0 (sim_stream_open s) (sim_reading s)
      (if ok then LSleep else LLeft) (sim_wire s ++ [(p, ok)]) (sim_read s) (sim_done s)
  else mkSim (sim_gate s) (sim_seq s) since (sim_stream_open s) (sim_reading s)
         LSleep (sim_wire s) (sim_read s) (sim_done s).

(** The console: what a line does to the gate, [None] for a line that does
    not touch it. *)
Definition console_op (line : string) : option VgOp :=
  if String.eqb line "open" then Some VgOpen
  else if String.eqb line "close" then Some VgClose
  else if String.eqb line "stop" then Some VgStop
  else if String.eqb line "trip" then Some VgTrip
  else if String.eqb line "clear" then Some VgClear
  else if String.eqb line "fault-clear" then Some VgClearFault
  else if String.eqb line "reboot" then Some VgReboot
  else None.

Inductive SimLabel :=
| SRead (now : Timestamp) (ok : bool) (cmd : GateCommand)
| SDispatch (now : Timestamp) (ok : bool)
| SReaderEnds
| STick (shutdown : bool)
| SDrain
| SWriteAck (now : Timestamp) (ok : bool)
| STelemetry (now : Timestamp) (uptime : Z) (ok : bool)
| SConsole (line : string).

Definition sim_exec (c : SimConfig) (l : SimLabel) (s : SimSession) : option SimSession :=
  match l with
  | SRead now ok cmd =>
      guard (sim_reading s = None /\ sim_stream_open s = true) ;; Some (reader_ack now ok cmd s)
  | SDispatch now ok =>
      match sim_reading s with Some cmd => Some (reader_dispatch now ok cmd s) | None => None end
  | SReaderEnds =>
      match sim_reading s with
      | None => Some (mkSim (sim_gate s) (sim_seq s) (sim_since_ms s) false None (sim_loop s)
                        (sim_wire s) (sim_read s) (sim_done s))
      | Some _ => None
      end
  | STick shutdown =>
      match sim_loop s with
      | LSleep =>
          Some (if sim_stream_open s && negb shutdown
                then with_loop LAdvanced (with_gate (advance (sim_tick_ms c)) s)
                else with_loop LLeft s)
      | _ => None
      end
  | SDrain =>
      match sim_loop s with
      | LAdvanced =>
          let '(v, acks) := drain_acks (sim_gate s) in
          Some (with_loop (LWriting acks) (with_gate (fun _ => v) s))
      | _ => None
      end
  | SWriteAck now ok =>
      match sim_loop s with
      | LWriting (a :: hand) =>
          Some (with_loop (LWriting hand)
                  (with_write (CAck (ack_completed_msg now (va_command_id a) (va_success a)
                                       (va_error a) (gate_wire (sim_gate s)))) ok s))
      | _ => None
      end
  | STelemetry now uptime ok =>
      match sim_loop s with
      | LWriting [] => Some (loop_telemetry c now uptime ok s)
      | _ => None
      end
  | SConsole line =>
      Some (match console_op line with Some op => with_gate (fun v => vg_do v op) s | None => s end)
  end.

Fixpoint sim_run (c : SimConfig) (ls : list SimLabel) (s : SimSession) : option SimSession :=
  match ls with
  | [] => Some s
  | l :: ls => s' ← sim_exec c l s; sim_run c ls s'
  end.

(** ** Every command is answered *)

(** The ids a gate still owes a completion for, oldest first. *)
Definition owed (v : VirtualGate) : list string :=
  map va_command_id (acks_ v) ++ in_flight (vg_tracker v).

Lemma record_owed op v :
  owed (record_verdict (tracker_do (vg_tracker v) op) v) = owed v ++ armed_ids [op].
Proof.
  pose proof (tracker_do_balance (vg_tracker v) op) as H.
  destruct (tracker_do (vg_tracker v) op) as [t vd]. unfold owed. cbn [record_verdict set_vg_tracker
    acks_ vg_tracker]. rewrite <- app_assoc, H. destruct (v_fire vd); [|done].
  by rewrite map_app, <- app_assoc.
Qed.

Lemma actions_owed acts v : owed (foldl vg_action v acts) = owed v.
Proof.
  revert v. induction acts as [|a acts IH]; intros v; [done|]. cbn [foldl]. rewrite IH. by destruct a.
Qed.

Lemma effects_owed out v : owed (vg_effects out v) = owed v.
Proof.
  unfold vg_effects. set (v1 := foldl _ _ _). assert (Ho : owed v1 = owed v) by apply actions_owed.
  clearbody v1. set (v2 := if transitioned out then _ else v1).
  assert (H2 : owed v2 = owed v) by (rewrite <- Ho; unfold v2; by destruct (transitioned out)).
  clearbody v2. destruct (_ || _); [|done].
  rewrite <- H2. etransitivity;
    [apply (record_owed (TGateEvent (new_state out) (out_reason out) (transitioned out)))|].
  by rewrite app_nil_r.
Qed.

Lemma apply_locked_owed fuel out v : owed (apply_locked fuel out v) = owed v.
Proof.
  revert out v. induction fuel as [|fuel IH]; intros out v; cbn [apply_locked].
  - repeat case_match; apply effects_owed.
  - destruct (_ && _).
    + destruct (handle _ _) as [m o]. rewrite IH. apply effects_owed.
    + destruct (_ && _); apply effects_owed.
Qed.

Lemma apply_owed mo v : owed (apply mo v) = owed v.
Proof. unfold apply. by rewrite apply_locked_owed. Qed.

Lemma step_owed ev v : owed (step_locked ev v) = owed v.
Proof. apply apply_owed. Qed.

Lemma deadlines_owed a b v : owed (set_deadlines a b v) = owed v.
Proof. done. Qed.

Lemma resolve_owed v : owed (resolve_position_locked v) = owed v.
Proof. unfold resolve_position_locked. repeat case_match; apply apply_owed. Qed.

Lemma reboot_owed v : owed (reboot v) = owed v.
Proof. unfold reboot. rewrite resolve_owed. by destruct (beam_blocked_ _). Qed.

Lemma issue_owed id c v : owed (issue id c v) = owed v ++ [cstr_copy kMaxCommandId id].
Proof.
  unfold issue. rewrite step_owed.
  apply (record_owed (TArm id (match c with CmdOpen => Open | CmdClose => Closed end) _)).
Qed.

Lemma advance_owed dt v : owed (advance dt v) = owed v.
Proof.
  unfold advance. set (v0 := set_now _ v). set (v1 := record_verdict _ v0).
  assert (H1 : owed v1 = owed v).
  { etransitivity; [apply (record_owed (TTick (u32 (now_ms_ v0))) v0)|]. by rewrite app_nil_r. }
  clearbody v1.
  assert (H2 : owed (vg_move dt v1) = owed v).
  { rewrite <- H1. unfold vg_move. repeat case_match; try done; by rewrite step_owed. }
  set (v2 := vg_move dt v1) in *. clearbody v2.
  destruct (negb (watchdog_deadline_ v2 =? 0) && _);
    destruct (negb _ && _); by rewrite ?step_owed, ?deadlines_owed, ?step_owed, ?deadlines_owed.
Qed.

Lemma console_owed line op v : console_op line = Some op -> owed (vg_do v op) = owed v.
Proof.
  unfold console_op. repeat case_match; intros [= <-]; cbn [vg_do];
    unfold local_open, local_close, operator_stop, trip_beam, clear_beam, vg_clear_fault;
    rewrite ?step_owed; try done; [|apply reboot_owed].
  case_match; [by rewrite resolve_owed, step_owed|by rewrite step_owed].
Qed.

(** The id under which a command is completed: motion commands go through
    the tracker's 40-byte buffer. *)
Definition answer_id (cmd : GateCommand) : string :=
  match cmd_kind cmd with
  | COMMAND_KIND_OPEN_GATE | COMMAND_KIND_CLOSE_GATE => cstr_copy kMaxCommandId (command_id cmd)
  | _ => command_id cmd
  end.

(** The acks on the wire, delivered or not. *)
Definition acks_of (completed : bool) (w : list (ControlPayload * bool)) : list string :=
  omap (fun x => match x.1 with
                 | CAck a => if Bool.eqb (ack_completed a) completed
                             then Some (ack_command_id a) else None
                 | _ => None
                 end) w.

Lemma acks_of_snoc b w x : acks_of b (w ++ [x]) = acks_of b w ++ acks_of b [x].
Proof. apply omap_app. Qed.

Definition in_hand (l : LoopPc) : list string :=
  match l with LWriting hand => map va_command_id hand | _ => [] end.

Record SimInv (before : list string) (s : SimSession) : Prop := {
  si_received : acks_of false (sim_wire s) = map command_id (sim_read s);
  si_reading : sim_read s =
    sim_done s ++ match sim_reading s with Some cmd => [cmd] | None => [] end;
  si_completed : acks_of true (sim_wire s) ++ in_hand (sim_loop s) ++ owed (sim_gate s)
    ≡ₚ before ++ map answer_id (sim_done s);
}.

Lemma complete_perm (a b c d : list string) x :
  a ++ b ++ c ≡ₚ d -> (a ++ [x]) ++ b ++ c ≡ₚ d ++ [x].
Proof. intros <-. rewrite <- !app_assoc. solve_Permutation. Qed.

Lemma SimInv_dispatch o now ok cmd s :
  SimInv o s -> sim_reading s = Some cmd -> SimInv o (reader_dispatch now ok cmd s).
Proof.
  intros [Hr Hrd Hc] Hcmd. rewrite Hcmd in Hrd.
  assert (Hnow : forall success error v, owed v = owed (sim_gate s) ->
    answer_id cmd = command_id cmd ->
    SimInv o (mkSim v (sim_seq s) (sim_since_ms s) (sim_stream_open s) None (sim_loop s)
      (sim_wire s ++ [(CAck (ack_completed_msg now (command_id cmd) success error (gate_wire v)), ok)])
      (sim_read s) (sim_done s ++ [cmd]))).
  { intros success error v Ho Hid. split; cbn [sim_wire sim_read sim_done sim_reading sim_loop sim_gate].
    - rewrite acks_of_snoc. cbn. by rewrite app_nil_r.
    - by rewrite app_nil_r.
    - rewrite acks_of_snoc, map_app, Ho. cbn [map]. rewrite Hid, (app_assoc o). by apply complete_perm. }
  assert (Hlater : forall c, answer_id cmd = cstr_copy kMaxCommandId (command_id cmd) ->
    SimInv o (mkSim (issue (command_id cmd) c (sim_gate s)) (sim_seq s) (sim_since_ms s)
      (sim_stream_open s) None (sim_loop s) (sim_wire s) (sim_read s) (sim_done s ++ [cmd]))).
  { intros c Hid. split; cbn [sim_wire sim_read sim_done sim_reading sim_loop sim_gate].
    - done.
    - by rewrite app_nil_r.
    - rewrite issue_owed, map_app. cbn [map]. rewrite Hid, !app_assoc. apply Permutation_app_tail.
      by rewrite <- app_assoc. }
  unfold reader_dispatch, answer_id in *. destruct (cmd_kind cmd);
    first [by apply Hlater | by apply Hnow | by apply Hnow; [apply reboot_owed|]].
Qed.

Lemma SimInv_exec o c l s s' : SimInv o s -> sim_exec c l s = Some s' -> SimInv o s'.
Proof.
  intros Hs Hx. pose proof Hs as [Hr Hrd Hc].
  destruct l as [now ok cmd|now ok| |shut| |now ok|now up ok|line]; cbn [sim_exec] in Hx.
  - case_guard as Hg; [|done]. injection Hx as <-. apply proj1 in Hg. rewrite Hg in Hrd.
    split; cbn [reader_ack with_write sim_wire sim_read sim_done sim_reading sim_loop sim_gate].
    + rewrite acks_of_snoc, map_app, Hr. done.
    + rewrite Hrd. by rewrite app_nil_r.
    + rewrite acks_of_snoc. cbn. by rewrite app_nil_r.
  - destruct (sim_reading s) as [cmd|] eqn:E; [|done]. injection Hx as <-. by apply SimInv_dispatch.
  - destruct (sim_reading s) as [cmd|] eqn:E; [done|]. injection Hx as <-. by split.
  - destruct (sim_loop s) eqn:E; try done. injection Hx as <-. destruct (_ && _); split;
      cbn [with_loop with_gate sim_wire sim_read sim_done sim_reading sim_loop sim_gate];
      rewrite ?advance_owed; done.
  - destruct (sim_loop s) eqn:E; try done. cbn in Hx. injection Hx as <-. split;
      cbn [with_loop with_gate sim_wire sim_read sim_done sim_reading sim_loop sim_gate]; done.
  - destruct (sim_loop s) as [| |[|a hand]|] eqn:E; try done. injection Hx as <-. split;
      cbn [with_loop with_write sim_wire sim_read sim_done sim_reading sim_loop sim_gate in_hand].
    + rewrite acks_of_snoc. cbn. by rewrite app_nil_r.
    + done.
    + rewrite acks_of_snoc, <- app_assoc. exact Hc.
  - destruct (sim_loop s) as [| |[|a hand]|] eqn:E; try done. injection Hx as <-.
    unfold loop_telemetry. destruct (_ <=? _); [|by split]. split;
      cbn [sim_wire sim_read sim_done sim_reading sim_loop sim_gate].
    + rewrite acks_of_snoc. cbn. by rewrite app_nil_r.
    + done.
    + rewrite acks_of_snoc. cbn [in_hand] in *. destruct ok; cbn; by rewrite app_nil_r.
  - injection Hx as <-. destruct (console_op line) as [op|] eqn:E; [|done]. split;
      cbn [with_gate sim_wire sim_read sim_done sim_reading sim_loop sim_gate]; [done..|].
    by rewrite (console_owed line op).
Qed.

(** C20: The simulator answers every command once.  Under every interleaving
    of the stream reader, the session loop and the operator console, each
    command read from the stream gets one receipt, in order, and each
    command carried out, like each one left over from an earlier session,
    gets one completion under its id: written, about to be written, or still
    owed by the gate. *)
Theorem sim_answers_every_command c ls seq v s
    (Hrun : sim_run c ls (SimSession_new c seq v) = Some s) :
  acks_of false (sim_wire s) = map command_id (sim_read s) /\
  sim_read s = sim_done s ++ match sim_reading s with Some cmd => [cmd] | None => [] end /\
  acks_of true (sim_wire s) ++ in_hand (sim_loop s) ++ owed (sim_gate s)
    ≡ₚ owed v ++ map answer_id (sim_done s).
Proof.
  assert (H0 : SimInv (owed v) (SimSession_new c seq v)) by (split; cbn; by rewrite ?app_nil_r).
  revert H0 Hrun. generalize (SimSession_new c seq v).
  induction ls as [|l ls IH]; intros s0 H0 Hx; cbn [sim_run] in Hx.
  - injection Hx as <-. destruct H0. by split_and!.
  - destruct (sim_exec c l s0) as [s1|] eqn:E; [|done]. apply (IH s1); [by eapply SimInv_exec|done].
Qed.

(** Between two sessions the gate moves on by the reconnect delay. *)
Definition sim_main_turn (reached_server : bool) (v : VirtualGate) : VirtualGate :=
  advance (if reached_server then 1000 else 3000) v.

Lemma sim_main_turn_owes b v : owed (sim_main_turn b v) = owed v.
Proof. apply advance_owed. Qed.

Definition sim_t0 : Timestamp := mkTs 100 0.
Definition sim_sample : list SimLabel :=
  [SRead sim_t0 true (mkCommand "a" COMMAND_KIND_OPEN_GATE 0 ""); SDispatch sim_t0 true;
   STick false; SRead sim_t0 true (mkCommand "b" COMMAND_KIND_REBOOT 0 "");
   SDrain; SDispatch sim_t0 true; STelemetry sim_t0 1 true; SConsole "stop";
   SRead sim_t0 true (mkCommand "c" COMMAND_KIND_CLOSE_GATE 0 ""); SDispatch sim_t0 true].
Definition sim_booted : VirtualGate := boot_closed (VirtualGate_new VgConfig_default).

Lemma sim_answers_every_command_witness :
  exists s, sim_run SimConfig_default sim_sample (SimSession_new SimConfig_default 0 sim_booted) = Some s /\
    acks_of false (sim_wire s) = ["a"; "b"; "c"]%string /\
    acks_of true (sim_wire s) ++ in_hand (sim_loop s) ++ owed (sim_gate s)
      ≡ₚ owed sim_booted ++ ["a"; "b"; "c"]%string.
Proof.
  eexists. split; [vm_compute; reflexivity|].
  split; [vm_compute; reflexivity|]. etransitivity.
  - refine (proj2 (proj2 (sim_answers_every_command SimConfig_default sim_sample 0 sim_booted _ _)));
      vm_compute; reflexivity.
  - vm_compute. reflexivity.
Defined.
