(* ===== verification/MockServer.v ===== *)
(** The stand-alone mock server of the simulation
    (src/simulation/src/mock_server_main.cpp): its event bus, the registry of
    live gate streams, the three services and the synthetic decisions.

    Every lock section of the code is one step; [mock_exec] runs one step of
    any handler, so that a list of labels is one interleaving of the server's
    threads.  Clock readings, random numbers and the answers of the streams
    are arguments.  The code pushes to a subscriber's queue under the bus
    mutex and pops from it under the subscriber's own; a push and a pop are
    each taken as one step here.  [bus_log], [sb_joined], [sb_since],
    [sb_sent] and [ms_wire] are history: no operation reads them. *)

From S2P Require Import Prelude Float32 ControlClient AllowlistStore FusionEngine.
From S2P Require Import EventBroadcaster Grpc RpcServices.
From stdpp Require Import pretty.
From Stdlib Require Import Sorting.Sorted.
Local Open Scope Z_scope.

(** ** EventBus *)

Definition kRing : nat := 128.

Record Subscriber := mkSubscriber {
  sb_queue : list DashboardEvent; sb_sent : list DashboardEvent;
  sb_joined : nat; sb_since : Z;
}.

Record EventBus := mkBus {
  ring_ : list DashboardEvent; subscribers_ : gmap Z Subscriber;
  next_id_ : Z; next_sub_id_ : Z; bus_log : list DashboardEvent;
}.

Definition EventBus_new : EventBus := mkBus [] ∅ 1 1 [].

(** The queue of one subscriber after [push_back]. *)
Definition push_back (e : DashboardEvent) (s : Subscriber) : Subscriber :=
  mkSubscriber (sb_queue s ++ [e]) (sb_sent s) (sb_joined s) (sb_since s).

(** [EventBus::publish]. *)
Definition bus_publish (now : Timestamp) (p : Payload) (b : EventBus) : EventBus :=
  let e := mkEvent (next_id_ b) (Some now) p in
  mkBus (last_n kRing (ring_ b ++ [e])) (push_back e <$> subscribers_ b)
    (u64 (next_id_ b + 1)) (next_sub_id_ b) (bus_log b ++ [e]).

(** The events a new subscriber is given. *)
Definition newer (since : Z) (l : list DashboardEvent) : list DashboardEvent :=
  base.filter (fun e => since < event_id e) l.

(** [EventBus::subscribe]: the subscriber's id, and the bus. *)
Definition bus_subscribe (since : Z) (b : EventBus) : Z * EventBus :=
  let s := mkSubscriber (newer since (ring_ b)) [] (length (bus_log b)) since in
  (next_sub_id_ b,
   mkBus (ring_ b) (<[next_sub_id_ b := s]> (subscribers_ b)) (next_id_ b)
     (u64 (next_sub_id_ b + 1)) (bus_log b)).

(** [EventBus::unsubscribe]. *)
Definition bus_unsubscribe (id : Z) (b : EventBus) : EventBus :=
  mkBus (ring_ b) (delete id (subscribers_ b)) (next_id_ b) (next_sub_id_ b) (bus_log b).

Definition set_subscriber (id : Z) (s : Subscriber) (b : EventBus) : EventBus :=
  mkBus (ring_ b) (<[id := s]> (subscribers_ b)) (next_id_ b) (next_sub_id_ b) (bus_log b).

(** ** Gate sessions *)

(** One [Control] call: [ms_pending] is the payload it has read and not yet
    published, [ms_open] says that its loop still runs. *)
Record GateSession := mkGateSession {
  ms_gate : string; ms_alive : bool; ms_open : bool; ms_pending : option Payload;
  ms_wire : list GateCommandMsg;
}.

Definition GateSession_new : GateSession := mkGateSession "" true true None [].

(** [GateSession::send_command]; [write_ok] is the stream's answer. *)
Definition send_command (write_ok : bool) (c : GateCommandMsg) (s : GateSession)
    : bool * GateSession :=
  if negb (ms_alive s) then (false, s)
  else if write_ok
  then (true, mkGateSession (ms_gate s) (ms_alive s) (ms_open s) (ms_pending s) (ms_wire s ++ [c]))
  else (false, s).

(** [GateRegistry]: the session of each gate. *)
Definition registry_put (gate : string) (k : nat) (r : gmap string nat) : gmap string nat :=
  <[gate := k]> r.
Definition registry_drop (gate : string) (k : nat) (r : gmap string nat) : gmap string nat :=
  match r !! gate with
  | Some k' => if (k' =? k)%nat then delete gate r else r
  | None => r
  end.

(** What the reader loop of [Control] does with an envelope before it
    publishes: the session, and whether it registers. *)
Definition Control_read (env : ControlPayload) (s : GateSession) : GateSession * bool :=
  let upd gate p := mkGateSession gate (ms_alive s) (ms_open s) p (ms_wire s) in
  match env with
  | CTelemetry t =>
      if String.eqb (ms_gate s) ""
      then (upd (t_gate_id (tm_base t)) (Some (kTelemetry t)), true)
      else (upd (ms_gate s) (Some (kTelemetry t)), false)
  | CAck a => (upd (ms_gate s) (Some (kAck a)), false)
  | CFault f => (upd (ms_gate s) (Some (kFault f)), false)
  | CCommand _ | C_NOT_SET => (s, false)
  end.

(** ** MockAdmin *)

(** [UpsertAllowlist]: the entries, and the counts of the reply. *)
Definition mock_upsert_one (st : gmap string Allowlistentry * UpsertStats) (e : Allowlistentry)
    : gmap string Allowlistentry * UpsertStats :=
  let '(m, r) := st in
  (<[plate_text e := e]> m,
   match m !! plate_text e with
   | Some _ => mkStats (inserted r) (u32 (updated r + 1))
   | None => mkStats (u32 (inserted r + 1)) (updated r)
   end).
Definition mock_upsert (es : list Allowlistentry) (m : gmap string Allowlistentry)
    : gmap string Allowlistentry * UpsertStats :=
  foldl mock_upsert_one (m, mkStats 0 0) es.

(** The keys in the order [std::map] keeps them. *)
Definition mock_plates (m : gmap string Allowlistentry) : list string :=
  foldr insert_plate [] (map fst (map_to_list m)).

(** [ListAllowlist]. *)
Definition mock_list (m : gmap string Allowlistentry) : list Allowlistentry :=
  omap (fun p => m !! p) (mock_plates m).

(** [DeleteAllowlist]: the conditional takes the whole sum as its test. *)
Definition mock_delete_one (st : gmap string Allowlistentry * Z) (p : string)
    : gmap string Allowlistentry * Z :=
  let '(m, n) := st in
  (delete p m, if 0 <? n + (match m !! p with Some _ => 1 | None => 0 end) then 1 else 0).
Definition mock_delete (plates : list string) (m : gmap string Allowlistentry)
    : gmap string Allowlistentry * Z :=
  foldl mock_delete_one (m, 0) plates.

(** ** Synthetic decisions *)

Definition f_0_9 : f32 := S754_finite false 15099494 (-24).
Definition f_0_8 : f32 := S754_finite false 13421773 (-24).

(** A letter from a random number, and the plate of a stranger. *)
Definition letter (r : Z) : string :=
  String (Ascii.ascii_of_nat (65 + Z.to_nat (r mod 26))) EmptyString.
Definition pad_3 (n : Z) : string :=
  (if n <? 10 then "00" else if n <? 100 then "0" else "") +:+ pretty n.
Definition random_plate (r1 r2 r3 r4 : Z) : string :=
  "K" +:+ letter r1 +:+ letter r2 +:+ pad_3 (r3 mod 1000) +:+ letter r4.

(** The random numbers of one turn, each in the place it is used. *)
Record Draws := mkDraws { dr_plate : Z; dr_conf : Z; dr_1 : Z; dr_2 : Z; dr_3 : Z; dr_4 : Z }.

(** The body of [decision_loop] up to the publication. *)
Definition synthetic_decision (id : string) (now : Timestamp) (authorized_turn : bool)
    (plates : list string) (r : Draws) : AuthDecision :=
  match authorized_turn, plates !! Z.to_nat (dr_plate r mod Z.of_nat (length plates)) with
  | true, Some plate =>
      mkDecision id (ts_seconds now) "gate-sim-01" AUTHORIZED DENY_NONE plate 4
        (fadd f_0_9 (fdiv (f32_of_Z (dr_conf r mod 10)) (f32_of_Z 100)))
        "allowlist match (synthetic)" 0 "mock-alpr"
  | _, _ =>
      mkDecision id (ts_seconds now) "gate-sim-01" DENIED NOT_ON_ALLOWLIST
        (random_plate (dr_1 r) (dr_2 r) (dr_3 r) (dr_4 r)) 4 f_0_8
        "no allowlist match (synthetic)" 0 "mock-alpr"
  end.

(** ** The server *)

(** One [IssueCommand] call between its lock sections. *)
Inductive IssueCall :=
| Found (c : GateCommandMsg) (k : nat)
| Announced (c : GateCommandMsg) (k : nat)
| Done (r : Reply CommandAck).

(** One [Subscribe] call: its subscriber, and the event it has popped. *)
Record Feed := mkFeed { fd_sub : Z; fd_hand : option DashboardEvent }.

Record Mock := mkMock {
  mk_bus : EventBus; mk_gates : gmap string nat; mk_sessions : gmap nat GateSession;
  mk_calls : gmap nat IssueCall; mk_feeds : gmap nat Feed;
  mk_entries : gmap string Allowlistentry; mk_counter : Z;
  mk_turn : bool; mk_decision : option AuthDecision;
}.

Definition Mock_new : Mock := mkMock EventBus_new ∅ ∅ ∅ ∅ ∅ 1 true None.

Definition set_mbus (b : EventBus) (m : Mock) : Mock :=
  mkMock b (mk_gates m) (mk_sessions m) (mk_calls m) (mk_feeds m) (mk_entries m) (mk_counter m)
    (mk_turn m) (mk_decision m).
Definition set_gates (r : gmap string nat) (m : Mock) : Mock :=
  mkMock (mk_bus m) r (mk_sessions m) (mk_calls m) (mk_feeds m) (mk_entries m) (mk_counter m)
    (mk_turn m) (mk_decision m).
Definition set_msession (k : nat) (s : GateSession) (m : Mock) : Mock :=
  mkMock (mk_bus m) (mk_gates m) (<[k := s]> (mk_sessions m)) (mk_calls m) (mk_feeds m)
    (mk_entries m) (mk_counter m) (mk_turn m) (mk_decision m).
Definition set_call (j : nat) (c : IssueCall) (m : Mock) : Mock :=
  mkMock (mk_bus m) (mk_gates m) (mk_sessions m) (<[j := c]> (mk_calls m)) (mk_feeds m)
    (mk_entries m) (mk_counter m) (mk_turn m) (mk_decision m).
Definition set_feeds (f : gmap nat Feed) (m : Mock) : Mock :=
  mkMock (mk_bus m) (mk_gates m) (mk_sessions m) (mk_calls m) f (mk_entries m) (mk_counter m)
    (mk_turn m) (mk_decision m).
Definition set_entries (es : gmap string Allowlistentry) (m : Mock) : Mock :=
  mkMock (mk_bus m) (mk_gates m) (mk_sessions m) (mk_calls m) (mk_feeds m) es (mk_counter m)
    (mk_turn m) (mk_decision m).
Definition set_counter (n : Z) (m : Mock) : Mock :=
  mkMock (mk_bus m) (mk_gates m) (mk_sessions m) (mk_calls m) (mk_feeds m) (mk_entries m) n
    (mk_turn m) (mk_decision m).
Definition set_decision (t : bool) (d : option AuthDecision) (m : Mock) : Mock :=
  mkMock (mk_bus m) (mk_gates m) (mk_sessions m) (mk_calls m) (mk_feeds m) (mk_entries m)
    (mk_counter m) t d.

(** [fresh_id]. *)
Definition mock_fresh_id (prefix : string) (m : Mock) : string * Mock :=
  (prefix +:+ "-" +:+ pretty (mk_counter m), set_counter (u64 (mk_counter m + 1)) m).

(** The first part of [IssueCommand], up to the lookup of the session. *)
Definition mock_issue (now : Timestamp) (req : GateCommandMsg) (m : Mock) : IssueCall * Mock :=
  if String.eqb (cm_gate_id req) "" then (Done (refuse INVALID_ARGUMENT "gate_id is required"), m)
  else
    let b := cm_base req in
    let '(id, m) := if String.eqb (command_id b) "" then mock_fresh_id "cmd" m
                    else (command_id b, m) in
    let c := mkCommandMsg (mkCommand id (cmd_kind b) (cmd_led_pattern b) (cmd_actor b)) (Some now)
               (cm_gate_id req) (cm_duration req) (cm_relay_index req) (cm_signature req) in
    (match mk_gates m !! cm_gate_id c with
     | None => Done (refuse NOT_FOUND ("gate not connected: " +:+ cm_gate_id c))
     | Some k => Found c k
     end, m).

(** The last part: the write, and the reply. *)
Definition mock_send (now : Timestamp) (write_ok : bool) (c : GateCommandMsg) (s : GateSession)
    : Reply CommandAck * GateSession :=
  match send_command write_ok c s with
  | (true, s) =>
      (answer (mkAck (command_id (cm_base c)) (Some now) None false false "" GATE_STATE_UNKNOWN), s)
  | (false, s) => (refuse UNAVAILABLE "gate stream just closed", s)
  end.

(** [Authorize]. *)
Definition mock_authorize : Reply AuthDecision :=
  refuse UNIMPLEMENTED "mock server has no fusion engine".

Inductive MockLabel :=
| MConnect (k : nat)
| MRead (k : nat) (env : ControlPayload)
| MPublish (k : nat) (now : Timestamp)
| MEnd (k : nat)
| MDrop (k : nat)
| MIssue (j : nat) (now : Timestamp) (req : GateCommandMsg)
| MAnnounce (j : nat) (now : Timestamp)
| MSend (j : nat) (now : Timestamp) (write_ok : bool)
| MSubscribe (i : nat) (since : Z)
| MPop (i : nat)
| MWrite (i : nat) (ok : bool)
| MLeave (i : nat)
| MUpsert (es : list Allowlistentry)
| MDelete (plates : list string)
| MDecide (now : Timestamp) (r : Draws)
| MDecided (now : Timestamp).

(** One step; [None] is a step that the handler is not ready for. *)
Definition mock_exec (l : MockLabel) (m : Mock) : option Mock :=
  match l with
  | MConnect k =>
      match mk_sessions m !! k with
      | None => Some (set_msession k GateSession_new m)
      | Some _ => None
      end
  | MRead k env =>
      match mk_sessions m !! k with
      | Some s =>
          match ms_open s, ms_pending s with
          | true, None =>
              let '(s, put) := Control_read env s in
              let m := set_msession k s m in
              Some (if put then set_gates (registry_put (ms_gate s) k (mk_gates m)) m else m)
          | _, _ => None
          end
      | None => None
      end
  | MPublish k now =>
      match mk_sessions m !! k with
      | Some s =>
          match ms_pending s with
          | Some p =>
              Some (set_mbus (bus_publish now p (mk_bus m))
                (set_msession k (mkGateSession (ms_gate s) (ms_alive s) (ms_open s) None (ms_wire s)) m))
          | None => None
          end
      | None => None
      end
  | MEnd k =>
      match mk_sessions m !! k with
      | Some s =>
          match ms_open s, ms_pending s with
          | true, None => Some (set_msession k (mkGateSession (ms_gate s) false false None (ms_wire s)) m)
          | _, _ => None
          end
      | None => None
      end
  | MDrop k =>
      match mk_sessions m !! k with
      | Some s =>
          if ms_open s then None
          else if String.eqb (ms_gate s) "" then Some m
          else Some (set_gates (registry_drop (ms_gate s) k (mk_gates m)) m)
      | None => None
      end
  | MIssue j now req =>
      match mk_calls m !! j with
      | None => let '(c, m) := mock_issue now req m in Some (set_call j c m)
      | Some _ => None
      end
  | MAnnounce j now =>
      match mk_calls m !! j with
      | Some (Found c k) =>
          Some (set_call j (Announced c k) (set_mbus (bus_publish now (kCommand c) (mk_bus m)) m))
      | _ => None
      end
  | MSend j now ok =>
      match mk_calls m !! j with
      | Some (Announced c k) =>
          match mk_sessions m !! k with
          | Some s => let '(r, s) := mock_send now ok c s in Some (set_call j (Done r) (set_msession k s m))
          | None => None
          end
      | _ => None
      end
  | MSubscribe i since =>
      match mk_feeds m !! i with
      | None =>
          let '(id, b) := bus_subscribe since (mk_bus m) in
          Some (set_feeds (<[i := mkFeed id None]> (mk_feeds m)) (set_mbus b m))
      | Some _ => None
      end
  | MPop i =>
      match mk_feeds m !! i with
      | Some (mkFeed id None) =>
          match subscribers_ (mk_bus m) !! id with
          | Some s =>
              match sb_queue s with
              | e :: q =>
                  Some (set_feeds (<[i := mkFeed id (Some e)]> (mk_feeds m))
                    (set_mbus (set_subscriber id (mkSubscriber q (sb_sent s) (sb_joined s) (sb_since s))
                       (mk_bus m)) m))
              | [] => None
              end
          | None => None
          end
      | _ => None
      end
  | MWrite i ok =>
      match mk_feeds m !! i with
      | Some (mkFeed id (Some e)) =>
          match subscribers_ (mk_bus m) !! id with
          | Some s =>
              Some (if ok
                    then set_feeds (<[i := mkFeed id None]> (mk_feeds m))
                           (set_mbus (set_subscriber id (mkSubscriber (sb_queue s) (sb_sent s ++ [e])
                              (sb_joined s) (sb_since s)) (mk_bus m)) m)
                    else set_feeds (delete i (mk_feeds m)) (set_mbus (bus_unsubscribe id (mk_bus m)) m))
          | None => None
          end
      | _ => None
      end
  | MLeave i =>
      match mk_feeds m !! i with
      | Some (mkFeed id None) =>
          Some (set_feeds (delete i (mk_feeds m)) (set_mbus (bus_unsubscribe id (mk_bus m)) m))
      | _ => None
      end
  | MUpsert es => Some (set_entries (mock_upsert es (mk_entries m)).1 m)
  | MDelete ps => Some (set_entries (mock_delete ps (mk_entries m)).1 m)
  | MDecide now r =>
      match mk_decision m with
      | None =>
          let '(id, m) := mock_fresh_id "dec" m in
          Some (set_decision (negb (mk_turn m))
                  (Some (synthetic_decision id now (mk_turn m) (mock_plates (mk_entries m)) r)) m)
      | Some _ => None
      end
  | MDecided now =>
      match mk_decision m with
      | Some d =>
          Some (set_decision (mk_turn m) None (set_mbus (bus_publish now (kDecision d) (mk_bus m)) m))
      | None => None
      end
  end.

Fixpoint mock_run (ls : list MockLabel) (m : Mock) : option Mock :=
  match ls with
  | [] => Some m
  | l :: ls => m ← mock_exec l m; mock_run ls m
  end.

(** ** The feed *)

Definition list_of_option {A} (o : option A) : list A := match o with Some a => [a] | None => [] end.

(** What a subscriber that joined after [n] events is due. *)
Definition due (since : Z) (n : nat) (l : list DashboardEvent) : list DashboardEvent :=
  newer since (last_n kRing (take n l)) ++ drop n l.

(** Event ids count from one. *)
Definition numbered (l : list DashboardEvent) : Prop :=
  forall i e, l !! i = Some e -> event_id e = Z.of_nat i + 1.

(** The subscriber with some popped event in hand has had its due. *)
Definition served (log : list DashboardEvent) (hand : option DashboardEvent) (s : Subscriber) : Prop :=
  (sb_joined s <= length log)%nat /\
  sb_sent s ++ list_of_option hand ++ sb_queue s = due (sb_since s) (sb_joined s) log.

(** [n] steps have been taken. *)
Record Feeding (n : nat) (m : Mock) : Prop := {
  fe_ids : numbered (bus_log (mk_bus m));
  fe_next : next_id_ (mk_bus m) = Z.of_nat (length (bus_log (mk_bus m))) + 1;
  fe_len : (length (bus_log (mk_bus m)) <= n)%nat;
  fe_ring : ring_ (mk_bus m) = last_n kRing (bus_log (mk_bus m));
  fe_sub : 1 <= next_sub_id_ (mk_bus m) <= Z.of_nat n + 1;
  fe_used id : is_Some (subscribers_ (mk_bus m) !! id) -> id < next_sub_id_ (mk_bus m);
  fe_served i f : mk_feeds m !! i = Some f ->
    exists s, subscribers_ (mk_bus m) !! fd_sub f = Some s /\ served (bus_log (mk_bus m)) (fd_hand f) s;
  fe_own i j f f' : mk_feeds m !! i = Some f -> mk_feeds m !! j = Some f' ->
    fd_sub f = fd_sub f' -> i = j;
}.

Lemma due_snoc since n l e : (n <= length l)%nat -> due since n (l ++ [e]) = due since n l ++ [e].
Proof.
  intros Hn. unfold due. rewrite take_app_le, drop_app_le by done. by rewrite app_assoc.
Qed.

Lemma served_push log hand s e : served log hand s -> served (log ++ [e]) hand (push_back e s).
Proof.
  intros [Hj Hd]. split; [cbn; rewrite length_app; lia|]. cbn [push_back sb_sent sb_queue sb_joined sb_since].
  rewrite due_snoc, <- Hd by done. by rewrite !app_assoc.
Qed.

Lemma Feeding_same n m m' :
  mk_bus m' = mk_bus m -> mk_feeds m' = mk_feeds m -> Feeding n m -> Feeding (S n) m'.
Proof. intros Hb Hf []. split; rewrite ?Hb, ?Hf; auto; lia. Qed.

Lemma Feeding_publish n m m' now p :
  Z.of_nat n + 2 < 2 ^ 64 ->
  mk_bus m' = bus_publish now p (mk_bus m) -> mk_feeds m' = mk_feeds m -> Feeding n m -> Feeding (S n) m'.
Proof.
  intros Hlt Hb Hf [I N L R S U V O]. split; rewrite ?Hb, ?Hf; cbn [bus_publish bus_log next_id_ ring_
    next_sub_id_ subscribers_]; try done.
  - intros i e [[_ Hi]|[-> <-]]%lookup_snoc_Some; [by apply I|]. cbn. rewrite N. lia.
  - rewrite length_app. cbn. rewrite N, u64_small by lia. lia.
  - rewrite length_app. cbn. lia.
  - rewrite R. apply last_n_snoc_idemp. unfold kRing. lia.
  - lia.
  - intros id. rewrite lookup_fmap, fmap_is_Some. apply U.
  - intros i f Hi. destruct (V i f Hi) as (s & Hs & Hsv). eexists. rewrite lookup_fmap, Hs.
    split; [done|]. by apply served_push.
Qed.

Lemma Feeding_subscribe n m i since :
  Z.of_nat n + 2 < 2 ^ 64 -> mk_feeds m !! i = None -> Feeding n m ->
  Feeding (S n) (set_feeds (<[i := mkFeed (next_sub_id_ (mk_bus m)) None]> (mk_feeds m))
    (set_mbus (bus_subscribe since (mk_bus m)).2 m)).
Proof.
  intros Hlt Hi [I N L R S U V O].
  assert (Hnew : forall j f, mk_feeds m !! j = Some f -> fd_sub f <> next_sub_id_ (mk_bus m)).
  { intros j f Hj Heq. destruct (V j f Hj) as (s & Hs & _). rewrite Heq in Hs.
    specialize (U _ (ex_intro _ s Hs)). lia. }
  split; cbn [set_feeds set_mbus mk_bus mk_feeds bus_subscribe snd bus_log next_id_ ring_ next_sub_id_ subscribers_];
    try done.
  - lia.
  - rewrite u64_small by lia. lia.
  - intros id. destruct (decide (id = next_sub_id_ (mk_bus m))) as [->|Hne].
    + intros _. rewrite u64_small by lia. lia.
    + rewrite lookup_insert_ne by done. intros H%U. rewrite u64_small by lia. lia.
  - intros j f. destruct (decide (j = i)) as [->|Hne].
    + rewrite lookup_insert_eq. intros [= <-]. cbn [fd_sub fd_hand]. rewrite lookup_insert_eq.
      eexists. split; [done|]. split; [done|]. cbn [sb_sent sb_queue sb_joined sb_since list_of_option app].
      unfold due. rewrite firstn_all, drop_all, app_nil_r, R. done.
    + rewrite lookup_insert_ne by done. intros Hj. destruct (V j f Hj) as (s & Hs & Hsv).
      exists s. split; [|done]. rewrite lookup_insert_ne; [done|]. intros Heq. by apply (Hnew j f).
  - intros j k f f'. destruct (decide (j = i)) as [->|], (decide (k = i)) as [->|];
      rewrite ?lookup_insert_eq, ?lookup_insert_ne by done; [done| | |by apply O].
    + intros [= <-] Hk Heq. exfalso. by apply (Hnew k f').
    + intros Hj [= <-] Heq. exfalso. by apply (Hnew j f).
Qed.

(** A step of one feed: its subscriber and its hand change together. *)
Lemma Feeding_turn n m i f s f' s' :
  mk_feeds m !! i = Some f -> subscribers_ (mk_bus m) !! fd_sub f = Some s ->
  fd_sub f' = fd_sub f -> sb_joined s' = sb_joined s -> sb_since s' = sb_since s ->
  sb_sent s' ++ list_of_option (fd_hand f') ++ sb_queue s' =
    sb_sent s ++ list_of_option (fd_hand f) ++ sb_queue s ->
  Feeding n m ->
  Feeding (S n) (set_feeds (<[i := f']> (mk_feeds m)) (set_mbus (set_subscriber (fd_sub f) s' (mk_bus m)) m)).
Proof.
  intros Hi Hs Hsub Hj Hsi Heq [I N L R S U V O].
  split; cbn [set_feeds set_mbus mk_bus mk_feeds set_subscriber bus_log next_id_ ring_ next_sub_id_ subscribers_];
    try done; try lia.
  - intros id. destruct (decide (id = fd_sub f)) as [->|Hne].
    + intros _. apply U. by eexists.
    + rewrite lookup_insert_ne by done. apply U.
  - intros j g. destruct (decide (j = i)) as [->|Hne].
    + rewrite lookup_insert_eq. intros [= <-]. rewrite Hsub, lookup_insert_eq. exists s'. split; [done|].
      destruct (V i f Hi) as (s0 & Hs0 & [Hjo Hd]). assert (s0 = s) as -> by congruence.
      split; rewrite Hj; [done|]. by rewrite Heq, Hsi.
    + rewrite lookup_insert_ne by done. intros Hjg. destruct (V j g Hjg) as (s0 & Hs0 & Hsv).
      exists s0. split; [|done]. rewrite lookup_insert_ne; [done|]. intros He.
      apply Hne. by apply (O j i g f).
  - intros j k g g'. destruct (decide (j = i)) as [->|], (decide (k = i)) as [->|];
      rewrite ?lookup_insert_eq, ?lookup_insert_ne by done; [done| | |by apply O].
    + intros [= <-] Hk He. apply (O i k f g'); [done|done|congruence].
    + intros Hj' [= <-] He. apply (O j i g f); [done|done|congruence].
Qed.

Lemma Feeding_leave n m i f :
  mk_feeds m !! i = Some f -> Feeding n m ->
  Feeding (S n) (set_feeds (delete i (mk_feeds m)) (set_mbus (bus_unsubscribe (fd_sub f) (mk_bus m)) m)).
Proof.
  intros Hi [I N L R S U V O].
  split; cbn [set_feeds set_mbus mk_bus mk_feeds bus_unsubscribe bus_log next_id_ ring_ next_sub_id_ subscribers_];
    try done; try lia.
  - intros id [s [_ Hs]%lookup_delete_Some]. apply U. by eexists.
  - intros j g [Hne Hj]%lookup_delete_Some. destruct (V j g Hj) as (s & Hs & Hsv). exists s.
    split; [|done]. rewrite lookup_delete_ne; [done|]. intros He. apply Hne. by apply (O i j f g).
  - intros j k g g' [_ Hj]%lookup_delete_Some [_ Hk]%lookup_delete_Some. by apply O.
Qed.

Lemma mock_issue_frame now req m :
  mk_bus (mock_issue now req m).2 = mk_bus m /\ mk_feeds (mock_issue now req m).2 = mk_feeds m.
Proof. unfold mock_issue. destruct (String.eqb _ _); [done|]. by destruct (String.eqb _ _). Qed.

Lemma Feeding_exec n l m m' :
  Z.of_nat n + 2 < 2 ^ 64 -> Feeding n m -> mock_exec l m = Some m' -> Feeding (S n) m'.
Proof.
  intros Hlt F H.
  destruct l as [k|k env|k now|k|k|j now req|j now|j now ok|i since|i|i ok|i|es|ps|now r|now]; cbn [mock_exec] in H.
  - destruct (mk_sessions m !! k); [done|]. injection H as <-. by apply (Feeding_same n m).
  - destruct (mk_sessions m !! k) as [s|]; [|done]. destruct (ms_open s), (ms_pending s); try done.
    destruct (Control_read env s) as [s' put]. injection H as <-. destruct put; by apply (Feeding_same n m).
  - destruct (mk_sessions m !! k) as [s|]; [|done]. destruct (ms_pending s); [|done].
    injection H as <-. by eapply (Feeding_publish n m).
  - destruct (mk_sessions m !! k) as [s|]; [|done]. destruct (ms_open s), (ms_pending s); try done.
    injection H as <-. by apply (Feeding_same n m).
  - destruct (mk_sessions m !! k) as [s|]; [|done]. destruct (ms_open s); [done|].
    destruct (String.eqb _ _); injection H as <-; by apply (Feeding_same n m).
  - destruct (mk_calls m !! j); [done|]. pose proof (mock_issue_frame now req m) as [Hb Hf].
    destruct (mock_issue now req m) as [c m1]. injection H as <-.
    by apply (Feeding_same n m (set_call j c m1) Hb Hf).
  - destruct (mk_calls m !! j) as [[c k| |]|]; try done. injection H as <-. by eapply (Feeding_publish n m).
  - destruct (mk_calls m !! j) as [[|c k|]|]; try done. destruct (mk_sessions m !! k) as [s|]; [|done].
    destruct (mock_send now ok c s) as [r s']. injection H as <-. by apply (Feeding_same n m).
  - destruct (mk_feeds m !! i) eqn:Hi; [done|]. injection H as <-. by apply Feeding_subscribe.
  - destruct (mk_feeds m !! i) as [[id [e|]]|] eqn:Hi; try done.
    destruct (subscribers_ (mk_bus m) !! id) as [s|] eqn:Hs; [|done].
    destruct (sb_queue s) as [|e q] eqn:Hq; [done|]. injection H as <-.
    eapply (Feeding_turn n m i (mkFeed id None) s); try done. cbn. by rewrite Hq.
  - destruct (mk_feeds m !! i) as [[id [e|]]|] eqn:Hi; try done.
    destruct (subscribers_ (mk_bus m) !! id) as [s|] eqn:Hs; [|done]. injection H as <-. destruct ok.
    + eapply (Feeding_turn n m i (mkFeed id (Some e)) s); try done. cbn. by rewrite <- app_assoc.
    + by apply (Feeding_leave n m i (mkFeed id (Some e))).
  - destruct (mk_feeds m !! i) as [[id [e|]]|] eqn:Hi; try done. injection H as <-.
    by apply (Feeding_leave n m i (mkFeed id None)).
  - injection H as <-. by apply (Feeding_same n m).
  - injection H as <-. by apply (Feeding_same n m).
  - destruct (mk_decision m); [done|]. injection H as <-. by apply (Feeding_same n m).
  - destruct (mk_decision m) as [d|]; [|done]. injection H as <-. by eapply (Feeding_publish n m).
Qed.

Lemma Feeding_run n ls m m' :
  Z.of_nat n + Z.of_nat (length ls) + 2 < 2 ^ 64 -> Feeding n m -> mock_run ls m = Some m' ->
  Feeding (n + length ls) m'.
Proof.
  revert n m. induction ls as [|l ls IH]; intros n m Hlt F H; cbn [mock_run length] in *.
  { injection H as <-. by rewrite Nat.add_0_r. }
  destruct (mock_exec l m) as [m1|] eqn:Hl; [|done]. cbn in H.
  replace (n + S (length ls))%nat with (S n + length ls)%nat by lia.
  eapply IH; [lia| |done]. eapply Feeding_exec; [lia|done|done].
Qed.

Lemma Feeding_new : Feeding 0 Mock_new.
Proof. split; try done; cbn; try lia. by intros id [s Hs]. Qed.

(** What is due comes in the order of its ids. *)
Lemma numbered_sorted l : numbered l -> StronglySorted (fun a b => event_id a < event_id b) l.
Proof.
  induction l as [|e l IH] using rev_ind; intros Hn; [constructor|].
  assert (Hl : numbered l) by (intros i e' Hi; apply Hn, lookup_app_l_Some, Hi).
  pose proof (Hn (length l) e) as He. rewrite lookup_app_r, Nat.sub_diag in He by done. specialize (He eq_refl).
  clear Hn. specialize (IH Hl).
  assert (Hlt : Forall (fun a => event_id a < event_id e) l).
  { apply Forall_forall. intros a [i Hi]%list_elem_of_lookup. rewrite (Hl i a Hi), He.
    apply lookup_lt_Some in Hi. lia. }
  clear He Hl. induction IH as [|a l IH1 IH2 Ha]; cbn; [by repeat constructor|].
  inversion Hlt; subst. constructor; [by apply IH2|]. apply Forall_app. by repeat constructor.
Qed.

Lemma sorted_sublist {A} (R : A -> A -> Prop) l k :
  l `sublist_of` k -> StronglySorted R k -> StronglySorted R l.
Proof.
  induction 1 as [|x l k H IH|x l k H IH]; intros Hs; [done| |]; inversion Hs as [|? ? Hk Hx]; subst.
  - constructor; [by apply IH|]. rewrite Forall_forall in *. eauto using elem_of_sublist.
  - by apply IH.
Qed.

Lemma due_sublist since n l : due since n l `sublist_of` l.
Proof.
  unfold due, newer, last_n. transitivity (take n l ++ drop n l); [|by rewrite take_drop].
  apply sublist_app; [|done]. etrans; [apply sublist_filter | apply sublist_drop].
Qed.

(** Under every interleaving of the mock server's handlers, and up to 2^64
    steps, a dashboard's feed has been sent, holds in hand and has queued
    exactly the events newer than its [since_event_id] that the ring still
    held when it subscribed, followed by every event published afterwards,
    each once and in the order of their ids. *)
Theorem mock_feed_is_exact ls m i f
  (Hrun : mock_run ls Mock_new = Some m) (Hlen : Z.of_nat (length ls) + 2 < 2 ^ 64)
  (Hf : mk_feeds m !! i = Some f) :
  exists s, subscribers_ (mk_bus m) !! fd_sub f = Some s /\
    sb_sent s ++ list_of_option (fd_hand f) ++ sb_queue s =
      newer (sb_since s) (last_n kRing (take (sb_joined s) (bus_log (mk_bus m)))) ++
      drop (sb_joined s) (bus_log (mk_bus m)) /\
    StronglySorted (fun a b => event_id a < event_id b)
      (sb_sent s ++ list_of_option (fd_hand f) ++ sb_queue s).
Proof.
  pose proof (Feeding_run 0 ls Mock_new m ltac:(lia) Feeding_new Hrun) as F.
  destruct (fe_served _ _ F i f Hf) as (s & Hs & _ & Hd). exists s. split; [done|]. split; [done|].
  rewrite Hd. eapply sorted_sublist; [apply due_sublist | apply numbered_sorted, F].
Qed.

(** ** Commands *)

Definition announced (m : Mock) (c : GateCommandMsg) : Prop :=
  exists e, e ∈ bus_log (mk_bus m) /\ payload e = kCommand c.

(** A session of the command's gate. *)
Definition addressed (m : Mock) (c : GateCommandMsg) (k : nat) : Prop :=
  cm_gate_id c <> "" /\ exists s, mk_sessions m !! k = Some s /\ ms_gate s = cm_gate_id c.

(** The command is what a request of call [j] asks for. *)
Definition requested (ls : list MockLabel) (j : nat) (c : GateCommandMsg) : Prop :=
  exists now req, MIssue j now req ∈ ls /\ cm_gate_id c = cm_gate_id req /\
    cmd_kind (cm_base c) = cmd_kind (cm_base req) /\ cmd_actor (cm_base c) = cmd_actor (cm_base req) /\
    (command_id (cm_base req) <> "" -> command_id (cm_base c) = command_id (cm_base req)).

Definition call_ok (ls : list MockLabel) (m : Mock) (j : nat) (x : IssueCall) : Prop :=
  match x with
  | Found c k => requested ls j c /\ addressed m c k
  | Announced c k => requested ls j c /\ addressed m c k /\ announced m c
  | Done (Replied st (Some a)) =>
      exists c k s, requested ls j c /\ command_id (cm_base c) = ack_command_id a /\
        mk_sessions m !! k = Some s /\ c ∈ ms_wire s
  | Done _ => True
  end.

Record Routed (ls : list MockLabel) (m : Mock) : Prop := {
  ro_gates g k : g <> "" -> mk_gates m !! g = Some k ->
    exists s, mk_sessions m !! k = Some s /\ ms_gate s = g;
  ro_calls j x : mk_calls m !! j = Some x -> call_ok ls m j x;
  ro_wire k s c : mk_sessions m !! k = Some s -> c ∈ ms_wire s ->
    ms_gate s = cm_gate_id c /\ cm_gate_id c <> "" /\ announced m c;
}.

(** What every step keeps: gates once known, commands once written, the log. *)
Record grows (m m' : Mock) : Prop := {
  gr_session k s : mk_sessions m !! k = Some s ->
    exists s', mk_sessions m' !! k = Some s' /\ (ms_gate s <> "" -> ms_gate s' = ms_gate s) /\
      forall c, c ∈ ms_wire s -> c ∈ ms_wire s';
  gr_log e : e ∈ bus_log (mk_bus m) -> e ∈ bus_log (mk_bus m');
}.

Lemma call_ok_grows ls l m m' j x : grows m m' -> call_ok ls m j x -> call_ok (ls ++ [l]) m' j x.
Proof.
  intros [Gs Gl].
  assert (Hr : forall c, requested ls j c -> requested (ls ++ [l]) j c).
  { intros c (now & req & ? & ?). exists now, req. split; [set_solver | done]. }
  assert (Ha : forall c k, addressed m c k -> addressed m' c k).
  { intros c k [Hne (s & Hs & Hg)]. split; [done|]. destruct (Gs k s Hs) as (s' & Hs' & Hg' & _).
    exists s'. split; [done|]. rewrite Hg'; congruence. }
  assert (Hn : forall c, announced m c -> announced m' c) by (intros c (e & ? & ?); exists e; auto).
  destruct x as [c k|c k|[w|st [a|]]]; cbn; naive_solver.
Qed.

(** A step that changes nothing of the routing. *)
Lemma Routed_same ls l m m' :
  mk_gates m' = mk_gates m -> mk_sessions m' = mk_sessions m -> mk_calls m' = mk_calls m ->
  (forall e, e ∈ bus_log (mk_bus m) -> e ∈ bus_log (mk_bus m')) ->
  Routed ls m -> Routed (ls ++ [l]) m'.
Proof.
  intros Hg Hs Hc Hl [G C W].
  assert (Gr : grows m m') by (split; [rewrite Hs; eauto | done]).
  split; rewrite ?Hg, ?Hs, ?Hc; [done| |].
  - intros j x Hj. eapply call_ok_grows; eauto.
  - intros k s c Hk Hw. destruct (W k s c Hk Hw) as (? & ? & e & ? & ?). split; [done|].
    split; [done|]. exists e. auto.
Qed.

Lemma announced_publish now p b e : e ∈ bus_log b -> e ∈ bus_log (bus_publish now p b).
Proof. cbn. set_solver. Qed.

(** A step that replaces one session without touching its wire. *)
Lemma Routed_session ls l m m' k s s' :
  mk_sessions m !! k = Some s -> mk_sessions m' = <[k := s']> (mk_sessions m) ->
  (ms_gate s <> "" -> ms_gate s' = ms_gate s) -> ms_wire s' = ms_wire s ->
  (forall g k', g <> "" -> mk_gates m' !! g = Some k' ->
     mk_gates m !! g = Some k' \/ (k' = k /\ ms_gate s' = g)) ->
  mk_calls m' = mk_calls m -> (forall e, e ∈ bus_log (mk_bus m) -> e ∈ bus_log (mk_bus m')) ->
  Routed ls m -> Routed (ls ++ [l]) m'.
Proof.
  intros Hk Hs Hgate Hwire Hg Hc Hl [G C W].
  assert (Gr : grows m m').
  { split; [|done]. intros k' t Hk'. rewrite Hs. destruct (decide (k' = k)) as [->|Hne].
    - rewrite lookup_insert_eq. assert (t = s) as -> by congruence. exists s'. rewrite Hwire. auto.
    - rewrite lookup_insert_ne by done. eauto. }
  split.
  - intros g k' Hne Hgk. destruct (Hg g k' Hne Hgk) as [Hold|[-> <-]].
    + destruct (G g k' Hne Hold) as (t & Ht & Htg). destruct (gr_session _ _ Gr k' t Ht) as (t' & ? & Hg' & _).
      exists t'. split; [done|]. rewrite Hg'; congruence.
    + exists s'. rewrite Hs, lookup_insert_eq. done.
  - intros j x. rewrite Hc. intros Hj. eapply call_ok_grows; eauto.
  - intros k' t c. rewrite Hs. intros Hk' Hw.
    assert (exists t0, mk_sessions m !! k' = Some t0 /\ c ∈ ms_wire t0 /\
              (ms_gate t0 <> "" -> ms_gate t = ms_gate t0)) as (t0 & Ht0 & Hw0 & Hg0).
    { destruct (decide (k' = k)) as [->|Hne].
      - rewrite lookup_insert_eq in Hk'. injection Hk' as <-. exists s. rewrite Hwire in Hw. auto.
      - rewrite lookup_insert_ne in Hk' by done. eauto. }
    destruct (W k' t0 c Ht0 Hw0) as (Hgc & Hne & e & ? & ?).
    split; [rewrite Hg0; congruence|]. split; [done|]. exists e. auto.
Qed.

Lemma Control_read_keeps env s s' put :
  Control_read env s = (s', put) ->
  (ms_gate s <> "" -> ms_gate s' = ms_gate s) /\ ms_wire s' = ms_wire s.
Proof.
  unfold Control_read. destruct env; [destruct (String.eqb_spec (ms_gate s) "")|..]; intros [= <- <-]; done.
Qed.

Lemma registry_drop_lookup g0 k r g k' : registry_drop g0 k r !! g = Some k' -> r !! g = Some k'.
Proof.
  unfold registry_drop. destruct (r !! g0) as [k0|]; [|done]. destruct (k0 =? k)%nat; [|done].
  by intros [_ ?]%lookup_delete_Some.
Qed.

(** The front of a call. *)
Lemma mock_issue_ok ls m j now req c m' :
  Routed ls m -> mk_calls m !! j = None -> mock_issue now req m = (c, m') ->
  Routed (ls ++ [MIssue j now req]) (set_call j c m').
Proof.
  intros R Hj Hi.
  assert (Hkeep : mk_gates m' = mk_gates m /\ mk_sessions m' = mk_sessions m /\
    mk_calls m' = mk_calls m /\ mk_bus m' = mk_bus m).
  { unfold mock_issue in Hi. destruct (String.eqb _ _); [by injection Hi as <- <-|].
    destruct (String.eqb _ _); by injection Hi as <- <-. }
  destruct Hkeep as (Kg & Ks & Kc & Kb).
  assert (R' : Routed (ls ++ [MIssue j now req]) m') by (apply (Routed_same ls _ m); rewrite ?Kb; done).
  destruct R' as [G C W]. split; [done| |done].
  intros j' x. cbn. destruct (decide (j' = j)) as [->|Hne].
  2: { rewrite lookup_insert_ne by done. intros Hx. specialize (C j' x Hx).
       by destruct x as [| |[|? [|]]]. }
  rewrite lookup_insert_eq. intros [= <-]. unfold mock_issue in Hi.
  destruct (String.eqb_spec (cm_gate_id req) "") as [|Hgate]; [by injection Hi as <- <-|].
  destruct (if String.eqb (command_id (cm_base req)) "" then mock_fresh_id "cmd" m
            else (command_id (cm_base req), m)) as [id m0] eqn:Hid.
  assert (mk_gates m0 = mk_gates m) as Hg0 by (destruct (String.eqb _ _); by injection Hid as <- <-).
  injection Hi as <- <-. cbn [cm_gate_id] in *. rewrite Hg0.
  destruct (mk_gates m !! cm_gate_id req) as [k|] eqn:Hk; [|done]. split.
  - exists now, req. cbn. split; [set_solver|]. split; [done|]. split; [done|]. split; [done|].
    intros Hne. destruct (String.eqb_spec (command_id (cm_base req)) ""); [done | by injection Hid as <- <-].
  - split; [done|]. cbn. rewrite Ks. apply (ro_gates _ _ R); done.
Qed.

Lemma mock_send_ok now ok c s r s' :
  mock_send now ok c s = (r, s') ->
  ms_gate s' = ms_gate s /\
  ((ms_wire s' = ms_wire s ++ [c] /\ exists a, r = answer a /\ ack_command_id a = command_id (cm_base c)) \/
   (ms_wire s' = ms_wire s /\ exists code msg, r = refuse code msg)).
Proof.
  unfold mock_send, send_command. destruct (ms_alive s), ok; cbn; intros [= <- <-]; (split; [done|]);
    [left; eauto 6 | right; eauto..].
Qed.

(** The write of a call. *)
Lemma mock_send_routed ls m j now ok c k s r s' :
  Routed ls m -> mk_calls m !! j = Some (Announced c k) -> mk_sessions m !! k = Some s ->
  mock_send now ok c s = (r, s') ->
  Routed (ls ++ [MSend j now ok]) (set_call j (Done r) (set_msession k s' m)).
Proof.
  intros R Hj Hk Hs. pose proof (ro_calls _ _ R j _ Hj) as (Hreq & [Hne (s0 & Hs0 & Hg0)] & Hann).
  assert (s0 = s) as -> by congruence. destruct (mock_send_ok _ _ _ _ _ _ Hs) as [Hg Hw].
  set (m' := set_call j (Done r) (set_msession k s' m)).
  assert (Hsub : forall d, d ∈ ms_wire s -> d ∈ ms_wire s').
  { intros d Hd. destruct Hw as [[-> _]|[-> _]]; [apply elem_of_app; by left | done]. }
  assert (Gr : grows m m').
  { split; [|done]. intros k' t Ht. cbn. destruct (decide (k' = k)) as [->|Hn].
    - rewrite lookup_insert_eq. assert (t = s) as -> by congruence. eauto.
    - rewrite lookup_insert_ne by done. eauto. }
  destruct R as [G C W]. split.
  - intros g k' Hgne Hgk. destruct (G g k' Hgne Hgk) as (t & Ht & Htg).
    destruct (gr_session _ _ Gr k' t Ht) as (t' & ? & Hg' & _). exists t'. split; [done|].
    rewrite Hg'; congruence.
  - intros j' x. cbn [m' set_call mk_calls]. destruct (decide (j' = j)) as [->|Hn].
    + rewrite lookup_insert_eq. intros [= <-]. destruct Hw as [[Hw (a & -> & Ha)]|[_ (code & msg & ->)]]; [|done].
      exists c, k, s'. split; [destruct Hreq as (n' & q & ? & ?); exists n', q; split; [set_solver|done]|].
      split; [done|]. cbn. rewrite lookup_insert_eq, Hw. split; [done|]. apply elem_of_app. right. by left.
    + rewrite lookup_insert_ne by done. intros Hx. eapply call_ok_grows; [done|]. by apply C.
  - intros k' t d. cbn. destruct (decide (k' = k)) as [->|Hn].
    + rewrite lookup_insert_eq. intros [= <-] Hd. rewrite Hg.
      destruct Hw as [[Hw _]|[Hw _]]; rewrite Hw in Hd; [|by apply (W k s)].
      apply elem_of_app in Hd as [Hd| ->%list_elem_of_singleton]; [by apply (W k s) | done].
    + rewrite lookup_insert_ne by done. apply W.
Qed.

Lemma Routed_exec ls l m m' : Routed ls m -> mock_exec l m = Some m' -> Routed (ls ++ [l]) m'.
Proof.
  intros R H.
  destruct l as [k|k env|k now|k|k|j now req|j now|j now ok|i since|i|i ok|i|es|ps|now r|now]; cbn [mock_exec] in H.
  - destruct (mk_sessions m !! k) eqn:Hk; [done|]. injection H as <-. destruct R as [G C W].
    assert (Gr : grows m (set_msession k GateSession_new m)).
    { split; [|done]. intros k' s Hs. cbn. rewrite lookup_insert_ne by congruence. eauto. }
    split.
    + intros g k' Hne Hg. destruct (G g k' Hne Hg) as (s & ? & ?). cbn.
      exists s. rewrite lookup_insert_ne by congruence. done.
    + intros j x Hj. eapply call_ok_grows; eauto.
    + intros k' s c. cbn. destruct (decide (k' = k)) as [->|Hne].
      * rewrite lookup_insert_eq. intros [= <-] Hc. by apply not_elem_of_nil in Hc.
      * rewrite lookup_insert_ne by done. apply W.
  - destruct (mk_sessions m !! k) as [s|] eqn:Hk; [|done]. destruct (ms_open s), (ms_pending s); try done.
    destruct (Control_read env s) as [s' put] eqn:Hr. injection H as <-.
    pose proof (Control_read_keeps _ _ _ _ Hr) as [Hg Hw].
    destruct put; eapply (Routed_session ls _ m _ k s s'); try done; cbn; [|by left].
    intros g k' Hne Hgk. destruct (decide (g = ms_gate s')) as [->|Hn'].
    + unfold registry_put in Hgk. rewrite lookup_insert_eq in Hgk. injection Hgk as <-. by right.
    + left. unfold registry_put in Hgk. by rewrite lookup_insert_ne in Hgk by done.
  - destruct (mk_sessions m !! k) as [s|] eqn:Hk; [|done]. destruct (ms_pending s); [|done].
    injection H as <-. eapply (Routed_session ls _ m _ k s); try done; [by left|].
    intros e. apply announced_publish.
  - destruct (mk_sessions m !! k) as [s|] eqn:Hk; [|done]. destruct (ms_open s), (ms_pending s); try done.
    injection H as <-. eapply (Routed_session ls _ m _ k s); try done. by left.
  - destruct (mk_sessions m !! k) as [s|] eqn:Hk; [|done]. destruct (ms_open s); [done|].
    destruct (String.eqb _ _); injection H as <-; [by apply (Routed_same ls _ m)|].
    eapply (Routed_session ls _ m _ k s s); try done; [cbn; by rewrite insert_id|].
    intros g k' Hne Hg. left. by apply (registry_drop_lookup (ms_gate s) k).
  - destruct (mk_calls m !! j) eqn:Hj; [done|].
    destruct (mock_issue now req m) as [c m1] eqn:Hi. injection H as <-. by eapply mock_issue_ok.
  - destruct (mk_calls m !! j) as [[c k| |]|] eqn:Hj; try done. injection H as <-.
    pose proof (ro_calls _ _ R j _ Hj) as Hcall.
    set (m1 := set_mbus (bus_publish now (kCommand c) (mk_bus m)) m).
    assert (R1 : Routed (ls ++ [MAnnounce j now]) m1)
      by (apply (Routed_same ls _ m); try done; intros e; apply announced_publish).
    assert (Gr : grows m m1) by (split; [eauto | intros e; apply announced_publish]).
    apply (call_ok_grows ls (MAnnounce j now) m m1 j) in Hcall; [|done].
    destruct R1 as [G C W]. split; [done| |done].
    intros j' x. cbn [set_call mk_calls]. destruct (decide (j' = j)) as [->|Hne].
    + rewrite lookup_insert_eq. intros [= <-]. destruct Hcall as [? ?]. split; [done|]. split; [done|].
      exists (mkEvent (next_id_ (mk_bus m)) (Some now) (kCommand c)). split; [|done].
      cbn. apply elem_of_app. right. by left.
    + rewrite lookup_insert_ne by done. intros Hx. specialize (C j' x Hx). by destruct x as [| |[|? [|]]].
  - destruct (mk_calls m !! j) as [[|c k|]|] eqn:Hj; try done.
    destruct (mk_sessions m !! k) as [s|] eqn:Hk; [|done].
    destruct (mock_send now ok c s) as [r s'] eqn:Hs. injection H as <-. by eapply mock_send_routed.
  - destruct (mk_feeds m !! i); [done|]. injection H as <-. by apply (Routed_same ls _ m).
  - destruct (mk_feeds m !! i) as [[id [e|]]|]; try done.
    destruct (subscribers_ (mk_bus m) !! id) as [s|]; [|done].
    destruct (sb_queue s); [done|]. injection H as <-. by apply (Routed_same ls _ m).
  - destruct (mk_feeds m !! i) as [[id [e|]]|]; try done.
    destruct (subscribers_ (mk_bus m) !! id) as [s|]; [|done]. injection H as <-.
    destruct ok; by apply (Routed_same ls _ m).
  - destruct (mk_feeds m !! i) as [[id [e|]]|]; try done. injection H as <-. by apply (Routed_same ls _ m).
  - injection H as <-. by apply (Routed_same ls _ m).
  - injection H as <-. by apply (Routed_same ls _ m).
  - destruct (mk_decision m); [done|]. injection H as <-. by apply (Routed_same ls _ m).
  - destruct (mk_decision m); [|done]. injection H as <-. apply (Routed_same ls _ m); try done.
    intros e. apply announced_publish.
Qed.

Lemma Routed_run ls0 ls m m' : Routed ls0 m -> mock_run ls m = Some m' -> Routed (ls0 ++ ls) m'.
Proof.
  revert ls0 m. induction ls as [|l ls IH]; intros ls0 m R H; cbn [mock_run] in H.
  { injection H as <-. by rewrite app_nil_r. }
  destruct (mock_exec l m) as [m1|] eqn:Hl; [|done]. cbn in H.
  rewrite (app_assoc ls0 [l] ls : ls0 ++ l :: ls = _). eapply IH; [|done]. by eapply Routed_exec.
Qed.

Lemma Routed_new : Routed [] Mock_new.
Proof. by split. Qed.

(** C21: Under every interleaving of the mock server's handlers: an
    [IssueCommand] call that answers OK has written a command with the id of
    its reply, and the kind, actor and gate of its request, to a stream of the
    requested gate; every command on a stream is addressed to the stream's
    gate, and was published to the dashboards before it was written. *)
Theorem mock_commands_reach_their_gate ls m (Hrun : mock_run ls Mock_new = Some m) :
  (forall j st a, mk_calls m !! j = Some (Done (Replied st (Some a))) ->
     exists now req c k s, MIssue j now req ∈ ls /\ mk_sessions m !! k = Some s /\ c ∈ ms_wire s /\
       ms_gate s = cm_gate_id req /\ cm_gate_id c = cm_gate_id req /\
       command_id (cm_base c) = ack_command_id a /\
       cmd_kind (cm_base c) = cmd_kind (cm_base req) /\ cmd_actor (cm_base c) = cmd_actor (cm_base req)) /\
  (forall k s c, mk_sessions m !! k = Some s -> c ∈ ms_wire s ->
     ms_gate s = cm_gate_id c /\ cm_gate_id c <> "" /\
     exists e, e ∈ bus_log (mk_bus m) /\ payload e = kCommand c).
Proof.
  pose proof (Routed_run [] ls Mock_new m Routed_new Hrun) as [_ C W]. split; [|exact W].
  intros j st a Hj. destruct (C j _ Hj) as (c & k & s & (now & req & Hin & Hg & Hk & Ha & _) & Hid & Hs & Hc).
  destruct (W k s c Hs Hc) as (Hgate & _ & _). exists now, req, c, k, s.
  do 3 (split; [done|]). split; [congruence|]. done.
Qed.

(** ** The in-memory allowlist *)

Definition holds_plate (m : gmap string Allowlistentry) (p : string) : bool :=
  match m !! p with Some _ => true | None => false end.

Lemma holds_delete m p ps :
  holds_plate m p = false ->
  existsb (holds_plate (delete p m)) ps = existsb (holds_plate m) ps.
Proof.
  intros Hp. induction ps as [|q ps IH]; [done|]. cbn [existsb]. rewrite IH. f_equal.
  unfold holds_plate in *. destruct (decide (q = p)) as [->|Hne].
  - rewrite lookup_delete_eq. by destruct (m !! p).
  - by rewrite lookup_delete_ne.
Qed.

Lemma mock_delete_fold ps m n :
  0 <= n <= 1 ->
  foldl mock_delete_one (m, n) ps =
  (base.filter (fun kv => kv.1 ∉ ps) m,
   if (n =? 1) || existsb (holds_plate m) ps then 1 else 0).
Proof.
  revert m n. induction ps as [|p ps IH]; intros m n Hn; cbn [foldl existsb].
  - f_equal.
    + symmetry. apply map_filter_id. intros k e _. cbn. apply not_elem_of_nil.
    + rewrite orb_false_r. destruct (Z.eqb_spec n 1); lia.
  - cbn [mock_delete_one]. rewrite IH by (destruct (0 <? _); lia). f_equal.
    + apply map_eq. intros k. apply option_eq. intros e.
      rewrite !map_lookup_filter_Some, lookup_delete_Some. cbn. rewrite elem_of_cons. naive_solver.
    + unfold holds_plate at 2. destruct (m !! p) as [e|] eqn:Hp.
      * destruct (Z.ltb_spec 0 (n + 1)); [|lia]. cbn. by rewrite orb_true_r.
      * rewrite Z.add_0_r, holds_delete by (unfold holds_plate; by rewrite Hp). cbn.
        destruct (Z.ltb_spec 0 n), (Z.eqb_spec n 1); try lia; done.
Qed.

(** [DeleteAllowlist] removes exactly the plates it is given; its reply says
    whether one of them was there, and never more than one. *)
Theorem mock_delete_counts_one ps m :
  mock_delete ps m =
  (base.filter (fun kv => kv.1 ∉ ps) m, if existsb (holds_plate m) ps then 1 else 0).
Proof. unfold mock_delete. by rewrite mock_delete_fold. Qed.

(** ** Synthetic decisions *)

Lemma mock_plates_elem m p : p ∈ mock_plates m <-> is_Some (m !! p).
Proof.
  unfold mock_plates.
  assert (H : forall l, p ∈ foldr insert_plate [] l <-> p ∈ l).
  { induction l as [|q l IH]; [done|]. cbn. rewrite insert_plate_elem, IH, elem_of_cons. done. }
  rewrite H. split.
  - intros ([k e] & -> & Hin)%list_elem_of_fmap. exists e. by apply elem_of_map_to_list.
  - intros [e He]. apply list_elem_of_fmap. exists (p, e). split; [done|]. by apply elem_of_map_to_list.
Qed.

(** A synthetic verdict is an authorisation exactly on the turns that have an
    allowlisted plate to show, and then shows one. *)
Theorem synthetic_decision_sound id now turn m r :
  0 <= dr_plate r ->
  let d := synthetic_decision id now turn (mock_plates m) r in
  (verdict d = AUTHORIZED <-> turn = true /\ m <> ∅) /\
  (verdict d = AUTHORIZED -> is_Some (m !! matched_plate d)).
Proof.
  intros Hr d. subst d. unfold synthetic_decision.
  set (l := mock_plates m). set (i := dr_plate r mod Z.of_nat (length l)).
  assert (Hl : l = [] <-> m = ∅).
  { split; intros H.
    - apply map_eq. intros p. destruct (m !! p) as [e|] eqn:Hp; [|done].
      assert (Hin : p ∈ l) by (apply mock_plates_elem; by rewrite Hp). rewrite H in Hin.
      by apply not_elem_of_nil in Hin.
    - destruct l as [|p l'] eqn:E; [done|]. assert (Hin : p ∈ mock_plates m) by (fold l; rewrite E; left).
      apply mock_plates_elem in Hin as [e He]. by rewrite H in He. }
  destruct (l !! Z.to_nat i) as [p|] eqn:Hi.
  - assert (is_Some (m !! p)) as Hp by (apply mock_plates_elem; by eapply list_elem_of_lookup_2).
    destruct turn; cbn; [|split; [split; [done | by intros []] | done]].
    split; [|done]. split; [|done]. intros _. split; [done|]. intros ->. by destruct Hp.
  - assert (l = []) as Hnil.
    { destruct l as [|p l'] eqn:E; [done|]. apply lookup_ge_None in Hi.
      pose proof (Z.mod_pos_bound (dr_plate r) (Z.of_nat (length l))) as Hb.
      subst i. rewrite E in Hb. cbn [length] in *. lia. }
    apply Hl in Hnil. destruct turn; cbn; (split; [split; [done | by intros []] | done]).
Qed.

(** ** Instances of the theorems *)

Definition mock_request : GateCommandMsg :=
  mkCommandMsg (mkCommand "" COMMAND_KIND_OPEN_GATE 0 "op") None "g" None 0 "".
Definition mock_ts : Timestamp := mkTs 5 0.
Definition mock_telemetry : ControlPayload := sample_telemetry "g".
Definition mock_labels : list MockLabel :=
  [MSubscribe 0 0; MConnect 0; MRead 0 mock_telemetry; MPublish 0 mock_ts;
   MIssue 7 mock_ts mock_request; MAnnounce 7 mock_ts; MPop 0; MSend 7 mock_ts true; MWrite 0 true].
Definition mock_after : Mock := default Mock_new (mock_run mock_labels Mock_new).

Lemma mock_feed_is_exact_witness :
  exists s, subscribers_ (mk_bus mock_after) !! 1 = Some s /\
    sb_sent s ++ list_of_option (fd_hand (mkFeed 1 None)) ++ sb_queue s =
      newer (sb_since s) (last_n kRing (take (sb_joined s) (bus_log (mk_bus mock_after)))) ++
      drop (sb_joined s) (bus_log (mk_bus mock_after)) /\
    StronglySorted (fun a b => event_id a < event_id b)
      (sb_sent s ++ list_of_option (fd_hand (mkFeed 1 None)) ++ sb_queue s).
Proof.
  apply (mock_feed_is_exact mock_labels mock_after 0 (mkFeed 1 None)).
  - vm_compute. reflexivity.
  - vm_compute. reflexivity.
  - vm_compute. reflexivity.
Defined.

Lemma mock_commands_reach_their_gate_witness :
  (forall j st a, mk_calls mock_after !! j = Some (Done (Replied st (Some a))) ->
     exists now req c k s, MIssue j now req ∈ mock_labels /\
       mk_sessions mock_after !! k = Some s /\ c ∈ ms_wire s /\
       ms_gate s = cm_gate_id req /\ cm_gate_id c = cm_gate_id req /\
       command_id (cm_base c) = ack_command_id a /\
       cmd_kind (cm_base c) = cmd_kind (cm_base req) /\ cmd_actor (cm_base c) = cmd_actor (cm_base req)) /\
  (forall k s c, mk_sessions mock_after !! k = Some s -> c ∈ ms_wire s ->
     ms_gate s = cm_gate_id c /\ cm_gate_id c <> "" /\
     exists e, e ∈ bus_log (mk_bus mock_after) /\ payload e = kCommand c).
Proof. apply (mock_commands_reach_their_gate mock_labels mock_after). vm_compute. reflexivity. Defined.
