(* ===== verification/Mains.v ===== *)
(** The entry points of the other daemons: the dashboard backend
    (src/dashboard/backend/src/main.cpp), the capture daemon
    (src/server/vision/src/gate_vision_main.cpp), the gate simulator
    (src/simulation/src/main.cpp) and the mock server
    (src/simulation/src/mock_server_main.cpp).

    As in ServerMain, the arguments are the options CLI11 found; files, clocks,
    the outcomes of RPCs and the console's lines are arguments.  Log lines are
    not modelled. *)

From S2P Require Import Prelude StateMachine GateController Float32 FusionEngine EventBroadcaster Grpc RpcServices ServerMain Json Vision Camera.
From S2P Require Import MockServer VirtualGate SimClient Http DashboardAuth DashboardApi.
Local Open Scope Z_scope.
Local Open Scope gate_scope.

Definition given {A} (o : option A) : bool := bool_decide (is_Some o).

(** The transport options the three clients share. *)
Record TlsArgs := mkTlsArgs { ta_ca : option string; ta_cert : option string; ta_key : option string }.
Definition tls_args_ok (t : TlsArgs) : bool :=
  needs (given (ta_cert t)) (given (ta_ca t)) && needs (given (ta_key t)) (given (ta_cert t)).
Definition path_of (o : option string) : string := default ""%string o.

(** ** The dashboard backend *)

Record DashArgs := mkDashArgs {
  da_server : option string; da_site_id : option string; da_tls : TlsArgs;
  da_cors_dev : bool; da_www : option string;
  da_admin_user : option string; da_password_hash : option string;
  da_jwt_secret_file : option string; da_token_ttl_min : option Z;
}.

Definition dash_args_ok (a : DashArgs) : bool :=
  tls_args_ok (da_tls a) && needs (given (da_jwt_secret_file a)) (given (da_password_hash a)).

Definition dash_bridge (a : DashArgs) : BridgeConfig :=
  let d := BridgeConfig_default in
  mkBridge (default (bc_server d) (da_server a)) (default (bc_site_id d) (da_site_id a)) (bc_actor d)
    (path_of (ta_ca (da_tls a))) (path_of (ta_cert (da_tls a))) (path_of (ta_key (da_tls a))).

Definition dash_auth (a : DashArgs) (secret : string) : AuthConfig :=
  mkAuth (default "admin" (da_admin_user a)) (path_of (da_password_hash a)) secret
    (default 480 (da_token_ttl_min a)).

(** [std::getline] on a stream that was just opened: the text before the first
    line feed, nothing where the file cannot be read. *)
Fixpoint first_line (s : string) : string :=
  match s with
  | EmptyString => EmptyString
  | String c s => if Ascii.eqb c (Ascii.ascii_of_nat 10) then EmptyString else String c (first_line s)
  end.
Definition getline (file : option string) : string := first_line (default ""%string file).

(** What the error handler answers where no route and no file matched. *)
Inductive ErrorPage := PageFile (path : string) (status : Z) | PageEmpty (status : Z).
Definition error_page (www : string) (code : Z) (path : option string) : ErrorPage :=
  match path with
  | Some p =>
      if (code =? 404) && negb (string_prefixb "/api" p) && negb (string_prefixb "/ws" p)
      then PageFile (www +:+ "/index.html") 200
      else PageEmpty code
  | None => PageEmpty code
  end.

Definition cors_headers : list (string * string) :=
  [("Access-Control-Allow-Origin", "*");
   ("Access-Control-Allow-Methods", "GET, POST, PUT, DELETE, OPTIONS");
   ("Access-Control-Allow-Headers", "Content-Type")].

(** The application [main] hands to Drogon. *)
Record DashApp := mkDashApp {
  app_auth : AuthConfig; app_bridge : BridgeConfig;
  app_headers : list (string * string); app_error : option (Z -> option string -> ErrorPage);
}.

Inductive DashExit :=
| DashParseError
| DashExitFailure
| Listening (app : DashApp).

(** [main]; an exception leaves it uncaught. *)
Definition dash_main (a : DashArgs) (fs : string -> option string) (rand : option (list Z))
    : Res DashExit :=
  if negb (dash_args_ok a) then Ok DashParseError
  else
    let file := path_of (da_jwt_secret_file a) in
    let secret := if String.eqb file "" then ""%string else getline (fs file) in
    if negb (String.eqb file "") && String.eqb secret "" then Ok DashExitFailure
    else
      do! auth := AuthService_new rand (dash_auth a secret) in
      let www := path_of (da_www a) in
      Ok (Listening (mkDashApp auth (dash_bridge a)
            (if da_cors_dev a then cors_headers else [])
            (if String.eqb www "" then None else Some (error_page www)))).

(** ** The simulator *)

Record SimArgs := mkSimArgs {
  sm_server : option string; sm_gate_id : option string; sm_travel_ms : option Z;
  sm_motor_timeout_ms : option Z; sm_auto_close_ms : option Z; sm_no_reverse_on_beam : bool;
  sm_telemetry_ms : option Z; sm_tls : TlsArgs;
}.

Definition sim_args_config (a : SimArgs) : SimConfig :=
  let d := SimConfig_default in
  mkSimConfig (default (sim_server d) (sm_server a)) (default (sim_gate_id d) (sm_gate_id a))
    (sim_fw_version d) (default (sim_telemetry_period_ms d) (sm_telemetry_ms a)) (sim_tick_ms d)
    (path_of (ta_ca (sm_tls a))) (path_of (ta_cert (sm_tls a))) (path_of (ta_key (sm_tls a))).

Definition sim_args_gate (a : SimArgs) : VgConfig :=
  let d := VgConfig_default in
  mkVgConfig (default (travel_ms d) (sm_travel_ms a))
    (default (vg_motor_timeout_ms d) (sm_motor_timeout_ms a))
    (default (vg_auto_close_ms d) (sm_auto_close_ms a))
    (if sm_no_reverse_on_beam a then false else vg_reverse_on_beam d) (vg_command_deadline_ms d).

(** One line of the console: the gate, whether the loop goes on, and whether
    the status line is printed. *)
Definition console_turn (line : string) (v : VirtualGate) : VirtualGate * bool * bool :=
  match console_op line with
  | Some op => (vg_do v op, true, true)
  | None =>
      if String.eqb line "status" then (v, true, true)
      else if String.eqb line "quit" then (v, false, false)
      else if negb (String.eqb line "") then (v, true, false)
      else (v, true, true)
  end.

(** The console's thread: it ends with its input or with [quit], which asks
    for the shutdown. *)
Fixpoint interactive_loop (lines : list string) (v : VirtualGate) : VirtualGate * bool :=
  match lines with
  | [] => (v, false)
  | line :: lines =>
      match console_turn line v with
      | (v, true, _) => interactive_loop lines v
      | (v, false, _) => (v, true)
      end
  end.

(** One pass of [main]'s loop: the session, [None] where no server was
    reached; whether the shutdown was asked for meanwhile; and what the console
    does during the pause. *)
Record SimPass := mkSimPass {
  sp_session : option (list SimLabel); sp_shutdown : bool; sp_console : list string;
}.

(** The gate, the telemetry sequence and whether the shutdown is asked for,
    which a [quit] on the console does too. *)
Definition sim_pass (c : SimConfig) (p : SimPass) (vq : VirtualGate * Z)
    : option (VirtualGate * Z * bool) :=
  vq ←
    match sp_session p with
    | None => Some vq
    | Some ls => s ← sim_run c ls (SimSession_new c vq.2 vq.1); Some (sim_gate s, sim_seq s)
    end;
  if sp_shutdown p then Some (vq, true)
  else
    let v := sim_main_turn (given (sp_session p)) vq.1 in
    let '(v, quit) := interactive_loop (sp_console p) v in
    Some (v, vq.2, quit).

Fixpoint sim_passes (c : SimConfig) (ps : list SimPass) (vq : VirtualGate * Z)
    : option (VirtualGate * Z) :=
  match ps with
  | [] => Some vq
  | p :: ps =>
      match sim_pass c p vq with
      | Some (vq, stop) => if stop then Some vq else sim_passes c ps vq
      | None => None
      end
  end.

(** [main] of gate-sim; [None] on a refused command line, or where the labels
    name no step of a session. *)
Definition sim_main (a : SimArgs) (ps : list SimPass) : option (VirtualGate * Z) :=
  guard (tls_args_ok (sm_tls a) = true) ;;
  sim_passes (sim_args_config a) ps (boot_closed (VirtualGate_new (sim_args_gate a)), 0).

(** ** The capture daemon *)

Record VisionArgs := mkVisionArgs {
  vi_server : option string; vi_gate_id : option string; vi_scenario : option string;
  vi_deadline_ms : option Z; vi_tls : TlsArgs;
  vi_camera : CameraConfig; vi_camera_given : bool;
  vi_detector_engine : bool; vi_recognizer_engine : bool; vi_dictionary : bool;
}.

Definition vision_args_ok (a : VisionArgs) : bool :=
  tls_args_ok (vi_tls a) && needs (vi_detector_engine a) (vi_camera_given a) &&
  needs (vi_recognizer_engine a) (vi_camera_given a) && needs (vi_dictionary a) (vi_camera_given a).

Definition vision_client (a : VisionArgs) : ClientConfig :=
  let d := ClientConfig_default in
  mkClient (default (cl_server d) (vi_server a)) (default (cl_gate d) (vi_gate_id a))
    (default (deadline_ms d) (vi_deadline_ms a)) (max_attempts d) (backoff_initial_ms d)
    (path_of (ta_ca (vi_tls a))) (path_of (ta_cert (vi_tls a))) (path_of (ta_key (vi_tls a))).

(** One turn of the loop on a camera. *)
Record CameraTurn := mkCameraTurn {
  ct_shutdown : bool; ct_now : Z; ct_wall : Z; ct_grab : nat -> bool; ct_frame : nat -> Capture;
  ct_rpc : nat -> Status * AuthDecision;
}.

Fixpoint camera_run (cfg : ClientConfig) (ts : list CameraTurn) (d : CameraDaemon)
    : Res (CameraDaemon * bool) :=
  match ts with
  | [] => Ok (d, true)
  | t :: ts =>
      do! (d, go) := camera_turn cfg (ct_shutdown t) (ct_now t) (ct_wall t) (ct_grab t) (ct_frame t)
                       (ct_rpc t) d in
      if go then camera_run cfg ts d else Ok (d, false)
  end.

(** What the process finds around it: [vn_opens] and [vn_load] are the video
    capture and the engine loader. *)
Record VisionEnv := mkVisionEnv {
  vn_fs : string -> option string; vn_opens : Z + string -> bool; vn_load : option string;
  vn_turns : list Turn; vn_camera_turns : list CameraTurn;
}.

Inductive VisionExit :=
| VisionParseError
| VisionFailed
| VisionEnded (sent : list FrameMsg)
| VisionRunning (sent : list FrameMsg).

Section vision_main.
Context `{!Nlohmann}.

(** The body of the [try]: the frames sent, and whether the loop has ended. *)
Definition vision_body (a : VisionArgs) (parse : string -> string + Json) (e : VisionEnv)
    : Res (list FrameMsg * bool) :=
  let cfg := vision_client a in
  let scenario := path_of (vi_scenario a) in
  do! _ := make_credentials (vn_fs e) cfg in
  let builder := FrameBuilder_new (cl_gate cfg) in
  if negb (String.eqb scenario "") then
    do! src := from_file parse scenario (vn_fs e scenario) in
    do! x := daemon_run cfg (vn_turns e) (mkDaemon src builder 0 0 []) in
    match x with Running d => Ok (dm_frames d, false) | Stopped d => Ok (dm_frames d, true) end
  else
    do! cam := camera_open (vn_opens e) (vn_load e) (vi_camera a) in
    do! (d, go) := camera_run cfg (vn_camera_turns e) (mkCamDaemon cam builder []) in
    Ok (cd_frames d, negb go).

(** [main]: [VisionFailed] is the exit code 1, [VisionEnded] the code 0. *)
Definition vision_main (a : VisionArgs) (parse : string -> string + Json) (e : VisionEnv)
    : Res VisionExit :=
  if negb (vision_args_ok a) then Ok VisionParseError
  else if negb (one_source (path_of (vi_scenario a)) (cam_uri (vi_camera a))) then Ok VisionFailed
  else
    match vision_body a parse e with
    | Err _ => Ok VisionFailed
    | UB => UB
    | Ok (sent, true) => Ok (VisionEnded sent)
    | Ok (sent, false) => Ok (VisionRunning sent)
    end.
End vision_main.

(** ** The mock server *)

(** The naps of a tenth of a second between two synthetic decisions. *)
Definition decision_naps (period_s : Z) : Z := u32 (period_s * 10).

(** The steps of the thread that runs [decision_loop]. *)
Definition decides (l : MockLabel) : bool :=
  match l with MDecide _ _ | MDecided _ => true | _ => false end.

Inductive MockExit := MockBindFails | MockServed (m : Mock).

(** [main]: the decision thread exists for a positive period only.  [None]
    where the labels name no step of the server. *)
Definition mock_main (decisions_period : option Z) (bound : bool) (ls : list MockLabel)
    : option MockExit :=
  if negb bound then Some MockBindFails
  else
    let with_decisions := 0 <? default 15 decisions_period in
    guard (with_decisions = true \/ existsb decides ls = false) ;;
    m ← mock_run ls Mock_new;
    Some (MockServed m).

(** ** What the entry points promise *)

Section dashboard.
Context `{!JsonCpp} {AC : AuthCrypto}.

Lemma AuthService_new_Ok rand cfg auth :
  AuthService_new rand cfg = Ok auth ->
  password_hash auth = password_hash cfg /\
  (jwt_secret cfg <> ""%string -> auth = cfg) /\
  (jwt_secret cfg = ""%string -> exists buf, rand = Some buf /\ jwt_secret auth = to_hex buf).
Proof.
  unfold AuthService_new, random_secret.
  destruct (String.eqb_spec (jwt_secret cfg) "") as [E|E].
  - destruct rand as [buf|]; [|done]. intros [= <-]. split_and!; [done | done|]. by exists buf.
  - by intros [= ->].
Qed.

(** C13: Admin authentication that was asked for never degrades.  A dashboard
    started with a password hash either does not come up or serves with
    authentication on: every request that has an effect, and every answer of a
    guarded route other than the 401, took a token that verifies under the
    secret of the process.  That secret is the first line of the file that was
    named, a readable non-empty line, or the random bytes of this process. *)
Theorem dashboard_guards_admin a fs rand app b env r req s s' pubs resp
    (Hhash : path_of (da_password_hash a) <> ""%string)
    (Hmain : dash_main a fs rand = Ok (Listening app))
    (Hx : http_exec (Some (app_auth app)) b env r req s = Ok (s', pubs, resp))
    (Heff : s' <> s \/ pubs <> [] \/ filtered r = true /\ rs_status resp <> 401) :
  (exists token subject, rq_authorization req = kBearer +:+ token /\
     verify_token (app_auth app) (he_clock_ns env) token = Some subject) /\
  password_hash (app_auth app) = path_of (da_password_hash a) /\
  (path_of (da_jwt_secret_file a) = ""%string ->
     exists buf, rand = Some buf /\ jwt_secret (app_auth app) = to_hex buf) /\
  (path_of (da_jwt_secret_file a) <> ""%string ->
     exists text, fs (path_of (da_jwt_secret_file a)) = Some text /\
       jwt_secret (app_auth app) = first_line text /\ first_line text <> ""%string).
Proof.
  unfold dash_main in Hmain. destruct (negb (dash_args_ok a)); [done|]. cbv zeta in Hmain.
  set (file := path_of (da_jwt_secret_file a)) in *.
  set (secret := if String.eqb file "" then _ else _) in *.
  destruct (negb (String.eqb file "") && String.eqb secret "") eqn:Hs; [done|].
  apply res_bind_Ok in Hmain as (auth & Hnew & Hmain). injection Hmain as <-.
  cbn [app_auth] in *. apply AuthService_new_Ok in Hnew as (Hp & Hgiven & Hrandom).
  cbn [dash_auth password_hash jwt_secret] in *. split_and!; [|done| |].
  - eapply effect_needs_token; [|exact Hx | exact Heff]. unfold enabled. rewrite Hp.
    by apply negb_true_iff, String.eqb_neq.
  - intros E. apply Hrandom. subst secret. by rewrite E.
  - intros E. subst secret. rewrite (proj2 (String.eqb_neq file "") E) in *. cbn [negb andb] in Hs.
    apply String.eqb_neq in Hs. unfold getline in *. destruct (fs file) as [text|]; [|done].
    exists text. split_and!; [done | by rewrite Hgiven | done].
Qed.

(** A named secret file that yields no line stops the process. *)
Lemma missing_secret_exits a fs rand :
  dash_args_ok a = true -> path_of (da_jwt_secret_file a) <> ""%string ->
  getline (fs (path_of (da_jwt_secret_file a))) = ""%string ->
  dash_main a fs rand = Ok DashExitFailure.
Proof.
  intros Ha Hf Hl. unfold dash_main. rewrite Ha. cbn [negb]. cbv zeta.
  rewrite (proj2 (String.eqb_neq _ _) Hf), Hl. reflexivity.
Qed.
End dashboard.

(** The single-page fallback never hides an error of the API. *)
Lemma api_errors_stay www code p :
  string_prefixb "/api" p = true \/ string_prefixb "/ws" p = true \/ code <> 404 ->
  error_page www code (Some p) = PageEmpty code.
Proof.
  unfold error_page. intros [H | [H | H]]; rewrite ?H, ?andb_false_r; [done | done |].
  by rewrite (proj2 (Z.eqb_neq _ _) H).
Qed.

Example deep_link_is_served :
  error_page "/www" 404 (Some "/allowlist"%string) = PageFile "/www/index.html" 200.
Proof. reflexivity. Qed.

(** *** The simulator *)

Definition gate_ran (v v' : VirtualGate) : Prop := exists ops, v' = foldl vg_do v ops.

#[local] Instance gate_ran_refl : Reflexive gate_ran.
Proof. intros v. by exists []. Qed.
#[local] Instance gate_ran_trans : Transitive gate_ran.
Proof. intros v1 v2 v3 [o1 ->] [o2 ->]. exists (o1 ++ o2). by rewrite foldl_app. Qed.

Lemma gate_op op v v' : v' = vg_do v op -> gate_ran v v'.
Proof. intros ->. by exists [op]. Qed.

Lemma sim_exec_gate c l s s' :
  0 <= sim_tick_ms c < 2 ^ 32 -> sim_exec c l s = Some s' -> gate_ran (sim_gate s) (sim_gate s').
Proof.
  intros Ht H. destruct l as [now ok cmd|now ok| |sd| |now ok|now up ok|line]; cbn [sim_exec] in H.
  - case_guard; [|done]. by injection H as <-.
  - destruct (sim_reading s) as [cmd|]; [|done]. injection H as <-. unfold reader_dispatch.
    cbn [sim_gate]. destruct (ControlClient.cmd_kind cmd);
      cbn [with_gate with_write sim_gate]; try reflexivity.
    + exact (gate_op (VgIssue (ControlClient.command_id cmd) CmdOpen) _ _ eq_refl).
    + exact (gate_op (VgIssue (ControlClient.command_id cmd) CmdClose) _ _ eq_refl).
    + exact (gate_op VgReboot _ _ eq_refl).
  - destruct (sim_reading s); [done|]. by injection H as <-.
  - destruct (sim_loop s); try done. injection H as <-. destruct (_ && _); [|done].
    apply (gate_op (VgAdvance (sim_tick_ms c))). cbn [vg_do]. by rewrite u32_small.
  - destruct (sim_loop s); try done. destruct (drain_acks (sim_gate s)) as [v acks] eqn:E.
    injection H as <-. apply (gate_op VgDrain). cbn [vg_do]. by rewrite E.
  - destruct (sim_loop s) as [| |[|a hand]|]; try done. by injection H as <-.
  - destruct (sim_loop s) as [| |[|a hand]|]; try done. injection H as <-.
    unfold loop_telemetry. by case_match.
  - injection H as <-. destruct (console_op line) as [op|]; [|done]. by apply (gate_op op).
Qed.

Lemma sim_run_gate c ls s s' :
  0 <= sim_tick_ms c < 2 ^ 32 -> sim_run c ls s = Some s' -> gate_ran (sim_gate s) (sim_gate s').
Proof.
  intros Ht. revert s. induction ls as [|l ls IH]; intros s H; cbn [sim_run] in H; [by injection H as <-|].
  destruct (sim_exec c l s) as [s1|] eqn:E; [|done]. etrans; [by eapply sim_exec_gate | by apply IH].
Qed.

Lemma interactive_loop_gate lines v : gate_ran v (interactive_loop lines v).1.
Proof.
  revert v. induction lines as [|line lines IH]; intros v; cbn [interactive_loop]; [done|].
  unfold console_turn. destruct (console_op line) as [op|].
  { etrans; [by apply (gate_op op) | apply IH]. }
  repeat case_match; simplify_eq; first [apply IH | done].
Qed.

Lemma sim_passes_gate c ps vq vq' :
  0 <= sim_tick_ms c < 2 ^ 32 -> sim_passes c ps vq = Some vq' -> gate_ran vq.1 vq'.1.
Proof.
  intros Ht. revert vq. induction ps as [|p ps IH]; intros vq H; cbn [sim_passes] in H.
  { by injection H as <-. }
  destruct (sim_pass c p vq) as [[[v1 seq1] stop]|] eqn:H1; [|done]. assert (Hp : gate_ran vq.1 v1).
  { unfold sim_pass in H1. apply bind_Some in H1 as ([v seq] & Hs & H1). cbn [fst snd] in H1.
    assert (Hv : gate_ran vq.1 v).
    { destruct (sp_session p) as [ls|]; [|by injection Hs as ->].
      apply bind_Some in Hs as (s & Hs & E). injection E as <- _.
      exact (sim_run_gate c ls _ s Ht Hs). }
    destruct (sp_shutdown p); [by injection H1 as <- _ _|].
    pose proof (interactive_loop_gate (sp_console p) (sim_main_turn (given (sp_session p)) v)) as Hl.
    destruct (interactive_loop _ _) as [v2 quit]. injection H1 as <- _ _. etrans; [exact Hv|].
    etrans; [|exact Hl]. unfold sim_main_turn.
    by destruct (given (sp_session p)); [apply (gate_op (VgAdvance 1000)) | apply (gate_op (VgAdvance 3000))]. }
  destruct stop; [by injection H as <-|]. etrans; [exact Hp | by apply (IH (v1, seq1))].
Qed.

Lemma sim_passes_run c ps v seq v' seq' :
  0 <= sim_tick_ms c < 2 ^ 32 -> sim_passes c ps (v, seq) = Some (v', seq') ->
  exists ops, v' = foldl vg_do v ops.
Proof. apply sim_passes_gate. Qed.

Lemma vg_run_boot c ops :
  vg_run c (VgBoot :: ops) = foldl vg_do (boot_closed (VirtualGate_new c)) ops.
Proof. reflexivity. Qed.

(** The simulator process is a gate.  Whatever sessions, reconnects,
    console lines and pauses make up a run of gate-sim, its gate has a history
    of the gate's operations from the configured new gate, so it stays
    physically consistent: the motor does what the state says and never both
    ways, the position stays between the limits, and a gate behind a broken
    beam is not closing. *)
Theorem gate_sim_stays_consistent a ps v seq
    (Hc : 0 <= travel_ms (sim_args_gate a)) (H : sim_main a ps = Some (v, seq)) :
  (exists ops, v = vg_run (sim_args_gate a) ops) /\
  motor_of_relays (motor_open_ v) (motor_close_ v) = Some (motor_of (state_ (machine_ v))) /\
  0 <= position_ms_ v <= travel_ms (vg_cfg v) /\
  (beam_blocked_ v = true -> state_ (machine_ v) <> Closing).
Proof.
  unfold sim_main in H. case_guard; [|done]. cbn [mret option_ret mbind option_bind] in H.
  apply sim_passes_run in H as [ops E]; [|cbn; lia].
  rewrite <- vg_run_boot in E. pose proof E as Hv.
  split; [by exists (VgBoot :: ops)|].
  destruct (vg_run_inv (sim_args_gate a) (VgBoot :: ops) Hc) as [((_ & Hcl) & Hm & Hb & _) Hp].
  rewrite <- Hv in Hcl, Hm, Hb, Hp. split_and!; [exact Hm | apply Hp | apply Hp |].
  intros Hbl Hst. specialize (Hcl Hst). by rewrite Hb, Hbl in Hcl.
Qed.

(** *** The capture daemon *)

(** Nothing is submitted, and the loop never starts, unless exactly one source
    was named, the options fit together, and the credentials could be built. *)
Lemma vision_starts_whole `{!Nlohmann} a parse e x :
  vision_main a parse e = Ok x -> x <> VisionParseError -> x <> VisionFailed ->
  one_source (path_of (vi_scenario a)) (cam_uri (vi_camera a)) = true /\
  vision_args_ok a = true /\ exists creds, make_credentials (vn_fs e) (vision_client a) = Ok creds.
Proof.
  unfold vision_main. destruct (vision_args_ok a); cbn [negb]; [|by intros [= <-]].
  destruct (one_source _ _); cbn [negb]; [|by intros [= <-]].
  unfold vision_body. cbv zeta. destruct (make_credentials _ _) as [creds|what|]; cbn [res_bind];
    [intros _ _ _; eauto | by intros [= <-] | done].
Qed.

(** An unreadable CA bundle keeps the daemon from starting. *)
Lemma vision_refuses_unreadable_ca `{!Nlohmann} a parse e :
  path_of (ta_ca (vi_tls a)) <> ""%string -> vn_fs e (path_of (ta_ca (vi_tls a))) = None ->
  vision_main a parse e = Ok VisionParseError \/ vision_main a parse e = Ok VisionFailed.
Proof.
  intros Hca Hfs. unfold vision_main. destruct (negb (vision_args_ok a)); [by left|]. right.
  destruct (negb (one_source _ _)); [done|]. unfold vision_body, make_credentials. cbv zeta.
  cbn [vision_client tls_ca_path tls_cert_path tls_key_path].
  destruct (negb (Bool.eqb _ _)); [done|].
  destruct (String.eqb_spec "" (path_of (ta_ca (vi_tls a)))) as [E|_]; [congruence|].
  unfold read_pem_or_throw. by rewrite Hfs.
Qed.

(** *** The mock server *)

Definition is_decision (p : Payload) : bool := match p with kDecision _ => true | _ => false end.

(** Nobody has decided anything. *)
Record Silent (m : Mock) : Prop := {
  si_log e : e ∈ bus_log (mk_bus m) -> is_decision (payload e) = false;
  si_pending k s p : mk_sessions m !! k = Some s -> ms_pending s = Some p -> is_decision p = false;
}.

Lemma Silent_same m m' :
  Silent m -> bus_log (mk_bus m') = bus_log (mk_bus m) -> mk_sessions m' = mk_sessions m -> Silent m'.
Proof. intros [Hl Hp] E1 E2. split; [by rewrite E1 | by rewrite E2]. Qed.

Lemma Silent_session m m' k s :
  Silent m -> bus_log (mk_bus m') = bus_log (mk_bus m) ->
  mk_sessions m' = <[k := s]> (mk_sessions m) ->
  (forall p, ms_pending s = Some p -> is_decision p = false) -> Silent m'.
Proof.
  intros [Hl Hp] E1 E2 Hs. split; [by rewrite E1|]. intros k' s' p Hk' Hp'. rewrite E2 in Hk'.
  apply lookup_insert_Some in Hk' as [[_ <-] | [_ Hk']]; [by apply Hs | by eapply Hp].
Qed.

Lemma Silent_publish m now p :
  Silent m -> is_decision p = false -> Silent (set_mbus (bus_publish now p (mk_bus m)) m).
Proof.
  intros [Hl Hp] Hn. split; [|done]. cbn [set_mbus mk_bus bus_publish bus_log]. intros e He.
  apply elem_of_app in He as [He | He%list_elem_of_singleton]; [by apply Hl | by subst].
Qed.

Lemma Silent_exec l m m' : Silent m -> decides l = false -> mock_exec l m = Some m' -> Silent m'.
Proof.
  intros Hs Hd H.
  destruct l as [k|k env|k now|k|k|j now req|j now|j now ok|i since|i|i ok|i|es|ps|now r|now];
    try done; cbn [mock_exec] in H.
  - destruct (mk_sessions m !! k); [done|]. injection H as <-. by eapply Silent_session.
  - destruct (mk_sessions m !! k) as [s|] eqn:Hk; [|done].
    destruct (ms_open s), (ms_pending s) eqn:Hpe; try done.
    assert (forall p, ms_pending (Control_read env s).1 = Some p -> is_decision p = false) as Hr.
    { intros p. destruct env; cbn; try destruct (String.eqb _ _); cbn; intros E; simplify_eq; congruence || done. }
    destruct (Control_read env s) as [s' put]. injection H as <-. destruct put; by eapply Silent_session.
  - destruct (mk_sessions m !! k) as [s|] eqn:Hk; [|done]. destruct (ms_pending s) as [p|] eqn:Hpe; [|done].
    injection H as <-. pose proof (si_pending m Hs k s p Hk Hpe) as Hn.
    apply (Silent_publish m now p Hs) in Hn. eapply Silent_session; [exact Hn | done | done | done].
  - destruct (mk_sessions m !! k) as [s|] eqn:Hk; [|done].
    destruct (ms_open s), (ms_pending s); try done. injection H as <-. by eapply Silent_session.
  - destruct (mk_sessions m !! k) as [s|]; [|done]. destruct (ms_open s); [done|].
    destruct (String.eqb _ _); injection H as <-; by eapply Silent_same.
  - destruct (mk_calls m !! j); [done|]. unfold mock_issue in H. destruct (String.eqb (cm_gate_id req) "").
    + injection H as <-. by eapply Silent_same.
    + destruct (String.eqb (ControlClient.command_id _) ""); injection H as <-; by eapply Silent_same.
  - destruct (mk_calls m !! j) as [[c k|c k|]|]; try done. injection H as <-.
    eapply Silent_same; [by apply (Silent_publish m now (kCommand c)) | done | done].
  - destruct (mk_calls m !! j) as [[c k|c k|]|]; try done.
    destruct (mk_sessions m !! k) as [s|] eqn:Hk; [|done].
    assert (ms_pending (mock_send now ok c s).2 = ms_pending s) as Hps
      by (unfold mock_send, send_command; by repeat (case_match; simplify_eq/=)).
    destruct (mock_send now ok c s) as [r s']. injection H as <-.
    eapply Silent_session; [exact Hs | done | done|]. intros p. cbn in Hps. rewrite Hps.
    by apply (si_pending m Hs k).
  - destruct (mk_feeds m !! i); [done|]. injection H as <-. by eapply Silent_same.
  - destruct (mk_feeds m !! i) as [[id [e|]]|]; try done.
    destruct (subscribers_ (mk_bus m) !! id) as [s|]; [|done]. destruct (sb_queue s); [done|].
    injection H as <-. by eapply Silent_same.
  - destruct (mk_feeds m !! i) as [[id [e|]]|]; try done.
    destruct (subscribers_ (mk_bus m) !! id) as [s|]; [|done].
    destruct ok; injection H as <-; by eapply Silent_same.
  - destruct (mk_feeds m !! i) as [[id [e|]]|]; try done. injection H as <-. by eapply Silent_same.
  - injection H as <-. by eapply Silent_same.
  - injection H as <-. by eapply Silent_same.
Qed.

(** With [--decisions-period 0] no synthetic decision reaches a dashboard. *)
Lemma mock_without_decisions ls m e d :
  mock_main (Some 0) true ls = Some (MockServed m) -> e ∈ bus_log (mk_bus m) ->
  payload e <> kDecision d.
Proof.
  unfold mock_main. cbn [negb default]. change (0 <? 0) with false. case_guard as Hg; [|done].
  destruct Hg as [Hg|Hg]; [done|]. cbn [mret option_ret mbind option_bind]. intros H.
  apply bind_Some in H as (m' & H & E). injection E as ->. intros He Hp.
  assert (Silent m) as Hs; [|apply (si_log m Hs) in He; by rewrite Hp in He].
  assert (Silent Mock_new) as H0 by (split; [intros x Hx; by apply elem_of_nil in Hx | done]).
  revert H0 Hg H. clear. generalize Mock_new. induction ls as [|l ls IH]; intros m0 H0 Hg H;
    cbn [mock_run existsb] in *; [by injection H as <-|].
  apply orb_false_iff in Hg as [Hl Hg]. apply bind_Some in H as (m1 & H1 & H).
  eapply IH; [by eapply Silent_exec | done | done].
Qed.

(** A period whose tenths do not fit 32 bits shortens the naps: 429496730
    seconds are four tenths of a second. *)
Example decision_period_wraps : decision_naps 429496730 = 4.
Proof. reflexivity. Qed.

(** ** Witnesses *)

Definition no_tls : TlsArgs := mkTlsArgs None None None.
Definition toy_dash_args : DashArgs :=
  mkDashArgs None (Some "s"%string) no_tls false None None (Some toy_hash)
    (Some "jwt.secret"%string) None.
Definition toy_secret_file (path : string) : option string :=
  if String.eqb path "jwt.secret"
  then Some ("key" +:+ String (Ascii.ascii_of_nat 10) "comment")%string else None.
Definition toy_app : DashApp := mkDashApp toy_auth (dash_bridge toy_dash_args) [] None.

Lemma dashboard_guards_admin_witness :
  exists token subject, rq_authorization (toy_request latch_body) = kBearer +:+ token /\
    @verify_token toy_crypto toy_auth (50 * 10 ^ 9) token = Some subject.
Proof.
  destruct toy_command_runs as (s' & pubs & resp & Hx & _ & Hl).
  apply (@dashboard_guards_admin plain_jsoncpp toy_crypto toy_dash_args toy_secret_file None toy_app
    (Some toy_bridge) toy_env (RCommand "g") (toy_request latch_body) (srv sample_rpc) s' pubs resp).
  - vm_compute. discriminate.
  - vm_compute. reflexivity.
  - exact Hx.
  - right. left. intros ->. discriminate Hl.
Defined.

(** No server at first; then a session in which the gate opens, a broken
    connection, and a beam tripped from the console. *)
Definition sample_sim_args : SimArgs := mkSimArgs None None (Some 2000) None None false None no_tls.
Definition sample_passes : list SimPass :=
  [mkSimPass None false ["open"; "status"];
   mkSimPass (Some [STick false; SDrain; STelemetry sim_t0 50 true; SConsole "close"; SReaderEnds;
                    STick false]) false ["trip"];
   mkSimPass None true []].

Lemma gate_sim_stays_consistent_witness :
  match sim_main sample_sim_args sample_passes with
  | Some (v, _) =>
      motor_of_relays (motor_open_ v) (motor_close_ v) = Some (motor_of (state_ (machine_ v)))
  | None => False
  end.
Proof.
  destruct (sim_main sample_sim_args sample_passes) as [[v seq]|] eqn:E.
  - apply (gate_sim_stays_consistent sample_sim_args sample_passes v seq); [cbn; lia | exact E].
  - vm_compute in E. discriminate E.
Defined.
